(** * LDT1 file transfer: a shallow embedding of the server and the two clients

    The development follows the three Python programs of the repository:
    [Server/server.py], [Client/Client.py] and [Client/CLI-Client.py].
    Python values are modelled as the code uses them: [bytes] as lists of
    [byte], [str] as lists of Unicode code points, [int] as [Z], the floats
    that the code computes with as IEEE 754 binary64 numbers; exceptions are
    values of type [exn]; socket and file-system effects are threaded
    through an explicit state. *)

From Stdlib Require Import ZArith NArith List Bool Lia String Ascii.
From Stdlib.Strings Require Import Byte.
From Stdlib Require Import QArith DecimalString SpecFloat.
From Stdlib Require DecimalFacts DecimalPos.
Import ListNotations.

Local Open Scope Z_scope.

(* ===================================================================== *)
(** * The Python runtime the programs rely on                              *)
(* ===================================================================== *)

Module Py.

(** ** Values *)

Definition bytes := list byte.

(** A [str] is a sequence of code points. *)
Definition char := N.
Definition str := list char.

Definition lit (s : string) : str :=
  map N_of_ascii (list_ascii_of_string s).

Definition blit (s : string) : bytes :=
  map byte_of_ascii (list_ascii_of_string s).

Definition byte_of_Z (z : Z) : byte :=
  match Byte.of_N (Z.to_N (z mod 256)) with
  | Some b => b
  | None => x00
  end.

Definition Z_of_byte (b : byte) : Z := Z.of_N (Byte.to_N b).

(** ** Exceptions *)

Inductive exn_class :=
| Exception_            (* the base class, raised as [Exception(...)] *)
| ValueError
| UnicodeDecodeError    (* a ValueError *)
| UnicodeEncodeError    (* a ValueError *)
| StructError           (* struct.error *)
| OSError               (* socket.error is an alias *)
| ConnectionError       (* an OSError *)
| FileNotFoundError     (* an OSError *)
| PermissionError       (* an OSError *)
| SocketTimeout         (* socket.timeout, an OSError *)
| ZeroDivisionError
| OverflowError.

Definition is_OSError (c : exn_class) : bool :=
  match c with
  | OSError | ConnectionError | FileNotFoundError | PermissionError
  | SocketTimeout => true
  | _ => false
  end.

Definition is_ConnectionError (c : exn_class) : bool :=
  match c with ConnectionError => true | _ => false end.

Definition is_SocketTimeout (c : exn_class) : bool :=
  match c with SocketTimeout => true | _ => false end.

(** [exc_msg e] is [str(e)]. *)
Record exn := Exc { exc_class : exn_class; exc_msg : str }.

(** Failures raised inside the interpreter's own library; the wording of
    their messages belongs to the interpreter and is left to [libtext]. *)
Inductive lib_failure :=
| InvalidLiteral (s : str)           (* int(s) *)
| CannotDecode (b : bytes)           (* b.decode() *)
| CannotEncode (s : str)             (* s.encode() *)
| StructOutOfRange.                  (* struct.pack *)

(** What belongs to the interpreter and differs from one to the next: the
    wording of those messages, the decimal digits of its Unicode database
    beyond ASCII, given by the code point of the digit zero of every script
    (the digits one to nine follow it), and the limit on the number of digits
    of an integer literal, [sys.get_int_max_str_digits()], which is 0 when
    there is none. *)
Record library := {
  message :> lib_failure -> str;
  decimal_zeros : list N;
  int_max_str_digits : Z
}.

(** ** Outcomes and stateful computations

    A computation returns a value or raises an exception. [OutOfFuel] is
    not an outcome of the programs: it marks a loop of the model that was
    given too small a bound, and the bounds used below are shown to be
    enough. *)

Inductive result (A : Type) :=
| OK (a : A)
| Err (e : exn)
| OutOfFuel.
Arguments OK {A} a.
Arguments Err {A} e.
Arguments OutOfFuel {A}.

Definition io (S A : Type) : Type := S -> result A * S.

Definition ret {S A} (a : A) : io S A := fun s => (OK a, s).
Definition raise {S A} (e : exn) : io S A := fun s => (Err e, s).
Definition bind {S A B} (m : io S A) (k : A -> io S B) : io S B :=
  fun s => match m s with
           | (OK a, s') => k a s'
           | (Err e, s') => (Err e, s')
           | (OutOfFuel, s') => (OutOfFuel, s')
           end.
Definition lift {S A} (r : result A) : io S A := fun s => (r, s).
Definition out_of_fuel {S A} : io S A := fun s => (OutOfFuel, s).

(** [try m except e: h e]; a handler that does not apply re-raises. *)
Definition try_except {S A} (m : io S A) (h : exn -> io S A) : io S A :=
  fun s => match m s with
           | (Err e, s') => h e s'
           | r => r
           end.

(** [try m finally: f]. *)
Definition try_finally {S A} (m : io S A) (f : S -> S) : io S A :=
  fun s => let '(r, s') := m s in (r, f s').

(** What a call into the operating system gives: a value or an exception. *)
Definition of_sum {A} (r : A + exn) : result A :=
  match r with
  | inl a => OK a
  | inr e => Err e
  end.

Definition rbind {A B} (r : result A) (k : A -> result B) : result B :=
  match r with
  | OK a => k a
  | Err e => Err e
  | OutOfFuel => OutOfFuel
  end.

(** ** [struct.pack(">BI", t, n)] and [struct.unpack(">BI", h)] *)

Section Library.

Variable libtext : library.

Definition struct_pack_BI (t n : Z) : result bytes :=
  if (0 <=? t) && (t <=? 255) && (0 <=? n) && (n <=? 4294967295) then
    OK [ byte_of_Z t;
         byte_of_Z (n / 16777216);
         byte_of_Z (n / 65536);
         byte_of_Z (n / 256);
         byte_of_Z n ]
  else Err (Exc StructError (libtext StructOutOfRange)).

Definition struct_unpack_BI (h : bytes) : result (Z * Z) :=
  match h with
  | [t; b3; b2; b1; b0] =>
      OK (Z_of_byte t,
          Z_of_byte b3 * 16777216 + Z_of_byte b2 * 65536
          + Z_of_byte b1 * 256 + Z_of_byte b0)
  | _ => Err (Exc StructError (libtext StructOutOfRange))
  end.

(** ** The UTF-8 codec

    One step of the decoder: [None] at the end of the input, otherwise the
    decoded code point (or [None] for a malformed sequence) and the input
    left after it. A malformed sequence covers the bytes of its longest
    well-formed prefix, a truncated one covers the rest of the input. *)

Definition is_cont (b : N) : bool := ((128 <=? b) && (b <=? 191))%N.

Definition utf8_next (s : list N) : option (option N * list N) :=
  (match s with
   | [] => None
   | b1 :: r1 =>
     if b1 <? 128 then Some (Some b1, r1)
     else if b1 <? 194 then Some (None, r1)
     else if b1 <? 224 then
       match r1 with
       | [] => Some (None, [])
       | b2 :: r2 =>
         if is_cont b2 then Some (Some ((b1 - 192) * 64 + (b2 - 128)), r2)
         else Some (None, r1)
       end
     else if b1 <? 240 then
       match r1 with
       | [] => Some (None, [])
       | b2 :: r2 =>
         if negb (is_cont b2) || (if b2 <? 160 then b1 =? 224 else b1 =? 237)
         then Some (None, r1)
         else
           match r2 with
           | [] => Some (None, [])
           | b3 :: r3 =>
             if is_cont b3
             then Some (Some ((b1 - 224) * 4096 + (b2 - 128) * 64 + (b3 - 128)), r3)
             else Some (None, r2)
           end
       end
     else if b1 <? 245 then
       match r1 with
       | [] => Some (None, [])
       | b2 :: r2 =>
         if negb (is_cont b2) || (if b2 <? 144 then b1 =? 240 else b1 =? 244)
         then Some (None, r1)
         else
           match r2 with
           | [] => Some (None, [])
           | b3 :: r3 =>
             if negb (is_cont b3) then Some (None, r2)
             else
               match r3 with
               | [] => Some (None, [])
               | b4 :: r4 =>
                 if is_cont b4
                 then Some (Some ((b1 - 240) * 262144 + (b2 - 128) * 4096
                                  + (b3 - 128) * 64 + (b4 - 128)), r4)
                 else Some (None, r3)
               end
           end
       end
     else Some (None, r1)
   end)%N.

Inductive error_mode := Strict | Replace | Ignore.

(** The decoder consumes at least one byte per step, so [length s] steps
    are enough; [None] reports a malformed sequence in [Strict] mode. *)
Fixpoint utf8_decode_loop (m : error_mode) (fuel : nat) (s : list N)
  : option str :=
  match fuel with
  | O => Some []
  | S fuel' =>
    match utf8_next s with
    | None => Some []
    | Some (Some c, rest) =>
        option_map (cons c) (utf8_decode_loop m fuel' rest)
    | Some (None, rest) =>
        match m with
        | Strict => None
        | Replace => option_map (cons 65533%N) (utf8_decode_loop m fuel' rest)
        | Ignore => utf8_decode_loop m fuel' rest
        end
    end
  end.

(** [b.decode('utf-8', errors=m)] *)
Definition decode (m : error_mode) (b : bytes) : result str :=
  match utf8_decode_loop m (List.length b) (map Byte.to_N b) with
  | Some s => OK s
  | None => Err (Exc UnicodeDecodeError (libtext (CannotDecode b)))
  end.

(** With [errors='replace'] or [errors='ignore'] decoding cannot fail. *)
Definition decode_lossy (m : error_mode) (b : bytes) : str :=
  match utf8_decode_loop m (List.length b) (map Byte.to_N b) with
  | Some s => s
  | None => []
  end.

Definition byte_of_N (n : N) : byte := byte_of_Z (Z.of_N n).

Definition utf8_encode_char (c : N) : option bytes :=
  (if c <? 128 then Some [byte_of_N c]
   else if c <? 2048 then
     Some [byte_of_N (192 + c / 64); byte_of_N (128 + c mod 64)]
   else if (55296 <=? c) && (c <=? 57343) then None
   else if c <? 65536 then
     Some [byte_of_N (224 + c / 4096); byte_of_N (128 + (c / 64) mod 64);
           byte_of_N (128 + c mod 64)]
   else if c <? 1114112 then
     Some [byte_of_N (240 + c / 262144); byte_of_N (128 + (c / 4096) mod 64);
           byte_of_N (128 + (c / 64) mod 64); byte_of_N (128 + c mod 64)]
   else None)%N.

Fixpoint utf8_encode (s : str) : option bytes :=
  match s with
  | [] => Some []
  | c :: s' =>
    match utf8_encode_char c, utf8_encode s' with
    | Some b, Some bs => Some (b ++ bs)
    | _, _ => None
    end
  end.

(** [s.encode('utf-8')] *)
Definition encode (s : str) : result bytes :=
  match utf8_encode s with
  | Some b => OK b
  | None => Err (Exc UnicodeEncodeError (libtext (CannotEncode s)))
  end.

(** ** [str] methods *)

Definition char_in (c : char) (set : str) : bool := existsb (N.eqb c) set.

(** [s.lstrip(chars)] *)
Fixpoint lstrip (chars : str) (s : str) : str :=
  match s with
  | [] => []
  | c :: s' => if char_in c chars then lstrip chars s' else s
  end.

(** [s.startswith(p)] *)
Fixpoint startswith (s p : str) {struct p} : bool :=
  match p, s with
  | [], _ => true
  | _ :: _, [] => false
  | a :: p', b :: s' => N.eqb a b && startswith s' p'
  end.

(** [s.endswith(p)] for a one-character [p]. *)
Definition endswith_char (s : str) (c : char) : bool :=
  match rev s with
  | [] => false
  | d :: _ => N.eqb d c
  end.

(** [s.split(sep)] for a one-character separator: never empty. *)
Fixpoint split (sep : char) (s : str) : list str :=
  match s with
  | [] => [[]]
  | c :: s' =>
    if N.eqb c sep then [] :: split sep s'
    else match split sep s' with
         | h :: t => (c :: h) :: t
         | [] => [[c]]
         end
  end.

(** [sep.join(parts)] *)
Fixpoint join (sep : str) (parts : list str) : str :=
  match parts with
  | [] => []
  | [p] => p
  | p :: rest => p ++ sep ++ join sep rest
  end.

(** White space in the sense of [str.isspace], [str.strip] and [int]. *)
Definition isspace (c : char) : bool :=
  ((9 <=? c) && (c <=? 13) || (28 <=? c) && (c <=? 32)
   || (c =? 133) || (c =? 160) || (c =? 5760)
   || (8192 <=? c) && (c <=? 8202) || (c =? 8232) || (c =? 8233)
   || (c =? 8239) || (c =? 8287) || (c =? 12288))%N.

Fixpoint lstrip_space (s : str) : str :=
  match s with
  | [] => []
  | c :: s' => if isspace c then lstrip_space s' else s
  end.

(** [s.strip()] *)
Definition strip (s : str) : str :=
  rev (lstrip_space (rev (lstrip_space s))).

(** Line boundaries of [str.splitlines]. *)
Definition is_linebreak (c : char) : bool :=
  ((10 <=? c) && (c <=? 13) || (28 <=? c) && (c <=? 30)
   || (c =? 133) || (c =? 8232) || (c =? 8233))%N.

(** [s.splitlines()]: [cur] is the line being read, in reverse. A carriage
    return followed by a line feed is one boundary, and a boundary at the
    very end opens no further line. *)
Fixpoint splitlines_loop (cur : str) (s : str) : list str :=
  match s with
  | [] => match cur with [] => [] | _ => [rev cur] end
  | c :: s' =>
    if is_linebreak c then
      match c, s' with
      | 13%N, 10%N :: s'' => rev cur :: splitlines_loop [] s''
      | _, _ => rev cur :: splitlines_loop [] s'
      end
    else splitlines_loop (c :: cur) s'
  end.

Definition splitlines (s : str) : list str := splitlines_loop [] s.

(** ** [str(n)] for an [int]

    The numbers that the programs convert are sizes and times of the
    operating system and numbers that [int] has read, which the
    interpreter's limit on digits lets through. *)

Definition str_of_int (z : Z) : str :=
  lit (NilZero.string_of_int (Z.to_int z)).

(** ** [int(s)] for a [str] argument

    The text is first brought to ASCII. A text of ASCII characters is taken
    as it is; in any other, every character from 127 on becomes a blank when
    it is white space, its ASCII digit when it is a decimal digit, and a
    question mark otherwise. *)

Definition is_ascii_digit (c : char) : bool := ((48 <=? c) && (c <=? 57))%N.

(** [unicodedata.decimal(c)], when there is one. *)
Definition to_decimal (c : char) : option N :=
  if is_ascii_digit c then Some (c - 48)%N
  else if (c <? 128)%N then None
  else
    option_map (fun z => (c - z)%N)
      (find (fun z => ((z <=? c) && (c <? z + 10))%N) (decimal_zeros libtext)).

Definition to_ascii_char (c : char) : char :=
  if (c <? 127)%N then c
  else if isspace c then 32%N
  else match to_decimal c with
       | Some d => (48 + d)%N
       | None => 63%N
       end.

Definition to_ascii (s : str) : str :=
  if forallb (fun c => (c <? 128)%N) s then s else map to_ascii_char s.

(** The literal itself is read as C reads it: white space in the sense of
    [isspace] of the C locale, an optional sign, then digits with single
    underscores between them, then white space up to the end. *)

Definition is_c_space (c : char) : bool :=
  ((9 <=? c) && (c <=? 13) || (c =? 32))%N.

Fixpoint skip_c_space (s : str) : str :=
  match s with
  | [] => []
  | c :: s' => if is_c_space c then skip_c_space s' else s
  end.

(** The digits and underscores at the front of [s]: the number read, how
    many digits it has (zeros at the front count, underscores do not), and
    what follows. [None] when two underscores meet or an underscore comes
    last. *)
Fixpoint scan_digits (acc : Z) (n : Z) (after_underscore : bool) (s : str)
  : option (Z * Z * str) :=
  match s with
  | [] => if after_underscore then None else Some (acc, n, [])
  | c :: s' =>
    if is_ascii_digit c
    then scan_digits (acc * 10 + (Z.of_N c - 48)) (n + 1) false s'
    else if (c =? 95)%N then
      if after_underscore then None else scan_digits acc n true s'
    else if after_underscore then None else Some (acc, n, s)
  end.

(** The sign in front of the digits: whether it is a minus, and the rest. *)
Definition split_sign (s : str) : bool * str :=
  match s with
  | c :: r => if (c =? 43)%N then (false, r)
              else if (c =? 45)%N then (true, r)
              else (false, s)
  | [] => (false, [])
  end.

Definition starts_with_underscore (s : str) : bool :=
  match s with
  | c :: _ => (c =? 95)%N
  | [] => false
  end.

Inductive literal :=
| Value (z : Z)
| Invalid
| TooLong (digits : Z).

(** The number of digits is held against the limit as soon as the digits
    have been scanned, before what follows them is looked at; up to 640
    digits are never refused. *)
Definition int_literal (s : str) : literal :=
  let '(negative, digits) := split_sign (skip_c_space (to_ascii s)) in
  if starts_with_underscore digits then Invalid
  else
    match scan_digits 0 0 false digits with
    | None => Invalid
    | Some (v, n, rest) =>
      let limit := int_max_str_digits libtext in
      if (640 <? n) && (0 <? limit) && (limit <? n) then TooLong n
      else if n =? 0 then Invalid
      else match skip_c_space rest with
           | [] => Value (if negative then - v else v)
           | _ :: _ => Invalid
           end
    end.

Definition parse_int (s : str) : option Z :=
  match int_literal s with
  | Value z => Some z
  | _ => None
  end.

(** The [ValueError] of [int(s)]. *)
Definition int_error (s : str) : exn :=
  match int_literal s with
  | TooLong n =>
      Exc ValueError
        (lit "Exceeds the limit (" ++ str_of_int (int_max_str_digits libtext)
         ++ lit " digits) for integer string conversion: value has "
         ++ str_of_int n
         ++ lit " digits; use sys.set_int_max_str_digits() to increase the limit")
  | _ => Exc ValueError (libtext (InvalidLiteral s))
  end.

Definition int (s : str) : result Z :=
  match parse_int s with
  | Some z => OK z
  | None => Err (int_error s)
  end.

End Library.

(** ** Floats that are only stored or truncated

    Where a program takes the integral part of a float (the modification
    time of a file) or stores a float that it never looks at again (the
    percentage of the terminal client), the float is modelled by the rational
    it denotes. [int(x)] truncates towards zero. *)

Definition int_of_float (x : Q) : Z := Z.quot (Qnum x) (Zpos (Qden x)).

(** [a / b] on numbers: true division. *)
Definition truediv (a b : Q) : result Q :=
  if Qeq_bool b 0 then Err (Exc ZeroDivisionError (lit "division by zero"))
  else OK (a / b)%Q.

(** ** Comparisons *)

Fixpoint bytes_eqb (a b : bytes) : bool :=
  match a, b with
  | [], [] => true
  | x :: a', y :: b' => Byte.eqb x y && bytes_eqb a' b'
  | _, _ => false
  end.

Fixpoint str_eqb (a b : str) : bool :=
  match a, b with
  | [], [] => true
  | x :: a', y :: b' => N.eqb x y && str_eqb a' b'
  | _, _ => false
  end.

Definition is_empty {A} (l : list A) : bool :=
  match l with [] => true | _ => false end.

(** ** [repr(b)] for a [bytes] value, as f-strings print it *)

Definition hex_digit (n : N) : char :=
  (if n <? 10 then 48 + n else 87 + n)%N.

Definition repr_byte (quote : char) (b : byte) : str :=
  let c := Byte.to_N b in
  (if (c =? quote) || (c =? 92) then [92; c]
   else if c =? 9 then [92; 116]
   else if c =? 10 then [92; 110]
   else if c =? 13 then [92; 114]
   else if (c <? 32) || (127 <=? c) then [92; 120; hex_digit (c / 16); hex_digit (c mod 16)]
   else [c])%N.

Definition repr_bytes (b : bytes) : str :=
  let has c := existsb (fun x => N.eqb (Byte.to_N x) c) b in
  let quote := (if has 39 && negb (has 34) then 34 else 39)%N in
  [98%N; quote] ++ flat_map (repr_byte quote) b ++ [quote].

(** ** Sockets, as the receiving side sees them

    What the peer and the network will deliver is a list of events: a
    segment of bytes, or a failure of the receive call (a reset, a timeout).
    The end of the list is the peer's orderly shutdown, after which every
    [recv] returns the empty [bytes]. *)

Inductive recv_event :=
| Seg (d : bytes)
| Fail (e : exn).

Definition inbox := list recv_event.

(** [sock.recv(k)] *)
Definition recv (k : nat) : io inbox bytes :=
  fun s =>
    match s with
    | [] => (OK [], [])
    | Fail e :: rest => (Err e, rest)
    | Seg d :: rest =>
        if (List.length d <=? k)%nat then (OK d, rest)
        else (OK (firstn k d), Seg (skipn k d) :: rest)
    end.

(** A connected socket as a client holds it: what is still to be received,
    what has been handed to [sendall], and whether it has been closed. *)
Record sock := { s_in : inbox; s_out : list bytes; s_closed : bool }.

Definition with_in (s : sock) (i : inbox) : sock :=
  {| s_in := i; s_out := s_out s; s_closed := s_closed s |}.

Definition sock_recv (k : nat) : io sock bytes :=
  fun s => let '(r, i) := recv k (s_in s) in (r, with_in s i).

Definition sock_sendall (b : bytes) : io sock unit :=
  fun s =>
    (OK tt, {| s_in := s_in s; s_out := s_out s ++ [b];
               s_closed := s_closed s |}).

Definition sock_close : io sock unit :=
  fun s => (OK tt, {| s_in := s_in s; s_out := s_out s; s_closed := true |}).

(** [s.replace(a, b)] for one-character [a] and [b]. *)
Definition replace_char (a b : char) (s : str) : str :=
  map (fun c => if N.eqb c a then b else c) s.

(** ** Floats that are computed with

    A [float] is an IEEE 754 binary64 number: a signed zero, an infinity, a
    NaN, or [(-1)^s * m * 2^e] with a mantissa of at most 53 bits. Every
    operation rounds its exact result to the nearest float, a tie going to
    the even mantissa. *)

Definition float : Type := spec_float.

Definition prec : Z := 53.
Definition emax : Z := 1024.

Definition fsub (a b : float) : float := SFsub prec emax a b.
Definition fmul (a b : float) : float := SFmul prec emax a b.
Definition fdiv (a b : float) : float := SFdiv prec emax a b.

(** [a < b]; false when either is a NaN. *)
Definition flt (a b : float) : bool := SFltb a b.

(** [x == 0.0], which also decides the truth value of [x]. *)
Definition is_zero (x : float) : bool :=
  match x with
  | S754_zero _ => true
  | _ => false
  end.

(** The literal [0.1]. *)
Definition float_0_1 : float := S754_finite false 7205759403792794 (-56).

(** [float(n)] for an [int], as the arithmetic operators convert it. *)
Definition float_of_int (n : Z) : result float :=
  match binary_normalize prec emax n 0 false with
  | S754_infinity _ =>
      Err (Exc OverflowError (lit "int too large to convert to float"))
  | x => OK x
  end.

(** The float nearest to the fraction [n / d]. *)
Definition nearest (negative : bool) (n d : positive) : float :=
  let '(m, e, l) := SFdiv_core_binary prec emax (Zpos n) 0 (Zpos d) 0 in
  binary_round_aux prec emax negative m e l.

(** [a / b] on two [int]s: the float nearest to the quotient. *)
Definition int_truediv (a b : Z) : result float :=
  match b with
  | Z0 => Err (Exc ZeroDivisionError (lit "division by zero"))
  | _ =>
    match a with
    | Z0 => OK (S754_zero (b <? 0))
    | _ =>
      match nearest (xorb (a <? 0) (b <? 0)) (Z.to_pos (Z.abs a))
              (Z.to_pos (Z.abs b)) with
      | S754_infinity _ =>
          Err (Exc OverflowError
                 (lit "integer division result too large for a float"))
      | x => OK x
      end
    end
  end.

(** [a / b] on two floats. *)
Definition float_truediv (a b : float) : result float :=
  if is_zero b
  then Err (Exc ZeroDivisionError (lit "float division by zero"))
  else OK (fdiv a b).

(** [round(x, digits)] for a float: the exact value of [x] is rounded to
    [digits] decimals, a tie going to the even last digit, and the float
    nearest to that decimal is returned. Infinities and NaN round to
    themselves, and so does every float when more than 323 decimals are
    asked for. *)
Definition round_float (x : float) (digits : nat) : float :=
  match x with
  | S754_finite s m e =>
    if (323 <? digits)%nat then x
    else
      let p := 10 ^ Z.of_nat digits in
      let '(num, den) := if 0 <=? e then (Zpos m * 2 ^ e * p, 1)
                         else (Zpos m * p, 2 ^ (- e)) in
      let q := num / den in
      let n := match 2 * (num mod den) ?= den with
               | Lt => q
               | Gt => q + 1
               | Eq => if Z.even q then q else q + 1
               end in
      match n with
      | Zpos n' => nearest s n' (Z.to_pos p)
      | _ => S754_zero s
      end
  | _ => x
  end.

(** A number is an [int] or a [float]. *)
Inductive number :=
| Int (z : Z)
| Float (x : float).

(** [round(x, digits)] with [digits >= 0]: an [int] is returned as it is. *)
Definition round (x : number) (digits : nat) : number :=
  match x with
  | Int z => Int z
  | Float x => Float (round_float x digits)
  end.

(** ** The interface of [os.path] that the server uses *)

Record os_path := {
  path_join : str -> str -> str;
  path_abspath : str -> str
}.

(** ** More of the runtime, for the download workers *)

(** [s.rstrip(chars)] *)
Definition rstrip (chars : str) (s : str) : str :=
  rev (lstrip chars (rev s)).

(** [f.seek(pos); f.write(data)] on a file open for update: the bytes from
    [pos] on are overwritten, and the file grows as far as needed, a gap
    being filled with zeros. Writing nothing leaves the file as it is. *)
Definition write_at (content : bytes) (pos : nat) (data : bytes) : bytes :=
  match data with
  | [] => content
  | _ :: _ =>
      firstn pos content ++ repeat x00 (pos - List.length content)
      ++ data ++ skipn (pos + List.length data) content
  end.

(** How much an inbox still holds: a bound on the receive calls that can
    succeed. *)
Definition inbox_weight (i : inbox) : nat :=
  fold_right (fun ev n => match ev with
                          | Seg d => S (List.length d + n)
                          | Fail _ => S n
                          end) 0%nat i.

(** The disk of the client, as far as it can refuse: the outcome of
    [os.makedirs(os.path.dirname(path), exist_ok=True)]. Opening and writing
    the file itself succeed. *)
Record local_disk := { makedirs_dirname : str -> unit + exn }.

End Py.

Declare Scope io_scope.
Delimit Scope io_scope with io.
Notation "x <- m ;; k" := (Py.bind m (fun x => k))
  (at level 61, m at next level, right associativity) : io_scope.
Notation "' p <- m ;; k" := (Py.bind m (fun x => let p := x in k))
  (at level 61, p pattern, m at next level, right associativity) : io_scope.
Notation "m ;;; k" := (Py.bind m (fun _ => k))
  (at level 61, right associativity) : io_scope.


Local Open Scope io_scope.

(* ===================================================================== *)
(** * [posixpath], the [os.path] of a POSIX host                           *)
(* ===================================================================== *)

Module posixpath.
Import Py.

Definition sep : char := 47%N.
Definition dot : str := lit ".".
Definition dotdot : str := lit "..".

Definition isabs (s : str) : bool := startswith s [sep].

(** [join(a, b)] *)
Definition join (a b : str) : str :=
  if startswith b [sep] then b
  else if is_empty a || endswith_char a sep then a ++ b
  else a ++ [sep] ++ b.

(** One turn of the loop of [normpath] over the components. *)
Definition normpath_step (initial_slashes : nat) (new_comps : list str)
  (comp : str) : list str :=
  if str_eqb comp [] || str_eqb comp dot then new_comps
  else if negb (str_eqb comp dotdot)
          || ((initial_slashes =? 0)%nat && is_empty new_comps)
          || (negb (is_empty new_comps) && str_eqb (last new_comps []) dotdot)
       then new_comps ++ [comp]
  else if negb (is_empty new_comps) then removelast new_comps
  else new_comps.

Definition initial_slashes (path : str) : nat :=
  if startswith path [sep] then
    if startswith path [sep; sep] && negb (startswith path [sep; sep; sep])
    then 2%nat else 1%nat
  else 0%nat.

Definition normpath (path : str) : str :=
  if is_empty path then dot
  else
    let i := initial_slashes path in
    let comps := fold_left (normpath_step i) (split sep path) [] in
    let path' := repeat sep i ++ Py.join [sep] comps in
    if is_empty path' then dot else path'.

(** [abspath(path)] in a process whose working directory is [cwd]. *)
Definition abspath (cwd : str) (path : str) : str :=
  normpath (if isabs path then path else join cwd path).

Definition os_path (cwd : str) : Py.os_path :=
  {| path_join := join; path_abspath := abspath cwd |}.

End posixpath.


(* ===================================================================== *)
(** * Server/server.py                                                     *)
(* ===================================================================== *)

Module Server.
Import Py.

(** ** The world of one connection handler *)

(** What [os.stat] returns, as far as the server reads it. *)
Record stat_result := { st_size : Z; st_mtime : Q }.

(** The file system is only read. Each operation is a function of the path;
    [fs_open_rb] gives the content that an [open(path, "rb")] would read. *)
Record filesystem := {
  fs_isdir : str -> bool;
  fs_isfile : str -> bool;
  fs_listdir : str -> list str + exn;
  fs_stat : str -> stat_result + exn;
  fs_getsize : str -> Z + exn;
  fs_open_rb : str -> bytes + exn
}.

(** The state of a handler: what is still to be received, the packets handed
    to [sendall] so far, every path given to the file system so far, and
    whether the socket has been closed. *)
Record conn := {
  c_inbox : inbox;
  c_outbox : list bytes;
  c_touched : list str;
  c_closed : bool
}.

Definition with_inbox (c : conn) (i : inbox) : conn :=
  {| c_inbox := i; c_outbox := c_outbox c;
     c_touched := c_touched c; c_closed := c_closed c |}.

Definition sock_recv (k : nat) : io conn bytes :=
  fun c => let '(r, i) := recv k (c_inbox c) in (r, with_inbox c i).

(** [sock.sendall(b)]; the peer takes everything that is sent. *)
Definition sendall (b : bytes) : io conn unit :=
  fun c =>
    (OK tt, {| c_inbox := c_inbox c; c_outbox := c_outbox c ++ [b];
               c_touched := c_touched c; c_closed := c_closed c |}).

Definition sock_close (c : conn) : conn :=
  {| c_inbox := c_inbox c; c_outbox := c_outbox c;
     c_touched := c_touched c; c_closed := true |}.

Definition touch (p : str) : io conn unit :=
  fun c =>
    (OK tt, {| c_inbox := c_inbox c; c_outbox := c_outbox c;
               c_touched := c_touched c ++ [p]; c_closed := c_closed c |}).

(** An open file: its content and the position of the next read. *)
Record file := { f_content : bytes; f_pos : nat }.

(** [f.seek(pos)] *)
Definition seek (f : file) (pos : Z) : file :=
  {| f_content := f_content f; f_pos := Z.to_nat pos |}.

(** [f.read(n)]: at most [n] bytes, fewer at the end of the file. *)
Definition read (f : file) (n : Z) : bytes * file :=
  let chunk := firstn (Z.to_nat n) (skipn (f_pos f) (f_content f)) in
  (chunk, {| f_content := f_content f;
             f_pos := (f_pos f + List.length chunk)%nat |}).

Section Program.

Variable libtext : library.
Variable P : Py.os_path.
Variable fs : filesystem.

(** ** Configuration and protocol constants *)

Definition ROOT : str := path_abspath P (lit "D:/").
Definition PORT : Z := 3445.
Definition MAGIC : bytes := blit "LDT1".

Definition TYPE_LIST : Z := 1.
Definition TYPE_LIST_RESP : Z := 2.
Definition TYPE_GET : Z := 3.
Definition TYPE_META : Z := 4.
Definition TYPE_CHUNK : Z := 5.
Definition TYPE_ERR : Z := 7.

Definition CHUNK_SIZE : Z := 1024 * 1024.

(** ** Framing *)

Definition pack (msg_type : Z) (payload : bytes) : result bytes :=
  rbind (struct_pack_BI libtext msg_type (Z.of_nat (List.length payload)))
        (fun h => OK (MAGIC ++ h ++ payload)).

(** The loop of [recv_exact]. Every turn adds at least one byte to [buf],
    so [n] turns are enough. The [ConnectionError] raised on an empty read
    sits inside the [try], and being an [OSError] it is caught and wrapped
    by the handler like any socket error. *)
Fixpoint recv_exact_loop (fuel : nat) (n : nat) (buf : bytes)
  : io conn bytes :=
  if (List.length buf <? n)%nat then
    match fuel with
    | O => out_of_fuel
    | S fuel' =>
      buf' <- try_except
                (d <- sock_recv (n - List.length buf) ;;
                 if is_empty d
                 then raise (Exc ConnectionError (lit "Connection closed by peer"))
                 else ret (buf ++ d))
                (fun e =>
                   if is_OSError (exc_class e)
                   then raise (Exc ConnectionError
                                 (lit "Socket error: " ++ exc_msg e))
                   else raise e) ;;
      recv_exact_loop fuel' n buf'
    end
  else ret buf.

Definition recv_exact (n : nat) : io conn bytes := recv_exact_loop n n [].

Definition recv_packet : io conn (Z * bytes) :=
  magic <- recv_exact 4 ;;
  if negb (bytes_eqb magic MAGIC)
  then raise (Exc ValueError
                (lit "Invalid protocol magic: " ++ repr_bytes magic))
  else
    header <- recv_exact 5 ;;
    ' (t, ln) <- lift (struct_unpack_BI libtext header) ;;
    payload <- recv_exact (Z.to_nat ln) ;;
    ret (t, payload).

(** ** The sandbox *)

Definition safe_path (rel_path : str) : result str :=
  let rel_path := lstrip (lit "\/ ") rel_path in
  let full := path_abspath P (path_join P ROOT rel_path) in
  let root_prefix := path_join P ROOT [] in
  if negb (startswith full root_prefix)
  then Err (Exc ValueError (lit "Security: Path traversal attempt blocked"))
  else OK full.

(** ** File-system calls, each recording the path it is given *)

Definition isdir (p : str) : io conn bool :=
  touch p ;;; ret (fs_isdir fs p).
Definition isfile (p : str) : io conn bool :=
  touch p ;;; ret (fs_isfile fs p).
Definition listdir (p : str) : io conn (list str) :=
  touch p ;;; lift (of_sum (fs_listdir fs p)).
Definition stat (p : str) : io conn stat_result :=
  touch p ;;; lift (of_sum (fs_stat fs p)).
Definition getsize (p : str) : io conn Z :=
  touch p ;;; lift (of_sum (fs_getsize fs p)).
Definition open_rb (p : str) : io conn file :=
  touch p ;;;
  content <- lift (of_sum (fs_open_rb fs p)) ;;
  ret {| f_content := content; f_pos := 0 |}.

(** ** The directory lister *)

Record entry := { name : str; dir : bool; size : Z; mtime : Z }.

(** The [for name in os.listdir(full)] loop; [out] is the list built so far.
    [os.path.isdir(p)] is called once for ["dir"] and once for ["size"]. *)
Fixpoint list_dir_loop (full : str) (names : list str) (out : list entry)
  : io conn (list entry) :=
  match names with
  | [] => ret out
  | nm :: rest =>
    let p := path_join P full nm in
    out' <- try_except
              (st <- stat p ;;
               d1 <- isdir p ;;
               d2 <- isdir p ;;
               ret (out ++ [ {| name := nm;
                                dir := d1;
                                size := if negb d2 then st_size st else 0;
                                mtime := int_of_float (st_mtime st) |} ]))
              (fun e => if is_OSError (exc_class e) then ret out
                        else raise e) ;;
    list_dir_loop full rest out'
  end.

Definition list_dir (rel_path : str) : io conn (list entry) :=
  try_except
    (full <- lift (safe_path rel_path) ;;
     d <- isdir full ;;
     if negb d then ret []
     else
       names <- listdir full ;;
       list_dir_loop full names [])
    (fun _ => ret []).

(** ** The request handler *)

(** [f"{i['name']}|{int(i['dir'])}|{i['size']}|{i['mtime']}"] *)
Definition format_entry (i : entry) : str :=
  name i ++ lit "|" ++ str_of_int (if dir i then 1 else 0) ++ lit "|"
  ++ str_of_int (size i) ++ lit "|" ++ str_of_int (mtime i).

(** [start = max(0, int(start_str))] *)
Definition clip_start (start : Z) : Z := Z.max 0 start.

(** [if end < 0 or end > file_size: end = file_size] *)
Definition clip_end (file_size : Z) (end_ : Z) : Z :=
  if (end_ <? 0) || (end_ >? file_size) then file_size else end_.

(** The [while remaining > 0] loop. Every turn that goes on lowers
    [remaining] by at least one, so [remaining] turns are enough. *)
Fixpoint stream_loop (fuel : nat) (f : file) (remaining : Z)
  : io conn unit :=
  if remaining >? 0 then
    match fuel with
    | O => out_of_fuel
    | S fuel' =>
      let to_read := Z.min CHUNK_SIZE remaining in
      let '(chunk, f') := read f to_read in
      if is_empty chunk then ret tt
      else
        pkt <- lift (pack TYPE_CHUNK chunk) ;;
        sendall pkt ;;;
        stream_loop fuel' f' (remaining - Z.of_nat (List.length chunk))
    end
  else ret tt.

(** The body of the [while True] loop after a packet has been received. *)
Definition handle_request (t : Z) (payload : bytes) : io conn unit :=
  if t =? TYPE_LIST then
    let path := decode_lossy Replace payload in
    items <- list_dir path ;;
    data <- lift (encode libtext
                    (Py.join [10%N] (map format_entry items))) ;;
    pkt <- lift (pack TYPE_LIST_RESP data) ;;
    sendall pkt
  else if t =? TYPE_GET then
    match split 124%N (decode_lossy Replace payload) with
    | [path; start_str; end_str] =>
      full_path <- lift (safe_path path) ;;
      is_file <- isfile full_path ;;
      if negb is_file
      then raise (Exc FileNotFoundError (lit "File not found: " ++ path))
      else
        file_size <- getsize full_path ;;
        start_raw <- lift (int libtext start_str) ;;
        let start := clip_start start_raw in
        end_raw <- lift (int libtext end_str) ;;
        let end_ := clip_end file_size end_raw in
        meta <- lift (encode libtext (str_of_int file_size)) ;;
        pkt <- lift (pack TYPE_META meta) ;;
        sendall pkt ;;;
        if end_ >? start then
          f <- open_rb full_path ;;
          let f := seek f start in
          let remaining := end_ - start in
          stream_loop (Z.to_nat remaining) f remaining
        else ret tt
    | _ => raise (Exc ValueError (lit "Invalid GET request format"))
    end
  else ret tt.

(** The [while True] loop: it ends when [recv_packet] raises. *)
Fixpoint serve_loop (fuel : nat) : io conn unit :=
  match fuel with
  | O => out_of_fuel
  | S fuel' =>
    r <- try_except
           (p <- recv_packet ;; ret (Some p))
           (fun e => if is_ConnectionError (exc_class e) then ret None
                     else raise e) ;;
    match r with
    | None => ret tt
    | Some (t, payload) => handle_request t payload ;;; serve_loop fuel'
    end
  end.

(** Each turn of the loop takes at least one event or one byte from the
    inbox, or ends the loop. *)
Definition inbox_size (i : inbox) : nat :=
  fold_right (fun ev n => match ev with
                          | Seg d => S (List.length d + n)
                          | Fail _ => S n
                          end) 0%nat i.

Definition handle_client : io conn unit :=
  try_finally
    (try_except
       (fun c => serve_loop (S (inbox_size (c_inbox c))) c)
       (fun e =>
          try_except
            (msg <- lift (encode libtext (exc_msg e)) ;;
             pkt <- lift (pack TYPE_ERR msg) ;;
             sendall pkt)
            (fun _ => ret tt)))
    sock_close.

End Program.

End Server.

(* ===================================================================== *)
(** * Client/Client.py                                                     *)
(* ===================================================================== *)

Module Client.
Import Py.

Section Program.

Variable libtext : library.

Definition MAGIC : bytes := blit "LDT1".
Definition PORT : Z := 3445.

Definition TYPE_LIST : Z := 1.
Definition TYPE_LIST_RESP : Z := 2.
Definition TYPE_GET : Z := 3.
Definition TYPE_META : Z := 4.
Definition TYPE_CHUNK : Z := 5.
Definition TYPE_ERR : Z := 7.

Definition pack (t : Z) (p : bytes) : result bytes :=
  rbind (struct_pack_BI libtext t (Z.of_nat (List.length p)))
        (fun h => OK (MAGIC ++ h ++ p)).

(** The bare [except:] catches whatever the [try] raises, the
    [ConnectionError("Closed")] of the empty read included. *)
Fixpoint recv_exact_loop (fuel : nat) (n : nat) (b : bytes) : io sock bytes :=
  if (List.length b <? n)%nat then
    match fuel with
    | O => out_of_fuel
    | S fuel' =>
      b' <- try_except
              (d <- sock_recv (n - List.length b) ;;
               if is_empty d then raise (Exc ConnectionError (lit "Closed"))
               else ret (b ++ d))
              (fun _ => raise (Exc ConnectionError (lit "Timeout/Error"))) ;;
      recv_exact_loop fuel' n b'
    end
  else ret b.

Definition recv_exact (n : nat) : io sock bytes := recv_exact_loop n n [].

Definition recv_packet : io sock (Z * bytes) :=
  try_except
    (magic <- recv_exact 4 ;;
     if negb (bytes_eqb magic MAGIC)
     then raise (Exc ValueError (lit "Bad Magic"))
     else
       header <- recv_exact 5 ;;
       ' (t, ln) <- lift (struct_unpack_BI libtext header) ;;
       payload <- recv_exact (Z.to_nat ln) ;;
       if t =? TYPE_ERR
       then
         msg <- lift (decode libtext Strict payload) ;;
         raise (Exc Exception_ msg)
       else ret (t, payload))
    (fun e => raise (Exc ConnectionError (exc_msg e))).

(** ** [API.list] *)

Record item := { name : str; dir : bool; size : Z; mtime : Z }.

(** The dictionary that [list] returns. *)
Inductive list_result :=
| Success (items : list item)
| Failure (error : str).

(** The [for line in ...splitlines()] loop. *)
Fixpoint list_loop (lines : list str) (items : list item)
  : result (list item) :=
  match lines with
  | [] => OK items
  | line :: rest =>
    if is_empty (strip line) then list_loop rest items
    else
      match split 124%N line with
      | [n; d; sz; mt] =>
        rbind (int libtext d) (fun dv =>
        rbind (int libtext sz) (fun szv =>
        rbind (int libtext mt) (fun mtv =>
          list_loop rest
            (items ++ [ {| name := n; dir := negb (dv =? 0);
                           size := szv; mtime := mtv |} ]))))
      | _ => list_loop rest items
      end
  end.

(** [API.list(path)] on a socket that is already connected to the server. *)
Definition API_list (path : str) : io sock list_result :=
  try_except
    (req <- lift (encode libtext (replace_char 92%N 47%N path)) ;;
     pkt <- lift (pack TYPE_LIST req) ;;
     sock_sendall pkt ;;;
     ' (t, data) <- recv_packet ;;
     sock_close ;;;
     items <- (if t =? TYPE_LIST_RESP
               then lift (list_loop (splitlines (decode_lossy Ignore data)) [])
               else ret []) ;;
     ret (Success items))
    (fun e => ret (Failure (exc_msg e))).

(** ** [API.get_progress] *)

(** One value of the [downloads] dictionary; [start_time] is [None] until
    the worker sets it to what [time.time()] returns. *)
Record info := {
  remote_path : str;
  save_path : str;
  i_size : Z;
  downloaded : Z;
  start_time : option float;
  status : str
}.

(** One value of the dictionary that [get_progress] returns. *)
Record progress := { percent : number; speed : number; p_status : str }.

(** The truth value of [st]: [None] and a zero are false. *)
Definition truthy (st : option float) : bool :=
  match st with
  | None => false
  | Some t => negb (is_zero t)
  end.

(** [(dl / sz * 100) if sz > 0 else 0] *)
Definition percent_of (dl sz : Z) : result number :=
  if sz >? 0
  then rbind (int_truediv dl sz) (fun q =>
       rbind (float_of_int 100) (fun h => OK (Float (fmul q h))))
  else OK (Int 0).

(** [(dl / (now - st) / (1024*1024)) if st and (now-st) > 0.1 else 0] *)
Definition speed_of (now : float) (dl : Z) (st : option float)
  : result number :=
  match st with
  | Some t =>
    if truthy st && flt float_0_1 (fsub now t)
    then rbind (float_of_int dl) (fun a =>
         rbind (float_truediv a (fsub now t)) (fun q =>
         rbind (float_of_int (1024 * 1024)) (fun mib =>
         rbind (float_truediv q mib) (fun sp => OK (Float sp)))))
    else OK (Int 0)
  | None => OK (Int 0)
  end.

Definition get_progress_of (now : float) (i : info) : result progress :=
  let dl := downloaded i in
  let sz := i_size i in
  let st := start_time i in
  rbind (percent_of dl sz) (fun pc =>
  rbind (speed_of now dl st) (fun sp =>
  OK {| percent := round pc 1; speed := round sp 2; p_status := status i |})).

(** The [for name, info in list(self.downloads.items())] loop; [downloads]
    is the dictionary as a list of its items, [now] is what [time.time()]
    has returned under the lock. *)
Fixpoint get_progress_loop (now : float) (items : list (str * info))
  (progress_ : list (str * progress)) : result (list (str * progress)) :=
  match items with
  | [] => OK progress_
  | (nm, i) :: rest =>
    rbind (get_progress_of now i) (fun p =>
      get_progress_loop now rest (progress_ ++ [(nm, p)]))
  end.

Definition get_progress (now : float) (downloads : list (str * info))
  : result (list (str * progress)) :=
  get_progress_loop now downloads [].

End Program.

(** ** The download worker *)

Section Download.

Variable libtext : library.
Variable disk : local_disk.
(** What [time.time()] returns when the download starts. *)
Variable now : float.

(** The entry that [enqueue] puts into [downloads] before it starts the
    worker. *)
Definition enqueued (remote_path save_path : str) : info :=
  {| remote_path := remote_path; save_path := save_path;
     i_size := 0; downloaded := 0;
     start_time := None; status := lit "preparing" |}.

(** [API._get_size(path)] on a socket that is already connected. *)
Definition _get_size (path : str) : io sock Z :=
  req <- lift (encode libtext (path ++ lit "|0|1")) ;;
  pkt <- lift (pack libtext TYPE_GET req) ;;
  sock_sendall pkt ;;;
  ' (t, data) <- recv_packet libtext ;;
  sock_close ;;;
  if t =? TYPE_META then
    text <- lift (decode libtext Strict data) ;;
    lift (int libtext text)
  else ret 0.

(** What one worker works on: the connection of the size query, the
    connection of the transfer, the file at [save_path] (absent at first)
    and the entry [downloads[filename]] that [enqueue] has created. *)
Record worker := {
  w_probe : sock;
  w_data : sock;
  w_file : option bytes;
  w_info : info
}.

Definition on_probe {A} (m : io sock A) : io worker A :=
  fun w =>
    let '(r, s) := m (w_probe w) in
    (r, {| w_probe := s; w_data := w_data w; w_file := w_file w;
           w_info := w_info w |}).

Definition on_data {A} (m : io sock A) : io worker A :=
  fun w =>
    let '(r, s) := m (w_data w) in
    (r, {| w_probe := w_probe w; w_data := s; w_file := w_file w;
           w_info := w_info w |}).

Definition set_file (content : bytes) : io worker unit :=
  fun w =>
    (OK tt, {| w_probe := w_probe w; w_data := w_data w;
               w_file := Some content; w_info := w_info w |}).

(** [with self.lock: self.downloads[filename].update(...)] *)
Definition update_info (f : info -> info) : io worker unit :=
  fun w =>
    (OK tt, {| w_probe := w_probe w; w_data := w_data w;
               w_file := w_file w; w_info := f (w_info w) |}).

Definition started (sz : Z) (i : info) : info :=
  {| remote_path := remote_path i; save_path := save_path i;
     i_size := sz; downloaded := downloaded i;
     start_time := Some now; status := lit "downloading" |}.

Definition with_downloaded (pos : Z) (i : info) : info :=
  {| remote_path := remote_path i; save_path := save_path i;
     i_size := i_size i; downloaded := pos;
     start_time := start_time i; status := status i |}.

Definition with_status (st : str) (i : info) : info :=
  {| remote_path := remote_path i; save_path := save_path i;
     i_size := i_size i; downloaded := downloaded i;
     start_time := start_time i; status := st |}.

(** [f.seek(pos); f.write(data)] on the file opened with ["r+b"]. *)
Definition write_file (pos : Z) (data : bytes) : io worker unit :=
  fun w =>
    match w_file w with
    | Some content => set_file (write_at content (Z.to_nat pos) data) w
    | None => (Err (Exc FileNotFoundError (lit "No such file or directory")), w)
    end.

(** The [while pos < size] loop. Every turn that goes on has received a
    packet, so the weight of the inbox bounds the turns. *)
Fixpoint download_loop (fuel : nat) (size pos : Z) : io worker unit :=
  if pos <? size then
    match fuel with
    | O => out_of_fuel
    | S fuel' =>
      ' (t, data) <- on_data (recv_packet libtext) ;;
      if negb (t =? TYPE_CHUNK) then ret tt
      else
        write_file pos data ;;;
        let pos := pos + Z.of_nat (List.length data) in
        update_info (with_downloaded pos) ;;;
        download_loop fuel' size pos
    end
  else ret tt.

(** [API._download(remote_path, save_path, filename)], both connections
    being established. *)
Definition _download (remote_path save_path : str) : io worker unit :=
  try_except
    (size <- on_probe (_get_size remote_path) ;;
     lift (of_sum (makedirs_dirname disk save_path)) ;;;
     set_file (if size >? 0 then write_at [] (Z.to_nat (size - 1)) [x00]
               else []) ;;;
     update_info (started size) ;;;
     req <- lift (encode libtext
                    (remote_path ++ lit "|0|" ++ str_of_int size)) ;;
     pkt <- lift (pack libtext TYPE_GET req) ;;
     on_data (sock_sendall pkt) ;;;
     on_data (recv_packet libtext) ;;;
     (fun w => download_loop (S (inbox_weight (s_in (w_data w)))) size 0 w) ;;;
     update_info (with_status (lit "completed")))
    (fun e => update_info (with_status (lit "Error: " ++ exc_msg e))).

(** ** [API.connect_to_server] *)

(** The dictionary that [connect_to_server] returns. *)
Inductive connect_result :=
| Connected
| NotConnected (error : str).

(** [connect] is the outcome of connecting a fresh socket to the address;
    the state is [self.server]. *)
Definition connect_to_server (connect : str -> unit + exn) (addr : str)
  : str -> connect_result * str :=
  fun server =>
    let addr := strip addr in
    if is_empty addr
    then (NotConnected (lit "IP Address cannot be blank"), server)
    else
      match connect addr with
      | inl _ => (Connected, addr)
      | inr e => (NotConnected (exc_msg e), addr)
      end.

End Download.

End Client.

(* ===================================================================== *)
(** * Client/CLI-Client.py                                                 *)
(* ===================================================================== *)

Module CLI.
Import Py.

Section Program.

Variable libtext : library.

Definition MAGIC : bytes := blit "LDT1".
Definition TYPE_LIST : Z := 1.
Definition TYPE_LIST_RESP : Z := 2.
Definition TYPE_ERR : Z := 7.

Definition pack (t : Z) (p : bytes) : result bytes :=
  rbind (struct_pack_BI libtext t (Z.of_nat (List.length p)))
        (fun h => OK (MAGIC ++ h ++ p)).

Fixpoint recv_exact_loop (fuel : nat) (n : nat) (b : bytes) : io sock bytes :=
  if (List.length b <? n)%nat then
    match fuel with
    | O => out_of_fuel
    | S fuel' =>
      b' <- try_except
              (d <- sock_recv (n - List.length b) ;;
               if is_empty d
               then raise (Exc ConnectionError (lit "Connection closed"))
               else ret (b ++ d))
              (fun e =>
                 if is_SocketTimeout (exc_class e)
                 then raise (Exc ConnectionError (lit "Timeout"))
                 else raise (Exc ConnectionError
                               (lit "Receive error: " ++ exc_msg e))) ;;
      recv_exact_loop fuel' n b'
    end
  else ret b.

Definition recv_exact (n : nat) : io sock bytes := recv_exact_loop n n [].

Definition recv_packet : io sock (Z * bytes) :=
  try_except
    (magic <- recv_exact 4 ;;
     if negb (bytes_eqb magic MAGIC)
     then raise (Exc ValueError (lit "Bad magic"))
     else
       header <- recv_exact 5 ;;
       ' (t, ln) <- lift (struct_unpack_BI libtext header) ;;
       payload <- recv_exact (Z.to_nat ln) ;;
       if t =? TYPE_ERR
       then raise (Exc Exception_ (decode_lossy Ignore payload))
       else ret (t, payload))
    (fun e => raise (Exc ConnectionError (lit "Packet error: " ++ exc_msg e))).

Record item := { name : str; is_dir : bool; size : Z; mtime : Z }.

Fixpoint list_loop (lines : list str) (items : list item)
  : result (list item) :=
  match lines with
  | [] => OK items
  | line :: rest =>
    if is_empty (strip line) then list_loop rest items
    else
      match split 124%N line with
      | [n; d; sz; mt] =>
        rbind (int libtext d) (fun dv =>
        rbind (int libtext sz) (fun szv =>
        rbind (int libtext mt) (fun mtv =>
          list_loop rest
            (items ++ [ {| name := n; is_dir := negb (dv =? 0);
                           size := szv; mtime := mtv |} ]))))
      | _ => list_loop rest items
      end
  end.

(** [list_directory(path)] on a socket that is already connected; an empty
    [path] stands for [self.current_path]. Any exception is printed and
    answered by the empty list. *)
Definition list_directory (current_path path : str) : io sock (list item) :=
  let path := if is_empty path then current_path else path in
  try_except
    (req <- lift (encode libtext (replace_char 92%N 47%N path)) ;;
     pkt <- lift (pack TYPE_LIST req) ;;
     sock_sendall pkt ;;;
     ' (t, data) <- recv_packet ;;
     sock_close ;;;
     if t =? TYPE_LIST_RESP
     then lift (list_loop (splitlines (decode_lossy Ignore data)) [])
     else ret [])
    (fun _ => ret []).

End Program.

(** ** The download worker *)

Section Download.

Variable libtext : library.
Variable disk : local_disk.

Definition TYPE_GET : Z := 3.
Definition TYPE_META : Z := 4.
Definition TYPE_CHUNK : Z := 5.

(** [get_file_size(remote_path)] on a socket that is already connected. *)
Definition get_file_size (remote_path : str) : io sock Z :=
  try_except
    (req <- lift (encode libtext (remote_path ++ lit "|0|1")) ;;
     pkt <- lift (pack libtext TYPE_GET req) ;;
     sock_sendall pkt ;;;
     ' (t, data) <- recv_packet libtext ;;
     sock_close ;;;
     if t =? TYPE_META then
       text <- lift (decode libtext Strict data) ;;
       lift (int libtext text)
     else ret 0)
    (fun _ => ret 0).

(** One value of [self.downloads]. *)
Record download := {
  d_remote_path : str;
  d_local_path : str;
  d_size : Z;
  d_downloaded : Z;
  d_start_time : Q;
  d_status : str;
  d_percent : Q
}.

(** The entry that [download_file] puts into [downloads] before it starts
    the worker; [now] is what [time.time()] returns. *)
Definition started_at (now : Q) (remote_path local_path : str) : download :=
  {| d_remote_path := remote_path; d_local_path := local_path;
     d_size := 0; d_downloaded := 0;
     d_start_time := now; d_status := lit "starting"; d_percent := 0 |}.

Record worker := {
  w_probe : sock;
  w_data : sock;
  w_file : option bytes;
  w_entry : download
}.

Definition on_probe {A} (m : io sock A) : io worker A :=
  fun w =>
    let '(r, s) := m (w_probe w) in
    (r, {| w_probe := s; w_data := w_data w; w_file := w_file w;
           w_entry := w_entry w |}).

Definition on_data {A} (m : io sock A) : io worker A :=
  fun w =>
    let '(r, s) := m (w_data w) in
    (r, {| w_probe := w_probe w; w_data := s; w_file := w_file w;
           w_entry := w_entry w |}).

Definition set_file (content : bytes) : io worker unit :=
  fun w =>
    (OK tt, {| w_probe := w_probe w; w_data := w_data w;
               w_file := Some content; w_entry := w_entry w |}).

Definition update_entry (f : download -> download) : io worker unit :=
  fun w =>
    (OK tt, {| w_probe := w_probe w; w_data := w_data w;
               w_file := w_file w; w_entry := f (w_entry w) |}).

(** [update({"size": size, "status": "downloading"})] *)
Definition downloading (sz : Z) (d : download) : download :=
  {| d_remote_path := d_remote_path d; d_local_path := d_local_path d;
     d_size := sz; d_downloaded := d_downloaded d;
     d_start_time := d_start_time d; d_status := lit "downloading";
     d_percent := d_percent d |}.

(** [update({"downloaded": pos, "percent": percent})] *)
Definition progressed (pos : Z) (pc : Q) (d : download) : download :=
  {| d_remote_path := d_remote_path d; d_local_path := d_local_path d;
     d_size := d_size d; d_downloaded := pos;
     d_start_time := d_start_time d; d_status := d_status d;
     d_percent := pc |}.

(** [update({"status": "completed", "percent": 100})] *)
Definition completed (d : download) : download :=
  {| d_remote_path := d_remote_path d; d_local_path := d_local_path d;
     d_size := d_size d; d_downloaded := d_downloaded d;
     d_start_time := d_start_time d; d_status := lit "completed";
     d_percent := 100 |}.

Definition with_status (st : str) (d : download) : download :=
  {| d_remote_path := d_remote_path d; d_local_path := d_local_path d;
     d_size := d_size d; d_downloaded := d_downloaded d;
     d_start_time := d_start_time d; d_status := st;
     d_percent := d_percent d |}.

(** [f.write(data)] on the file opened with ["wb"]. *)
Definition append_file (data : bytes) : io worker unit :=
  fun w =>
    match w_file w with
    | Some content => set_file (content ++ data) w
    | None => (Err (Exc FileNotFoundError (lit "No such file or directory")), w)
    end.

(** The [while pos < size] loop. *)
Fixpoint download_loop (fuel : nat) (size pos : Z) : io worker unit :=
  if pos <? size then
    match fuel with
    | O => out_of_fuel
    | S fuel' =>
      ' (t, data) <- on_data (recv_packet libtext) ;;
      if negb (t =? TYPE_CHUNK) then ret tt
      else
        append_file data ;;;
        let pos := pos + Z.of_nat (List.length data) in
        pc <- (if size >? 0
               then lift (rbind (truediv (inject_Z pos) (inject_Z size))
                                (fun q => OK (q * 100)%Q))
               else ret 0%Q) ;;
        update_entry (progressed pos pc) ;;;
        download_loop fuel' size pos
    end
  else ret tt.

(** [_download_thread(remote_path, save_path, filename)], both connections
    being established. *)
Definition _download_thread (remote_path save_path : str) : io worker unit :=
  try_except
    (size <- on_probe (get_file_size remote_path) ;;
     (if size =? 0
      then raise (Exc ValueError (lit "File not found or empty"))
      else ret tt) ;;;
     update_entry (downloading size) ;;;
     lift (of_sum (makedirs_dirname disk save_path)) ;;;
     req <- lift (encode libtext
                    (remote_path ++ lit "|0|" ++ str_of_int size)) ;;
     pkt <- lift (pack libtext TYPE_GET req) ;;
     on_data (sock_sendall pkt) ;;;
     on_data (recv_packet libtext) ;;;
     set_file [] ;;;
     (fun w => download_loop (S (inbox_weight (s_in (w_data w)))) size 0 w) ;;;
     on_data sock_close ;;;
     update_entry completed)
    (fun e => update_entry (with_status (lit "error: " ++ exc_msg e))).

(** ** The paths of the [cd] and [get] commands of [main] *)

(** [cd ..] *)
Definition cd_parent (current_path : str) : str :=
  let parts := split 47%N (rstrip (lit "/") current_path) in
  if (1 <? List.length parts)%nat
  then lit "/" ++ Py.join (lit "/") (removelast parts)
  else lit "/".




End Download.

End CLI.

(* ===================================================================== *)
(** * A concrete deployment, used to run the programs                      *)
(* ===================================================================== *)

(** The server runs on a POSIX host with working directory [/srv], so
    that [ROOT] is [/srv/D:]. The root holds a file [a.txt] of ten bytes, an
    empty directory [sub], and a directory [pub] with a file [ok.txt] of
    three bytes and an entry [locked] that may not be examined. *)

Module Scenario.
Import Py.

(** The interpreter: its messages in short, the decimal digits of
    Unicode 14 and the limit of 4300 digits. *)
Definition libtext : library :=
  {| message := fun f =>
       match f with
       | InvalidLiteral _ => lit "invalid literal for int() with base 10"
       | CannotDecode _ => lit "'utf-8' codec can't decode bytes"
       | CannotEncode _ => lit "'utf-8' codec can't encode characters"
       | StructOutOfRange => lit "argument out of range"
       end;
     decimal_zeros :=
       [1632; 1776; 1984; 2406; 2534; 2662; 2790; 2918; 3046; 3174; 3302;
        3430; 3558; 3664; 3792; 3872; 4160; 4240; 6112; 6160; 6470; 6608;
        6784; 6800; 6992; 7088; 7232; 7248; 42528; 43216; 43264; 43472;
        43504; 43600; 44016; 65296; 66720; 68912; 69734; 69872; 69942;
        70096; 70384; 70736; 70864; 71248; 71360; 71472; 71904; 72016;
        72784; 73040; 73120; 92768; 92864; 93008; 120782; 120792; 120802;
        120812; 120822; 123200; 123632; 125264; 130032]%N;
     int_max_str_digits := 4300 |}.

Definition cwd : str := lit "/srv".
Definition P : os_path := posixpath.os_path cwd.

Definition root : str := lit "/srv/D:".
Definition a_txt : str := lit "/srv/D:/a.txt".
Definition sub : str := lit "/srv/D:/sub".
Definition pub : str := lit "/srv/D:/pub".
Definition ok_txt : str := lit "/srv/D:/pub/ok.txt".
Definition locked : str := lit "/srv/D:/pub/locked".

Definition no_such_file : exn :=
  Exc FileNotFoundError (lit "[Errno 2] No such file or directory").
Definition permission_denied : exn :=
  Exc PermissionError (lit "[Errno 13] Permission denied").

Definition is_directory (p : str) : bool :=
  str_eqb p root || str_eqb p sub || str_eqb p pub.

Definition fs : Server.filesystem :=
  {| Server.fs_isdir := is_directory;
     Server.fs_isfile := fun p => str_eqb p a_txt || str_eqb p ok_txt;
     Server.fs_listdir := fun p =>
       if str_eqb p root then inl [lit "a.txt"; lit "sub"; lit "pub"]
       else if str_eqb p sub then inl []
       else if str_eqb p pub then inl [lit "locked"; lit "ok.txt"]
       else inr no_such_file;
     Server.fs_stat := fun p =>
       if str_eqb p a_txt
       then inl {| Server.st_size := 10; Server.st_mtime := 1700000000 # 1 |}
       else if str_eqb p ok_txt
       then inl {| Server.st_size := 3; Server.st_mtime := 3400000001 # 2 |}
       else if is_directory p
       then inl {| Server.st_size := 4096; Server.st_mtime := 1700000100 # 1 |}
       else if str_eqb p locked then inr permission_denied
       else inr no_such_file;
     Server.fs_getsize := fun p =>
       if str_eqb p a_txt then inl 10
       else if str_eqb p ok_txt then inl 3
       else if is_directory p then inl 4096
       else if str_eqb p locked then inr permission_denied
       else inr no_such_file;
     Server.fs_open_rb := fun p =>
       if str_eqb p a_txt then inl (blit "0123456789")
       else if str_eqb p ok_txt then inl (blit "yes")
       else if str_eqb p locked then inr permission_denied
       else inr no_such_file |}.

(** A fresh connection on which the peer sends [segments] and then shuts
    its side down. *)
Definition connection (segments : list bytes) : Server.conn :=
  {| Server.c_inbox := map Seg segments; Server.c_outbox := [];
     Server.c_touched := []; Server.c_closed := false |}.

Definition socket (segments : list bytes) : sock :=
  {| s_in := map Seg segments; s_out := []; s_closed := false |}.

Definition disk : local_disk := {| makedirs_dirname := fun _ => inl tt |}.

(** The time [1700000300.0]. *)
Definition now : float := S754_finite false 7130318058291200 (-22).

(** A worker of the desktop client for [a.txt], on two connections that
    will deliver [probe] and [data]. *)
Definition gui_worker (probe data : list bytes) : Client.worker :=
  {| Client.w_probe := socket probe; Client.w_data := socket data;
     Client.w_file := None;
     Client.w_info := Client.enqueued (lit "/a.txt") (lit "/home/u/a.txt") |}.

(** The same for the terminal client. *)
Definition cli_worker (probe data : list bytes) : CLI.worker :=
  {| CLI.w_probe := socket probe; CLI.w_data := socket data;
     CLI.w_file := None;
     CLI.w_entry := CLI.started_at (1700000200 # 1) (lit "/a.txt")
                      (lit "/home/u/downloads/a.txt") |}.

(** The packet of one request, as a client frames it. *)
Definition request (t : Z) (payload : bytes) : bytes :=
  match Server.pack libtext t payload with
  | OK req => req
  | _ => []
  end.

(** What the server sends on a fresh connection for one request. *)
Definition answers (t : Z) (payload : bytes) : list bytes :=
  match Server.pack libtext t payload with
  | OK req =>
      Server.c_outbox
        (snd (Server.handle_client libtext P fs (connection [req])))
  | _ => []
  end.

End Scenario.

(* ===================================================================== *)
(** * A file tree with symbolic links                                      *)
(* ===================================================================== *)

(** The file system of a POSIX host as a tree, to tell where the file that
    a path names really lies. The calls that the server makes ([isdir],
    [isfile], [listdir], [stat], [getsize], [open]) follow symbolic links, in
    every component of the path. *)

Module Tree.
Import Py.

#[warnings="-register-all"] Inductive node :=
| File (content : bytes) (mtime : Q)
| Dir (entries : list (str * node))
| Link (target : str).

Fixpoint lookup (nm : str) (entries : list (str * node)) : option node :=
  match entries with
  | [] => None
  | (n, x) :: rest => if str_eqb n nm then Some x else lookup nm rest
  end.

(** The node at the end of a chain of names, none of which is a link. *)
Fixpoint node_at (root : node) (comps : list str) : option node :=
  match comps with
  | [] => Some root
  | c :: rest =>
    match root with
    | Dir entries =>
      match lookup c entries with
      | Some x => node_at x rest
      | None => None
      end
    | _ => None
    end
  end.

(** The walk along the components [todo] of a path, from the directory whose
    real components are [real]. A link puts the components of its target in
    front of what is left, and starts again from the root when the target is
    absolute; after [hops] links the walk gives up. The result is the chain
    of real names of what the path reaches. *)
Fixpoint resolve (root : node) (hops : nat) : list str -> list str
  -> option (list str) :=
  fix walk (real todo : list str) {struct todo} : option (list str) :=
    match todo with
    | [] => Some real
    | c :: rest =>
      if is_empty c || str_eqb c posixpath.dot then walk real rest
      else if str_eqb c posixpath.dotdot then walk (removelast real) rest
      else
        match node_at root real with
        | Some (Dir entries) =>
          match lookup c entries with
          | Some (Link target) =>
            match hops with
            | O => None
            | S hops' =>
              resolve root hops'
                (if posixpath.isabs target then [] else real)
                (split posixpath.sep target ++ rest)
            end
          | Some _ => walk (real ++ [c]) rest
          | None => None
          end
        | _ => None
        end
    end.

(** The kernel follows at most 40 links. *)
Definition real_components (root : node) (p : str) : option (list str) :=
  resolve root 40 [] (split posixpath.sep p).

(** [os.path.realpath(p)] of an absolute path that names something. *)
Definition realpath (root : node) (p : str) : option str :=
  option_map (fun comps => posixpath.sep :: Py.join [posixpath.sep] comps)
    (real_components root p).

(** What a system call on [p] reaches. *)
Definition reached (root : node) (p : str) : option node :=
  match real_components root p with
  | Some comps => node_at root comps
  | None => None
  end.

Definition no_such_file : exn :=
  Exc FileNotFoundError (lit "No such file or directory").

(** The file system that the server sees on such a tree. *)
Definition filesystem_of (root : node) : Server.filesystem :=
  {| Server.fs_isdir := fun p =>
       match reached root p with
       | Some (Dir _) => true
       | _ => false
       end;
     Server.fs_isfile := fun p =>
       match reached root p with
       | Some (File _ _) => true
       | _ => false
       end;
     Server.fs_listdir := fun p =>
       match reached root p with
       | Some (Dir entries) => inl (map fst entries)
       | Some _ => inr (Exc OSError (lit "Not a directory"))
       | None => inr no_such_file
       end;
     Server.fs_stat := fun p =>
       match reached root p with
       | Some (File content mtime) =>
           inl {| Server.st_size := Z.of_nat (List.length content);
                  Server.st_mtime := mtime |}
       | Some _ => inl {| Server.st_size := 4096; Server.st_mtime := 0 |}
       | None => inr no_such_file
       end;
     Server.fs_getsize := fun p =>
       match reached root p with
       | Some (File content _) => inl (Z.of_nat (List.length content))
       | Some _ => inl 4096
       | None => inr no_such_file
       end;
     Server.fs_open_rb := fun p =>
       match reached root p with
       | Some (File content _) => inl content
       | Some _ => inr (Exc OSError (lit "Is a directory"))
       | None => inr no_such_file
       end |}.

(** A host on which the served directory [/srv/D:] holds a file [a.txt]
    and a symbolic link [link] to [/etc], where there is a file [passwd]. *)
Definition host : node :=
  Dir [ (lit "srv",
         Dir [ (lit "D:",
                Dir [ (lit "a.txt",
                       File (blit "0123456789") (1700000000 # 1));
                      (lit "link", Link (lit "/etc")) ]) ]);
        (lit "etc",
         Dir [ (lit "passwd", File (blit "secret") (1600000000 # 1)) ]) ].

End Tree.

(* ===================================================================== *)
(** * The vocabulary of the statements                                     *)
(* ===================================================================== *)

Section Vocabulary.
Import Py.

(** ** What an inbox carries

    [carries i bs rest]: the inbox [i] delivers exactly the bytes [bs], cut
    into non-empty segments in any way, and goes on as [rest]. *)

Inductive carries : inbox -> bytes -> inbox -> Prop :=
| carries_done (i : inbox) : carries i [] i
| carries_seg (d : bytes) (i : inbox) (bs : bytes) (rest : inbox) :
    d <> [] -> carries i bs rest -> carries (Seg d :: i) (d ++ bs) rest.

(** ** Paths *)

(** The last component of [ROOT] on a POSIX host. *)
Definition drive : str := lit "D:".

(** A component that [normpath] keeps for an absolute path. *)
Definition proper_name (c : str) : Prop :=
  c <> [] /\ c <> posixpath.dot /\ c <> posixpath.dotdot
  /\ ~ In posixpath.sep c.

(** [inside root p]: the path [p] is [root] itself or lies below it. *)
Definition inside (root p : Py.str) : Prop :=
  p = root \/ exists tail, p = root ++ posixpath.sep :: tail.

(** Every path that has been given to the file system is inside the root. *)
Definition confined (P : Py.os_path) (c : Server.conn) : Prop :=
  Forall (inside (Server.ROOT P)) (Server.c_touched c).

(** Names as [os.listdir] returns them hold no separator. *)
Definition plain_names (fs : Server.filesystem) : Prop :=
  forall p names, Server.fs_listdir fs p = inl names ->
                  Forall (fun nm => ~ In posixpath.sep nm) names.

(** [ensures I m Q]: [m] keeps the invariant [I] of the connection state,
    and what it returns satisfies [Q]. *)
Definition ensures {A} (I : Server.conn -> Prop) (m : Py.io Server.conn A)
  (Q : A -> Prop) : Prop :=
  forall c, I c -> I (snd (m c)) /\ forall a, fst (m c) = Py.OK a -> Q a.

(** [quiet m]: [m] returns or raises, and leaves the inbox as it is. *)
Definition quiet {A} (m : io Server.conn A) : Prop :=
  forall c, fst (m c) <> OutOfFuel
            /\ Server.c_inbox (snd (m c)) = Server.c_inbox c.

(** How much is still to be received on a connection. *)
Definition pending (c : Server.conn) : nat :=
  Server.inbox_size (Server.c_inbox c).

(** The postcondition that asks nothing. *)
Definition anything {A} : A -> Prop := fun _ => True.

(** ** The byte-range streamer *)

Definition ascii_only (s : str) : Prop := Forall (fun c => (c < 128)%N) s.

(** The state after [pkts] have been sent and [paths] given to the file
    system. *)
Definition after (c : Server.conn) (paths : list Py.str)
  (pkts : list Py.bytes) : Server.conn :=
  {| Server.c_inbox := Server.c_inbox c;
     Server.c_outbox := Server.c_outbox c ++ pkts;
     Server.c_touched := Server.c_touched c ++ paths;
     Server.c_closed := Server.c_closed c |}.

(** [packed libtext chunks pkts]: [pkts] are the CHUNK packets of [chunks]. *)
Definition packed (libtext : Py.library)
  (chunks pkts : list Py.bytes) : Prop :=
  Forall2 (fun ch pkt => Server.pack libtext Server.TYPE_CHUNK ch = Py.OK pkt)
          chunks pkts.

(** Every chunk holds at least one byte and at most [CHUNK_SIZE]. *)
Definition chunk_sized (chunks : list Py.bytes) : Prop :=
  Forall (fun ch => 0 < Z.of_nat (List.length ch) <= Server.CHUNK_SIZE) chunks.

(** ** The directory lister *)

(** [os.stat] fails with an [OSError] or one of its subclasses only. *)
Definition stat_raises_OSError (fs : Server.filesystem) : Prop :=
  forall p e, Server.fs_stat fs p = inr e ->
              Py.is_OSError (Py.exc_class e) = true.

(** The record of one child, or nothing when it cannot be examined. *)
Definition entry_of (P : Py.os_path) (fs : Server.filesystem)
  (full nm : Py.str) : list Server.entry :=
  let p := Py.path_join P full nm in
  match Server.fs_stat fs p with
  | inl st =>
      [ {| Server.name := nm;
           Server.dir := Server.fs_isdir fs p;
           Server.size := if Server.fs_isdir fs p then 0 else Server.st_size st;
           Server.mtime := Py.int_of_float (Server.st_mtime st) |} ]
  | inr _ => []
  end.

(** What a listing is expected to hold. *)
Definition expected_listing (P : Py.os_path) (fs : Server.filesystem)
  (rel_path : Py.str) : list Server.entry :=
  match Server.safe_path P rel_path with
  | Py.OK full =>
      if Server.fs_isdir fs full then
        match Server.fs_listdir fs full with
        | inl names => flat_map (entry_of P fs full) names
        | inr _ => []
        end
      else []
  | _ => []
  end.

(** The loop over the children, as a function of the file system alone. *)
Fixpoint listing (P : os_path) (fs : Server.filesystem) (full : str) (names : list str) (out : list Server.entry)
  : result (list Server.entry) :=
  match names with
  | [] => OK out
  | nm :: rest =>
    match Server.fs_stat fs (path_join P full nm) with
    | inl _ => listing P fs full rest (out ++ entry_of P fs full nm)
    | inr e => if is_OSError (exc_class e) then listing P fs full rest out
               else Err e
    end
  end.

(** ** The listing parser of the clients *)

(** A line is looked at when it is not blank and has exactly four fields. *)
Definition nonblank (line : Py.str) : bool :=
  negb (Py.is_empty (Py.strip line)).

Definition four_fields (line : Py.str) : bool :=
  match Py.split 124%N line with
  | [_; _; _; _] => true
  | _ => false
  end.

Definition looked_at (line : Py.str) : bool :=
  nonblank line && four_fields line.

(** The three numbers of a line, when all three fields are integers. *)
Definition numbers (libtext : Py.library) (line : Py.str)
  : option (Z * Z * Z) :=
  match Py.split 124%N line with
  | [_; d; sz; mt] =>
      match Py.parse_int libtext d, Py.parse_int libtext sz,
            Py.parse_int libtext mt with
      | Some dv, Some szv, Some mtv => Some (dv, szv, mtv)
      | _, _, _ => None
      end
  | _ => None
  end.

Definition field0 (line : Py.str) : Py.str :=
  match Py.split 124%N line with
  | n :: _ => n
  | [] => []
  end.

(** The records that one line contributes. *)
Definition client_items (libtext : Py.library) (line : Py.str)
  : list Client.item :=
  if looked_at line then
    match numbers libtext line with
    | Some (dv, szv, mtv) =>
        [ {| Client.name := field0 line; Client.dir := negb (dv =? 0);
             Client.size := szv; Client.mtime := mtv |} ]
    | None => []
    end
  else [].

Definition cli_items (libtext : Py.library) (line : Py.str)
  : list CLI.item :=
  if looked_at line then
    match numbers libtext line with
    | Some (dv, szv, mtv) =>
        [ {| CLI.name := field0 line; CLI.is_dir := negb (dv =? 0);
             CLI.size := szv; CLI.mtime := mtv |} ]
    | None => []
    end
  else [].

(** Every line that is looked at has three integer fields. *)
Definition well_formed_lines (libtext : Py.library) (lines : list Py.str)
  : Prop :=
  Forall (fun l => looked_at l = true -> numbers libtext l <> None) lines.

(** Some line that is looked at has a field that is not an integer. *)
Definition malformed_line (libtext : Py.library) (lines : list Py.str)
  : Prop :=
  Exists (fun l => looked_at l = true /\ numbers libtext l = None) lines.

(** ** The dispatcher *)

(** The state after the handler has tried to tell the peer about [e]: the
    ERR packet with [str(e)] has been sent, unless the message cannot be
    encoded or framed, in which case nothing is sent. *)
Definition reported (libtext : Py.library) (e : Py.exn)
  (c : Server.conn) : Server.conn :=
  match Py.encode libtext (Py.exc_msg e) with
  | Py.OK msg =>
      match Server.pack libtext Server.TYPE_ERR msg with
      | Py.OK pkt => after c [] [pkt]
      | _ => c
      end
  | _ => c
  end.

(** ** The listing, from the server to the clients *)

(** A name that a row of the listing carries unharmed: it holds no bar and
    no line boundary. *)
Definition plain_name (nm : Py.str) : Prop :=
  Forall (fun ch => ch <> 124%N /\ Py.is_linebreak ch = false) nm.

(** A number that every interpreter reads back from its decimal text,
    whatever its limit on the digits of a literal: it has at most 640 bits.
    The sizes and times that an operating system reports are such numbers. *)
Definition short_number (z : Z) : Prop := Z.abs z < 2 ^ 640.

Definition short_numbers (e : Server.entry) : Prop :=
  short_number (Server.size e) /\ short_number (Server.mtime e).

(** The record that [API.list] builds for an entry of the server. *)
Definition gui_item (e : Server.entry) : Client.item :=
  {| Client.name := Server.name e; Client.dir := Server.dir e;
     Client.size := Server.size e; Client.mtime := Server.mtime e |}.

(** The record that [list_directory] builds for an entry of the server. *)
Definition cli_item (e : Server.entry) : CLI.item :=
  {| CLI.name := Server.name e; CLI.is_dir := Server.dir e;
     CLI.size := Server.size e; CLI.mtime := Server.mtime e |}.

(** ** Computations that come to an end *)

(** [settles m Q]: from every state [m] returns or raises, and what it
    returns, with the state it leaves, satisfies [Q]. *)
Definition settles {S A} (m : Py.io S A) (Q : A -> S -> Prop) : Prop :=
  forall s, match m s with
            | (Py.OK a, s') => Q a s'
            | (Py.Err _, _) => True
            | (Py.OutOfFuel, _) => False
            end.

(** The postcondition that asks nothing of the value or the state. *)
Definition whatever {S A} : A -> S -> Prop := fun _ _ => True.

End Vocabulary.

(* ===================================================================== *)
(** * Properties of the runtime model                                      *)
(* ===================================================================== *)

Section RuntimeFacts.
Import Py.

Variable libtext : library.

Lemma Z_of_byte_of_Z (z : Z) : Z_of_byte (byte_of_Z z) = z mod 256.
Proof.
  unfold Z_of_byte, byte_of_Z.
  assert (Hr : 0 <= z mod 256 < 256) by (apply Z.mod_pos_bound; lia).
  destruct (Byte.of_N (Z.to_N (z mod 256))) as [b|] eqn:E.
  - apply Byte.to_of_N in E. rewrite E. lia.
  - apply Byte.of_N_None_iff in E. lia.
Qed.

Lemma Z_of_byte_range (b : byte) : 0 <= Z_of_byte b <= 255.
Proof.
  unfold Z_of_byte. pose proof (Byte.to_N_bounded b). lia.
Qed.

Lemma byte_of_Z_of_byte (b : byte) : byte_of_Z (Z_of_byte b) = b.
Proof.
  unfold byte_of_Z. pose proof (Z_of_byte_range b) as Hr.
  rewrite Z.mod_small by lia. unfold Z_of_byte.
  rewrite N2Z.id, Byte.of_to_N. reflexivity.
Qed.

Lemma struct_pack_unpack (t n : Z) :
  0 <= t <= 255 -> 0 <= n < 4294967296 ->
  exists h, struct_pack_BI libtext t n = OK h
            /\ List.length h = 5%nat
            /\ struct_unpack_BI libtext h = OK (t, n).
Proof.
  intros Ht Hn. unfold struct_pack_BI.
  replace ((0 <=? t) && (t <=? 255) && (0 <=? n) && (n <=? 4294967295))
    with true.
  2:{ symmetry. repeat (apply andb_true_intro; split); apply Z.leb_le; lia. }
  eexists. split; [reflexivity|]. split; [reflexivity|].
  unfold struct_unpack_BI. rewrite !Z_of_byte_of_Z.
  f_equal. f_equal.
  - apply Z.mod_small. lia.
  - pose proof (Z.div_mod n 256 ltac:(lia)).
    pose proof (Z.div_mod (n / 256) 256 ltac:(lia)).
    pose proof (Z.div_mod (n / 65536) 256 ltac:(lia)).
    assert (n / 65536 = n / 256 / 256) by (rewrite Z.div_div by lia; reflexivity).
    assert (n / 16777216 = n / 65536 / 256) by (rewrite Z.div_div by lia; reflexivity).
    assert (0 <= n / 16777216 < 256).
    { split; [apply Z.div_pos; lia|apply Z.div_lt_upper_bound; lia]. }
    rewrite (Z.mod_small (n / 16777216)) by lia.
    lia.
Qed.

Lemma bytes_eqb_refl (b : bytes) : bytes_eqb b b = true.
Proof.
  induction b as [|x b IH]; simpl; [reflexivity|].
  rewrite IH, andb_true_r. apply Byte.byte_dec_lb. reflexivity.
Qed.

Lemma bytes_eqb_eq (a b : bytes) : bytes_eqb a b = true <-> a = b.
Proof.
  split.
  - revert b. induction a as [|x a IH]; destruct b as [|y b]; simpl;
      try discriminate; [reflexivity|].
    intros H. apply andb_prop in H. destruct H as [H1 H2].
    apply Byte.byte_dec_bl in H1. apply IH in H2. congruence.
  - intros ->. apply bytes_eqb_refl.
Qed.


Lemma carries_nil_inv (i rest : inbox) : carries i [] rest -> i = rest.
Proof.
  intros H. inversion H as [|d i0 bs r Hd Hc Hi Hb]; subst; [reflexivity|].
  destruct d; [congruence|discriminate].
Qed.

Lemma carries_one (bs : bytes) (rest : inbox) :
  carries (if is_empty bs then rest else Seg bs :: rest) bs rest.
Proof.
  destruct bs as [|b bs]; simpl; [constructor|].
  rewrite <- (app_nil_r (b :: bs)) at 2.
  constructor; [discriminate|constructor].
Qed.

(** The outcome of one [recv] on an inbox that carries [a ++ b], when
    [List.length a] bytes are asked for and [a] is not empty. *)
Lemma recv_carries (a b : bytes) (i rest : inbox) :
  a <> [] -> carries i (a ++ b) rest ->
  exists d a' i',
    recv (List.length a) i = (OK d, i') /\ d <> [] /\ a = d ++ a'
    /\ carries i' (a' ++ b) rest.
Proof.
  intros Ha H. inversion H as [i0 Hnil|d i0 bs r Hd Hc Hi Hb]; subst.
  - destruct a; [congruence|discriminate].
  - simpl. destruct (app_eq_app _ _ _ _ Hb) as [l [[E1 E2]|[E1 E2]]].
    + (* the segment is longer than what is asked for, or just as long *)
      subst d b. destruct l as [|x l].
      * rewrite app_nil_r in *. rewrite Nat.leb_refl.
        exists a, [], i0. rewrite app_nil_r. simpl in Hc.
        split; [reflexivity|]. split; [assumption|]. split; [reflexivity|].
        assumption.
      * replace (List.length (a ++ x :: l) <=? List.length a)%nat with false.
        2:{ symmetry. apply Nat.leb_gt. rewrite length_app. simpl. lia. }
        exists a, [], (Seg (x :: l) :: i0).
        rewrite firstn_app, Nat.sub_diag, firstn_all, skipn_app, Nat.sub_diag,
          skipn_all. simpl. rewrite !app_nil_r.
        split; [reflexivity|]. split; [assumption|]. split; [reflexivity|].
        change (x :: l ++ bs) with ((x :: l) ++ bs).
        constructor; [discriminate|assumption].
    + (* the segment is taken whole *)
      subst a bs.
      replace (List.length d <=? List.length (d ++ l))%nat with true.
      2:{ symmetry. apply Nat.leb_le. rewrite length_app. lia. }
      exists d, l, i0. auto.
Qed.

End RuntimeFacts.

(* ===================================================================== *)
(** * The framing codec                                                    *)
(* ===================================================================== *)

Section Framing.
Import Py.

Variable libtext : library.

Lemma with_inbox_inbox (c : Server.conn) (i : inbox) :
  Server.c_inbox (Server.with_inbox c i) = i.
Proof. reflexivity. Qed.

Lemma with_inbox_twice (c : Server.conn) (i j : inbox) :
  Server.with_inbox (Server.with_inbox c i) j = Server.with_inbox c j.
Proof. reflexivity. Qed.

Lemma with_inbox_same (c : Server.conn) :
  Server.with_inbox c (Server.c_inbox c) = c.
Proof. destruct c; reflexivity. Qed.

(** [recv_exact] on an inbox that carries enough bytes returns the first
    [n] of them, however they are cut into segments. *)
Lemma server_recv_exact_loop_carries (fuel : nat) :
  forall (n : nat) (buf a b : bytes) (c : Server.conn) (rest : inbox),
    carries (Server.c_inbox c) (a ++ b) rest ->
    (List.length buf + List.length a = n)%nat ->
    (List.length a <= fuel)%nat ->
    exists i',
      Server.recv_exact_loop fuel n buf c
      = (OK (buf ++ a), Server.with_inbox c i')
      /\ carries i' b rest.
Proof.
  induction fuel as [|fuel IH]; intros n buf a b c rest Hc Hn Hf.
  - destruct a; [|simpl in Hf; lia].
    exists (Server.c_inbox c). simpl in *.
    replace (List.length buf <? n)%nat with false
      by (symmetry; apply Nat.ltb_ge; lia).
    rewrite app_nil_r, with_inbox_same. split; [reflexivity|assumption].
  - destruct a as [|x a].
    + exists (Server.c_inbox c). simpl in *.
      replace (List.length buf <? n)%nat with false
        by (symmetry; apply Nat.ltb_ge; lia).
      rewrite app_nil_r, with_inbox_same. split; [reflexivity|assumption].
    + destruct (recv_carries (x :: a) b _ rest ltac:(discriminate) Hc)
        as (d & a' & i' & Hr & Hd & Ea & Hc').
      destruct (IH n (buf ++ d) a' b (Server.with_inbox c i') rest)
        as (i'' & Hl & Hc'').
      * assumption.
      * rewrite length_app. rewrite <- Hn, Ea, length_app. lia.
      * rewrite Ea, length_app in Hf. destruct d; [congruence|].
        simpl in Hf. lia.
      * exists i''. split; [|assumption].
        cbn [Server.recv_exact_loop].
        replace (List.length buf <? n)%nat with true
          by (symmetry; apply Nat.ltb_lt; simpl in Hn; lia).
        unfold bind at 1, try_except, bind at 1, Server.sock_recv.
        replace (n - List.length buf)%nat with (List.length (x :: a)) by lia.
        rewrite Hr.
        destruct d as [|y d]; [congruence|].
        change (is_empty (y :: d)) with false. cbv beta iota.
        unfold ret at 1.
        rewrite Hl, with_inbox_twice, Ea, app_assoc. reflexivity.
Qed.

Lemma server_recv_exact_carries (a b : bytes) (c : Server.conn)
  (rest : inbox) :
  carries (Server.c_inbox c) (a ++ b) rest ->
  exists i',
    Server.recv_exact (List.length a) c = (OK a, Server.with_inbox c i')
    /\ carries i' b rest.
Proof.
  intros Hc. unfold Server.recv_exact.
  destruct (server_recv_exact_loop_carries (List.length a) (List.length a)
              [] a b c rest Hc eq_refl (le_n _)) as (i' & H & Hc').
  exists i'. auto.
Qed.

Lemma server_recv_packet_carries (t : Z) (h payload : bytes)
  (c : Server.conn) (rest : inbox) :
  List.length h = 5%nat ->
  struct_unpack_BI libtext h = OK (t, Z.of_nat (List.length payload)) ->
  carries (Server.c_inbox c) (Server.MAGIC ++ h ++ payload) rest ->
  Server.recv_packet libtext c = (OK (t, payload), Server.with_inbox c rest).
Proof.
  intros Hh Hu Hc. unfold Server.recv_packet.
  destruct (server_recv_exact_carries Server.MAGIC _ c rest Hc)
    as (i1 & H1 & Hc1).
  change (List.length Server.MAGIC) with 4%nat in H1.
  unfold bind at 1. rewrite H1. rewrite bytes_eqb_refl. cbv beta iota.
  change (negb true) with false. cbv iota.
  rewrite <- (with_inbox_inbox c i1) in Hc1.
  destruct (server_recv_exact_carries h _ _ rest Hc1) as (i2 & H2 & Hc2).
  rewrite Hh in H2. unfold bind at 1. rewrite H2.
  unfold bind at 1, lift. rewrite Hu. cbv beta iota.
  rewrite Nat2Z.id.
  rewrite with_inbox_twice in *.
  rewrite <- (with_inbox_inbox c i2), <- (app_nil_r payload) in Hc2.
  destruct (server_recv_exact_carries payload _ _ rest Hc2) as (i3 & H3 & Hc3).
  unfold bind at 1. rewrite H3. apply carries_nil_inv in Hc3. subst i3.
  rewrite with_inbox_twice. reflexivity.
Qed.

(** The same two facts for the decoder of [Client.py] ... *)

Lemma with_in_in (s : sock) (i : inbox) : s_in (with_in s i) = i.
Proof. reflexivity. Qed.

Lemma with_in_twice (s : sock) (i j : inbox) :
  with_in (with_in s i) j = with_in s j.
Proof. reflexivity. Qed.

Lemma with_in_same (s : sock) : with_in s (s_in s) = s.
Proof. destruct s; reflexivity. Qed.

Ltac loop_exit Hn :=
  simpl in *;
  match goal with
  | |- context [(List.length ?buf <? ?n)%nat] =>
      replace (List.length buf <? n)%nat with false
        by (symmetry; apply Nat.ltb_ge; lia)
  end;
  rewrite app_nil_r, with_in_same.

Lemma client_recv_exact_loop_carries (fuel : nat) :
  forall (n : nat) (buf a b : bytes) (s : sock) (rest : inbox),
    carries (s_in s) (a ++ b) rest ->
    (List.length buf + List.length a = n)%nat ->
    (List.length a <= fuel)%nat ->
    exists i',
      Client.recv_exact_loop fuel n buf s = (OK (buf ++ a), with_in s i')
      /\ carries i' b rest.
Proof.
  induction fuel as [|fuel IH]; intros n buf a b s rest Hc Hn Hf.
  - destruct a; [|simpl in Hf; lia].
    exists (s_in s). loop_exit Hn. split; [reflexivity|assumption].
  - destruct a as [|x a].
    + exists (s_in s). loop_exit Hn. split; [reflexivity|assumption].
    + destruct (recv_carries (x :: a) b _ rest ltac:(discriminate) Hc)
        as (d & a' & i' & Hr & Hd & Ea & Hc').
      destruct (IH n (buf ++ d) a' b (with_in s i') rest) as (i'' & Hl & Hc'').
      * assumption.
      * rewrite length_app. rewrite <- Hn, Ea, length_app. lia.
      * rewrite Ea, length_app in Hf. destruct d; [congruence|].
        simpl in Hf. lia.
      * exists i''. split; [|assumption].
        cbn [Client.recv_exact_loop].
        replace (List.length buf <? n)%nat with true
          by (symmetry; apply Nat.ltb_lt; simpl in Hn; lia).
        unfold bind at 1, try_except, bind at 1, sock_recv.
        replace (n - List.length buf)%nat with (List.length (x :: a)) by lia.
        rewrite Hr.
        destruct d as [|y d]; [congruence|].
        change (is_empty (y :: d)) with false. cbv beta iota.
        unfold ret at 1.
        rewrite Hl, with_in_twice, Ea, app_assoc. reflexivity.
Qed.

Lemma client_recv_exact_carries (a b : bytes) (s : sock) (rest : inbox) :
  carries (s_in s) (a ++ b) rest ->
  exists i',
    Client.recv_exact (List.length a) s = (OK a, with_in s i')
    /\ carries i' b rest.
Proof.
  intros Hc. unfold Client.recv_exact.
  destruct (client_recv_exact_loop_carries (List.length a) (List.length a)
              [] a b s rest Hc eq_refl (le_n _)) as (i' & H & Hc').
  exists i'. auto.
Qed.

(** ... and for the decoder of [CLI-Client.py]. *)

Lemma cli_recv_exact_loop_carries (fuel : nat) :
  forall (n : nat) (buf a b : bytes) (s : sock) (rest : inbox),
    carries (s_in s) (a ++ b) rest ->
    (List.length buf + List.length a = n)%nat ->
    (List.length a <= fuel)%nat ->
    exists i',
      CLI.recv_exact_loop fuel n buf s = (OK (buf ++ a), with_in s i')
      /\ carries i' b rest.
Proof.
  induction fuel as [|fuel IH]; intros n buf a b s rest Hc Hn Hf.
  - destruct a; [|simpl in Hf; lia].
    exists (s_in s). loop_exit Hn. split; [reflexivity|assumption].
  - destruct a as [|x a].
    + exists (s_in s). loop_exit Hn. split; [reflexivity|assumption].
    + destruct (recv_carries (x :: a) b _ rest ltac:(discriminate) Hc)
        as (d & a' & i' & Hr & Hd & Ea & Hc').
      destruct (IH n (buf ++ d) a' b (with_in s i') rest) as (i'' & Hl & Hc'').
      * assumption.
      * rewrite length_app. rewrite <- Hn, Ea, length_app. lia.
      * rewrite Ea, length_app in Hf. destruct d; [congruence|].
        simpl in Hf. lia.
      * exists i''. split; [|assumption].
        cbn [CLI.recv_exact_loop].
        replace (List.length buf <? n)%nat with true
          by (symmetry; apply Nat.ltb_lt; simpl in Hn; lia).
        unfold bind at 1, try_except, bind at 1, sock_recv.
        replace (n - List.length buf)%nat with (List.length (x :: a)) by lia.
        rewrite Hr.
        destruct d as [|y d]; [congruence|].
        change (is_empty (y :: d)) with false. cbv beta iota.
        unfold ret at 1.
        rewrite Hl, with_in_twice, Ea, app_assoc. reflexivity.
Qed.

Lemma cli_recv_exact_carries (a b : bytes) (s : sock) (rest : inbox) :
  carries (s_in s) (a ++ b) rest ->
  exists i',
    CLI.recv_exact (List.length a) s = (OK a, with_in s i')
    /\ carries i' b rest.
Proof.
  intros Hc. unfold CLI.recv_exact.
  destruct (cli_recv_exact_loop_carries (List.length a) (List.length a)
              [] a b s rest Hc eq_refl (le_n _)) as (i' & H & Hc').
  exists i'. auto.
Qed.

(** What the two client decoders do with a well-framed packet: the three
    reads succeed, and the outcome depends on the type byte alone. *)

Lemma client_recv_packet_carries (t : Z) (h payload : bytes)
  (s : sock) (rest : inbox) :
  List.length h = 5%nat ->
  struct_unpack_BI libtext h = OK (t, Z.of_nat (List.length payload)) ->
  carries (s_in s) (Client.MAGIC ++ h ++ payload) rest ->
  Client.recv_packet libtext s
  = (if t =? Client.TYPE_ERR
     then match decode libtext Strict payload with
          | OK msg => Err (Exc ConnectionError msg)
          | Err e => Err (Exc ConnectionError (exc_msg e))
          | OutOfFuel => OutOfFuel
          end
     else OK (t, payload),
     with_in s rest).
Proof.
  intros Hh Hu Hc. unfold Client.recv_packet, try_except.
  destruct (client_recv_exact_carries Client.MAGIC _ s rest Hc)
    as (i1 & H1 & Hc1).
  change (List.length Client.MAGIC) with 4%nat in H1.
  unfold bind at 1. rewrite H1. rewrite bytes_eqb_refl.
  change (negb true) with false. cbv beta iota.
  rewrite <- (with_in_in s i1) in Hc1.
  destruct (client_recv_exact_carries h _ _ rest Hc1) as (i2 & H2 & Hc2).
  rewrite Hh in H2. unfold bind at 1. rewrite H2.
  unfold bind at 1, lift at 1. rewrite Hu. cbv beta iota.
  rewrite Nat2Z.id.
  rewrite with_in_twice in *.
  rewrite <- (with_in_in s i2), <- (app_nil_r payload) in Hc2.
  destruct (client_recv_exact_carries payload _ _ rest Hc2) as (i3 & H3 & Hc3).
  unfold bind at 1. rewrite H3. apply carries_nil_inv in Hc3. subst i3.
  rewrite with_in_twice.
  destruct (t =? Client.TYPE_ERR); [|reflexivity].
  unfold bind, lift, raise.
  destruct (decode libtext Strict payload); reflexivity.
Qed.

Lemma cli_recv_packet_carries (t : Z) (h payload : bytes)
  (s : sock) (rest : inbox) :
  List.length h = 5%nat ->
  struct_unpack_BI libtext h = OK (t, Z.of_nat (List.length payload)) ->
  carries (s_in s) (CLI.MAGIC ++ h ++ payload) rest ->
  CLI.recv_packet libtext s
  = (if t =? CLI.TYPE_ERR
     then Err (Exc ConnectionError
                 (lit "Packet error: " ++ decode_lossy Ignore payload))
     else OK (t, payload),
     with_in s rest).
Proof.
  intros Hh Hu Hc. unfold CLI.recv_packet, try_except.
  destruct (cli_recv_exact_carries CLI.MAGIC _ s rest Hc)
    as (i1 & H1 & Hc1).
  change (List.length CLI.MAGIC) with 4%nat in H1.
  unfold bind at 1. rewrite H1. rewrite bytes_eqb_refl.
  change (negb true) with false. cbv beta iota.
  rewrite <- (with_in_in s i1) in Hc1.
  destruct (cli_recv_exact_carries h _ _ rest Hc1) as (i2 & H2 & Hc2).
  rewrite Hh in H2. unfold bind at 1. rewrite H2.
  unfold bind at 1, lift at 1. rewrite Hu. cbv beta iota.
  rewrite Nat2Z.id.
  rewrite with_in_twice in *.
  rewrite <- (with_in_in s i2), <- (app_nil_r payload) in Hc2.
  destruct (cli_recv_exact_carries payload _ _ rest Hc2) as (i3 & H3 & Hc3).
  unfold bind at 1. rewrite H3. apply carries_nil_inv in Hc3. subst i3.
  rewrite with_in_twice.
  destruct (t =? CLI.TYPE_ERR); reflexivity.
Qed.

End Framing.

(* ===================================================================== *)
(** * Claims about the framing codec                                       *)
(* ===================================================================== *)

Section FramingClaims.
Import Py.

Variable libtext : library.

(** C2, as amended. For a type byte [t] and a payload shorter than [2^32]
    bytes, [pack] succeeds, all three programs produce the same bytes, and
    reading those bytes back, however the network cuts them, gives
    [(t, payload)] again: with the server's [recv_packet] for every [t], and
    with the [recv_packet] of either client for every [t] but [TYPE_ERR]. *)
Theorem pack_recv_packet_roundtrip (t : Z) (payload : bytes) :
  0 <= t <= 255 ->
  Z.of_nat (List.length payload) < 4294967296 ->
  exists pkt,
    Server.pack libtext t payload = OK pkt
    /\ Client.pack libtext t payload = OK pkt
    /\ CLI.pack libtext t payload = OK pkt
    /\ (forall c rest,
          carries (Server.c_inbox c) pkt rest ->
          Server.recv_packet libtext c
          = (OK (t, payload), Server.with_inbox c rest))
    /\ (t <> 7 ->
        forall s rest,
          carries (s_in s) pkt rest ->
          Client.recv_packet libtext s = (OK (t, payload), with_in s rest)
          /\ CLI.recv_packet libtext s = (OK (t, payload), with_in s rest)).
Proof.
  intros Ht Hn.
  destruct (struct_pack_unpack libtext t (Z.of_nat (List.length payload)))
    as (h & Hp & Hl & Hu); [lia|lia|].
  exists (Server.MAGIC ++ h ++ payload).
  unfold Server.pack, Client.pack, CLI.pack. rewrite Hp. simpl rbind.
  split; [reflexivity|]. split; [reflexivity|]. split; [reflexivity|].
  split.
  - intros c rest Hc.
    apply (server_recv_packet_carries libtext t h); assumption.
  - intros Hne s rest Hc. split.
    + rewrite (client_recv_packet_carries libtext t h payload s rest Hl Hu Hc).
      replace (t =? Client.TYPE_ERR) with false; [reflexivity|].
      symmetry. apply Z.eqb_neq. exact Hne.
    + rewrite (cli_recv_packet_carries libtext t h payload s rest Hl Hu Hc).
      replace (t =? CLI.TYPE_ERR) with false; [reflexivity|].
      symmetry. apply Z.eqb_neq. exact Hne.
Qed.

(** C3, as amended. A well-framed packet of type [TYPE_ERR] makes the
    [recv_packet] of either client fail with a [ConnectionError] and is never
    returned by them: the command-line client's message is the payload
    decoded with errors ignored, after the words "Packet error: "; the
    graphical client's message is the payload decoded strictly when it is
    well-formed UTF-8, and the text of the decoding error otherwise. The
    server's [recv_packet] has no such test and returns [(7, payload)]. *)
Theorem recv_packet_of_ERR (payload : bytes) :
  Z.of_nat (List.length payload) < 4294967296 ->
  exists pkt,
    Server.pack libtext Server.TYPE_ERR payload = OK pkt
    /\ (forall s rest,
          carries (s_in s) pkt rest ->
          CLI.recv_packet libtext s
          = (Err (Exc ConnectionError
                    (lit "Packet error: " ++ decode_lossy Ignore payload)),
             with_in s rest)
          /\ exists msg,
               Client.recv_packet libtext s
               = (Err (Exc ConnectionError msg), with_in s rest)
               /\ (forall text, decode libtext Strict payload = OK text ->
                                msg = text)
               /\ (forall e, decode libtext Strict payload = Err e ->
                             msg = exc_msg e))
    /\ (forall c rest,
          carries (Server.c_inbox c) pkt rest ->
          Server.recv_packet libtext c
          = (OK (Server.TYPE_ERR, payload), Server.with_inbox c rest)).
Proof.
  intros Hn.
  destruct (struct_pack_unpack libtext 7 (Z.of_nat (List.length payload)))
    as (h & Hp & Hl & Hu); [lia|lia|].
  exists (Server.MAGIC ++ h ++ payload).
  unfold Server.pack, Server.TYPE_ERR. rewrite Hp. simpl rbind.
  split; [reflexivity|]. split.
  - intros s rest Hc. split.
    + rewrite (cli_recv_packet_carries libtext 7 h payload s rest Hl Hu Hc).
      reflexivity.
    + rewrite (client_recv_packet_carries libtext 7 h payload s rest Hl Hu Hc).
      change (7 =? Client.TYPE_ERR) with true. cbv iota.
      unfold decode.
      destruct (utf8_decode_loop Strict (List.length payload)
                  (map Byte.to_N payload)) as [text|].
      * exists text. split; [reflexivity|].
        split; intros x Hx; congruence.
      * eexists. split; [reflexivity|].
        split; intros x Hx; inversion Hx; reflexivity.
  - intros c rest Hc.
    apply (server_recv_packet_carries libtext 7 h); assumption.
Qed.

End FramingClaims.

(** The round trip at work: a [CHUNK] packet carrying two bytes, sent in
    one piece. *)
Lemma pack_recv_packet_roundtrip_witness :
  exists pkt,
    Server.pack Scenario.libtext 5 [x68; x69] = Py.OK pkt
    /\ Client.pack Scenario.libtext 5 [x68; x69] = Py.OK pkt
    /\ CLI.pack Scenario.libtext 5 [x68; x69] = Py.OK pkt
    /\ (forall c rest,
          carries (Server.c_inbox c) pkt rest ->
          Server.recv_packet Scenario.libtext c
          = (Py.OK (5, [x68; x69]), Server.with_inbox c rest))
    /\ (5 <> 7 ->
        forall s rest,
          carries (Py.s_in s) pkt rest ->
          Client.recv_packet Scenario.libtext s
          = (Py.OK (5, [x68; x69]), Py.with_in s rest)
          /\ CLI.recv_packet Scenario.libtext s
             = (Py.OK (5, [x68; x69]), Py.with_in s rest)).
Proof.
  apply (pack_recv_packet_roundtrip Scenario.libtext 5 [x68; x69]).
  - lia.
  - simpl. lia.
Defined.

(** The same packet cut in three by the network, with the next packet
    already behind it: the server reads the first and leaves the second. *)
Example roundtrip_in_pieces :
  Server.recv_packet Scenario.libtext
    (Scenario.connection
       [Py.blit "LD"; Py.blit "T1" ++ [x05; x00; x00]; [x00; x02; x68];
        [x69] ++ Py.blit "LDT1"])
  = (Py.OK (5, [x68; x69]), Scenario.connection [Py.blit "LDT1"]).
Proof. reflexivity. Qed.

(** C2 as it was stated fails for the decoder of [Client.py]: the packet
    that [pack] builds for type [0x07] and payload ["x"] is not decoded to
    [(7, "x")]; [recv_packet] raises [ConnectionError("x")] instead. *)
Lemma client_roundtrip_fails_on_ERR :
  exists pkt,
    Client.pack Scenario.libtext 7 (Py.blit "x") = Py.OK pkt
    /\ Client.recv_packet Scenario.libtext (Scenario.socket [pkt])
       = (Py.Err (Py.Exc Py.ConnectionError (Py.lit "x")), Scenario.socket [])
    /\ fst (Client.recv_packet Scenario.libtext (Scenario.socket [pkt]))
       <> Py.OK (7, Py.blit "x").
Proof.
  eexists. split; [reflexivity|]. split; [reflexivity|].
  vm_compute. discriminate.
Qed.

Lemma recv_packet_of_ERR_witness :
  exists pkt,
    Server.pack Scenario.libtext Server.TYPE_ERR (Py.blit "gone") = Py.OK pkt
    /\ (forall s rest,
          carries (Py.s_in s) pkt rest ->
          CLI.recv_packet Scenario.libtext s
          = (Py.Err (Py.Exc Py.ConnectionError
                       (Py.lit "Packet error: "
                        ++ Py.decode_lossy Py.Ignore (Py.blit "gone"))),
             Py.with_in s rest)
          /\ exists msg,
               Client.recv_packet Scenario.libtext s
               = (Py.Err (Py.Exc Py.ConnectionError msg), Py.with_in s rest)
               /\ (forall text,
                     Py.decode Scenario.libtext Py.Strict (Py.blit "gone")
                     = Py.OK text -> msg = text)
               /\ (forall e,
                     Py.decode Scenario.libtext Py.Strict (Py.blit "gone")
                     = Py.Err e -> msg = Py.exc_msg e))
    /\ (forall c rest,
          carries (Server.c_inbox c) pkt rest ->
          Server.recv_packet Scenario.libtext c
          = (Py.OK (Server.TYPE_ERR, Py.blit "gone"),
             Server.with_inbox c rest)).
Proof.
  apply (recv_packet_of_ERR Scenario.libtext (Py.blit "gone")).
  simpl. lia.
Defined.

(** C3 as it was stated fails for the server: its [recv_packet] hands a
    packet of type [0x07] to the caller like any other. *)
Lemma server_recv_packet_returns_ERR :
  exists pkt,
    Server.pack Scenario.libtext 7 (Py.blit "gone") = Py.OK pkt
    /\ Server.recv_packet Scenario.libtext (Scenario.connection [pkt])
       = (Py.OK (7, Py.blit "gone"), Scenario.connection []).
Proof.
  eexists. split; reflexivity.
Qed.

(* ===================================================================== *)
(** * Facts about strings and [posixpath]                                  *)
(* ===================================================================== *)

Section PathFacts.
Import Py.

Lemma startswith_iff (s p : str) :
  startswith s p = true <-> exists t, s = p ++ t.
Proof.
  revert s. induction p as [|a p IH]; intros s; simpl.
  - split; [intros _; exists s; reflexivity|reflexivity].
  - destruct s as [|b s].
    + split; [discriminate|intros [t Ht]; discriminate].
    + rewrite andb_true_iff, N.eqb_eq, IH. split.
      * intros [-> [t ->]]. exists t. reflexivity.
      * intros [t Ht]. inversion Ht; subst. split; [reflexivity|].
        exists t. reflexivity.
Qed.

Lemma startswith_longer (s p : str) :
  (List.length s < List.length p)%nat -> startswith s p = false.
Proof.
  intros Hl. destruct (startswith s p) eqn:E; [|reflexivity].
  apply startswith_iff in E. destruct E as [t ->].
  rewrite length_app in Hl. lia.
Qed.

Lemma str_eqb_eq (a b : str) : str_eqb a b = true <-> a = b.
Proof.
  revert b. induction a as [|x a IH]; destruct b as [|y b]; simpl;
    try (split; [discriminate|discriminate]); [tauto|].
  rewrite andb_true_iff, N.eqb_eq, IH. split.
  - intros [-> ->]. reflexivity.
  - intros E. inversion E. auto.
Qed.

Lemma str_eqb_refl (a : str) : str_eqb a a = true.
Proof. apply str_eqb_eq. reflexivity. Qed.

Lemma str_eqb_neq (a b : str) : str_eqb a b = false <-> a <> b.
Proof.
  destruct (str_eqb a b) eqn:E.
  - apply str_eqb_eq in E. split; [discriminate|congruence].
  - split; [|reflexivity]. intros _ Hab. apply str_eqb_eq in Hab. congruence.
Qed.

Lemma split_not_nil (sep : char) (s : str) : split sep s <> [].
Proof.
  induction s as [|c s IH]; simpl; [discriminate|].
  destruct (N.eqb c sep); [discriminate|].
  destruct (split sep s); [congruence|discriminate].
Qed.

(** Splitting at a separator splits the list of fields. *)
Lemma split_app_sep (sep : char) (a b : str) :
  split sep (a ++ sep :: b) = split sep a ++ split sep b.
Proof.
  induction a as [|c a IH]; simpl.
  - rewrite N.eqb_refl. reflexivity.
  - destruct (N.eqb c sep); [rewrite IH; reflexivity|].
    rewrite IH. pose proof (split_not_nil sep a) as Hne.
    destruct (split sep a) as [|h t]; [congruence|reflexivity].
Qed.

Lemma split_no_sep (sep : char) (s : str) :
  ~ In sep s -> split sep s = [s].
Proof.
  induction s as [|c s IH]; simpl; intros Hn; [reflexivity|].
  destruct (N.eqb_spec c sep) as [->|Hc]; [tauto|].
  rewrite IH by tauto. reflexivity.
Qed.

Lemma split_fields_no_sep (sep : char) (s : str) :
  Forall (fun f => ~ In sep f) (split sep s).
Proof.
  induction s as [|c s IH]; simpl.
  - constructor; [simpl; tauto|constructor].
  - destruct (N.eqb_spec c sep) as [->|Hc].
    + constructor; [simpl; tauto|assumption].
    + destruct (split sep s) as [|h t]; [repeat constructor; simpl; intuition|].
      inversion IH; subst. constructor; [|assumption].
      simpl. intros [E|Hin]; [congruence|tauto].
Qed.

Lemma split_join (sep : char) (parts : list str) :
  parts <> [] -> Forall (fun f => ~ In sep f) parts ->
  split sep (Py.join [sep] parts) = parts.
Proof.
  induction parts as [|p rest IH]; intros Hne Hf; [congruence|].
  inversion Hf as [|? ? Hp Hrest]; subst.
  destruct rest as [|q rest].
  - simpl. apply split_no_sep. assumption.
  - change (Py.join [sep] (p :: q :: rest))
      with (p ++ sep :: Py.join [sep] (q :: rest)).
    rewrite split_app_sep, split_no_sep by assumption.
    rewrite IH; [reflexivity|discriminate|assumption].
Qed.

Lemma join_snoc (sep : str) (parts : list str) (x : str) :
  exists pre, Py.join sep (parts ++ [x]) = pre ++ x.
Proof.
  induction parts as [|p rest IH].
  - exists []. reflexivity.
  - destruct IH as [pre Hpre].
    destruct rest as [|q rest].
    + exists (p ++ sep). simpl. rewrite app_assoc. reflexivity.
    + exists (p ++ sep ++ pre).
      change (Py.join sep ((p :: q :: rest) ++ [x]))
        with (p ++ sep ++ Py.join sep ((q :: rest) ++ [x])).
      rewrite Hpre, !app_assoc. reflexivity.
Qed.

Lemma endswith_char_snoc (s : str) (c d : char) :
  endswith_char (s ++ [c]) d = N.eqb c d.
Proof. unfold endswith_char. rewrite rev_app_distr. reflexivity. Qed.

Lemma endswith_char_inv (s : str) (c : char) :
  endswith_char s c = true -> exists s', s = s' ++ [c].
Proof.
  unfold endswith_char. intros H.
  destruct (rev s) as [|d r] eqn:E; [discriminate|].
  apply N.eqb_eq in H. subst d. exists (rev r).
  rewrite <- (rev_involutive s), E. reflexivity.
Qed.

(** ** The shape of [ROOT] on a POSIX host

    Whatever the working directory, [abspath("D:/")] ends in the component
    [D:], so that it is not empty and does not end in a separator. *)


Lemma split_drive_path (cwd : str) :
  exists l, split posixpath.sep (posixpath.join cwd (lit "D:/"))
            = l ++ [drive; []].
Proof.
  unfold posixpath.join.
  change (startswith (lit "D:/") [posixpath.sep]) with false. cbv iota.
  change (lit "D:/") with (drive ++ posixpath.sep :: []).
  destruct cwd as [|c cwd'] eqn:Ecwd.
  - exists []. reflexivity.
  - rewrite <- Ecwd. replace (is_empty cwd) with false by (subst; reflexivity).
    simpl orb. destruct (endswith_char cwd posixpath.sep) eqn:E.
    + apply endswith_char_inv in E. destruct E as [s' ->].
      exists (split posixpath.sep s').
      rewrite <- !app_assoc. simpl app at 2.
      rewrite split_app_sep. f_equal.
    + exists (split posixpath.sep cwd).
      change ([posixpath.sep] ++ drive ++ [posixpath.sep])
        with (posixpath.sep :: drive ++ [posixpath.sep]).
      rewrite split_app_sep. f_equal.
Qed.

Lemma ROOT_shape (cwd : str) :
  exists r, Server.ROOT (posixpath.os_path cwd) = r ++ drive.
Proof.
  unfold Server.ROOT. simpl path_abspath. unfold posixpath.abspath.
  change (posixpath.isabs (lit "D:/")) with false. cbv iota.
  destruct (split_drive_path cwd) as [l Hl].
  unfold posixpath.normpath.
  replace (is_empty (posixpath.join cwd (lit "D:/"))) with false.
  2:{ unfold posixpath.join.
      change (startswith (lit "D:/") [posixpath.sep]) with false. cbv iota.
      destruct (is_empty cwd || endswith_char cwd posixpath.sep);
        destruct cwd; reflexivity. }
  cbv zeta. rewrite Hl, fold_left_app.
  set (i := posixpath.initial_slashes _).
  set (nc := fold_left (posixpath.normpath_step i) l []).
  assert (E : fold_left (posixpath.normpath_step i) [drive; []] nc
              = nc ++ [drive]).
  { simpl. unfold posixpath.normpath_step at 2.
    change (str_eqb drive []) with false.
    change (str_eqb drive posixpath.dot) with false.
    change (str_eqb drive posixpath.dotdot) with false.
    simpl. reflexivity. }
  rewrite E. destruct (join_snoc [posixpath.sep] nc drive) as [pre Hpre].
  rewrite Hpre. exists (repeat posixpath.sep i ++ pre).
  rewrite app_assoc.
  destruct ((repeat posixpath.sep i ++ pre) ++ drive) eqn:E2; [|reflexivity].
  apply (f_equal (@List.length char)) in E2. rewrite length_app in E2.
  simpl in E2. lia.
Qed.

(** Hence [os.path.join(ROOT, "")] is [ROOT] followed by one separator.  *)
Lemma root_prefix_posix (cwd : str) :
  let P := posixpath.os_path cwd in
  path_join P (Server.ROOT P) [] = Server.ROOT P ++ [posixpath.sep].
Proof.
  cbv zeta. destruct (ROOT_shape cwd) as [r Hr].
  change (path_join (posixpath.os_path cwd)) with posixpath.join.
  rewrite Hr. unfold posixpath.join. simpl startswith. cbv iota.
  replace (is_empty (r ++ drive)) with false by (destruct r; reflexivity).
  change drive with ([68%N] ++ [58%N]).
  rewrite app_assoc, endswith_char_snoc. reflexivity.
Qed.

(** ** [normpath] of an absolute path

    The components that [normpath] keeps for an absolute path are proper
    names: none is empty, [.] or [..], and none holds a separator. *)


Lemma Forall_removelast {A} (Q : A -> Prop) (l : list A) :
  Forall Q l -> Forall Q (removelast l).
Proof.
  induction l as [|x l IH]; intros H; [constructor|].
  inversion H; subst. simpl. destruct l; [constructor|].
  constructor; [assumption|apply IH; assumption].
Qed.

Lemma Forall_last {A} (Q : A -> Prop) (l : list A) (d : A) :
  l <> [] -> Forall Q l -> Q (last l d).
Proof.
  induction l as [|x l IH]; intros Hne H; [congruence|].
  inversion H; subst. destruct l as [|y l]; [assumption|].
  apply IH; [discriminate|assumption].
Qed.

Lemma normpath_step_proper (i : nat) (nc : list str) (comp : str) :
  (i <> 0)%nat -> ~ In posixpath.sep comp ->
  Forall proper_name nc ->
  Forall proper_name (posixpath.normpath_step i nc comp).
Proof.
  intros Hi Hsep Hnc. unfold posixpath.normpath_step.
  destruct (str_eqb comp []) eqn:E1; [assumption|].
  destruct (str_eqb comp posixpath.dot) eqn:E2; [assumption|].
  simpl orb. apply str_eqb_neq in E1, E2.
  destruct (str_eqb comp posixpath.dotdot) eqn:E3.
  - simpl negb. simpl orb.
    replace ((i =? 0)%nat && is_empty nc) with false.
    2:{ symmetry. apply andb_false_iff. left. apply Nat.eqb_neq. assumption. }
    simpl orb.
    destruct nc as [|x nc']; [simpl; constructor|].
    set (l := x :: nc') in *.
    assert (Hlast : str_eqb (last l []) posixpath.dotdot = false).
    { apply str_eqb_neq.
      apply (Forall_last proper_name l []) in Hnc; [|discriminate].
      destruct Hnc as (_ & _ & Hdd & _). assumption. }
    rewrite Hlast. simpl. apply (Forall_removelast proper_name l Hnc).
  - simpl. apply str_eqb_neq in E3. apply Forall_app. split; [assumption|].
    constructor; [|constructor]. repeat split; assumption.
Qed.

Lemma normpath_fold_proper (i : nat) (comps : list str) :
  (i <> 0)%nat -> Forall (fun f => ~ In posixpath.sep f) comps ->
  forall nc, Forall proper_name nc ->
             Forall proper_name (fold_left (posixpath.normpath_step i) comps nc).
Proof.
  intros Hi. induction comps as [|c comps IH]; intros Hf nc Hnc;
    [assumption|].
  inversion Hf; subst. simpl. apply IH; [assumption|].
  apply normpath_step_proper; assumption.
Qed.

Lemma split_leading_seps (n : nat) (s : str) :
  split posixpath.sep (repeat posixpath.sep n ++ s)
  = repeat [] n ++ split posixpath.sep s.
Proof.
  induction n as [|n IH]; [reflexivity|].
  simpl. rewrite IH. reflexivity.
Qed.

Lemma initial_slashes_abs (x : str) :
  posixpath.isabs x = true -> posixpath.initial_slashes x <> 0%nat.
Proof.
  unfold posixpath.isabs, posixpath.initial_slashes. intros ->.
  destruct (_ && _); discriminate.
Qed.

(** The result of [normpath] on an absolute path has no [..] component. *)
Lemma normpath_abs_no_dotdot (x : str) :
  posixpath.isabs x = true ->
  ~ In posixpath.dotdot (split posixpath.sep (posixpath.normpath x)).
Proof.
  intros Habs. unfold posixpath.normpath.
  destruct x as [|c x']; [discriminate|]. simpl is_empty. cbv iota zeta.
  set (x := c :: x') in *.
  pose proof (initial_slashes_abs x Habs) as Hi.
  set (i := posixpath.initial_slashes x) in *.
  pose proof (normpath_fold_proper i (split posixpath.sep x) Hi
                (split_fields_no_sep _ _) [] (Forall_nil _)) as Hp.
  set (comps := fold_left _ _ _) in *.
  replace (is_empty (repeat posixpath.sep i ++ Py.join [posixpath.sep] comps))
    with false by (destruct i; [congruence|reflexivity]).
  rewrite split_leading_seps. intros Hin. apply in_app_or in Hin.
  destruct Hin as [Hin|Hin].
  - apply repeat_spec in Hin. discriminate.
  - destruct comps as [|p rest] eqn:Ec.
    + simpl in Hin. destruct Hin as [Hin|[]]. discriminate.
    + rewrite split_join in Hin.
      * rewrite Forall_forall in Hp. apply Hp in Hin.
        destruct Hin as (_ & _ & Hdd & _). congruence.
      * discriminate.
      * eapply Forall_impl; [|exact Hp]. intros a (_ & _ & _ & Ha). exact Ha.
Qed.

Lemma join_abs (a b : str) :
  posixpath.isabs a = true -> posixpath.isabs (posixpath.join a b) = true.
Proof.
  unfold posixpath.isabs, posixpath.join. intros Ha.
  destruct (startswith b [posixpath.sep]) eqn:Eb; [assumption|].
  destruct a as [|c a]; [discriminate|].
  destruct (_ || _); simpl in *; assumption.
Qed.

Lemma abspath_no_dotdot (cwd x : str) :
  posixpath.isabs cwd = true ->
  ~ In posixpath.dotdot (split posixpath.sep (posixpath.abspath cwd x)).
Proof.
  intros Hc. unfold posixpath.abspath. apply normpath_abs_no_dotdot.
  destruct (posixpath.isabs x) eqn:E; [assumption|].
  apply join_abs. assumption.
Qed.

End PathFacts.

(* ===================================================================== *)
(** * The sandbox                                                          *)
(* ===================================================================== *)


Section Ensures.
Import Py.

Variable I : Server.conn -> Prop.

Lemma ensures_ret {A} (a : A) (Q : A -> Prop) : Q a -> ensures I (ret a) Q.
Proof.
  intros Hq c Hc. split; [assumption|]. simpl. intros a' E.
  inversion E; subst. assumption.
Qed.

Lemma ensures_raise {A} (e : exn) (Q : A -> Prop) : ensures I (raise e) Q.
Proof. intros c Hc. split; [assumption|]. simpl. discriminate. Qed.

Lemma ensures_out_of_fuel {A} (Q : A -> Prop) : ensures I out_of_fuel Q.
Proof. intros c Hc. split; [assumption|]. simpl. discriminate. Qed.

Lemma ensures_lift {A} (r : result A) (Q : A -> Prop) :
  (forall a, r = OK a -> Q a) -> ensures I (lift r) Q.
Proof. intros Hq c Hc. split; [assumption|]. simpl. assumption. Qed.

Lemma ensures_bind {A B} (m : io Server.conn A) (k : A -> io Server.conn B)
  (Q : A -> Prop) (R : B -> Prop) :
  ensures I m Q -> (forall a, Q a -> ensures I (k a) R) ->
  ensures I (bind m k) R.
Proof.
  intros Hm Hk c Hc. unfold bind. destruct (Hm c Hc) as [Hi Hq].
  destruct (m c) as [[a|e|] c']; simpl in *.
  - apply (Hk a (Hq a eq_refl) c' Hi).
  - split; [assumption|discriminate].
  - split; [assumption|discriminate].
Qed.

Lemma ensures_try_except {A} (m : io Server.conn A)
  (h : exn -> io Server.conn A) (Q : A -> Prop) :
  ensures I m Q -> (forall e, ensures I (h e) Q) ->
  ensures I (try_except m h) Q.
Proof.
  intros Hm Hh c Hc. unfold try_except. destruct (Hm c Hc) as [Hi Hq].
  destruct (m c) as [[a|e|] c']; simpl in *.
  - split; assumption.
  - apply (Hh e c' Hi).
  - split; [assumption|discriminate].
Qed.

Lemma ensures_weaken {A} (m : io Server.conn A) (Q R : A -> Prop) :
  ensures I m Q -> (forall a, Q a -> R a) -> ensures I m R.
Proof.
  intros Hm Hqr c Hc. destruct (Hm c Hc) as [Hi Hq].
  split; [assumption|]. intros a E. apply Hqr, Hq, E.
Qed.

End Ensures.

(** On any platform, what [safe_path] returns has passed the prefix test
    against [os.path.join(ROOT, "")]. *)
Lemma safe_path_guard (P : Py.os_path) (rel full : Py.str) :
  Server.safe_path P rel = Py.OK full ->
  Py.startswith full (Py.path_join P (Server.ROOT P) []) = true.
Proof.
  unfold Server.safe_path. cbv zeta.
  destruct (Py.startswith _ _) eqn:E; simpl; [|discriminate].
  intros H. inversion H; subst. exact E.
Qed.

Section Sandbox.
Import Py.

Variable libtext : library.
Variable cwd : str.
Variable fs : Server.filesystem.

Let P : os_path := posixpath.os_path cwd.
Let I : Server.conn -> Prop := confined P.


(** What [safe_path] returns starts with [ROOT] and a separator. *)
Lemma safe_path_inside (rel full : str) :
  Server.safe_path P rel = OK full ->
  exists tail, full = Server.ROOT P ++ posixpath.sep :: tail.
Proof.
  unfold Server.safe_path, P. cbv zeta.
  destruct (startswith _ _) eqn:E; simpl negb; cbv iota; [|discriminate].
  intros H. inversion H; subst; clear H.
  rewrite (root_prefix_posix cwd) in E.
  apply startswith_iff in E. destruct E as [t Ht].
  exists t. rewrite <- app_assoc in Ht. exact Ht.
Qed.

Lemma safe_path_outcome (rel : str) :
  match Server.safe_path P rel with
  | OK full => exists tail, full = Server.ROOT P ++ posixpath.sep :: tail
  | Err e =>
      e = Exc ValueError (lit "Security: Path traversal attempt blocked")
  | OutOfFuel => False
  end.
Proof.
  destruct (Server.safe_path P rel) as [full|e|] eqn:E.
  - apply (safe_path_inside rel). assumption.
  - unfold Server.safe_path in E. cbv zeta in E.
    destruct (negb _); inversion E. reflexivity.
  - unfold Server.safe_path in E. cbv zeta in E.
    destruct (negb _); inversion E.
Qed.

(** A child of a directory inside the root is inside the root. *)
Lemma child_inside (full nm : str) :
  (exists tail, full = Server.ROOT P ++ posixpath.sep :: tail) ->
  ~ In posixpath.sep nm ->
  inside (Server.ROOT P) (path_join P full nm).
Proof.
  intros [tail ->] Hnm. right. simpl path_join. unfold posixpath.join.
  replace (startswith nm [posixpath.sep]) with false.
  2:{ symmetry. destruct nm as [|c nm]; [reflexivity|]. cbn [startswith].
      rewrite andb_true_r. apply N.eqb_neq. intros E.
      apply Hnm. left. symmetry. exact E. }
  destruct (_ || _).
  - exists (tail ++ nm). rewrite <- app_assoc. reflexivity.
  - exists (tail ++ [posixpath.sep] ++ nm). rewrite <- app_assoc. reflexivity.
Qed.

(** *** The parts of the handler keep the file-system log confined *)

Lemma ensures_touch (p : str) :
  inside (Server.ROOT P) p -> ensures I (Server.touch p) anything.
Proof.
  intros Hp c Hc. split; [|intros; exact Logic.I].
  unfold I, confined in *. simpl. apply Forall_app. split; [assumption|].
  constructor; [assumption|constructor].
Qed.

Lemma ensures_sendall (b : bytes) : ensures I (Server.sendall b) anything.
Proof. intros c Hc. split; [exact Hc|intros; exact Logic.I]. Qed.

Lemma ensures_sock_recv (k : nat) : ensures I (Server.sock_recv k) anything.
Proof.
  intros c Hc. split; [|intros; exact Logic.I].
  unfold Server.sock_recv. destruct (recv k (Server.c_inbox c)). exact Hc.
Qed.

Lemma ensures_recv_exact_loop (fuel n : nat) (buf : bytes) :
  ensures I (Server.recv_exact_loop fuel n buf) anything.
Proof.
  revert buf. induction fuel as [|fuel IH]; intros buf; simpl;
    destruct (List.length buf <? n)%nat;
    try apply ensures_out_of_fuel; try (apply ensures_ret; exact Logic.I).
  apply (ensures_bind I _ _ anything); [|intros a _; apply IH].
  apply ensures_try_except.
  - apply (ensures_bind I _ _ anything); [apply ensures_sock_recv|]. intros d _.
    destruct (is_empty d); [apply ensures_raise|apply ensures_ret].
    exact Logic.I.
  - intros e. destruct (is_OSError _); apply ensures_raise.
Qed.

Lemma ensures_recv_packet :
  ensures I (Server.recv_packet libtext) anything.
Proof.
  unfold Server.recv_packet, Server.recv_exact.
  apply (ensures_bind I _ _ anything); [apply ensures_recv_exact_loop|]. intros magic _.
  destruct (negb _); [apply ensures_raise|].
  apply (ensures_bind I _ _ anything); [apply ensures_recv_exact_loop|]. intros header _.
  apply (ensures_bind I _ _ anything); [apply ensures_lift; intros; exact Logic.I|].
  intros [t ln] _.
  apply (ensures_bind I _ _ anything); [apply ensures_recv_exact_loop|]. intros payload _.
  apply ensures_ret. exact Logic.I.
Qed.

Lemma ensures_fs_call {A} (p : str) (r : result A) (Q : A -> Prop) :
  inside (Server.ROOT P) p -> (forall a, r = OK a -> Q a) ->
  ensures I (Server.touch p ;;; lift r) Q.
Proof.
  intros Hp Hq. apply (ensures_bind I _ _ anything); [apply ensures_touch; assumption|].
  intros _ _. apply ensures_lift. assumption.
Qed.

Lemma ensures_isdir (p : str) :
  inside (Server.ROOT P) p -> ensures I (Server.isdir fs p) anything.
Proof.
  intros Hp. unfold Server.isdir.
  apply (ensures_bind I _ _ anything); [apply ensures_touch; assumption|].
  intros _ _. apply ensures_ret. exact Logic.I.
Qed.

Hypothesis Hfs : plain_names fs.

Lemma ensures_list_dir_loop (full : str) (names : list str) :
  (exists tail, full = Server.ROOT P ++ posixpath.sep :: tail) ->
  Forall (fun nm => ~ In posixpath.sep nm) names ->
  forall out, ensures I (Server.list_dir_loop P fs full names out) anything.
Proof.
  intros Hfull. induction names as [|nm rest IH]; intros Hn out; simpl.
  - apply ensures_ret. exact Logic.I.
  - inversion Hn as [|? ? Hnm Hrest]; subst.
    pose proof (child_inside full nm Hfull Hnm) as Hchild.
    apply (ensures_bind I _ _ anything); [|intros a _; apply IH; assumption].
    apply ensures_try_except.
    + eapply ensures_bind.
      { apply (ensures_fs_call _ _ anything Hchild). intros; exact Logic.I. }
      intros st _.
      apply (ensures_bind I _ _ anything); [apply ensures_isdir; assumption|]. intros d1 _.
      apply (ensures_bind I _ _ anything); [apply ensures_isdir; assumption|]. intros d2 _.
      apply ensures_ret. exact Logic.I.
    + intros e. destruct (is_OSError _); [apply ensures_ret|apply ensures_raise].
      exact Logic.I.
Qed.

Lemma ensures_list_dir (rel : str) :
  ensures I (Server.list_dir P fs rel) anything.
Proof.
  unfold Server.list_dir. apply ensures_try_except.
  2:{ intros e. apply ensures_ret. exact Logic.I. }
  eapply ensures_bind.
  { apply (ensures_lift I _ (fun full =>
             exists tail, full = Server.ROOT P ++ posixpath.sep :: tail)).
    intros full E. apply (safe_path_inside rel). assumption. }
  intros full Hfull.
  assert (Hin : inside (Server.ROOT P) full) by (right; assumption).
  apply (ensures_bind I _ _ anything); [apply ensures_isdir; assumption|]. intros d _.
  destruct (negb d); [apply ensures_ret; exact Logic.I|].
  eapply ensures_bind.
  { unfold Server.listdir.
    apply (ensures_fs_call full _
             (fun names => Forall (fun nm => ~ In posixpath.sep nm) names) Hin).
    intros names E. destruct (Server.fs_listdir fs full) eqn:El;
      inversion E; subst. apply (Hfs full). assumption. }
  intros names Hnames. apply ensures_list_dir_loop; assumption.
Qed.

Lemma ensures_stream_loop (fuel : nat) :
  forall f remaining,
    ensures I (Server.stream_loop libtext fuel f remaining) anything.
Proof.
  induction fuel as [|fuel IH]; intros f remaining;
    cbn [Server.stream_loop]; destruct (remaining >? 0);
    try apply ensures_out_of_fuel; try (apply ensures_ret; exact Logic.I).
  match goal with
  | |- context [Server.read ?a ?b] => destruct (Server.read a b) as [chunk f']
  end.
  destruct (is_empty chunk); [apply ensures_ret; exact Logic.I|].
  apply (ensures_bind I _ _ anything); [apply ensures_lift; intros; exact Logic.I|].
  intros pkt _.
  apply (ensures_bind I _ _ anything); [apply ensures_sendall|]. intros _ _. apply IH.
Qed.

Lemma ensures_handle_request (t : Z) (payload : bytes) :
  ensures I (Server.handle_request libtext P fs t payload) anything.
Proof.
  unfold Server.handle_request.
  destruct (t =? Server.TYPE_LIST).
  { apply (ensures_bind I _ _ anything); [apply ensures_list_dir|]. intros items _.
    apply (ensures_bind I _ _ anything); [apply ensures_lift; intros; exact Logic.I|].
    intros data _.
    apply (ensures_bind I _ _ anything); [apply ensures_lift; intros; exact Logic.I|].
    intros pkt _. apply ensures_sendall. }
  destruct (t =? Server.TYPE_GET); [|apply ensures_ret; exact Logic.I].
  destruct (split 124%N _) as [|path [|start_str [|end_str [|]]]];
    try apply ensures_raise.
  eapply ensures_bind.
  { apply (ensures_lift I _ (fun full => inside (Server.ROOT P) full)).
    intros full E. right. apply (safe_path_inside path). assumption. }
  intros full Hin.
  eapply ensures_bind.
  { unfold Server.isfile.
    apply (ensures_bind I _ _ anything); [apply ensures_touch; assumption|].
    intros _ _. apply (ensures_ret I _ anything). exact Logic.I. }
  intros is_file _. destruct (negb is_file); [apply ensures_raise|].
  eapply ensures_bind.
  { unfold Server.getsize.
    apply (ensures_fs_call _ _ anything Hin). intros; exact Logic.I. }
  intros file_size _.
  apply (ensures_bind I _ _ anything); [apply ensures_lift; intros; exact Logic.I|].
  intros start_raw _.
  apply (ensures_bind I _ _ anything); [apply ensures_lift; intros; exact Logic.I|].
  intros end_raw _.
  apply (ensures_bind I _ _ anything); [apply ensures_lift; intros; exact Logic.I|].
  intros meta _.
  apply (ensures_bind I _ _ anything); [apply ensures_lift; intros; exact Logic.I|].
  intros pkt _.
  apply (ensures_bind I _ _ anything); [apply ensures_sendall|]. intros _ _.
  destruct (_ >? _); [|apply ensures_ret; exact Logic.I].
  eapply ensures_bind.
  { unfold Server.open_rb.
    apply (ensures_bind I _ _ anything); [apply ensures_touch; assumption|]. intros _ _.
    apply (ensures_bind I _ _ anything); [apply ensures_lift; intros; exact Logic.I|].
    intros content _. apply (ensures_ret I _ anything). exact Logic.I. }
  intros f _. apply ensures_stream_loop.
Qed.

Lemma ensures_serve_loop (fuel : nat) :
  ensures I (Server.serve_loop libtext P fs fuel) anything.
Proof.
  induction fuel as [|fuel IH]; simpl; [apply ensures_out_of_fuel|].
  eapply ensures_bind.
  { apply (ensures_try_except I _ _ anything).
    - apply (ensures_bind I _ _ anything); [apply ensures_recv_packet|]. intros p _.
      apply ensures_ret. exact Logic.I.
    - intros e. destruct (is_ConnectionError _);
        [apply ensures_ret; exact Logic.I|apply ensures_raise]. }
  intros [[t payload]|] _; [|apply ensures_ret; exact Logic.I].
  apply (ensures_bind I _ _ anything); [apply ensures_handle_request|]. intros _ _. exact IH.
Qed.

Lemma handle_client_confined (c : Server.conn) :
  confined P c -> confined P (snd (Server.handle_client libtext P fs c)).
Proof.
  intros Hc. unfold Server.handle_client, try_finally.
  assert (H : ensures I
                (try_except
                   (fun c0 => Server.serve_loop libtext P fs
                                (S (Server.inbox_size (Server.c_inbox c0))) c0)
                   (fun e =>
                      try_except
                        (msg <- lift (encode libtext (exc_msg e)) ;;
                         pkt <- lift (Server.pack libtext Server.TYPE_ERR msg) ;;
                         Server.sendall pkt)
                        (fun _ => ret tt))) anything).
  { apply ensures_try_except.
    - intros c0 Hc0. apply (ensures_serve_loop _ c0 Hc0).
    - intros e. apply ensures_try_except.
      + apply (ensures_bind I _ _ anything); [apply ensures_lift; intros; exact Logic.I|].
        intros msg _.
        apply (ensures_bind I _ _ anything); [apply ensures_lift; intros; exact Logic.I|].
        intros pkt _. apply ensures_sendall.
      + intros _. apply ensures_ret. exact Logic.I. }
  destruct (H c Hc) as [Hi _].
  destruct (try_except _ _ c) as [r c']. exact Hi.
Qed.

(** When the canonical path is the root itself, the test against
    [ROOT] followed by a separator fails: the root is shorter than that. *)
Lemma safe_path_rejects_root (rel : str) :
  path_abspath P (path_join P (Server.ROOT P) (lstrip (lit "\/ ") rel))
  = Server.ROOT P ->
  Server.safe_path P rel
  = Err (Exc ValueError (lit "Security: Path traversal attempt blocked")).
Proof.
  intros Hroot. unfold Server.safe_path. cbv zeta. rewrite Hroot.
  unfold P. rewrite (root_prefix_posix cwd).
  rewrite startswith_longer; [reflexivity|].
  rewrite length_app. simpl. lia.
Qed.

End Sandbox.

(** X26. The sandbox confines the text of a path. On a POSIX host,
    whatever relative path the client sends, [safe_path] either raises the
    security error or returns a path whose text starts with the root followed
    by a separator and has no [..] component left; and every path that the
    handling of a connection gives to the file system, to test, list, stat,
    size or open it, is such a text. Symbolic links are not looked at: where
    the file that such a path names really lies is another matter. *)
Theorem sandbox_confines (libtext : Py.library)
  (cwd : Py.str) (fs : Server.filesystem) :
  posixpath.isabs cwd = true ->
  plain_names fs ->
  let P := posixpath.os_path cwd in
  (forall rel,
     match Server.safe_path P rel with
     | Py.OK full =>
         inside (Server.ROOT P) full
         /\ ~ In posixpath.dotdot (Py.split posixpath.sep full)
     | Py.Err e =>
         e = Py.Exc Py.ValueError
               (Py.lit "Security: Path traversal attempt blocked")
     | Py.OutOfFuel => False
     end)
  /\ (forall c, confined P c ->
                confined P (snd (Server.handle_client libtext P fs c))).
Proof.
  intros Hcwd Hfs P. split.
  - intros rel. pose proof (safe_path_outcome cwd rel) as H.
    fold P in H. destruct (Server.safe_path P rel) as [full|e|] eqn:E;
      [|assumption|assumption].
    split; [right; assumption|].
    unfold Server.safe_path in E. cbv zeta in E.
    destruct (negb _); inversion E.
    apply abspath_no_dotdot. assumption.
  - intros c Hc. apply handle_client_confined; assumption.
Qed.

Lemma plain_names_scenario : plain_names Scenario.fs.
Proof.
  intros p names. unfold Scenario.fs. simpl.
  destruct (Py.str_eqb p Scenario.root).
  - intros E. inversion E; subst. repeat constructor; vm_compute; intuition;
      discriminate.
  - destruct (Py.str_eqb p Scenario.sub); [intros E; inversion E; constructor|].
    destruct (Py.str_eqb p Scenario.pub); intros E; inversion E; subst.
    repeat constructor; vm_compute; intuition; discriminate.
Qed.

Lemma sandbox_confines_witness :
  let P := Scenario.P in
  (forall rel,
     match Server.safe_path P rel with
     | Py.OK full =>
         inside (Server.ROOT P) full
         /\ ~ In posixpath.dotdot (Py.split posixpath.sep full)
     | Py.Err e =>
         e = Py.Exc Py.ValueError
               (Py.lit "Security: Path traversal attempt blocked")
     | Py.OutOfFuel => False
     end)
  /\ (forall c, confined P c ->
                confined P (snd (Server.handle_client Scenario.libtext P
                                   Scenario.fs c))).
Proof.
  apply (sandbox_confines Scenario.libtext Scenario.cwd Scenario.fs).
  - reflexivity.
  - exact plain_names_scenario.
Defined.

(** C1: the code at the failing input. The served directory holds a
    symbolic link [link] to [/etc]. The path [link/passwd] passes [safe_path],
    because [abspath] works on the text of the path and resolves no link; the
    file that it names is [/etc/passwd], outside the root; and the handler
    opens it and sends its size and its content to the client. In the same
    way [LIST link] lists the entries of [/etc]. *)
Theorem symlink_leaves_the_root :
  let fs := Tree.filesystem_of Tree.host in
  let served := Py.lit "/srv/D:/link/passwd" in
  Server.safe_path Scenario.P (Py.lit "link/passwd") = Py.OK served
  /\ Tree.realpath Tree.host served = Some (Py.lit "/etc/passwd")
  /\ ~ inside (Server.ROOT Scenario.P) (Py.lit "/etc/passwd")
  /\ Server.handle_client Scenario.libtext Scenario.P fs
       (Scenario.connection
          [Scenario.request 3 (Py.blit "link/passwd|0|-1")])
     = (Py.OK tt,
        {| Server.c_inbox := [];
           Server.c_outbox := [Scenario.request 4 (Py.blit "6");
                               Scenario.request 5 (Py.blit "secret")];
           Server.c_touched := [served; served; served];
           Server.c_closed := true |})
  /\ Server.c_outbox
       (snd (Server.handle_client Scenario.libtext Scenario.P fs
               (Scenario.connection
                  [Scenario.request 1 (Py.blit "link")])))
     = [Scenario.request 2 (Py.blit "passwd|0|6|1600000000")].
Proof.
  intros fs served. split; [reflexivity|]. split; [reflexivity|].
  split; [|split; reflexivity].
  intros [H|[tail H]]; vm_compute in H; discriminate.
Qed.

(** The sandbox at work in the deployment: an escape is refused, a path
    that comes back into the root is resolved. *)
Example safe_path_escape :
  Server.safe_path Scenario.P (Py.lit "/../../etc")
  = Py.Err (Py.Exc Py.ValueError
              (Py.lit "Security: Path traversal attempt blocked")).
Proof. reflexivity. Qed.

Example safe_path_back_inside :
  Server.safe_path Scenario.P (Py.lit "sub/../a.txt") = Py.OK Scenario.a_txt.
Proof. reflexivity. Qed.

(** C4: the code at the failing input. In the deployment the root holds
    [a.txt], [sub] and [pub], yet the path ["/"] is refused by [safe_path], so
    that [list_dir] returns the empty list and the answer to [LIST "/"] is a
    [LIST_RESP] packet with an empty payload. *)
Theorem list_root_is_refused :
  Server.fs_listdir Scenario.fs (Server.ROOT Scenario.P)
  = inl [Py.lit "a.txt"; Py.lit "sub"; Py.lit "pub"]
  /\ Server.safe_path Scenario.P (Py.lit "/")
     = Py.Err (Py.Exc Py.ValueError
                 (Py.lit "Security: Path traversal attempt blocked"))
  /\ Server.safe_path Scenario.P (Py.lit "")
     = Py.Err (Py.Exc Py.ValueError
                 (Py.lit "Security: Path traversal attempt blocked"))
  /\ fst (Server.list_dir Scenario.P Scenario.fs (Py.lit "/")
            (Scenario.connection []))
     = Py.OK []
  /\ (exists req resp,
        Server.pack Scenario.libtext Server.TYPE_LIST (Py.blit "/") = Py.OK req
        /\ Server.pack Scenario.libtext Server.TYPE_LIST_RESP [] = Py.OK resp
        /\ Server.c_outbox
             (snd (Server.handle_client Scenario.libtext Scenario.P
                     Scenario.fs (Scenario.connection [req])))
           = [resp]).
Proof.
  split; [reflexivity|]. split; [reflexivity|]. split; [reflexivity|].
  split; [reflexivity|]. eexists. eexists.
  split; [reflexivity|]. split; [reflexivity|]. vm_compute. reflexivity.
Qed.

(* ===================================================================== *)
(** * The decimal text of a size                                           *)
(* ===================================================================== *)

Section DecimalText.
Import Py.

Variable libtext : library.


Lemma string_of_uint_ascii (d : Decimal.uint) :
  ascii_only (lit (NilEmpty.string_of_uint d)).
Proof.
  induction d; simpl; constructor; try assumption; reflexivity.
Qed.

Lemma string_of_uint_length (d : Decimal.uint) :
  List.length (lit (NilEmpty.string_of_uint d)) = Decimal.nb_digits d.
Proof.
  induction d; simpl; try reflexivity; f_equal; assumption.
Qed.

Lemma str_of_int_ascii (z : Z) : ascii_only (str_of_int z).
Proof.
  unfold str_of_int. destruct (Z.to_int z) as [d|d]; simpl.
  - destruct d; try apply string_of_uint_ascii.
    constructor; [reflexivity|constructor].
  - constructor; [reflexivity|].
    destruct d; try apply string_of_uint_ascii.
    constructor; [reflexivity|constructor].
Qed.

Lemma utf8_encode_ascii (s : str) :
  ascii_only s -> utf8_encode s = Some (map byte_of_N s).
Proof.
  induction 1 as [|c s Hc Hs IH]; simpl; [reflexivity|].
  rewrite IH. unfold utf8_encode_char.
  replace (c <? 128)%N with true by (symmetry; apply N.ltb_lt; assumption).
  reflexivity.
Qed.

Lemma little_double_digits (d : Decimal.uint) :
  (Decimal.nb_digits (Decimal.Little.double d) <= S (Decimal.nb_digits d)
   /\ Decimal.nb_digits (Decimal.Little.succ_double d)
      <= S (Decimal.nb_digits d))%nat.
Proof.
  induction d; simpl; lia.
Qed.

Lemma to_little_uint_digits (p : positive) :
  (Decimal.nb_digits (Pos.to_little_uint p) <= Pos.size_nat p)%nat.
Proof.
  induction p as [p IH|p IH|]; simpl.
  - pose proof (little_double_digits (Pos.to_little_uint p)). lia.
  - pose proof (little_double_digits (Pos.to_little_uint p)). lia.
  - lia.
Qed.

Lemma size_nat_bound (p : positive) :
  forall n : nat, Z.pos p < 2 ^ Z.of_nat n -> (Pos.size_nat p <= n)%nat.
Proof.
  induction p as [p IH|p IH|]; intros n Hn; simpl.
  - destruct n as [|n]; [simpl in Hn; lia|].
    rewrite Nat2Z.inj_succ, Z.pow_succ_r in Hn by lia.
    specialize (IH n). lia.
  - destruct n as [|n]; [simpl in Hn; lia|].
    rewrite Nat2Z.inj_succ, Z.pow_succ_r in Hn by lia.
    specialize (IH n). lia.
  - destruct n as [|n]; [simpl in Hn; lia|lia].
Qed.

(** A size below [2^63] is written with at most 63 digits. *)
Lemma str_of_int_length (z : Z) :
  0 <= z < 2 ^ 63 -> (List.length (str_of_int z) <= 63)%nat.
Proof.
  intros Hz. unfold str_of_int. destruct z as [|p|p]; [simpl; lia| |lia].
  simpl Z.to_int. unfold Pos.to_uint. simpl NilZero.string_of_int.
  unfold NilZero.string_of_uint.
  pose proof (to_little_uint_digits p) as Hd.
  pose proof (size_nat_bound p 63 ltac:(simpl; lia)) as Hs.
  pose proof (DecimalFacts.nb_digits_rev (Pos.to_little_uint p)) as Hr.
  destruct (Decimal.rev (Pos.to_little_uint p)) eqn:E;
    try (rewrite string_of_uint_length; lia).
  simpl. lia.
Qed.

Lemma pack_ok (t : Z) (payload : bytes) :
  0 <= t <= 255 -> Z.of_nat (List.length payload) < 4294967296 ->
  exists h, Server.pack libtext t payload = OK (Server.MAGIC ++ h ++ payload)
            /\ List.length h = 5%nat
            /\ struct_unpack_BI libtext h
               = OK (t, Z.of_nat (List.length payload)).
Proof.
  intros Ht Hn.
  destruct (struct_pack_unpack libtext t (Z.of_nat (List.length payload)))
    as (h & Hp & Hl & Hu); [lia|lia|].
  exists h. unfold Server.pack. rewrite Hp. auto.
Qed.

(** The META packet of a file of [size] bytes can always be built. *)
Lemma meta_packet (size : Z) :
  0 <= size < 2 ^ 63 ->
  exists pkt,
    encode libtext (str_of_int size) = OK (map byte_of_N (str_of_int size))
    /\ Server.pack libtext Server.TYPE_META (map byte_of_N (str_of_int size))
       = OK pkt.
Proof.
  intros Hs. unfold encode.
  rewrite (utf8_encode_ascii _ (str_of_int_ascii size)).
  pose proof (str_of_int_length size Hs) as Hl.
  destruct (pack_ok Server.TYPE_META (map byte_of_N (str_of_int size)))
    as (h & Hp & _);
    [unfold Server.TYPE_META; lia
    |clear Hs; rewrite length_map; unfold str, char in *; lia|].
  eexists. split; [reflexivity|exact Hp].
Qed.

End DecimalText.

(* ===================================================================== *)
(** * The byte-range streamer                                              *)
(* ===================================================================== *)


Section Streamer.
Import Py.

Variable libtext : library.
Variable P : os_path.
Variable fs : Server.filesystem.

(** C5, as amended. For a file of size [S >= 0], with [start] the requested
    start raised to at least 0: a requested end below 0 or above [S] gives the
    effective end [S]; a requested end in [[start, S)] is kept; [0 <= start]
    and [0 <= end <= S] hold after clipping; and [start <= end] holds
    exactly when [start <= S] and the requested end is negative or at least
    [start]. *)
Theorem range_clipping (S start_raw end_raw : Z) :
  0 <= S ->
  let start := Server.clip_start start_raw in
  let end_ := Server.clip_end S end_raw in
  (end_raw < 0 \/ end_raw > S -> end_ = S)
  /\ (start <= end_raw < S -> end_ = end_raw)
  /\ 0 <= start
  /\ 0 <= end_ <= S
  /\ (start <= end_ <-> start <= S /\ (end_raw < 0 \/ start <= end_raw)).
Proof.
  intros HS. cbv zeta. unfold Server.clip_start, Server.clip_end.
  destruct (Z.ltb_spec end_raw 0); destruct (Z.gtb_spec end_raw S); simpl;
    repeat split; intros; lia.
Qed.

Lemma firstn_add {A} (a b : nat) (l : list A) :
  firstn (a + b) l = firstn a l ++ firstn b (skipn a l).
Proof.
  revert l. induction a as [|a IH]; intros l; [reflexivity|].
  destruct l as [|x l]; simpl.
  - rewrite firstn_nil. reflexivity.
  - rewrite IH. reflexivity.
Qed.

Lemma after_after (c : Server.conn) (p1 p2 : list str) (k1 k2 : list bytes) :
  after (after c p1 k1) p2 k2 = after c (p1 ++ p2) (k1 ++ k2).
Proof. unfold after. simpl. rewrite !app_assoc. reflexivity. Qed.

Lemma after_nothing (c : Server.conn) : after c [] [] = c.
Proof. destruct c. unfold after. simpl. rewrite !app_nil_r. reflexivity. Qed.

Lemma sendall_after (b : bytes) (c : Server.conn) :
  Server.sendall b c = (OK tt, after c [] [b]).
Proof. unfold Server.sendall, after. rewrite app_nil_r. reflexivity. Qed.

Lemma touch_after (p : str) (c : Server.conn) :
  Server.touch p c = (OK tt, after c [p] []).
Proof. unfold Server.touch, after. rewrite app_nil_r. reflexivity. Qed.

(** The streaming loop on a file that holds all the bytes asked for: it
    sends the [remaining] bytes that follow the position, in chunks. *)
Lemma stream_loop_complete (fuel : nat) :
  forall (f : Server.file) (remaining : Z) (c : Server.conn),
    0 <= remaining ->
    (Z.to_nat remaining <= fuel)%nat ->
    (Server.f_pos f + Z.to_nat remaining
     <= List.length (Server.f_content f))%nat ->
    exists chunks pkts,
      Server.stream_loop libtext fuel f remaining c
      = (OK tt, after c [] pkts)
      /\ packed libtext chunks pkts
      /\ chunk_sized chunks
      /\ List.concat chunks
         = firstn (Z.to_nat remaining)
             (skipn (Server.f_pos f) (Server.f_content f)).
Proof.
  induction fuel as [|fuel IH]; intros f remaining c Hr Hf Hlen.
  - assert (remaining = 0) by lia. subst. exists [], [].
    simpl. rewrite after_nothing.
    repeat split; constructor.
  - cbn [Server.stream_loop].
    destruct (Z.gtb_spec remaining 0) as [Hpos|Hz].
    2:{ assert (remaining = 0) by lia. subst. exists [], [].
        rewrite after_nothing. repeat split; constructor. }
    set (to_read := Z.min Server.CHUNK_SIZE remaining).
    assert (Htr : 0 < to_read <= remaining)
      by (unfold to_read, Server.CHUNK_SIZE; lia).
    assert (Htc : to_read <= Server.CHUNK_SIZE) by (unfold to_read; lia).
    unfold Server.read.
    remember (firstn (Z.to_nat to_read)
                (skipn (Server.f_pos f) (Server.f_content f)))
      as chunk eqn:Ec.
    assert (Hcl : List.length chunk = Z.to_nat to_read).
    { rewrite Ec, length_firstn, length_skipn. lia. }
    assert (Hne : is_empty chunk = false).
    { destruct chunk; [simpl in Hcl; lia|reflexivity]. }
    rewrite Hne.
    destruct (pack_ok libtext Server.TYPE_CHUNK chunk) as (h & Hp & _).
    { unfold Server.TYPE_CHUNK. lia. }
    { unfold Server.CHUNK_SIZE in Htc. lia. }
    set (f' := {| Server.f_content := Server.f_content f;
                  Server.f_pos := (Server.f_pos f + List.length chunk)%nat |}).
    destruct (IH f' (remaining - Z.of_nat (List.length chunk))
                (after c [] [Server.MAGIC ++ h ++ chunk]))
      as (chunks & pkts & Hl & Hpk & Hcs & Hcat).
    { lia. }
    { lia. }
    { simpl. lia. }
    exists (chunk :: chunks), ((Server.MAGIC ++ h ++ chunk) :: pkts).
    split; [|split; [|split]].
    + unfold bind at 1, lift. rewrite Hp.
      unfold bind at 1. rewrite sendall_after.
      rewrite after_after in Hl. exact Hl.
    + constructor; assumption.
    + constructor; [lia|assumption].
    + simpl List.concat. rewrite Hcat, Ec.
      simpl Server.f_pos. simpl Server.f_content.
      rewrite <- Ec, Hcl, Ec.
      match goal with
      | |- _ = firstn ?n _ =>
          replace n
            with (Z.to_nat to_read + (Z.to_nat remaining - Z.to_nat to_read))%nat
            by lia
      end.
      rewrite firstn_add, skipn_skipn.
      replace (Z.to_nat (remaining - Z.of_nat (Z.to_nat to_read)))
        with (Z.to_nat remaining - Z.to_nat to_read)%nat by lia.
      rewrite (Nat.add_comm (Z.to_nat to_read)). reflexivity.
Qed.

(** A packet that [pack] has built is the magic, a header and the payload. *)
Lemma pack_inv (t : Z) (p req : bytes) :
  Server.pack libtext t p = OK req ->
  exists h, req = Server.MAGIC ++ h ++ p
            /\ List.length h = 5%nat
            /\ struct_unpack_BI libtext h = OK (t, Z.of_nat (List.length p)).
Proof.
  intros Hp. unfold Server.pack, struct_pack_BI in Hp.
  destruct (_ && _) eqn:E; [|discriminate].
  apply andb_prop in E. destruct E as [E E4].
  apply andb_prop in E. destruct E as [E E3].
  apply andb_prop in E. destruct E as [E1 E2].
  apply Z.leb_le in E1, E2, E3, E4.
  destruct (pack_ok libtext t p) as (h & Hp' & Hl & Hu); [lia|lia|].
  unfold Server.pack, struct_pack_BI in Hp'.
  replace ((0 <=? t) && (t <=? 255) && (0 <=? Z.of_nat (List.length p))
           && (Z.of_nat (List.length p) <=? 4294967295)) with true in Hp'.
  2:{ symmetry. repeat (apply andb_true_intro; split); apply Z.leb_le; lia. }
  exists h. split; [|split; assumption].
  simpl rbind in Hp, Hp'. congruence.
Qed.

(** ** A well-formed GET request on a regular file *)

Variables (payload : bytes) (path start_str end_str full : str).
Variables (size start_raw end_raw : Z).

Hypothesis Hsplit :
  split 124%N (decode_lossy Replace payload) = [path; start_str; end_str].
Hypothesis Hsafe : Server.safe_path P path = OK full.
Hypothesis Hfile : Server.fs_isfile fs full = true.
Hypothesis Hsize : Server.fs_getsize fs full = inl size.
Hypothesis Hrange : 0 <= size < 2 ^ 63.
Hypothesis Hstart : int libtext start_str = OK start_raw.
Hypothesis Hend : int libtext end_str = OK end_raw.

Let start : Z := Server.clip_start start_raw.
Let end_ : Z := Server.clip_end size end_raw.
Let meta : bytes := map byte_of_N (str_of_int size).

(** Up to the META packet the handler always goes the same way. *)
Lemma get_prelude (c : Server.conn) :
  exists meta_pkt,
    Server.pack libtext Server.TYPE_META meta = OK meta_pkt
    /\ Server.handle_request libtext P fs Server.TYPE_GET payload c
       = (if end_ >? start
          then (f <- Server.open_rb fs full ;;
                Server.stream_loop libtext (Z.to_nat (end_ - start))
                  (Server.seek f start) (end_ - start))
          else ret tt)
           (after c [full; full] [meta_pkt]).
Proof.
  destruct (meta_packet libtext size Hrange) as (pkt & Henc & Hpk).
  exists pkt. split; [exact Hpk|].
  unfold Server.handle_request.
  change (Server.TYPE_GET =? Server.TYPE_LIST) with false.
  change (Server.TYPE_GET =? Server.TYPE_GET) with true. cbv iota.
  rewrite Hsplit.
  unfold bind at 1, lift at 1. rewrite Hsafe.
  unfold bind at 1, Server.isfile, bind at 1. rewrite touch_after.
  unfold ret at 1. rewrite Hfile. change (negb true) with false. cbv iota.
  unfold bind at 1, Server.getsize, bind at 1. rewrite touch_after.
  unfold lift at 1. rewrite Hsize. simpl of_sum.
  unfold bind at 1, lift at 1. rewrite Hstart.
  unfold bind at 1, lift at 1. rewrite Hend.
  unfold bind at 1, lift at 1. rewrite Henc.
  unfold bind at 1, lift at 1. fold meta in Hpk. fold meta. rewrite Hpk.
  unfold bind at 1. rewrite sendall_after, !after_after.
  reflexivity.
Qed.


(** C6. A GET request whose clipped range is not empty, on a file that
    holds every byte of that range, is answered by the META packet and by
    CHUNK packets whose payloads, put end to end, are the bytes of the range:
    their lengths add up to [end - start], and each payload has at least one
    byte and at most [CHUNK_SIZE = 1024 * 1024]. *)
Theorem get_streams_range (c : Server.conn) (content : bytes) :
  Server.fs_open_rb fs full = inl content ->
  end_ <= Z.of_nat (List.length content) ->
  start < end_ ->
  exists meta_pkt chunks pkts,
    Server.pack libtext Server.TYPE_META meta = OK meta_pkt
    /\ Server.handle_request libtext P fs Server.TYPE_GET payload c
       = (OK tt, after c [full; full; full] (meta_pkt :: pkts))
    /\ packed libtext chunks pkts
    /\ chunk_sized chunks
    /\ List.concat chunks
       = firstn (Z.to_nat (end_ - start)) (skipn (Z.to_nat start) content)
    /\ Z.of_nat (list_sum (map (@List.length byte) chunks)) = end_ - start.
Proof.
  intros Hopen Hfull Hne.
  destruct (get_prelude c) as (pkt & Hpk & Hh).
  assert (Hs0 : 0 <= start) by (unfold start, Server.clip_start; lia).
  destruct (stream_loop_complete (Z.to_nat (end_ - start))
              (Server.seek {| Server.f_content := content; Server.f_pos := 0 |}
                 start)
              (end_ - start) (after c [full; full; full] [pkt]))
    as (chunks & pkts & Hl & Hpacked & Hsized & Hcat).
  { lia. }
  { lia. }
  { simpl. lia. }
  exists pkt, chunks, pkts.
  split; [exact Hpk|]. split; [|split; [|split; [|split]]];
    try assumption.
  - rewrite Hh.
    replace (end_ >? start) with true
      by (symmetry; rewrite Z.gtb_ltb; apply Z.ltb_lt; exact Hne).
    unfold bind at 1, Server.open_rb, bind at 1. rewrite touch_after.
    unfold bind at 1, lift at 1. rewrite Hopen. simpl of_sum. unfold ret at 1.
    rewrite after_after. simpl app.
    rewrite Hl, after_after. reflexivity.
  - rewrite <- length_concat, Hcat, length_firstn, length_skipn.
    cbn [Server.seek Server.f_content Server.f_pos].
    clear - Hs0 Hfull Hne. lia.
Qed.

End Streamer.

Lemma range_clipping_witness :
  let start := Server.clip_start 2 in
  let end_ := Server.clip_end 10 5 in
  (5 < 0 \/ 5 > 10 -> end_ = 10)
  /\ (start <= 5 < 10 -> end_ = 5)
  /\ 0 <= start
  /\ 0 <= end_ <= 10
  /\ (start <= end_ <-> start <= 10 /\ (5 < 0 \/ start <= 5)).
Proof.
  apply (range_clipping 10 2 5). lia.
Defined.

(** C5 as it was stated fails: for a file of 10 bytes, a start of 20 and an
    end of -1, the end is clipped to 10 as the claim says, but the start
    stays 20, so that [start <= end_effective] does not hold. *)
Lemma range_invariant_fails :
  Server.clip_end 10 (-1) = 10
  /\ ~ (Server.clip_start 20 <= Server.clip_end 10 (-1) <= 10).
Proof.
  split; [reflexivity|]. vm_compute. intros [H _]. apply H. reflexivity.
Qed.


Lemma get_streams_range_witness :
  let c := Scenario.connection [] in
  exists meta_pkt chunks pkts,
    Server.pack Scenario.libtext Server.TYPE_META
      (map Py.byte_of_N (Py.str_of_int 10)) = Py.OK meta_pkt
    /\ Server.handle_request Scenario.libtext Scenario.P Scenario.fs
         Server.TYPE_GET (Py.blit "/a.txt|2|-1") c
       = (Py.OK tt,
          after c [Scenario.a_txt; Scenario.a_txt; Scenario.a_txt]
            (meta_pkt :: pkts))
    /\ packed Scenario.libtext chunks pkts
    /\ chunk_sized chunks
    /\ List.concat chunks
       = firstn (Z.to_nat (Server.clip_end 10 (-1) - Server.clip_start 2))
           (skipn (Z.to_nat (Server.clip_start 2)) (Py.blit "0123456789"))
    /\ Z.of_nat (list_sum (map (@List.length byte) chunks))
       = Server.clip_end 10 (-1) - Server.clip_start 2.
Proof.
  apply (get_streams_range Scenario.libtext Scenario.P Scenario.fs
           (Py.blit "/a.txt|2|-1") (Py.lit "/a.txt") (Py.lit "2") (Py.lit "-1")
           Scenario.a_txt 10 2 (-1)).
  - reflexivity.
  - reflexivity.
  - reflexivity.
  - reflexivity.
  - lia.
  - reflexivity.
  - reflexivity.
  - reflexivity.
  - vm_compute. discriminate.
  - reflexivity.
Defined.

(** What [int] makes of the numbers of a request. A start written with
    4301 digits is beyond the limit of the interpreter: the request is
    answered by the ERR packet of the [ValueError] and the socket is closed,
    although [a.txt] is there. A range written with the Arabic-Indic digits
    zero and five is served like [0] and [5]. *)
Example get_with_a_start_of_4301_digits :
  let payload := Py.blit "/a.txt|" ++ repeat x31 4301 ++ Py.blit "|-1" in
  Server.handle_client Scenario.libtext Scenario.P Scenario.fs
    (Scenario.connection [Scenario.request 3 payload])
  = (Py.OK tt,
     {| Server.c_inbox := [];
        Server.c_outbox :=
          [Scenario.request 7
             (Py.blit "Exceeds the limit (4300 digits) for integer string conversion: value has 4301 digits; use sys.set_int_max_str_digits() to increase the limit")];
        Server.c_touched := [Scenario.a_txt; Scenario.a_txt];
        Server.c_closed := true |}).
Proof. vm_compute. reflexivity. Qed.

Example get_with_arabic_indic_digits :
  let payload := Py.blit "/a.txt|" ++ [xd9; xa0] ++ Py.blit "|"
                 ++ [xd9; xa5] in
  Server.c_outbox
    (snd (Server.handle_client Scenario.libtext Scenario.P Scenario.fs
            (Scenario.connection [Scenario.request 3 payload])))
  = [Scenario.request 4 (Py.blit "10"); Scenario.request 5 (Py.blit "01234")].
Proof. vm_compute. reflexivity. Qed.

(** The end-to-end run of the specification: [GET "/a.txt|0|-1"] is
    answered by a META packet of [10] and one CHUNK of ten bytes, and a GET
    past the end of the file on the same connection by a META packet alone;
    the socket is closed only when the peer has gone. *)
Example get_whole_file_then_past_the_end :
  exists get1 get2 meta chunk,
    Server.pack Scenario.libtext 3 (Py.blit "/a.txt|0|-1") = Py.OK get1
    /\ Server.pack Scenario.libtext 3 (Py.blit "a.txt|20|-1") = Py.OK get2
    /\ Server.pack Scenario.libtext 4 (Py.blit "10") = Py.OK meta
    /\ Server.pack Scenario.libtext 5 (Py.blit "0123456789") = Py.OK chunk
    /\ Server.handle_client Scenario.libtext Scenario.P Scenario.fs
         (Scenario.connection [get1; get2])
       = (Py.OK tt,
          {| Server.c_inbox := [];
             Server.c_outbox := [meta; chunk; meta];
             Server.c_touched :=
               [Scenario.a_txt; Scenario.a_txt; Scenario.a_txt;
                Scenario.a_txt; Scenario.a_txt];
             Server.c_closed := true |}).
Proof.
  do 4 eexists. repeat (split; [reflexivity|]). vm_compute. reflexivity.
Qed.

(* ===================================================================== *)
(** * The handler always returns                                           *)
(* ===================================================================== *)

Section Termination.
Import Py.

Variable libtext : library.
Variable P : os_path.
Variable fs : Server.filesystem.

Lemma quiet_ret {A} (a : A) : quiet (ret a).
Proof. intros c. split; [discriminate|reflexivity]. Qed.

Lemma quiet_raise {A} (e : exn) : quiet (@raise Server.conn A e).
Proof. intros c. split; [discriminate|reflexivity]. Qed.

Lemma quiet_lift {A} (r : result A) : r <> OutOfFuel -> quiet (lift r).
Proof. intros Hr c. split; [exact Hr|reflexivity]. Qed.

Lemma quiet_bind {A B} (m : io Server.conn A) (k : A -> io Server.conn B) :
  quiet m -> (forall a, quiet (k a)) -> quiet (bind m k).
Proof.
  intros Hm Hk c. unfold bind. destruct (Hm c) as [Hf Hi].
  destruct (m c) as [[a|e|] c']; simpl in *.
  - destruct (Hk a c') as [Hf' Hi']. split; [assumption|congruence].
  - split; [discriminate|assumption].
  - congruence.
Qed.

Lemma quiet_try_except {A} (m : io Server.conn A)
  (h : exn -> io Server.conn A) :
  quiet m -> (forall e, quiet (h e)) -> quiet (try_except m h).
Proof.
  intros Hm Hh c. unfold try_except. destruct (Hm c) as [Hf Hi].
  destruct (m c) as [[a|e|] c']; simpl in *.
  - split; [discriminate|assumption].
  - destruct (Hh e c') as [Hf' Hi']. split; [assumption|congruence].
  - congruence.
Qed.

Lemma quiet_touch (p : str) : quiet (Server.touch p).
Proof. intros c. split; [discriminate|reflexivity]. Qed.

Lemma quiet_sendall (b : bytes) : quiet (Server.sendall b).
Proof. intros c. split; [discriminate|reflexivity]. Qed.

Lemma of_sum_returns {A} (r : A + exn) : of_sum r <> OutOfFuel.
Proof. destruct r; discriminate. Qed.

Lemma pack_returns (t : Z) (b : bytes) : Server.pack libtext t b <> OutOfFuel.
Proof.
  unfold Server.pack, struct_pack_BI. destruct (_ && _); discriminate.
Qed.

Lemma encode_returns (s : str) : encode libtext s <> OutOfFuel.
Proof. unfold encode. destruct (utf8_encode s); discriminate. Qed.

Lemma int_returns (s : str) : int libtext s <> OutOfFuel.
Proof. unfold int. destruct (parse_int libtext s); discriminate. Qed.

Lemma safe_path_returns (rel : str) : Server.safe_path P rel <> OutOfFuel.
Proof.
  unfold Server.safe_path. cbv zeta. destruct (negb _); discriminate.
Qed.

Lemma quiet_fs_call {A} (p : str) (r : A + exn) :
  quiet (Server.touch p ;;; lift (of_sum r)).
Proof.
  apply quiet_bind; [apply quiet_touch|]. intros _.
  apply quiet_lift, of_sum_returns.
Qed.

Lemma quiet_isdir (p : str) : quiet (Server.isdir fs p).
Proof.
  apply quiet_bind; [apply quiet_touch|]. intros _. apply quiet_ret.
Qed.

Lemma quiet_list_dir_loop (full : str) (names : list str) :
  forall out, quiet (Server.list_dir_loop P fs full names out).
Proof.
  induction names as [|nm rest IH]; intros out; simpl; [apply quiet_ret|].
  apply quiet_bind; [|intros a; apply IH].
  apply quiet_try_except.
  - apply quiet_bind; [apply quiet_fs_call|]. intros st.
    apply quiet_bind; [apply quiet_isdir|]. intros d1.
    apply quiet_bind; [apply quiet_isdir|]. intros d2. apply quiet_ret.
  - intros e. destruct (is_OSError _); [apply quiet_ret|apply quiet_raise].
Qed.

Lemma quiet_list_dir (rel : str) : quiet (Server.list_dir P fs rel).
Proof.
  unfold Server.list_dir. apply quiet_try_except; [|intros e; apply quiet_ret].
  apply quiet_bind; [apply quiet_lift, safe_path_returns|]. intros full.
  apply quiet_bind; [apply quiet_isdir|]. intros d.
  destruct (negb d); [apply quiet_ret|].
  apply quiet_bind; [apply quiet_fs_call|]. intros names.
  apply quiet_list_dir_loop.
Qed.

(** The fuel of the streaming loop is enough: every turn that goes on has
    read at least one byte. *)
Lemma quiet_stream_loop (fuel : nat) :
  forall f remaining,
    (Z.to_nat remaining <= fuel)%nat ->
    quiet (Server.stream_loop libtext fuel f remaining).
Proof.
  induction fuel as [|fuel IH]; intros f remaining Hf;
    cbn [Server.stream_loop]; destruct (Z.gtb_spec remaining 0) as [Hpos|Hz];
    try apply quiet_ret; [lia|].
  destruct (Server.read f (Z.min Server.CHUNK_SIZE remaining))
    as [chunk f'] eqn:Er.
  destruct chunk as [|b chunk]; [apply quiet_ret|]. cbn [is_empty].
  apply quiet_bind; [apply quiet_lift, pack_returns|]. intros pkt.
  apply quiet_bind; [apply quiet_sendall|]. intros _.
  apply IH. simpl List.length. lia.
Qed.

Lemma quiet_handle_request (t : Z) (payload : bytes) :
  quiet (Server.handle_request libtext P fs t payload).
Proof.
  unfold Server.handle_request.
  destruct (t =? Server.TYPE_LIST).
  { apply quiet_bind; [apply quiet_list_dir|]. intros items.
    apply quiet_bind; [apply quiet_lift, encode_returns|]. intros data.
    apply quiet_bind; [apply quiet_lift, pack_returns|]. intros pkt.
    apply quiet_sendall. }
  destruct (t =? Server.TYPE_GET); [|apply quiet_ret].
  destruct (split 124%N _) as [|path [|start_str [|end_str [|]]]];
    try apply quiet_raise.
  apply quiet_bind; [apply quiet_lift, safe_path_returns|]. intros full.
  apply quiet_bind.
  { apply quiet_bind; [apply quiet_touch|]. intros _. apply quiet_ret. }
  intros is_file. destruct (negb is_file); [apply quiet_raise|].
  apply quiet_bind; [apply quiet_fs_call|]. intros file_size.
  apply quiet_bind; [apply quiet_lift, int_returns|]. intros start_raw.
  apply quiet_bind; [apply quiet_lift, int_returns|]. intros end_raw.
  apply quiet_bind; [apply quiet_lift, encode_returns|]. intros meta.
  apply quiet_bind; [apply quiet_lift, pack_returns|]. intros pkt.
  apply quiet_bind; [apply quiet_sendall|]. intros _.
  destruct (_ >? _); [|apply quiet_ret].
  apply quiet_bind.
  { apply quiet_bind; [apply quiet_touch|]. intros _.
    apply quiet_bind; [apply quiet_lift, of_sum_returns|]. intros content.
    apply quiet_ret. }
  intros f. apply quiet_stream_loop. apply Nat.le_refl.
Qed.

(** One [recv] never gives more than asked, and takes from the inbox what
    it gives. *)
Lemma recv_shrinks (k : nat) (i : inbox) :
  fst (recv k i) <> OutOfFuel
  /\ (Server.inbox_size (snd (recv k i)) <= Server.inbox_size i)%nat
  /\ forall d, fst (recv k i) = OK d ->
               (List.length d <= k)%nat
               /\ (d <> [] ->
                   (Server.inbox_size (snd (recv k i))
                    < Server.inbox_size i)%nat).
Proof.
  destruct i as [|[d|e] rest]; simpl.
  - split; [discriminate|]. split; [lia|].
    intros d E. inversion E; subst. split; [simpl; lia|congruence].
  - destruct (Nat.leb_spec (List.length d) k) as [Hle|Hgt]; simpl.
    + split; [discriminate|]. split; [lia|].
      intros d' E. inversion E; subst. split; [assumption|lia].
    + split; [discriminate|]. rewrite length_skipn. split; [lia|].
      intros d' E. inversion E; subst. rewrite length_firstn.
      split; [lia|]. intros Hne. destruct k; [simpl in Hne; congruence|lia].
  - split; [discriminate|]. split; [lia|]. discriminate.
Qed.

(** The fuel of [recv_exact] is enough, and bytes received are bytes taken
    from the inbox. *)
Lemma recv_exact_loop_fuel (fuel : nat) :
  forall n buf c r c',
    (n - List.length buf <= fuel)%nat ->
    Server.recv_exact_loop fuel n buf c = (r, c') ->
    r <> OutOfFuel
    /\ (pending c' <= pending c)%nat
    /\ ((List.length buf < n)%nat ->
        forall b, r = OK b -> (pending c' < pending c)%nat).
Proof.
  induction fuel as [|fuel IH]; intros n buf c r c' Hf;
    cbn [Server.recv_exact_loop];
    destruct (Nat.ltb_spec (List.length buf) n) as [Hlt|Hge];
    try (intros E; inversion E; subst;
         split; [discriminate|split; [lia|intros; lia]]).
  - lia.
  - unfold bind at 1, try_except, bind at 1, Server.sock_recv.
    destruct (recv_shrinks (n - List.length buf) (Server.c_inbox c))
      as (Hr & Hs & Hd).
    destruct (recv (n - List.length buf) (Server.c_inbox c)) as [r0 i'].
    cbn [fst snd] in Hr, Hs, Hd.
    destruct r0 as [d|e|]; [| |congruence].
    + destruct (Hd d eq_refl) as [Hdk Hdn].
      destruct d as [|x d]; cbn [is_empty]; cbv beta iota.
      * unfold raise at 1. cbn [is_OSError exc_class]. cbv iota.
        unfold raise. intros E. inversion E; subst.
        unfold pending. cbn [Server.c_inbox Server.with_inbox].
        split; [discriminate|]. split; [exact Hs|discriminate].
      * unfold ret at 1. intros E.
        destruct (IH n (buf ++ x :: d) (Server.with_inbox c i') r c')
          as (H1 & H2 & _); [|exact E|].
        { rewrite length_app. cbn [List.length] in *. lia. }
        specialize (Hdn ltac:(discriminate)).
        unfold pending in *. cbn [Server.c_inbox Server.with_inbox] in H2.
        split; [exact H1|]. split; [lia|]. intros _ b _. lia.
    + cbv beta iota. unfold pending.
      destruct (is_OSError (exc_class e)); unfold raise;
        intros E; inversion E; subst;
        cbn [Server.c_inbox Server.with_inbox];
        (split; [discriminate|split; [exact Hs|discriminate]]).
Qed.

Lemma recv_exact_fuel (n : nat) (c : Server.conn) (r : result bytes)
  (c' : Server.conn) :
  Server.recv_exact n c = (r, c') ->
  r <> OutOfFuel
  /\ (pending c' <= pending c)%nat
  /\ ((0 < n)%nat -> forall b, r = OK b -> (pending c' < pending c)%nat).
Proof.
  unfold Server.recv_exact. intros E.
  destruct (recv_exact_loop_fuel n n [] c r c') as (H1 & H2 & H3);
    [simpl; lia|exact E|].
  split; [exact H1|]. split; [exact H2|]. intros Hn. apply H3. simpl. lia.
Qed.

(** A packet received is a packet taken from the inbox. *)
Lemma recv_packet_fuel (c : Server.conn) (r : result (Z * bytes))
  (c' : Server.conn) :
  Server.recv_packet libtext c = (r, c') ->
  r <> OutOfFuel /\ forall p, r = OK p -> (pending c' < pending c)%nat.
Proof.
  unfold Server.recv_packet. unfold bind at 1.
  destruct (Server.recv_exact 4 c) as [r1 c1] eqn:E1.
  destruct (recv_exact_fuel 4 c r1 c1 E1) as (H1 & H2 & H3).
  destruct r1 as [magic|e|]; [| |congruence].
  2:{ intros E. inversion E. split; discriminate. }
  specialize (H3 ltac:(lia) magic eq_refl).
  destruct (negb _); [intros E; inversion E; split; discriminate|].
  unfold bind at 1.
  destruct (Server.recv_exact 5 c1) as [r2 c2] eqn:E2.
  destruct (recv_exact_fuel 5 c1 r2 c2 E2) as (H4 & H5 & _).
  destruct r2 as [header|e|]; [| |congruence].
  2:{ intros E. inversion E. split; discriminate. }
  unfold bind at 1, lift at 1.
  destruct (struct_unpack_BI libtext header) as [[t ln]|e|] eqn:Eu.
  2:{ intros E. inversion E. split; discriminate. }
  2:{ unfold struct_unpack_BI in Eu.
      destruct header as [|? [|? [|? [|? [|? [|? ?]]]]]]; discriminate. }
  unfold bind at 1.
  destruct (Server.recv_exact (Z.to_nat ln) c2) as [r3 c3] eqn:E3.
  destruct (recv_exact_fuel (Z.to_nat ln) c2 r3 c3 E3) as (H6 & H7 & _).
  destruct r3 as [payload|e|]; [| |congruence].
  2:{ intros E. inversion E. split; discriminate. }
  unfold ret. intros E. inversion E; subst.
  split; [discriminate|]. intros _ _. lia.
Qed.

(** The fuel of the serving loop is enough. *)
Lemma serve_loop_fuel (fuel : nat) :
  forall c, (pending c < fuel)%nat ->
            fst (Server.serve_loop libtext P fs fuel c) <> OutOfFuel.
Proof.
  induction fuel as [|fuel IH]; intros c Hf; [lia|].
  cbn [Server.serve_loop]. unfold bind at 1, try_except, bind at 1.
  destruct (Server.recv_packet libtext c) as [r c1] eqn:Er.
  destruct (recv_packet_fuel c r c1 Er) as (H1 & H2).
  destruct r as [[t payload]|e|]; [| |congruence].
  - unfold ret at 1. unfold bind at 1.
    specialize (H2 _ eq_refl).
    destruct (quiet_handle_request t payload c1) as (H3 & H4).
    destruct (Server.handle_request libtext P fs t payload c1)
      as [[[]|e|] c2]; simpl in H3, H4; [| discriminate |congruence].
    apply IH. unfold pending in *. rewrite H4. lia.
  - destruct (is_ConnectionError (exc_class e)); simpl; discriminate.
Qed.

(** Whatever arrives on the connection, [handle_client] returns, without
    an exception, and has closed the socket. *)
Lemma handle_client_returns (c : Server.conn) :
  exists c', Server.handle_client libtext P fs c = (OK tt, c')
             /\ Server.c_closed c' = true.
Proof.
  unfold Server.handle_client, try_finally, try_except.
  pose proof (serve_loop_fuel (S (Server.inbox_size (Server.c_inbox c))) c)
    as Hl.
  destruct (Server.serve_loop libtext P fs _ c) as [[[]|e|] c1].
  - eexists. split; reflexivity.
  - unfold bind at 1, lift at 1.
    destruct (encode libtext (exc_msg e)) as [msg|e1|] eqn:Ee.
    + unfold bind at 1, lift at 1.
      destruct (Server.pack libtext Server.TYPE_ERR msg) as [pkt|e2|] eqn:Ep.
      * eexists. split; reflexivity.
      * eexists. split; reflexivity.
      * exfalso. exact (pack_returns _ _ Ep).
    + eexists. split; reflexivity.
    + exfalso. exact (encode_returns _ Ee).
  - exfalso. apply Hl; [unfold pending; lia|reflexivity].
Qed.

End Termination.

(* ===================================================================== *)
(** * The directory lister                                                 *)
(* ===================================================================== *)


Section Lister.
Import Py.

Variable P : os_path.
Variable fs : Server.filesystem.


Lemma list_dir_loop_listing (full : str) (names : list str) :
  forall out c,
    exists paths,
      Server.list_dir_loop P fs full names out c
      = (listing P fs full names out, after c paths []).
Proof.
  induction names as [|nm rest IH]; intros out c.
  - exists []. simpl. rewrite after_nothing. reflexivity.
  - cbn [Server.list_dir_loop listing]. unfold entry_of.
    set (p := path_join P full nm).
    unfold bind at 1, try_except, bind at 1, Server.stat, bind at 1.
    rewrite touch_after. unfold lift at 1.
    destruct (Server.fs_stat fs p) as [st|e] eqn:Est; simpl of_sum.
    + unfold bind at 1, Server.isdir, bind at 1. rewrite touch_after.
      unfold ret at 1. unfold bind at 1, bind at 1. rewrite touch_after.
      unfold ret at 1. unfold ret at 1.
      rewrite !after_after. simpl app.
      destruct (Server.fs_isdir fs p); simpl negb; cbv iota;
        match goal with
        | |- context [Server.list_dir_loop P fs full rest ?o ?c'] =>
            destruct (IH o c') as (paths & Hl)
        end;
        rewrite Hl, after_after; eexists; reflexivity.
    + cbv beta iota. destruct (is_OSError (exc_class e)).
      * unfold ret at 1. destruct (IH out (after c [p] [])) as (paths & Hl).
        rewrite Hl, after_after. eexists. reflexivity.
      * unfold raise. eexists. reflexivity.
Qed.

Lemma listing_total (full : str) (names : list str) :
  forall out, listing P fs full names out <> OutOfFuel.
Proof.
  induction names as [|nm rest IH]; intros out; simpl; [discriminate|].
  destruct (Server.fs_stat fs (path_join P full nm)) as [st|e];
    [apply IH|].
  destruct (is_OSError (exc_class e)); [apply IH|discriminate].
Qed.

Lemma listing_skips (full : str) (names : list str) :
  stat_raises_OSError fs ->
  forall out,
    listing P fs full names out = OK (out ++ flat_map (entry_of P fs full) names).
Proof.
  intros Hos. induction names as [|nm rest IH]; intros out; simpl.
  - rewrite app_nil_r. reflexivity.
  - unfold entry_of at 2.
    destruct (Server.fs_stat fs (path_join P full nm)) as [st|e] eqn:Est.
    + rewrite IH. unfold entry_of at 1. rewrite Est, app_assoc. reflexivity.
    + rewrite (Hos _ _ Est). apply IH.
Qed.

(** What [list_dir] returns, whatever the file system does. *)
Lemma list_dir_outcome (rel_path : str) (c : Server.conn) :
  exists paths,
    Server.list_dir P fs rel_path c
    = (OK (match Server.safe_path P rel_path with
           | OK full =>
               if Server.fs_isdir fs full then
                 match Server.fs_listdir fs full with
                 | inl names =>
                     match listing P fs full names [] with
                     | OK items => items
                     | _ => []
                     end
                 | inr _ => []
                 end
               else []
           | _ => []
           end),
       after c paths []).
Proof.
  unfold Server.list_dir, try_except.
  unfold bind at 1, lift at 1.
  destruct (Server.safe_path P rel_path) as [full|e|] eqn:Es; cbv beta iota.
  - unfold bind at 1, Server.isdir, bind at 1. rewrite (touch_after full c).
    unfold ret at 1.
    destruct (Server.fs_isdir fs full); cbn [negb]; cbv beta iota.
    + unfold bind at 1, Server.listdir, bind at 1. rewrite touch_after.
      unfold lift at 1. rewrite after_after. simpl app.
      destruct (Server.fs_listdir fs full) as [names|e]; simpl of_sum;
        cbv beta iota.
      * destruct (list_dir_loop_listing full names [] (after c [full; full] []))
          as (paths & Hl).
        rewrite Hl, after_after.
        pose proof (listing_total full names []) as Ht.
        destruct (listing P fs full names []); [| |congruence];
          eexists; reflexivity.
      * eexists. reflexivity.
    + eexists. reflexivity.
  - exists []. rewrite after_nothing. reflexivity.
  - exists []. rewrite after_nothing.
    unfold Server.safe_path in Es. cbv zeta in Es.
    destruct (negb _); discriminate.
Qed.

End Lister.

(** C7. [list_dir] never raises: it always returns a list. The list is
    empty when the sandbox refuses the path, when the path is not a
    directory, and when the directory cannot be read. Otherwise, [os.stat]
    failing with [OSError]s only, it holds one record for each child that
    can be examined, in the order of the enumeration: a child whose [stat]
    fails is left out and the others are still listed. *)
Theorem list_dir_lenient (P : Py.os_path) (fs : Server.filesystem)
  (rel_path : Py.str) (c : Server.conn) :
  (exists items c', Server.list_dir P fs rel_path c = (Py.OK items, c'))
  /\ (forall e, Server.safe_path P rel_path = Py.Err e ->
                fst (Server.list_dir P fs rel_path c) = Py.OK [])
  /\ (forall full, Server.safe_path P rel_path = Py.OK full ->
                   Server.fs_isdir fs full = false ->
                   fst (Server.list_dir P fs rel_path c) = Py.OK [])
  /\ (stat_raises_OSError fs ->
      fst (Server.list_dir P fs rel_path c)
      = Py.OK (expected_listing P fs rel_path)).
Proof.
  destruct (list_dir_outcome P fs rel_path c) as (paths & H).
  split; [eexists; eexists; exact H|].
  rewrite H. simpl fst. split; [|split].
  - intros e He. rewrite He. reflexivity.
  - intros full Hs Hd. rewrite Hs, Hd. reflexivity.
  - intros Hos. unfold expected_listing.
    destruct (Server.safe_path P rel_path) as [full|e|]; try reflexivity.
    destruct (Server.fs_isdir fs full); [|reflexivity].
    destruct (Server.fs_listdir fs full) as [names|e]; [|reflexivity].
    rewrite (listing_skips P fs full names Hos []). reflexivity.
Qed.

Lemma stat_raises_OSError_scenario : stat_raises_OSError Scenario.fs.
Proof.
  intros p e. unfold Scenario.fs. simpl.
  repeat match goal with
         | |- context [if ?b then _ else _] => destruct b
         end; intros E; inversion E; reflexivity.
Qed.

(** In the deployment [pub] holds [locked], which cannot be examined, and
    [ok.txt]: the listing of [pub] is the record of [ok.txt] alone. *)
Lemma list_dir_lenient_witness :
  let c := Scenario.connection [] in
  (exists items c',
     Server.list_dir Scenario.P Scenario.fs (Py.lit "pub") c
     = (Py.OK items, c'))
  /\ fst (Server.list_dir Scenario.P Scenario.fs (Py.lit "pub") c)
     = Py.OK [ {| Server.name := Py.lit "ok.txt"; Server.dir := false;
                  Server.size := 3; Server.mtime := 1700000000 |} ].
Proof.
  destruct (list_dir_lenient Scenario.P Scenario.fs (Py.lit "pub")
              (Scenario.connection [])) as (H1 & _ & _ & H4).
  split; [exact H1|].
  rewrite (H4 stat_raises_OSError_scenario). reflexivity.
Defined.

(* ===================================================================== *)
(** * The progress snapshot                                                *)
(* ===================================================================== *)

Section Progress.
Import Py.

Lemma truediv_nonzero (a b : Q) : ~ (b == 0)%Q -> truediv a b = OK (a / b)%Q.
Proof.
  intros Hb. unfold truediv.
  destruct (Qeq_bool b 0) eqn:E; [|reflexivity].
  apply Qeq_bool_iff in E. contradiction.
Qed.

(** Converting an [int] can overflow and do no other harm. *)
Lemma float_of_int_outcome (n : Z) :
  match float_of_int n with
  | OK _ => True
  | Err e => exc_class e = OverflowError
  | OutOfFuel => False
  end.
Proof.
  unfold float_of_int.
  destruct (binary_normalize prec emax n 0 false); cbn; auto.
Qed.

Lemma float_100 :
  float_of_int 100 = OK (S754_finite false 7036874417766400 (-46)).
Proof. reflexivity. Qed.

Lemma float_mib :
  float_of_int (1024 * 1024) = OK (S754_finite false 4503599627370496 (-32)).
Proof. reflexivity. Qed.

(** The percentage is guarded by [sz > 0]: its division is never one by
    zero. *)
Lemma percent_of_outcome (dl sz : Z) :
  match Client.percent_of dl sz with
  | OK _ => True
  | Err e => exc_class e = OverflowError
  | OutOfFuel => False
  end.
Proof.
  unfold Client.percent_of.
  destruct (Z.gtb_spec sz 0) as [Hpos|Hle]; [|exact I].
  rewrite float_100. unfold int_truediv.
  destruct sz as [|sz|sz]; try lia.
  destruct dl as [|dl|dl]; [exact I|..];
    match goal with
    | |- context [nearest ?sg ?n ?d] => destruct (nearest sg n d)
    end; cbn; auto.
Qed.

(** An elapsed time above the threshold is not zero. *)
Lemma above_threshold_nonzero (x : float) :
  flt float_0_1 x = true -> is_zero x = false.
Proof.
  destruct x as [sg|sg| |sg m e]; try reflexivity.
  destruct sg; discriminate.
Qed.

(** Past the guard the speed is computed, unless the number of bytes is too
    large for a float. *)
Lemma speed_past_guard (now t : float) (dl : Z) :
  is_zero t = false -> flt float_0_1 (fsub now t) = true ->
  Client.speed_of now dl (Some t)
  = rbind (float_of_int dl) (fun a =>
      OK (Float (fdiv (fdiv a (fsub now t))
                   (S754_finite false 4503599627370496 (-32))))).
Proof.
  intros Ht Hgt. unfold Client.speed_of, Client.truthy.
  rewrite Ht, Hgt. cbn [negb andb].
  destruct (float_of_int dl) as [a|e|]; try reflexivity. cbn [rbind].
  unfold float_truediv at 1.
  rewrite (above_threshold_nonzero _ Hgt). cbn [rbind].
  rewrite float_mib. reflexivity.
Qed.

Lemma speed_before_guard (now t : float) (dl : Z) :
  is_zero t = true \/ flt float_0_1 (fsub now t) = false ->
  Client.speed_of now dl (Some t) = OK (Int 0).
Proof.
  intros H. unfold Client.speed_of, Client.truthy.
  destruct H as [H|H]; rewrite H; [reflexivity|].
  rewrite andb_false_r. reflexivity.
Qed.

Lemma speed_of_outcome (now : float) (dl : Z) (st : option float) :
  match Client.speed_of now dl st with
  | OK _ => True
  | Err e => exc_class e = OverflowError
  | OutOfFuel => False
  end.
Proof.
  destruct st as [t|]; [|exact I].
  destruct (is_zero t) eqn:Ht;
    [rewrite speed_before_guard by (left; exact Ht); exact I|].
  destruct (flt float_0_1 (fsub now t)) eqn:Hgt;
    [|rewrite speed_before_guard by (right; exact Hgt); exact I].
  rewrite (speed_past_guard now t dl Ht Hgt).
  pose proof (float_of_int_outcome dl) as Ho.
  destruct (float_of_int dl); cbn; auto.
Qed.

(** C8, as amended. The snapshot of a task never divides by zero: when it
    fails at all, it fails with an overflow of a number too large for a
    float. Its speed is the integer zero when the task has no start time, when
    the start time is zero, and when the time elapsed since the start, as the
    subtraction of the two floats gives it, is not greater than the float
    [0.1]; otherwise the elapsed time is not zero and the speed is the number
    of bytes downloaded, divided by the elapsed time and by [1024 * 1024],
    rounded to two decimals. *)
Theorem progress_speed (now : float) (i : Client.info) :
  (forall e, Client.get_progress_of now i = Err e ->
             exc_class e = OverflowError)
  /\ Client.get_progress_of now i <> OutOfFuel
  /\ forall p,
       Client.get_progress_of now i = OK p ->
       (Client.start_time i = None -> Client.speed p = Int 0)
       /\ (forall t, Client.start_time i = Some t ->
                     is_zero t = true \/ flt float_0_1 (fsub now t) = false ->
                     Client.speed p = Int 0)
       /\ (forall t, Client.start_time i = Some t ->
                     is_zero t = false ->
                     flt float_0_1 (fsub now t) = true ->
                     is_zero (fsub now t) = false
                     /\ exists a mib,
                          float_of_int (Client.downloaded i) = OK a
                          /\ float_of_int (1024 * 1024) = OK mib
                          /\ Client.speed p
                             = Float (round_float
                                        (fdiv (fdiv a (fsub now t)) mib) 2)).
Proof.
  unfold Client.get_progress_of. cbv zeta.
  pose proof (percent_of_outcome (Client.downloaded i) (Client.i_size i))
    as Hpc.
  pose proof (speed_of_outcome now (Client.downloaded i)
                (Client.start_time i)) as Hsp.
  destruct (Client.percent_of _ _) as [pc|e1|]; cbn [rbind];
    [|split; [intros e E; inversion E; subst; exact Hpc
             |split; [discriminate|intros p E; discriminate]]
     |contradiction].
  destruct (Client.speed_of _ _ _) as [sp|e2|] eqn:Es; cbn [rbind];
    [|split; [intros e E; inversion E; subst; exact Hsp
             |split; [discriminate|intros p E; discriminate]]
     |contradiction].
  split; [discriminate|]. split; [discriminate|].
  intros p E. inversion E; subst p. cbn [Client.speed]. clear E.
  split; [|split].
  - intros Hn. rewrite Hn in Es. inversion Es. reflexivity.
  - intros t Ht Hg. rewrite Ht, (speed_before_guard now t _ Hg) in Es.
    inversion Es. reflexivity.
  - intros t Ht Hz Hgt. split; [exact (above_threshold_nonzero _ Hgt)|].
    rewrite Ht, (speed_past_guard now t _ Hz Hgt) in Es.
    destruct (float_of_int (Client.downloaded i)) as [a|e|];
      try discriminate.
    exists a, (S754_finite false 4503599627370496 (-32)).
    split; [reflexivity|]. split; [exact float_mib|].
    cbn [rbind] in Es. inversion Es. reflexivity.
Qed.

End Progress.

(** C8 as it was stated fails: with 2 MiB downloaded in the one second
    since the start, the speed reported is the float [2.0] (MiB per second),
    not the 2097152 bytes divided by the one second elapsed. *)
Lemma speed_is_not_bytes_per_second :
  let one := S754_finite false 4503599627370496 (-52) in
  let two := S754_finite false 4503599627370496 (-51) in
  let i := {| Client.remote_path := Py.lit "/a.bin";
              Client.save_path := Py.lit "a.bin";
              Client.i_size := 4194304;
              Client.downloaded := 2097152;
              Client.start_time := Some one;
              Client.status := Py.lit "downloading" |} in
  exists p a,
    Client.get_progress_of two i = Py.OK p
    /\ Client.speed p = Py.Float two
    /\ Py.float_of_int (Client.downloaded i) = Py.OK a
    /\ Client.speed p <> Py.Float (Py.fdiv a (Py.fsub two one)).
Proof.
  eexists. eexists. split; [reflexivity|]. split; [reflexivity|].
  split; [reflexivity|]. vm_compute. discriminate.
Qed.

(** The snapshot one second after the start, with 2 MiB downloaded. *)
Lemma progress_speed_witness :
  let one := S754_finite false 4503599627370496 (-52) in
  let two := S754_finite false 4503599627370496 (-51) in
  let i := {| Client.remote_path := Py.lit "/a.bin";
              Client.save_path := Py.lit "a.bin";
              Client.i_size := 4194304;
              Client.downloaded := 2097152;
              Client.start_time := Some one;
              Client.status := Py.lit "downloading" |} in
  exists p,
    Client.get_progress_of two i = Py.OK p
    /\ Py.is_zero (Py.fsub two one) = false
    /\ Client.speed p = Py.Float two.
Proof.
  intros one two i.
  destruct (progress_speed two i) as (_ & _ & H).
  exists {| Client.percent :=
              Py.Float (S754_finite false 7036874417766400 (-47));
            Client.speed := Py.Float two;
            Client.p_status := Py.lit "downloading" |}.
  split; [reflexivity|].
  destruct (H _ eq_refl) as (_ & _ & H3).
  destruct (H3 one eq_refl eq_refl eq_refl) as (Hnz & _).
  split; [exact Hnz|reflexivity].
Defined.

(** Two snapshots at the edge: an elapsed time of exactly the float [0.1]
    (from [0.1] to [0.2]) is not above the threshold, so the speed is zero;
    and 131072 bytes in five seconds, a quotient that is a little above
    0.025 as a float, round to [0.03]. *)
Lemma progress_at_the_edge :
  let f01 := Py.float_0_1 in
  let f02 := S754_finite false 7205759403792794 (-55) in
  let zero := S754_zero false in
  let one := S754_finite false 4503599627370496 (-52) in
  let six := S754_finite false 6755399441055744 (-50) in
  let i st dl := {| Client.remote_path := Py.lit "/a.bin";
                    Client.save_path := Py.lit "a.bin";
                    Client.i_size := 0;
                    Client.downloaded := dl;
                    Client.start_time := Some st;
                    Client.status := Py.lit "downloading" |} in
  option_map Client.speed
    (match Client.get_progress_of f02 (i f01 2097152) with
     | Py.OK p => Some p
     | _ => None
     end) = Some (Py.Int 0)
  /\ option_map Client.speed
       (match Client.get_progress_of six (i one 131072) with
        | Py.OK p => Some p
        | _ => None
        end)
     = Some (Py.Float (S754_finite false 8646911284551352 (-58))).
Proof. split; reflexivity. Qed.

(* ===================================================================== *)
(** * The listing parser of the clients                                    *)
(* ===================================================================== *)


Section ListingParser.
Import Py.

Variable libtext : library.

Lemma client_list_loop_step (line : str) (rest : list str)
  (items : list Client.item) :
  Client.list_loop libtext (line :: rest) items
  = if looked_at line then
      match numbers libtext line with
      | Some _ => Client.list_loop libtext rest (items ++ client_items libtext line)
      | None => Client.list_loop libtext [line] items
      end
    else Client.list_loop libtext rest items.
Proof.
  cbn [Client.list_loop]. unfold client_items, looked_at, nonblank,
    four_fields, numbers, field0, int.
  destruct (is_empty (strip line)); [reflexivity|]. cbn [negb andb].
  destruct (split 124%N line) as [|n [|d [|sz [|mt [|x l]]]]]; try reflexivity.
  destruct (parse_int libtext d) as [dv|]; [|reflexivity]. cbn [rbind].
  destruct (parse_int libtext sz) as [szv|]; [|reflexivity]. cbn [rbind].
  destruct (parse_int libtext mt) as [mtv|]; reflexivity.
Qed.

Lemma client_list_loop_fails (line : str) (items : list Client.item) :
  looked_at line = true -> numbers libtext line = None ->
  exists e, Client.list_loop libtext [line] items = Err e.
Proof.
  cbn [Client.list_loop]. unfold looked_at, nonblank, four_fields, numbers, int.
  destruct (is_empty (strip line)); [discriminate|]. cbn [negb andb].
  destruct (split 124%N line) as [|n [|d [|sz [|mt [|x l]]]]];
    try discriminate.
  intros _.
  destruct (parse_int libtext d) as [dv|]; [|intros _; eexists; reflexivity].
  destruct (parse_int libtext sz) as [szv|]; [|intros _; eexists; reflexivity].
  destruct (parse_int libtext mt) as [mtv|]; [discriminate|].
  intros _. eexists. reflexivity.
Qed.

Lemma client_list_loop_well_formed (lines : list str) :
  well_formed_lines libtext lines ->
  forall items,
    Client.list_loop libtext lines items
    = OK (items ++ flat_map (client_items libtext) lines).
Proof.
  induction 1 as [|line rest Hl Hrest IH]; intros items.
  - simpl. rewrite app_nil_r. reflexivity.
  - rewrite client_list_loop_step. simpl flat_map.
    destruct (looked_at line) eqn:El.
    + destruct (numbers libtext line) as [nums|] eqn:En;
        [|exfalso; exact (Hl eq_refl eq_refl)].
      rewrite IH, app_assoc. reflexivity.
    + rewrite IH. unfold client_items. rewrite El. reflexivity.
Qed.

Lemma client_list_loop_malformed (lines : list str) :
  malformed_line libtext lines ->
  forall items, exists e, Client.list_loop libtext lines items = Err e.
Proof.
  induction lines as [|line rest IH]; intros Hex items.
  - inversion Hex.
  - rewrite client_list_loop_step.
    destruct (looked_at line) eqn:El.
    + destruct (numbers libtext line) as [nums|] eqn:En.
      * apply IH. inversion Hex as [? ? [_ Hn]|]; subst; [congruence|assumption].
      * destruct (client_list_loop_fails line items El En) as [e He].
        rewrite He. exists e. reflexivity.
    + apply IH. inversion Hex as [? ? [Hl _]|]; subst; [congruence|assumption].
Qed.

Lemma cli_list_loop_step (line : str) (rest : list str)
  (items : list CLI.item) :
  CLI.list_loop libtext (line :: rest) items
  = if looked_at line then
      match numbers libtext line with
      | Some _ => CLI.list_loop libtext rest (items ++ cli_items libtext line)
      | None => CLI.list_loop libtext [line] items
      end
    else CLI.list_loop libtext rest items.
Proof.
  cbn [CLI.list_loop]. unfold cli_items, looked_at, nonblank,
    four_fields, numbers, field0, int.
  destruct (is_empty (strip line)); [reflexivity|]. cbn [negb andb].
  destruct (split 124%N line) as [|n [|d [|sz [|mt [|x l]]]]]; try reflexivity.
  destruct (parse_int libtext d) as [dv|]; [|reflexivity]. cbn [rbind].
  destruct (parse_int libtext sz) as [szv|]; [|reflexivity]. cbn [rbind].
  destruct (parse_int libtext mt) as [mtv|]; reflexivity.
Qed.

Lemma cli_list_loop_fails (line : str) (items : list CLI.item) :
  looked_at line = true -> numbers libtext line = None ->
  exists e, CLI.list_loop libtext [line] items = Err e.
Proof.
  cbn [CLI.list_loop]. unfold looked_at, nonblank, four_fields, numbers, int.
  destruct (is_empty (strip line)); [discriminate|]. cbn [negb andb].
  destruct (split 124%N line) as [|n [|d [|sz [|mt [|x l]]]]];
    try discriminate.
  intros _.
  destruct (parse_int libtext d) as [dv|]; [|intros _; eexists; reflexivity].
  destruct (parse_int libtext sz) as [szv|]; [|intros _; eexists; reflexivity].
  destruct (parse_int libtext mt) as [mtv|]; [discriminate|].
  intros _. eexists. reflexivity.
Qed.

Lemma cli_list_loop_well_formed (lines : list str) :
  well_formed_lines libtext lines ->
  forall items,
    CLI.list_loop libtext lines items = OK (items ++ flat_map (cli_items libtext) lines).
Proof.
  induction 1 as [|line rest Hl Hrest IH]; intros items.
  - simpl. rewrite app_nil_r. reflexivity.
  - rewrite cli_list_loop_step. simpl flat_map.
    destruct (looked_at line) eqn:El.
    + destruct (numbers libtext line) as [nums|] eqn:En;
        [|exfalso; exact (Hl eq_refl eq_refl)].
      rewrite IH, app_assoc. reflexivity.
    + rewrite IH. unfold cli_items. rewrite El. reflexivity.
Qed.

Lemma cli_list_loop_malformed (lines : list str) :
  malformed_line libtext lines ->
  forall items, exists e, CLI.list_loop libtext lines items = Err e.
Proof.
  induction lines as [|line rest IH]; intros Hex items.
  - inversion Hex.
  - rewrite cli_list_loop_step.
    destruct (looked_at line) eqn:El.
    + destruct (numbers libtext line) as [nums|] eqn:En.
      * apply IH. inversion Hex as [? ? [_ Hn]|]; subst; [congruence|assumption].
      * destruct (cli_list_loop_fails line items El En) as [e He].
        rewrite He. exists e. reflexivity.
    + apply IH. inversion Hex as [? ? [Hl _]|]; subst; [congruence|assumption].
Qed.

(** What the two listing functions return once the request has been sent
    and a LIST_RESP packet with payload [data] arrives. *)

Lemma client_pack_inv (t : Z) (p req : bytes) :
  Client.pack libtext t p = OK req ->
  exists h, req = Client.MAGIC ++ h ++ p
            /\ List.length h = 5%nat
            /\ struct_unpack_BI libtext h = OK (t, Z.of_nat (List.length p)).
Proof. exact (pack_inv libtext t p req). Qed.

Lemma client_API_list_response (path : str) (data req pkt resp : bytes)
  (s : sock) (rest : inbox) :
  encode libtext (replace_char 92%N 47%N path) = OK req ->
  Client.pack libtext Client.TYPE_LIST req = OK pkt ->
  Client.pack libtext Client.TYPE_LIST_RESP data = OK resp ->
  carries (s_in s) resp rest ->
  fst (Client.API_list libtext path s)
  = match Client.list_loop libtext (splitlines (decode_lossy Ignore data)) []
    with
    | OK items => OK (Client.Success items)
    | Err e => OK (Client.Failure (exc_msg e))
    | OutOfFuel => OutOfFuel
    end.
Proof.
  intros Henc Hpk Hresp Hc.
  destruct (client_pack_inv _ _ _ Hresp) as (h & -> & Hl & Hu).
  unfold Client.API_list, try_except.
  unfold bind at 1, lift at 1. rewrite Henc.
  unfold bind at 1, lift at 1. rewrite Hpk.
  unfold bind at 1, sock_sendall.
  unfold bind at 1.
  set (s1 := {| s_in := s_in s; s_out := s_out s ++ [pkt];
                s_closed := s_closed s |}).
  rewrite (client_recv_packet_carries libtext Client.TYPE_LIST_RESP h data
             s1 rest Hl Hu Hc).
  change (Client.TYPE_LIST_RESP =? Client.TYPE_ERR) with false. cbv iota.
  unfold bind at 1, sock_close. unfold bind at 1.
  change (Client.TYPE_LIST_RESP =? Client.TYPE_LIST_RESP) with true.
  cbv iota. unfold lift.
  destruct (Client.list_loop libtext _ []); reflexivity.
Qed.

Lemma cli_list_directory_response (current_path path : str)
  (data req pkt resp : bytes) (s : sock) (rest : inbox) :
  encode libtext
    (replace_char 92%N 47%N (if is_empty path then current_path else path))
  = OK req ->
  CLI.pack libtext CLI.TYPE_LIST req = OK pkt ->
  CLI.pack libtext CLI.TYPE_LIST_RESP data = OK resp ->
  carries (s_in s) resp rest ->
  fst (CLI.list_directory libtext current_path path s)
  = match CLI.list_loop libtext (splitlines (decode_lossy Ignore data)) []
    with
    | OK items => OK items
    | Err e => OK []
    | OutOfFuel => OutOfFuel
    end.
Proof.
  intros Henc Hpk Hresp Hc.
  destruct (client_pack_inv _ _ _ Hresp) as (h & -> & Hl & Hu).
  unfold CLI.list_directory, try_except.
  unfold bind at 1, lift at 1. rewrite Henc.
  unfold bind at 1, lift at 1. rewrite Hpk.
  unfold bind at 1, sock_sendall.
  unfold bind at 1.
  set (s1 := {| s_in := s_in s; s_out := s_out s ++ [pkt];
                s_closed := s_closed s |}).
  rewrite (cli_recv_packet_carries libtext CLI.TYPE_LIST_RESP h data
             s1 rest Hl Hu Hc).
  change (CLI.TYPE_LIST_RESP =? CLI.TYPE_ERR) with false. cbv iota.
  unfold bind at 1, sock_close.
  change (CLI.TYPE_LIST_RESP =? CLI.TYPE_LIST_RESP) with true.
  cbv iota. unfold lift.
  destruct (CLI.list_loop libtext _ []); reflexivity.
Qed.

(** C10, as amended. The parsing loop of either client looks at the lines
    that are not blank and split on [|] into exactly four fields; a blank
    line and a line with another number of fields (a name that holds a [|])
    are passed over without an error. When the three numeric fields of
    every line looked at are integers, the loop returns one record per such
    line, in order, and so does the listing function. When some line looked
    at has a field that is not an integer, the loop raises and no record at
    all is returned: [API.list] reports a failure and [list_directory] an
    empty directory. *)
Theorem listing_parser (lines : list str) :
  (well_formed_lines libtext lines ->
   Client.list_loop libtext lines []
   = OK (flat_map (client_items libtext) lines)
   /\ CLI.list_loop libtext lines []
      = OK (flat_map (cli_items libtext) lines))
  /\ (malformed_line libtext lines ->
      (exists e, Client.list_loop libtext lines [] = Err e)
      /\ (exists e, CLI.list_loop libtext lines [] = Err e))
  /\ (forall line, looked_at line = false ->
                   client_items libtext line = []
                   /\ cli_items libtext line = [])
  /\ (forall current_path path data req pkt resp s rest,
        lines = splitlines (decode_lossy Ignore data) ->
        encode libtext
          (replace_char 92%N 47%N
             (if is_empty path then current_path else path)) = OK req ->
        Client.pack libtext Client.TYPE_LIST req = OK pkt ->
        Client.pack libtext Client.TYPE_LIST_RESP data = OK resp ->
        carries (s_in s) resp rest ->
        (well_formed_lines libtext lines ->
         fst (Client.API_list libtext
                (if is_empty path then current_path else path) s)
         = OK (Client.Success (flat_map (client_items libtext) lines))
         /\ fst (CLI.list_directory libtext current_path path s)
            = OK (flat_map (cli_items libtext) lines))
        /\ (malformed_line libtext lines ->
            (exists msg,
               fst (Client.API_list libtext
                      (if is_empty path then current_path else path) s)
               = OK (Client.Failure msg))
            /\ fst (CLI.list_directory libtext current_path path s) = OK [])).
Proof.
  assert (Hwf : well_formed_lines libtext lines ->
                Client.list_loop libtext lines []
                = OK (flat_map (client_items libtext) lines)
                /\ CLI.list_loop libtext lines []
                   = OK (flat_map (cli_items libtext) lines)).
  { intros Hwf. split.
    - apply (client_list_loop_well_formed lines Hwf []).
    - apply (cli_list_loop_well_formed lines Hwf []). }
  assert (Hmal : malformed_line libtext lines ->
                 (exists e, Client.list_loop libtext lines [] = Err e)
                 /\ (exists e, CLI.list_loop libtext lines [] = Err e)).
  { intros Hm. split.
    - apply client_list_loop_malformed. assumption.
    - apply cli_list_loop_malformed. assumption. }
  split; [exact Hwf|]. split; [exact Hmal|]. split.
  - intros line Hl. unfold client_items, cli_items. rewrite Hl. auto.
  - intros current_path path data req pkt resp s rest Hlines Henc Hpk Hresp Hc.
    rewrite (client_API_list_response _ data req pkt resp s rest
               Henc Hpk Hresp Hc).
    rewrite (cli_list_directory_response current_path path data req pkt resp
               s rest Henc Hpk Hresp Hc).
    rewrite <- Hlines. split.
    + intros H. destruct (Hwf H) as [H1 H2]. rewrite H1, H2. auto.
    + intros H. destruct (Hmal H) as [[e1 H1] [e2 H2]]. rewrite H1, H2.
      split; [eexists|]; reflexivity.
Qed.

End ListingParser.

(** The parser on a listing of four lines: two records, a blank line and a
    line whose name holds a [|]. *)
Lemma listing_parser_witness :
  let lines := [Py.lit "a.txt|0|10|1700000000"; Py.lit "  ";
                Py.lit "x|y|0|3|1700000000"; Py.lit "sub|1|0|1700000100"] in
  let a := {| Client.name := Py.lit "a.txt"; Client.dir := false;
              Client.size := 10; Client.mtime := 1700000000 |} in
  let b := {| Client.name := Py.lit "sub"; Client.dir := true;
              Client.size := 0; Client.mtime := 1700000100 |} in
  Client.list_loop Scenario.libtext lines [] = Py.OK [a; b]
  /\ CLI.list_loop Scenario.libtext lines []
     = Py.OK (flat_map (cli_items Scenario.libtext) lines).
Proof.
  intros lines a b.
  destruct (listing_parser Scenario.libtext lines) as (H & _ & _ & _).
  apply H. unfold well_formed_lines, lines.
  repeat constructor; vm_compute; intros; discriminate.
Defined.

(** A row whose numbers are written with the Arabic-Indic digits zero, one
    and two is read like [a|0|1|2] by both clients. *)
Example listing_with_arabic_indic_digits :
  let line := Py.lit "a|" ++ [1632%N] ++ Py.lit "|" ++ [1633%N]
              ++ Py.lit "|" ++ [1634%N] in
  Client.list_loop Scenario.libtext [line] []
  = Py.OK [ {| Client.name := Py.lit "a"; Client.dir := false;
               Client.size := 1; Client.mtime := 2 |} ]
  /\ CLI.list_loop Scenario.libtext [line] []
     = Py.OK [ {| CLI.name := Py.lit "a"; CLI.is_dir := false;
                  CLI.size := 1; CLI.mtime := 2 |} ].
Proof. split; reflexivity. Qed.

(** C10 as it was stated fails: of the two lines [a|0|1|2] and [b|0|x|3]
    the first has four fields and integer size and time, the second has a
    size that is not an integer. The second line is not dropped alone: the
    graphical client reports a failure and the command-line client an empty
    directory, so that the record of [a] is lost too. *)
Lemma bad_number_loses_the_listing :
  let data := Py.blit "a|0|1|2" ++ [x0a] ++ Py.blit "b|0|x|3" in
  let a := {| Client.name := Py.lit "a"; Client.dir := false;
              Client.size := 1; Client.mtime := 2 |} in
  exists resp,
    Server.pack Scenario.libtext 2 data = Py.OK resp
    /\ client_items Scenario.libtext (Py.lit "a|0|1|2") = [a]
    /\ fst (Client.API_list Scenario.libtext (Py.lit "/")
              (Scenario.socket [resp]))
       = Py.OK (Client.Failure
                  (Py.message Scenario.libtext (Py.InvalidLiteral (Py.lit "x"))))
    /\ fst (Client.API_list Scenario.libtext (Py.lit "/")
              (Scenario.socket [resp]))
       <> Py.OK (Client.Success [a])
    /\ fst (CLI.list_directory Scenario.libtext (Py.lit "/") []
              (Scenario.socket [resp]))
       = Py.OK [].
Proof.
  eexists. split; [reflexivity|]. split; [reflexivity|].
  split; [reflexivity|]. split; [vm_compute; discriminate|reflexivity].
Qed.

(* ===================================================================== *)
(** * More about the runtime: text and numbers                             *)
(* ===================================================================== *)

Ltac decide_ltb :=
  repeat match goal with
         | |- context [N.ltb ?a ?b] =>
             destruct (N.ltb_spec a b); try lia
         | |- context [N.leb ?a ?b] =>
             destruct (N.leb_spec a b); try lia
         | |- context [N.eqb ?a ?b] =>
             destruct (N.eqb_spec a b); try lia
         end.

Section CodecFacts.
Import Py.

Variable libtext : library.

Lemma to_N_byte_of_N (n : N) : (n < 256)%N -> Byte.to_N (byte_of_N n) = n.
Proof.
  intros Hn. unfold byte_of_N. apply N2Z.inj.
  change (Z.of_N (Byte.to_N (byte_of_Z (Z.of_N n))))
    with (Z_of_byte (byte_of_Z (Z.of_N n))).
  rewrite Z_of_byte_of_Z. apply Z.mod_small. lia.
Qed.

(** The decoder reads back a character that the encoder has written. *)
Lemma Some_eq {A} (a b : A) : Some a = Some b -> a = b.
Proof. congruence. Qed.

Lemma utf8_next_encode_char (c : N) (bs : bytes) (rest : list N) :
  utf8_encode_char c = Some bs ->
  utf8_next (map Byte.to_N bs ++ rest) = Some (Some c, rest)
  /\ bs <> [].
Proof.
  unfold utf8_encode_char.
  replace (c / 262144)%N with (c / 64 / 64 / 64)%N
    by (rewrite !N.Div0.div_div; reflexivity).
  replace (c / 4096)%N with (c / 64 / 64)%N
    by (rewrite N.Div0.div_div; reflexivity).
  pose proof (N.div_mod' c 64) as D1.
  pose proof (N.mod_lt c 64 ltac:(lia)) as M1.
  pose proof (N.div_mod' (c / 64) 64) as D2.
  pose proof (N.mod_lt (c / 64) 64 ltac:(lia)) as M2.
  pose proof (N.div_mod' (c / 64 / 64) 64) as D3.
  pose proof (N.mod_lt (c / 64 / 64) 64 ltac:(lia)) as M3.
  set (q1 := (c / 64)%N) in *. set (r1 := (c mod 64)%N) in *.
  set (q2 := (q1 / 64)%N) in *. set (r2 := (q1 mod 64)%N) in *.
  set (q3 := (q2 / 64)%N) in *. set (r3 := (q2 mod 64)%N) in *.
  clearbody q1 r1 q2 r2 q3 r3.
  destruct (N.ltb_spec c 128).
  { intros E. apply Some_eq in E. subst bs. split; [|discriminate]. cbn [map].
    rewrite to_N_byte_of_N by lia. cbn [app]. unfold utf8_next.
    decide_ltb. reflexivity. }
  destruct (N.ltb_spec c 2048).
  { intros E. apply Some_eq in E. subst bs. split; [|discriminate]. cbn [map].
    rewrite !to_N_byte_of_N by lia. cbn [app]. unfold utf8_next, is_cont.
    decide_ltb. cbn [andb]. f_equal. f_equal. f_equal. lia. }
  destruct ((55296 <=? c) && (c <=? 57343))%N eqn:Es; [discriminate|].
  assert (Hs : (c < 55296 \/ 57343 < c)%N).
  { apply andb_false_iff in Es. destruct Es as [Es|Es].
    - left. apply N.leb_gt in Es. exact Es.
    - right. apply N.leb_gt in Es. exact Es. }
  clear Es.
  destruct (N.ltb_spec c 65536).
  { intros E. apply Some_eq in E. subst bs. split; [|discriminate]. cbn [map].
    rewrite !to_N_byte_of_N by lia. cbn [app]. unfold utf8_next, is_cont.
    decide_ltb; cbn [andb orb negb]; f_equal; f_equal; f_equal; lia. }
  destruct (N.ltb_spec c 1114112); [|discriminate].
  intros E. apply Some_eq in E. subst bs. split; [|discriminate]. cbn [map].
  rewrite !to_N_byte_of_N by lia. cbn [app]. unfold utf8_next, is_cont.
  decide_ltb; cbn [andb orb negb]; f_equal; f_equal; f_equal; lia.
Qed.

Lemma utf8_decode_encode (m : error_mode) (s : str) :
  forall b fuel,
    utf8_encode s = Some b -> (List.length b <= fuel)%nat ->
    utf8_decode_loop m fuel (map Byte.to_N b) = Some s.
Proof.
  induction s as [|c s IH]; intros b fuel Henc Hf.
  - inversion Henc; subst. destruct fuel; reflexivity.
  - simpl in Henc.
    destruct (utf8_encode_char c) as [bc|] eqn:Ec; [|discriminate].
    destruct (utf8_encode s) as [bs|] eqn:Es; [|discriminate].
    inversion Henc; subst. clear Henc.
    destruct (utf8_next_encode_char c bc (map Byte.to_N bs) Ec) as [Hn Hne].
    rewrite length_app in Hf.
    destruct fuel as [|fuel]; [destruct bc; [congruence|simpl in Hf; lia]|].
    cbn [utf8_decode_loop]. rewrite map_app, Hn.
    rewrite (IH bs fuel eq_refl); [reflexivity|].
    destruct bc; [congruence|simpl in Hf; lia].
Qed.

(** Encoding a text and decoding the bytes gives the text again, whatever
    the treatment of errors. *)
Lemma decode_encode (s : str) (b : bytes) :
  encode libtext s = OK b ->
  decode libtext Strict b = OK s
  /\ forall m, decode_lossy m b = s.
Proof.
  unfold encode, decode, decode_lossy.
  destruct (utf8_encode s) as [b'|] eqn:E; [|discriminate].
  intros H. inversion H; subst. split.
  - rewrite (utf8_decode_encode Strict s b _ E (le_n _)). reflexivity.
  - intros m. rewrite (utf8_decode_encode m s b _ E (le_n _)). reflexivity.
Qed.

End CodecFacts.

(* ===================================================================== *)
(** * Numbers as text                                                      *)
(* ===================================================================== *)

Section NumberText.
Import Py.

Variable libtext : library.

Lemma lit_String (a : ascii) (s : string) :
  lit (String a s) = N_of_ascii a :: lit s.
Proof. reflexivity. Qed.

Lemma uint_digits (d : Decimal.uint) :
  Forall (fun c => (48 <= c <= 57)%N) (lit (NilEmpty.string_of_uint d)).
Proof.
  induction d; [apply Forall_nil|..];
    cbn [NilEmpty.string_of_uint]; rewrite lit_String;
    (apply Forall_cons; [vm_compute; split; discriminate|assumption]).
Qed.

Ltac digit_step :=
  cbn [NilEmpty.string_of_uint Decimal.nb_digits]; rewrite lit_String;
  cbn [scan_digits];
  match goal with
  | |- context [is_ascii_digit (N_of_ascii ?a)] =>
      let v := eval vm_compute in (is_ascii_digit (N_of_ascii a)) in
      change (is_ascii_digit (N_of_ascii a)) with v;
      let w := eval vm_compute in (Z.of_N (N_of_ascii a)) in
      change (Z.of_N (N_of_ascii a)) with w
  end;
  cbv iota.

Ltac count_step :=
  match goal with
  | |- scan_digits _ ?m _ (lit (NilEmpty.string_of_uint ?d0))
       = Some (_, ?r, _) =>
      replace r with (m + Z.of_nat (Decimal.nb_digits d0)) by lia
  end.

Lemma scan_digits_acc (d : Decimal.uint) :
  forall (acc : positive) (n : Z),
    scan_digits (Z.pos acc) n false (lit (NilEmpty.string_of_uint d))
    = Some (Z.pos (Pos.of_uint_acc d acc),
            n + Z.of_nat (Decimal.nb_digits d), []).
Proof.
  induction d as [|d IH|d IH|d IH|d IH|d IH|d IH|d IH|d IH|d IH|d IH];
    intros acc n;
    [cbn; rewrite Z.add_0_r; reflexivity|..];
    digit_step; cbn [Pos.of_uint_acc]; count_step;
    match goal with
    | |- scan_digits ?a _ _ _ = Some (Z.pos (Pos.of_uint_acc _ ?b), _, _) =>
        replace a with (Z.pos b) by lia
    end;
    apply IH.
Qed.

Lemma scan_digits_uint (d : Decimal.uint) :
  forall n : Z,
    scan_digits 0 n false (lit (NilEmpty.string_of_uint d))
    = Some (Z.of_N (Pos.of_uint d), n + Z.of_nat (Decimal.nb_digits d), []).
Proof.
  induction d as [|d IH|d IH|d IH|d IH|d IH|d IH|d IH|d IH|d IH|d IH];
    intros n;
    [cbn; rewrite Z.add_0_r; reflexivity
    |digit_step; cbn [Pos.of_uint]; count_step; apply IH
    |digit_step; cbn [Pos.of_uint Z.of_N]; count_step;
     apply scan_digits_acc..].
Qed.

(** A text of ASCII characters goes to the reader of literals as it is. *)
Lemma to_ascii_ascii (s : str) : ascii_only s -> to_ascii libtext s = s.
Proof.
  intros H. unfold to_ascii.
  replace (forallb (fun c => (c <? 128)%N) s) with true; [reflexivity|].
  symmetry. apply forallb_forall. intros c Hc. apply N.ltb_lt.
  exact (proj1 (Forall_forall _ _) H c Hc).
Qed.

(** Digits are no white space, no sign and no underscore. *)
Lemma digits_at_front (s : str) :
  Forall (fun c => (48 <= c <= 57)%N) s ->
  skip_c_space s = s /\ split_sign s = (false, s)
  /\ starts_with_underscore s = false.
Proof.
  destruct 1 as [|c s Hc Hs]; [repeat split|].
  cbn [skip_c_space split_sign starts_with_underscore]. unfold is_c_space.
  decide_ltb; repeat split.
Qed.

(** The decimal text of a number of at most 640 bits has at most 640
    digits. *)
Lemma to_uint_digits (p : positive) :
  Z.pos p < 2 ^ 640 -> (Decimal.nb_digits (Pos.to_uint p) <= 640)%nat.
Proof.
  intros Hp. unfold Pos.to_uint. rewrite DecimalFacts.nb_digits_rev.
  pose proof (to_little_uint_digits p) as Hd.
  pose proof (size_nat_bound p 640 Hp) as Hs. lia.
Qed.

(** The literal that [str] writes for a positive number. *)
Lemma int_literal_to_uint (p : positive) (negative : bool) :
  Z.pos p < 2 ^ 640 ->
  int_literal libtext
    ((if negative then [45%N] else [])
     ++ lit (NilEmpty.string_of_uint (Pos.to_uint p)))
  = Value (if negative then Z.neg p else Z.pos p).
Proof.
  intros Hp.
  pose proof (DecimalPos.Unsigned.of_to p) as Hof.
  pose proof (DecimalPos.Unsigned.to_uint_nonnil p) as Hnn.
  pose proof (uint_digits (Pos.to_uint p)) as Hd.
  pose proof (to_uint_digits p Hp) as Hn.
  pose proof (string_of_uint_ascii (Pos.to_uint p)) as Ha.
  destruct (digits_at_front _ Hd) as (Hsk & Hsg & Hus).
  assert (Hnz : Decimal.nb_digits (Pos.to_uint p) <> 0%nat).
  { intros H0. apply Hnn. apply DecimalFacts.nb_digits_0. exact H0. }
  unfold int_literal.
  assert (Hfront : split_sign
                     (skip_c_space
                        (to_ascii libtext
                           ((if negative then [45%N] else [])
                            ++ lit (NilEmpty.string_of_uint (Pos.to_uint p)))))
                   = (negative, lit (NilEmpty.string_of_uint (Pos.to_uint p)))).
  { destruct negative.
    - rewrite to_ascii_ascii by (constructor; [reflexivity|exact Ha]).
      reflexivity.
    - cbn [app]. rewrite to_ascii_ascii by exact Ha.
      rewrite Hsk. exact Hsg. }
  rewrite Hfront, Hus, scan_digits_uint, Hof.
  replace (640 <? 0 + Z.of_nat (Decimal.nb_digits (Pos.to_uint p)))
    with false by (symmetry; apply Z.ltb_ge; lia).
  replace (0 + Z.of_nat (Decimal.nb_digits (Pos.to_uint p)) =? 0)
    with false by (symmetry; apply Z.eqb_neq; lia).
  cbn [andb skip_c_space Z.of_N]. destruct negative; reflexivity.
Qed.

(** [int(str(z)) == z] for a number of at most 640 bits: the limit on the
    digits of a literal, whatever it is, lets it through. *)
Lemma parse_int_str_of_int (z : Z) :
  Z.abs z < 2 ^ 640 -> parse_int libtext (str_of_int z) = Some z.
Proof.
  intros Hz. unfold parse_int, str_of_int.
  destruct z as [|p|p]; [reflexivity| |];
    cbn [Z.to_int NilZero.string_of_int];
    pose proof (DecimalPos.Unsigned.to_uint_nonnil p) as Hnn;
    assert (Hs : NilZero.string_of_uint (Pos.to_uint p)
                 = NilEmpty.string_of_uint (Pos.to_uint p))
      by (destruct (Pos.to_uint p); [congruence|reflexivity..]);
    rewrite Hs.
  - pose proof (int_literal_to_uint p false ltac:(simpl in Hz; lia)) as E.
    cbn [app] in E. rewrite E. reflexivity.
  - rewrite lit_String. change (N_of_ascii "-") with 45%N.
    pose proof (int_literal_to_uint p true ltac:(simpl in Hz; lia)) as E.
    cbn [app] in E. rewrite E. reflexivity.
Qed.

Lemma int_str_of_int (z : Z) :
  short_number z -> int libtext (str_of_int z) = OK z.
Proof.
  intros Hz. unfold int. rewrite parse_int_str_of_int by exact Hz.
  reflexivity.
Qed.

(** The size of a file is such a number. *)
Lemma short_below_63 (z : Z) : 0 <= z < 2 ^ 63 -> short_number z.
Proof.
  intros Hz. unfold short_number. rewrite Z.abs_eq by lia.
  apply Z.lt_trans with (2 ^ 63); [lia|].
  apply Z.pow_lt_mono_r; lia.
Qed.

End NumberText.

(* ===================================================================== *)
(** * Packets one after another                                            *)
(* ===================================================================== *)

Section Packets.
Import Py.

Variable libtext : library.

Lemma carries_app (i j k : inbox) (a b : bytes) :
  carries i a j -> carries j b k -> carries i (a ++ b) k.
Proof.
  induction 1 as [i|d i bs rest Hd Hc IH]; intros Hb; [exact Hb|].
  rewrite <- app_assoc. constructor; [assumption|apply IH; assumption].
Qed.

Lemma carries_segments (segs : list bytes) (rest : inbox) :
  Forall (fun d => d <> []) segs ->
  carries (map Seg segs ++ rest) (List.concat segs) rest.
Proof.
  induction 1 as [|d segs Hd Hs IH]; simpl; constructor; assumption.
Qed.

Lemma carries_weight (i rest : inbox) (bs : bytes) :
  carries i bs rest ->
  (List.length bs + inbox_weight rest <= inbox_weight i)%nat.
Proof.
  induction 1 as [i|d i bs rest Hd Hc IH]; simpl; [lia|].
  rewrite length_app. lia.
Qed.

(** A packet at the head of the inbox is received, and what follows it
    stays. *)
Lemma server_recv_packed (t : Z) (p pkt more : bytes) (c : Server.conn)
  (rest : inbox) :
  Server.pack libtext t p = OK pkt ->
  carries (Server.c_inbox c) (pkt ++ more) rest ->
  exists i',
    Server.recv_packet libtext c = (OK (t, p), Server.with_inbox c i')
    /\ carries i' more rest.
Proof.
  intros Hp Hc. destruct (pack_inv libtext _ _ _ Hp) as (h & -> & Hh & Hu).
  rewrite <- !app_assoc in Hc. unfold Server.recv_packet.
  destruct (server_recv_exact_carries Server.MAGIC _ c rest Hc)
    as (i1 & H1 & Hc1).
  change (List.length Server.MAGIC) with 4%nat in H1.
  unfold bind at 1. rewrite H1. rewrite bytes_eqb_refl. cbv beta iota.
  change (negb true) with false. cbv iota.
  rewrite <- (with_inbox_inbox c i1) in Hc1.
  destruct (server_recv_exact_carries h _ _ rest Hc1) as (i2 & H2 & Hc2).
  rewrite Hh in H2. unfold bind at 1. rewrite H2.
  unfold bind at 1, lift. rewrite Hu. cbv beta iota.
  rewrite Nat2Z.id.
  rewrite with_inbox_twice in *.
  rewrite <- (with_inbox_inbox c i2) in Hc2.
  destruct (server_recv_exact_carries p _ _ rest Hc2) as (i3 & H3 & Hc3).
  unfold bind at 1. rewrite H3. rewrite with_inbox_twice.
  exists i3. split; [reflexivity|exact Hc3].
Qed.

(** One [recv] that asks for at least what the inbox carries. *)
Lemma recv_carries_upto (a : bytes) (i rest : inbox) (k : nat) :
  a <> [] -> carries i a rest -> (List.length a <= k)%nat ->
  exists d a' i',
    recv k i = (OK d, i') /\ d <> [] /\ a = d ++ a' /\ carries i' a' rest.
Proof.
  intros Ha H Hk. inversion H as [|d i0 bs r Hd Hc Hi Hb]; subst;
    [congruence|].
  exists d, bs, i0. simpl. rewrite length_app in Hk.
  replace (List.length d <=? k)%nat with true
    by (symmetry; apply Nat.leb_le; lia).
  auto.
Qed.

(** Where a proper prefix of [m ++ h ++ p] ends. *)
Lemma prefix_of_three {A} (m h p pre suf : list A) :
  m ++ h ++ p = pre ++ suf -> suf <> [] ->
  (List.length pre < List.length m)%nat
  \/ (exists l, pre = m ++ l /\ (List.length l < List.length h)%nat)
  \/ (exists l, pre = m ++ h ++ l /\ (List.length l < List.length p)%nat).
Proof.
  intros E Hs.
  destruct (app_eq_app m (h ++ p) pre suf E) as [l [[E1 E2]|[E1 E2]]].
  - destruct l as [|x l].
    + rewrite app_nil_r in E1. subst pre. simpl in E2.
      destruct h as [|y h].
      * right. right. exists []. split; [rewrite !app_nil_r; reflexivity|].
        simpl in E2. subst suf. destruct p; [congruence|simpl; lia].
      * right. left. exists []. split; [rewrite app_nil_r; reflexivity|].
        simpl. lia.
    + left. subst m. rewrite length_app. simpl. lia.
  - destruct (app_eq_app h p l suf E2) as [l' [[E3 E4]|[E3 E4]]].
    + destruct l' as [|x l'].
      * rewrite app_nil_r in E3. subst l. simpl in E4. subst suf.
        right. right. exists []. split; [rewrite app_nil_r; assumption|].
        destruct p; [congruence|simpl; lia].
      * right. left. exists l. split; [assumption|].
        subst h. rewrite length_app. simpl. lia.
    + right. right. exists l'. split; [subst; reflexivity|].
      subst p. rewrite length_app. destruct suf; [congruence|simpl; lia].
Qed.

(** [recv_exact] when the peer shuts down before [n] bytes have come. *)
Lemma server_recv_exact_loop_short (fuel : nat) :
  forall (n : nat) (buf a : bytes) (c : Server.conn),
    carries (Server.c_inbox c) a [] ->
    (List.length buf + List.length a < n)%nat ->
    (List.length a < fuel)%nat ->
    Server.recv_exact_loop fuel n buf c
    = (Err (Exc ConnectionError
              (lit "Socket error: Connection closed by peer")),
       Server.with_inbox c []).
Proof.
  induction fuel as [|fuel IH]; intros n buf a c Hc Hn Hf; [lia|].
  cbn [Server.recv_exact_loop].
  replace (List.length buf <? n)%nat with true
    by (symmetry; apply Nat.ltb_lt; lia).
  unfold bind at 1, try_except, bind at 1, Server.sock_recv.
  destruct a as [|x a].
  - apply carries_nil_inv in Hc. rewrite Hc. reflexivity.
  - destruct (recv_carries_upto (x :: a) _ [] (n - List.length buf)
                ltac:(discriminate) Hc ltac:(lia))
      as (d & a' & i' & Hr & Hd & Ea & Hc').
    rewrite Hr. destruct d as [|y d]; [congruence|].
    change (is_empty (y :: d)) with false. cbv beta iota. unfold ret at 1.
    rewrite (IH n (buf ++ y :: d) a' (Server.with_inbox c i')).
    + reflexivity.
    + exact Hc'.
    + rewrite Ea in Hn. rewrite !length_app in *. lia.
    + rewrite Ea in Hf. rewrite length_app in Hf. simpl in Hf. lia.
Qed.

Lemma server_recv_exact_short (n : nat) (a : bytes) (c : Server.conn) :
  carries (Server.c_inbox c) a [] -> (List.length a < n)%nat ->
  Server.recv_exact n c
  = (Err (Exc ConnectionError
            (lit "Socket error: Connection closed by peer")),
     Server.with_inbox c []).
Proof.
  intros Hc Hn. apply (server_recv_exact_loop_short n n [] a c Hc); simpl; lia.
Qed.

(** A packet that is cut short by the peer's shutdown. *)
Lemma server_recv_packet_truncated (t : Z) (p pkt pre suf : bytes)
  (c : Server.conn) :
  Server.pack libtext t p = OK pkt -> pkt = pre ++ suf -> suf <> [] ->
  carries (Server.c_inbox c) pre [] ->
  Server.recv_packet libtext c
  = (Err (Exc ConnectionError
            (lit "Socket error: Connection closed by peer")),
     Server.with_inbox c []).
Proof.
  intros Hp E Hs Hc. destruct (pack_inv libtext _ _ _ Hp) as (h & Ep & Hh & Hu).
  rewrite Ep in E. clear Hp Ep. unfold Server.recv_packet.
  destruct (prefix_of_three _ _ _ _ _ E Hs) as [H|[(l & El & Hl)|(l & El & Hl)]].
  - unfold bind at 1.
    rewrite (server_recv_exact_short 4 pre c Hc H). reflexivity.
  - subst pre.
    destruct (server_recv_exact_carries Server.MAGIC _ c [] Hc)
      as (i1 & H1 & Hc1).
    change (List.length Server.MAGIC) with 4%nat in H1.
    unfold bind at 1. rewrite H1. rewrite bytes_eqb_refl. cbv beta iota.
    change (negb true) with false. cbv iota.
    rewrite <- (with_inbox_inbox c i1) in Hc1.
    unfold bind at 1.
    rewrite (server_recv_exact_short 5 l _ Hc1 ltac:(lia)).
    rewrite with_inbox_twice. reflexivity.
  - subst pre.
    destruct (server_recv_exact_carries Server.MAGIC _ c [] Hc)
      as (i1 & H1 & Hc1).
    change (List.length Server.MAGIC) with 4%nat in H1.
    unfold bind at 1. rewrite H1. rewrite bytes_eqb_refl. cbv beta iota.
    change (negb true) with false. cbv iota.
    rewrite <- (with_inbox_inbox c i1) in Hc1.
    destruct (server_recv_exact_carries h _ _ [] Hc1) as (i2 & H2 & Hc2).
    rewrite Hh in H2. unfold bind at 1. rewrite H2.
    unfold bind at 1, lift. rewrite Hu. cbv beta iota.
    rewrite Nat2Z.id. rewrite with_inbox_twice in *.
    rewrite <- (with_inbox_inbox c i2) in Hc2.
    unfold bind at 1.
    rewrite (server_recv_exact_short _ l _ Hc2 Hl).
    rewrite with_inbox_twice. reflexivity.
Qed.

End Packets.

(* ===================================================================== *)
(** * The dispatcher of the server                                         *)
(* ===================================================================== *)

Section ReprFacts.
Import Py.

Lemma repr_byte_ascii (q : N) (b : byte) :
  (q < 128)%N -> ascii_only (repr_byte q b).
Proof.
  intros Hq. unfold repr_byte, ascii_only, hex_digit. cbv zeta.
  pose proof (Byte.to_N_bounded b) as Hb.
  set (c := Byte.to_N b) in *.
  assert (Hd : (c / 16 < 16)%N) by (apply N.Div0.div_lt_upper_bound; lia).
  assert (Hm : (c mod 16 < 16)%N) by (apply N.mod_lt; lia).
  decide_ltb; cbn [orb]; cbv iota; repeat constructor; lia.
Qed.

Lemma repr_byte_length (q : N) (b : byte) :
  (List.length (repr_byte q b) <= 4)%nat.
Proof.
  unfold repr_byte. cbv zeta.
  repeat match goal with
         | |- context [if ?x then _ else _] => destruct x
         end; simpl; lia.
Qed.

Lemma repr_bytes_ascii (b : bytes) : ascii_only (repr_bytes b).
Proof.
  unfold repr_bytes. cbv zeta.
  match goal with
  | |- context [if ?x then 34%N else 39%N] =>
      set (q := if x then 34%N else 39%N);
      assert (Hq : (q < 128)%N) by (unfold q; destruct x; lia)
  end.
  clearbody q. unfold ascii_only.
  apply Forall_app. split; [repeat constructor; lia|].
  apply Forall_app. split; [|repeat constructor; lia].
  induction b as [|x b IH]; simpl; [constructor|].
  apply Forall_app. split; [apply repr_byte_ascii; exact Hq|exact IH].
Qed.

Lemma repr_bytes_length (b : bytes) :
  (List.length (repr_bytes b) <= 3 + 4 * List.length b)%nat.
Proof.
  unfold repr_bytes. cbv zeta.
  match goal with
  | |- context [if ?x then 34%N else 39%N] =>
      set (q := if x then 34%N else 39%N)
  end.
  clearbody q.
  rewrite !length_app. cbn [List.length].
  assert (List.length (flat_map (repr_byte q) b) <= 4 * List.length b)%nat.
  { induction b as [|x b IH]; simpl; [lia|].
    rewrite length_app. pose proof (repr_byte_length q x). lia. }
  lia.
Qed.

End ReprFacts.

Section Dispatcher.
Import Py.

Variable libtext : library.
Variable P : os_path.
Variable fs : Server.filesystem.

(** One turn of the serving loop. *)
Lemma serve_loop_S (fuel : nat) (c : Server.conn) :
  Server.serve_loop libtext P fs (S fuel) c
  = match Server.recv_packet libtext c with
    | (OK (t, payload), c1) =>
        match Server.handle_request libtext P fs t payload c1 with
        | (OK _, c2) => Server.serve_loop libtext P fs fuel c2
        | (Err e, c2) => (Err e, c2)
        | (OutOfFuel, c2) => (OutOfFuel, c2)
        end
    | (Err e, c1) =>
        if is_ConnectionError (exc_class e) then (OK tt, c1) else (Err e, c1)
    | (OutOfFuel, c1) => (OutOfFuel, c1)
    end.
Proof.
  cbn [Server.serve_loop]. unfold bind, try_except, ret, raise.
  destruct (Server.recv_packet libtext c) as [[[t payload]|e|] c1];
    try reflexivity.
  destruct (is_ConnectionError (exc_class e)); reflexivity.
Qed.

(** Beyond what is pending the bound of the loop does not matter. *)
Lemma serve_loop_enough (fuel : nat) :
  forall fuel' c,
    (pending c < fuel)%nat -> (pending c < fuel')%nat ->
    Server.serve_loop libtext P fs fuel c
    = Server.serve_loop libtext P fs fuel' c.
Proof.
  induction fuel as [|fuel IH]; intros fuel' c H1 H2; [lia|].
  destruct fuel' as [|fuel']; [lia|].
  rewrite !serve_loop_S.
  destruct (Server.recv_packet libtext c) as [[[t payload]|e|] c1] eqn:Er;
    try reflexivity.
  destruct (recv_packet_fuel libtext c _ c1 Er) as [_ Hlt].
  specialize (Hlt _ eq_refl).
  destruct (quiet_handle_request libtext P fs t payload c1) as [_ Hq].
  destruct (Server.handle_request libtext P fs t payload c1)
    as [[[]|e|] c2]; try reflexivity.
  simpl in Hq. apply IH; unfold pending in *; rewrite Hq; lia.
Qed.

(** The handler around the loop. *)
Lemma handle_client_eq (c : Server.conn) :
  Server.handle_client libtext P fs c
  = match Server.serve_loop libtext P fs (S (pending c)) c with
    | (OK _, c1) => (OK tt, Server.sock_close c1)
    | (Err e, c1) => (OK tt, Server.sock_close (reported libtext e c1))
    | (OutOfFuel, c1) => (OutOfFuel, Server.sock_close c1)
    end.
Proof.
  unfold Server.handle_client, try_finally, try_except, reported, pending.
  destruct (Server.serve_loop libtext P fs _ c) as [[[]|e|] c1];
    try reflexivity.
  unfold bind at 1, lift at 1.
  destruct (encode libtext (exc_msg e)) as [msg|e1|] eqn:Ee.
  - unfold bind at 1, lift at 1.
    destruct (Server.pack libtext Server.TYPE_ERR msg) as [pkt|e2|] eqn:Ep.
    + rewrite sendall_after. reflexivity.
    + reflexivity.
    + exfalso. exact (pack_returns libtext _ _ Ep).
  - reflexivity.
  - exfalso. exact (encode_returns libtext _ Ee).
Qed.

(** A request at the head of the inbox: it is handled, and then the
    handler goes on as if it had been started on what follows. *)
Lemma handle_client_next (t : Z) (p pkt more : bytes) (c : Server.conn)
  (rest : inbox) :
  Server.pack libtext t p = OK pkt ->
  carries (Server.c_inbox c) (pkt ++ more) rest ->
  exists i',
    carries i' more rest
    /\ Server.handle_client libtext P fs c
       = match Server.handle_request libtext P fs t p
                 (Server.with_inbox c i') with
         | (OK _, c2) => Server.handle_client libtext P fs c2
         | (Err e, c2) => (OK tt, Server.sock_close (reported libtext e c2))
         | (OutOfFuel, c2) => (OutOfFuel, Server.sock_close c2)
         end.
Proof.
  intros Hp Hc.
  destruct (server_recv_packed libtext t p pkt more c rest Hp Hc)
    as (i' & Hr & Hc').
  exists i'. split; [exact Hc'|].
  rewrite handle_client_eq, serve_loop_S, Hr.
  destruct (recv_packet_fuel libtext c _ _ Hr) as [_ Hlt].
  specialize (Hlt _ eq_refl).
  destruct (quiet_handle_request libtext P fs t p (Server.with_inbox c i'))
    as [_ Hq].
  destruct (Server.handle_request libtext P fs t p (Server.with_inbox c i'))
    as [[[]|e|] c2]; try reflexivity.
  simpl in Hq. rewrite (handle_client_eq c2).
  rewrite (serve_loop_enough (pending c) (S (pending c2)) c2);
    [reflexivity| |lia].
  unfold pending in *. rewrite Hq. exact Hlt.
Qed.


(** X2. The dispatcher takes the requests of a connection in turn. When a
    well-framed packet is at the head of what the connection carries, the
    handler gives its type and payload to the request handler; if that
    returns, the handler goes on exactly as a handler started in the state
    reached; if it raises, the error is reported in an ERR packet, the socket
    is closed, and what follows the packet is never read. *)
Theorem requests_are_taken_in_turn (t : Z) (p pkt more : bytes)
  (c : Server.conn) (rest : inbox) :
  Server.pack libtext t p = OK pkt ->
  carries (Server.c_inbox c) (pkt ++ more) rest ->
  exists i',
    carries i' more rest
    /\ (forall c2,
          Server.handle_request libtext P fs t p (Server.with_inbox c i')
          = (OK tt, c2) ->
          Server.handle_client libtext P fs c
          = Server.handle_client libtext P fs c2)
    /\ (forall e c2,
          Server.handle_request libtext P fs t p (Server.with_inbox c i')
          = (Err e, c2) ->
          Server.handle_client libtext P fs c
          = (OK tt, Server.sock_close (reported libtext e c2))
          /\ Server.c_inbox c2 = i').
Proof.
  intros Hp Hc.
  destruct (handle_client_next t p pkt more c rest Hp Hc) as (i' & Hc' & H).
  exists i'. split; [exact Hc'|]. split.
  - intros c2 E. rewrite H, E. reflexivity.
  - intros e c2 E. rewrite H, E. split; [reflexivity|].
    destruct (quiet_handle_request libtext P fs t p (Server.with_inbox c i'))
      as [_ Hq].
    rewrite E in Hq. exact Hq.
Qed.

(** X3. A packet whose type is neither LIST nor GET is read and dropped:
    nothing is sent for it, not even an error, no file is looked at, and the
    handler goes on with what follows. *)
Theorem unknown_type_is_ignored (t : Z) (p pkt more : bytes)
  (c : Server.conn) (rest : inbox) :
  t <> Server.TYPE_LIST -> t <> Server.TYPE_GET ->
  Server.pack libtext t p = OK pkt ->
  carries (Server.c_inbox c) (pkt ++ more) rest ->
  exists i',
    carries i' more rest
    /\ Server.handle_client libtext P fs c
       = Server.handle_client libtext P fs (Server.with_inbox c i').
Proof.
  intros H1 H3 Hp Hc.
  destruct (handle_client_next t p pkt more c rest Hp Hc) as (i' & Hc' & H).
  exists i'. split; [exact Hc'|]. rewrite H.
  unfold Server.handle_request.
  replace (t =? Server.TYPE_LIST) with false
    by (symmetry; apply Z.eqb_neq; exact H1).
  replace (t =? Server.TYPE_GET) with false
    by (symmetry; apply Z.eqb_neq; exact H3).
  reflexivity.
Qed.

(** X4. When the peer shuts its side down between two packets, or in the
    middle of one, the handler ends without a word: what had come is
    dropped, no ERR packet is sent, and the socket is closed. *)
Theorem peer_hangup_is_silent (t : Z) (p pkt pre suf : bytes)
  (c : Server.conn) :
  Server.pack libtext t p = OK pkt -> pkt = pre ++ suf -> suf <> [] ->
  carries (Server.c_inbox c) pre [] ->
  Server.handle_client libtext P fs c
  = (OK tt, Server.sock_close (Server.with_inbox c [])).
Proof.
  intros Hp E Hs Hc.
  rewrite handle_client_eq, serve_loop_S.
  rewrite (server_recv_packet_truncated libtext t p pkt pre suf c Hp E Hs Hc).
  reflexivity.
Qed.

(** X5. Four bytes that are not the magic end the connection: the handler
    answers with one ERR packet whose text is [Invalid protocol magic: ]
    followed by the [repr] of the four bytes, closes the socket, and reads
    nothing of what follows. *)
Theorem bad_magic_is_reported (m more : bytes) (c : Server.conn)
  (rest : inbox) :
  List.length m = 4%nat -> m <> Server.MAGIC ->
  carries (Server.c_inbox c) (m ++ more) rest ->
  exists i' err,
    carries i' more rest
    /\ Server.pack libtext Server.TYPE_ERR
         (map byte_of_N (lit "Invalid protocol magic: " ++ repr_bytes m))
       = OK err
    /\ Server.handle_client libtext P fs c
       = (OK tt,
          Server.sock_close (after (Server.with_inbox c i') [] [err])).
Proof.
  intros Hl Hm Hc.
  destruct (server_recv_exact_carries m more c rest Hc) as (i' & Hr & Hc').
  rewrite Hl in Hr.
  set (msg := lit "Invalid protocol magic: " ++ repr_bytes m).
  assert (Ha : ascii_only msg).
  { apply Forall_app. split; [|apply repr_bytes_ascii].
    repeat constructor. }
  assert (Hlen : (List.length msg <= 43)%nat).
  { unfold msg. rewrite length_app. pose proof (repr_bytes_length m).
    change (List.length (lit "Invalid protocol magic: ")) with 24%nat.
    unfold str, char in *. lia. }
  destruct (pack_ok libtext Server.TYPE_ERR (map byte_of_N msg))
    as (h & Hp & _).
  { unfold Server.TYPE_ERR. lia. }
  { rewrite length_map. unfold str, char in *. lia. }
  exists i', (Server.MAGIC ++ h ++ map byte_of_N msg).
  split; [exact Hc'|]. split; [exact Hp|].
  rewrite handle_client_eq, serve_loop_S.
  unfold Server.recv_packet. unfold bind at 1. rewrite Hr.
  replace (bytes_eqb m Server.MAGIC) with false.
  2:{ symmetry. apply not_true_is_false. intros E.
      apply bytes_eqb_eq in E. contradiction. }
  cbn [negb]. cbv iota. unfold raise. cbn [is_ConnectionError exc_class].
  cbv iota. unfold reported. cbn [exc_msg]. fold msg.
  unfold encode. rewrite (utf8_encode_ascii msg Ha). rewrite Hp.
  reflexivity.
Qed.

(** What a GET request gives when its path is not that of a regular file. *)
Lemma handle_get_not_a_file (payload : bytes) (path a b full : str)
  (c : Server.conn) :
  split 124%N (decode_lossy Replace payload) = [path; a; b] ->
  Server.safe_path P path = OK full ->
  Server.fs_isfile fs full = false ->
  Server.handle_request libtext P fs Server.TYPE_GET payload c
  = (Err (Exc FileNotFoundError (lit "File not found: " ++ path)),
     after c [full] []).
Proof.
  intros Hsplit Hsafe Hfile. unfold Server.handle_request.
  change (Server.TYPE_GET =? Server.TYPE_LIST) with false.
  change (Server.TYPE_GET =? Server.TYPE_GET) with true. cbv iota.
  rewrite Hsplit.
  unfold bind at 1, lift at 1. rewrite Hsafe.
  unfold bind at 1, Server.isfile, bind at 1. rewrite touch_after.
  unfold ret at 1. rewrite Hfile. reflexivity.
Qed.

Lemma reported_sent (e : exn) (msg err : bytes) (c : Server.conn) :
  encode libtext (exc_msg e) = OK msg ->
  Server.pack libtext Server.TYPE_ERR msg = OK err ->
  reported libtext e c = after c [] [err].
Proof. intros He Hp. unfold reported. rewrite He, Hp. reflexivity. Qed.

(** X6. A GET request for a path that the sandbox accepts but that is not
    a regular file (a directory, or nothing at all) is answered by one ERR
    packet with the text [File not found: ] and the path as it was asked for;
    the socket is then closed and what follows is not read. The range of the
    request is not looked at, and the file system has been asked one question,
    whether the path is a file. *)
Theorem missing_file_is_reported (payload pkt msg err more : bytes)
  (path a b full : str) (c : Server.conn) (rest : inbox) :
  split 124%N (decode_lossy Replace payload) = [path; a; b] ->
  Server.safe_path P path = OK full ->
  Server.fs_isfile fs full = false ->
  Server.pack libtext Server.TYPE_GET payload = OK pkt ->
  encode libtext (lit "File not found: " ++ path) = OK msg ->
  Server.pack libtext Server.TYPE_ERR msg = OK err ->
  carries (Server.c_inbox c) (pkt ++ more) rest ->
  exists i',
    carries i' more rest
    /\ Server.handle_client libtext P fs c
       = (OK tt,
          Server.sock_close (after (Server.with_inbox c i') [full] [err])).
Proof.
  intros Hsplit Hsafe Hfile Hp Hmsg Herr Hc.
  destruct (handle_client_next _ _ _ _ _ _ Hp Hc) as (i' & Hc' & H).
  exists i'. split; [exact Hc'|]. rewrite H.
  rewrite (handle_get_not_a_file payload path a b full _ Hsplit Hsafe Hfile).
  rewrite (reported_sent
             (Exc FileNotFoundError (lit "File not found: " ++ path))
             msg err _ Hmsg Herr), after_after.
  reflexivity.
Qed.

(** X7. A GET request for a path that the sandbox refuses is answered by
    one ERR packet with the text [Security: Path traversal attempt blocked];
    the socket is closed, and the file system has not been asked anything. *)
Theorem traversal_is_reported (payload pkt more : bytes)
  (path a b : str) (e : exn) (c : Server.conn) (rest : inbox) :
  split 124%N (decode_lossy Replace payload) = [path; a; b] ->
  Server.safe_path P path = Err e ->
  Server.pack libtext Server.TYPE_GET payload = OK pkt ->
  carries (Server.c_inbox c) (pkt ++ more) rest ->
  exists i' err,
    carries i' more rest
    /\ Server.pack libtext Server.TYPE_ERR
         (blit "Security: Path traversal attempt blocked") = OK err
    /\ Server.handle_client libtext P fs c
       = (OK tt, Server.sock_close (after (Server.with_inbox c i') [] [err]))
    /\ Server.c_touched (snd (Server.handle_client libtext P fs c))
       = Server.c_touched c.
Proof.
  intros Hsplit Hsafe Hp Hc.
  destruct (handle_client_next _ _ _ _ _ _ Hp Hc) as (i' & Hc' & H).
  destruct (pack_ok libtext Server.TYPE_ERR
              (blit "Security: Path traversal attempt blocked"))
    as (h & Hperr & _); [unfold Server.TYPE_ERR; lia|simpl; lia|].
  exists i'. eexists. split; [exact Hc'|]. split; [exact Hperr|].
  assert (He : e = Exc ValueError
                     (lit "Security: Path traversal attempt blocked")).
  { unfold Server.safe_path in Hsafe. cbv zeta in Hsafe.
    destruct (negb _); congruence. }
  assert (Hh : Server.handle_request libtext P fs Server.TYPE_GET payload
                 (Server.with_inbox c i')
               = (Err e, Server.with_inbox c i')).
  { unfold Server.handle_request.
    change (Server.TYPE_GET =? Server.TYPE_LIST) with false.
    change (Server.TYPE_GET =? Server.TYPE_GET) with true. cbv iota.
    rewrite Hsplit. unfold bind at 1, lift at 1. rewrite Hsafe. reflexivity. }
  rewrite H, Hh. subst e.
  rewrite (reported_sent
             (Exc ValueError (lit "Security: Path traversal attempt blocked"))
             (blit "Security: Path traversal attempt blocked")
             _ _ eq_refl Hperr).
  split; [reflexivity|]. simpl. apply app_nil_r.
Qed.

(** The number of fields that [split] gives. *)
Lemma split_length (sep : char) (s : str) :
  List.length (split sep s) = S (count_occ N.eq_dec s sep).
Proof.
  induction s as [|x s IH]; [reflexivity|]. cbn [split count_occ].
  destruct (N.eqb_spec x sep) as [E|E].
  - destruct (N.eq_dec x sep); [|contradiction]. simpl. rewrite IH. reflexivity.
  - destruct (N.eq_dec x sep); [contradiction|].
    destruct (split sep s); simpl in *; lia.
Qed.

(** X8. A GET request whose text does not hold exactly two bars is answered
    by one ERR packet with the text [Invalid GET request format], and the
    socket is closed; the file system has not been asked anything. So a file
    whose name holds a bar cannot be fetched. *)
Theorem get_needs_three_fields (payload pkt more : bytes)
  (c : Server.conn) (rest : inbox) :
  count_occ N.eq_dec (decode_lossy Replace payload) 124%N <> 2%nat ->
  Server.pack libtext Server.TYPE_GET payload = OK pkt ->
  carries (Server.c_inbox c) (pkt ++ more) rest ->
  exists i' err,
    carries i' more rest
    /\ Server.pack libtext Server.TYPE_ERR (blit "Invalid GET request format")
       = OK err
    /\ Server.handle_client libtext P fs c
       = (OK tt, Server.sock_close (after (Server.with_inbox c i') [] [err])).
Proof.
  intros Hn Hp Hc.
  destruct (handle_client_next _ _ _ _ _ _ Hp Hc) as (i' & Hc' & H).
  destruct (pack_ok libtext Server.TYPE_ERR (blit "Invalid GET request format"))
    as (h & Hperr & _); [unfold Server.TYPE_ERR; lia|simpl; lia|].
  exists i'. eexists. split; [exact Hc'|]. split; [exact Hperr|].
  assert (Hh : Server.handle_request libtext P fs Server.TYPE_GET payload
                 (Server.with_inbox c i')
               = (Err (Exc ValueError (lit "Invalid GET request format")),
                  Server.with_inbox c i')).
  { unfold Server.handle_request.
    change (Server.TYPE_GET =? Server.TYPE_LIST) with false.
    change (Server.TYPE_GET =? Server.TYPE_GET) with true. cbv iota.
    pose proof (split_length 124%N (decode_lossy Replace payload)) as Hl.
    destruct (split 124%N (decode_lossy Replace payload))
      as [|f1 [|f2 [|f3 [|f4 fs']]]]; try reflexivity.
    simpl in Hl. exfalso. apply Hn. lia. }
  rewrite H, Hh.
  rewrite (reported_sent
             (Exc ValueError (lit "Invalid GET request format"))
             (blit "Invalid GET request format") _ _ eq_refl Hperr).
  reflexivity.
Qed.

(** What a LIST request gives: one LIST_RESP packet with the rows of the
    listing. *)
Lemma handle_list (payload data resp : bytes) (c : Server.conn) :
  stat_raises_OSError fs ->
  encode libtext
    (Py.join [10%N]
       (map Server.format_entry
          (expected_listing P fs (decode_lossy Replace payload)))) = OK data ->
  Server.pack libtext Server.TYPE_LIST_RESP data = OK resp ->
  exists paths,
    Server.handle_request libtext P fs Server.TYPE_LIST payload c
    = (OK tt, after c paths [resp]).
Proof.
  intros Hos Hd Hp. unfold Server.handle_request.
  change (Server.TYPE_LIST =? Server.TYPE_LIST) with true. cbv iota zeta.
  destruct (list_dir_outcome P fs (decode_lossy Replace payload) c)
    as (paths & Hl).
  exists paths. unfold bind at 1. rewrite Hl.
  match goal with
  | |- context [map Server.format_entry ?x] =>
      replace x with (expected_listing P fs (decode_lossy Replace payload))
  end.
  2:{ unfold expected_listing.
      destruct (Server.safe_path P _) as [full|e|]; try reflexivity.
      destruct (Server.fs_isdir fs full); [|reflexivity].
      destruct (Server.fs_listdir fs full) as [names|e]; [|reflexivity].
      rewrite (listing_skips P fs full names Hos []). reflexivity. }
  unfold bind at 1, lift at 1. rewrite Hd.
  unfold bind at 1, lift at 1. rewrite Hp.
  rewrite sendall_after, after_after, app_nil_r. reflexivity.
Qed.


End Dispatcher.

(** ** The dispatcher in the deployment *)

Lemma carries_segment (d : Py.bytes) :
  Py.is_empty d = false -> carries [Py.Seg d] (d ++ []) [].
Proof.
  intros H. constructor; [|constructor]. intros ->. discriminate.
Qed.

(** A GET of [a.txt] on a fresh connection. *)
Lemma requests_are_taken_in_turn_witness :
  exists i',
    carries i' [] []
    /\ (forall c2,
          Server.handle_request Scenario.libtext Scenario.P Scenario.fs 3
            (Py.blit "/a.txt|0|-1")
            (Server.with_inbox
               (Scenario.connection
                  [Scenario.request 3 (Py.blit "/a.txt|0|-1")]) i')
          = (Py.OK tt, c2) ->
          Server.handle_client Scenario.libtext Scenario.P Scenario.fs
            (Scenario.connection [Scenario.request 3 (Py.blit "/a.txt|0|-1")])
          = Server.handle_client Scenario.libtext Scenario.P Scenario.fs c2)
    /\ (forall e c2,
          Server.handle_request Scenario.libtext Scenario.P Scenario.fs 3
            (Py.blit "/a.txt|0|-1")
            (Server.with_inbox
               (Scenario.connection
                  [Scenario.request 3 (Py.blit "/a.txt|0|-1")]) i')
          = (Py.Err e, c2) ->
          Server.handle_client Scenario.libtext Scenario.P Scenario.fs
            (Scenario.connection [Scenario.request 3 (Py.blit "/a.txt|0|-1")])
          = (Py.OK tt,
             Server.sock_close (reported Scenario.libtext e c2))
          /\ Server.c_inbox c2 = i').
Proof.
  apply (requests_are_taken_in_turn Scenario.libtext Scenario.P Scenario.fs
           3 (Py.blit "/a.txt|0|-1")
           (Scenario.request 3 (Py.blit "/a.txt|0|-1")) []
           (Scenario.connection [Scenario.request 3 (Py.blit "/a.txt|0|-1")])
           []).
  - reflexivity.
  - refine (carries_segment _ _). reflexivity.
Defined.

(** A packet of type 9. *)
Lemma unknown_type_is_ignored_witness :
  exists i',
    carries i' [] []
    /\ Server.handle_client Scenario.libtext Scenario.P Scenario.fs
         (Scenario.connection [Scenario.request 9 (Py.blit "hello")])
       = Server.handle_client Scenario.libtext Scenario.P Scenario.fs
           (Server.with_inbox
              (Scenario.connection [Scenario.request 9 (Py.blit "hello")])
              i').
Proof.
  apply (unknown_type_is_ignored Scenario.libtext Scenario.P Scenario.fs
           9 (Py.blit "hello") (Scenario.request 9 (Py.blit "hello")) []
           (Scenario.connection [Scenario.request 9 (Py.blit "hello")]) []).
  - discriminate.
  - discriminate.
  - reflexivity.
  - refine (carries_segment _ _). reflexivity.
Defined.

(** The first six bytes of a LIST request, and then nothing. *)
Lemma peer_hangup_is_silent_witness :
  Server.handle_client Scenario.libtext Scenario.P Scenario.fs
    (Scenario.connection [firstn 6 (Scenario.request 1 (Py.blit "/pub"))])
  = (Py.OK tt,
     {| Server.c_inbox := []; Server.c_outbox := [];
        Server.c_touched := []; Server.c_closed := true |}).
Proof.
  apply (peer_hangup_is_silent Scenario.libtext Scenario.P Scenario.fs
           1 (Py.blit "/pub") (Scenario.request 1 (Py.blit "/pub"))
           (firstn 6 (Scenario.request 1 (Py.blit "/pub")))
           (skipn 6 (Scenario.request 1 (Py.blit "/pub")))
           (Scenario.connection
              [firstn 6 (Scenario.request 1 (Py.blit "/pub"))])).
  - reflexivity.
  - reflexivity.
  - vm_compute. discriminate.
  - refine (carries_segment _ _). reflexivity.
Defined.

(** A browser that talks to the port. *)
Lemma bad_magic_is_reported_witness :
  exists i' err,
    carries i' (Py.blit "/ HTTP/1.1") []
    /\ Server.pack Scenario.libtext Server.TYPE_ERR
         (map Py.byte_of_N
            (Py.lit "Invalid protocol magic: "
             ++ Py.repr_bytes (Py.blit "GET "))) = Py.OK err
    /\ Server.handle_client Scenario.libtext Scenario.P Scenario.fs
         (Scenario.connection [Py.blit "GET / HTTP/1.1"])
       = (Py.OK tt,
          Server.sock_close
            (after (Server.with_inbox
                      (Scenario.connection [Py.blit "GET / HTTP/1.1"]) i')
               [] [err])).
Proof.
  apply (bad_magic_is_reported Scenario.libtext Scenario.P Scenario.fs
           (Py.blit "GET ") (Py.blit "/ HTTP/1.1")
           (Scenario.connection [Py.blit "GET / HTTP/1.1"]) []).
  - reflexivity.
  - discriminate.
  - exact (carries_segment (Py.blit "GET / HTTP/1.1") eq_refl).
Defined.

(** A file that is not there. *)
Lemma missing_file_is_reported_witness :
  exists i',
    carries i' [] []
    /\ Server.handle_client Scenario.libtext Scenario.P Scenario.fs
         (Scenario.connection
            [Scenario.request 3 (Py.blit "/nope.txt|0|-1")])
       = (Py.OK tt,
          Server.sock_close
            (after (Server.with_inbox
                      (Scenario.connection
                         [Scenario.request 3 (Py.blit "/nope.txt|0|-1")]) i')
               [Py.lit "/srv/D:/nope.txt"]
               [Scenario.request 7 (Py.blit "File not found: /nope.txt")])).
Proof.
  apply (missing_file_is_reported Scenario.libtext Scenario.P Scenario.fs
           (Py.blit "/nope.txt|0|-1")
           (Scenario.request 3 (Py.blit "/nope.txt|0|-1"))
           (Py.blit "File not found: /nope.txt")
           (Scenario.request 7 (Py.blit "File not found: /nope.txt")) []
           (Py.lit "/nope.txt") (Py.lit "0") (Py.lit "-1")
           (Py.lit "/srv/D:/nope.txt")
           (Scenario.connection
              [Scenario.request 3 (Py.blit "/nope.txt|0|-1")]) []).
  - reflexivity.
  - reflexivity.
  - reflexivity.
  - reflexivity.
  - reflexivity.
  - reflexivity.
  - refine (carries_segment _ _). reflexivity.
Defined.

(** A path that climbs out of the root. *)
Lemma traversal_is_reported_witness :
  exists i' err,
    carries i' [] []
    /\ Server.pack Scenario.libtext Server.TYPE_ERR
         (Py.blit "Security: Path traversal attempt blocked") = Py.OK err
    /\ Server.handle_client Scenario.libtext Scenario.P Scenario.fs
         (Scenario.connection
            [Scenario.request 3 (Py.blit "../etc/passwd|0|-1")])
       = (Py.OK tt,
          Server.sock_close
            (after (Server.with_inbox
                      (Scenario.connection
                         [Scenario.request 3 (Py.blit "../etc/passwd|0|-1")])
                      i')
               [] [err]))
    /\ Server.c_touched
         (snd (Server.handle_client Scenario.libtext Scenario.P Scenario.fs
                 (Scenario.connection
                    [Scenario.request 3 (Py.blit "../etc/passwd|0|-1")])))
       = [].
Proof.
  apply (traversal_is_reported Scenario.libtext Scenario.P Scenario.fs
           (Py.blit "../etc/passwd|0|-1")
           (Scenario.request 3 (Py.blit "../etc/passwd|0|-1")) []
           (Py.lit "../etc/passwd") (Py.lit "0") (Py.lit "-1")
           (Py.Exc Py.ValueError
              (Py.lit "Security: Path traversal attempt blocked"))
           (Scenario.connection
              [Scenario.request 3 (Py.blit "../etc/passwd|0|-1")]) []).
  - reflexivity.
  - reflexivity.
  - reflexivity.
  - refine (carries_segment _ _). reflexivity.
Defined.

(** A file name with a bar in it. *)
Lemma get_needs_three_fields_witness :
  exists i' err,
    carries i' [] []
    /\ Server.pack Scenario.libtext Server.TYPE_ERR
         (Py.blit "Invalid GET request format") = Py.OK err
    /\ Server.handle_client Scenario.libtext Scenario.P Scenario.fs
         (Scenario.connection
            [Scenario.request 3 (Py.blit "/a|b.txt|0|-1")])
       = (Py.OK tt,
          Server.sock_close
            (after (Server.with_inbox
                      (Scenario.connection
                         [Scenario.request 3 (Py.blit "/a|b.txt|0|-1")]) i')
               [] [err])).
Proof.
  apply (get_needs_three_fields Scenario.libtext Scenario.P Scenario.fs
           (Py.blit "/a|b.txt|0|-1")
           (Scenario.request 3 (Py.blit "/a|b.txt|0|-1")) []
           (Scenario.connection
              [Scenario.request 3 (Py.blit "/a|b.txt|0|-1")]) []).
  - vm_compute. discriminate.
  - reflexivity.
  - refine (carries_segment _ _). reflexivity.
Defined.


(* ===================================================================== *)
(** * The rows of a listing                                                *)
(* ===================================================================== *)

Section Rows.
Import Py.

Variable libtext : library.

Lemma utf8_encode_app (a b : str) :
  utf8_encode (a ++ b)
  = match utf8_encode a, utf8_encode b with
    | Some x, Some y => Some (x ++ y)
    | _, _ => None
    end.
Proof.
  induction a as [|c a IH]; cbn [utf8_encode app].
  - destruct (utf8_encode b); reflexivity.
  - destruct (utf8_encode_char c) as [bc|]; [|reflexivity].
    rewrite IH. destruct (utf8_encode a), (utf8_encode b); try reflexivity.
    rewrite app_assoc. reflexivity.
Qed.

(** [str(z)] is made of digits, after a minus sign at most. *)
Lemma str_of_int_chars (z : Z) :
  Forall (fun c => (48 <= c <= 57)%N \/ c = 45%N) (str_of_int z).
Proof.
  assert (Hu : forall p,
             Forall (fun c => (48 <= c <= 57)%N \/ c = 45%N)
               (lit (NilZero.string_of_uint (Pos.to_uint p)))).
  { intros p. pose proof (DecimalPos.Unsigned.to_uint_nonnil p) as Hnn.
    pose proof (uint_digits (Pos.to_uint p)) as Hd.
    replace (NilZero.string_of_uint (Pos.to_uint p))
      with (NilEmpty.string_of_uint (Pos.to_uint p))
      by (destruct (Pos.to_uint p); [congruence|reflexivity..]).
    revert Hd. apply Forall_impl. intros c Hc. left. exact Hc. }
  unfold str_of_int. destruct z as [|p|p]; cbn [Z.to_int NilZero.string_of_int].
  - change (Forall (fun c => (48 <= c <= 57)%N \/ c = 45%N) [48%N]).
    constructor; [left; lia|constructor].
  - apply Hu.
  - rewrite lit_String. constructor; [right; reflexivity|apply Hu].
Qed.

Lemma str_of_int_no_bar (z : Z) : ~ In 124%N (str_of_int z).
Proof.
  intros H. pose proof (str_of_int_chars z) as Hc.
  rewrite Forall_forall in Hc. specialize (Hc _ H). lia.
Qed.

Lemma str_of_int_one_line (z : Z) :
  Forall (fun ch => is_linebreak ch = false) (str_of_int z).
Proof.
  eapply Forall_impl; [|apply str_of_int_chars].
  intros c Hc. cbv beta in Hc. unfold is_linebreak. decide_ltb; reflexivity.
Qed.

(** A line without boundaries is read in one go. *)
Lemma splitlines_loop_line (l : str) :
  forall cur rest,
    Forall (fun ch => is_linebreak ch = false) l ->
    splitlines_loop cur (l ++ rest) = splitlines_loop (rev l ++ cur) rest.
Proof.
  induction l as [|c l IH]; intros cur rest H; [reflexivity|].
  inversion H as [|c0 l0 Hc Hl]; subst.
  cbn [app splitlines_loop]. rewrite Hc. rewrite IH by assumption.
  cbn [rev]. rewrite <- app_assoc. reflexivity.
Qed.

(** [splitlines] undoes a [join] with line feeds. *)
Lemma splitlines_join (rows : list str) :
  Forall (fun r => r <> [] /\ Forall (fun ch => is_linebreak ch = false) r)
    rows ->
  splitlines (Py.join [10%N] rows) = rows.
Proof.
  unfold splitlines.
  induction 1 as [|r rows [Hne Hr] Hrows IH]; [reflexivity|].
  destruct rows as [|r2 rows].
  - cbn [Py.join]. rewrite <- (app_nil_r r) at 1.
    rewrite splitlines_loop_line by assumption. rewrite app_nil_r.
    cbn [splitlines_loop]. destruct (rev r) as [|x t] eqn:E.
    + apply (f_equal (@rev _)) in E. rewrite rev_involutive in E.
      simpl in E. congruence.
    + rewrite <- E, rev_involutive. reflexivity.
  - change (Py.join [10%N] (r :: r2 :: rows))
      with (r ++ [10%N] ++ Py.join [10%N] (r2 :: rows)).
    rewrite splitlines_loop_line by assumption. rewrite app_nil_r.
    cbn [app splitlines_loop].
    change (is_linebreak 10%N) with true. cbv iota.
    rewrite rev_involutive, IH. reflexivity.
Qed.

(** The four fields of a row. *)
Lemma split_row (n d sz mt : str) :
  ~ In 124%N n -> ~ In 124%N d -> ~ In 124%N sz -> ~ In 124%N mt ->
  split 124%N (n ++ lit "|" ++ d ++ lit "|" ++ sz ++ lit "|" ++ mt)
  = [n; d; sz; mt].
Proof.
  intros Hn Hd Hsz Hmt. change (lit "|") with [124%N]. cbn [app].
  rewrite split_app_sep, (split_no_sep _ n Hn).
  rewrite split_app_sep, (split_no_sep _ d Hd).
  rewrite split_app_sep, (split_no_sep _ sz Hsz).
  rewrite (split_no_sep _ mt Hmt). reflexivity.
Qed.

Lemma lstrip_space_In (c : char) (s : str) :
  In c s -> isspace c = false -> In c (lstrip_space s).
Proof.
  intros Hin Hc. induction s as [|a s IH]; [contradiction|].
  cbn [lstrip_space]. destruct (isspace a) eqn:Ea; [|exact Hin].
  destruct Hin as [->|Hin]; [congruence|]. apply IH. exact Hin.
Qed.

(** A line with a character that is not white space is not blank. *)
Lemma strip_not_blank (c : char) (s : str) :
  In c s -> isspace c = false -> is_empty (strip s) = false.
Proof.
  intros Hin Hc. unfold strip.
  assert (H : In c (rev (lstrip_space (rev (lstrip_space s))))).
  { apply in_rev. rewrite rev_involutive. apply lstrip_space_In; [|exact Hc].
    apply in_rev. rewrite rev_involutive. apply lstrip_space_In; assumption. }
  destruct (rev _); [contradiction|reflexivity].
Qed.

Lemma plain_name_no_bar (nm : str) : plain_name nm -> ~ In 124%N nm.
Proof.
  intros H Hin. unfold plain_name in H. rewrite Forall_forall in H.
  destruct (H _ Hin) as [Hb _]. congruence.
Qed.

Lemma plain_name_one_line (nm : str) :
  plain_name nm -> Forall (fun ch => is_linebreak ch = false) nm.
Proof. apply Forall_impl. intros c [_ H]. exact H. Qed.

Lemma format_entry_fields (e : Server.entry) :
  plain_name (Server.name e) ->
  split 124%N (Server.format_entry e)
  = [Server.name e; str_of_int (if Server.dir e then 1 else 0);
     str_of_int (Server.size e); str_of_int (Server.mtime e)].
Proof.
  intros Hn. unfold Server.format_entry.
  apply split_row; [apply plain_name_no_bar; exact Hn|..];
    apply str_of_int_no_bar.
Qed.

Lemma format_entry_one_line (e : Server.entry) :
  plain_name (Server.name e) ->
  Server.format_entry e <> []
  /\ Forall (fun ch => is_linebreak ch = false) (Server.format_entry e).
Proof.
  intros Hn. unfold Server.format_entry. change (lit "|") with [124%N]. split.
  - destruct (Server.name e); discriminate.
  - repeat (apply Forall_app; split);
      try apply str_of_int_one_line;
      try (apply plain_name_one_line; exact Hn);
      repeat constructor.
Qed.

Lemma format_entry_not_blank (e : Server.entry) :
  is_empty (strip (Server.format_entry e)) = false.
Proof.
  apply (strip_not_blank 124%N); [|reflexivity].
  unfold Server.format_entry. change (lit "|") with [124%N].
  apply in_or_app. right. left. reflexivity.
Qed.

Lemma format_entry_numbers (e : Server.entry) :
  plain_name (Server.name e) -> short_numbers e ->
  looked_at (Server.format_entry e) = true
  /\ numbers libtext (Server.format_entry e)
     = Some (if Server.dir e then 1 else 0, Server.size e, Server.mtime e)
  /\ field0 (Server.format_entry e) = Server.name e.
Proof.
  intros Hn [Hsz Hmt]. unfold looked_at, nonblank, four_fields, numbers, field0.
  rewrite format_entry_not_blank, (format_entry_fields e Hn).
  rewrite !parse_int_str_of_int;
    [auto|exact Hmt|exact Hsz|destruct (Server.dir e); reflexivity].
Qed.

Lemma rows_well_formed (items : list Server.entry) :
  Forall (fun e => plain_name (Server.name e)) items ->
  Forall short_numbers items ->
  well_formed_lines libtext (map Server.format_entry items).
Proof.
  intros H Hs. unfold well_formed_lines. apply Forall_map.
  apply Forall_forall. intros e Hin _.
  destruct (format_entry_numbers e
              (proj1 (Forall_forall _ _) H e Hin)
              (proj1 (Forall_forall _ _) Hs e Hin)) as (_ & Hnum & _).
  rewrite Hnum. discriminate.
Qed.

Lemma rows_client_items (items : list Server.entry) :
  Forall (fun e => plain_name (Server.name e)) items ->
  Forall short_numbers items ->
  flat_map (client_items libtext) (map Server.format_entry items)
  = map gui_item items.
Proof.
  induction 1 as [|e items He Hi IH]; intros Hs; [reflexivity|].
  inversion Hs as [|? ? Hse Hsi]; subst.
  cbn [map flat_map]. rewrite (IH Hsi). unfold client_items at 1.
  destruct (format_entry_numbers e He Hse) as (Hl & Hnum & Hf).
  rewrite Hl, Hnum, Hf. unfold gui_item.
  destruct e as [nm d sz mt]. destruct d; reflexivity.
Qed.

Lemma rows_cli_items (items : list Server.entry) :
  Forall (fun e => plain_name (Server.name e)) items ->
  Forall short_numbers items ->
  flat_map (cli_items libtext) (map Server.format_entry items)
  = map cli_item items.
Proof.
  induction 1 as [|e items He Hi IH]; intros Hs; [reflexivity|].
  inversion Hs as [|? ? Hse Hsi]; subst.
  cbn [map flat_map]. rewrite (IH Hsi). unfold cli_items at 1.
  destruct (format_entry_numbers e He Hse) as (Hl & Hnum & Hf).
  rewrite Hl, Hnum, Hf. unfold cli_item.
  destruct e as [nm d sz mt]. destruct d; reflexivity.
Qed.

(** The payload of a LIST_RESP packet, read back into rows. *)
Lemma rows_read_back (items : list Server.entry) (data : bytes) :
  Forall (fun e => plain_name (Server.name e)) items ->
  encode libtext (Py.join [10%N] (map Server.format_entry items)) = OK data ->
  splitlines (decode_lossy Ignore data) = map Server.format_entry items.
Proof.
  intros Hp Hd. destruct (decode_encode libtext _ _ Hd) as [_ Hl].
  rewrite Hl. apply splitlines_join. apply Forall_map.
  revert Hp. apply Forall_impl. intros e He.
  apply format_entry_one_line. exact He.
Qed.

End Rows.

(* ===================================================================== *)
(** * The listing, end to end                                              *)
(* ===================================================================== *)

Section ClientPackets.
Import Py.

Variable libtext : library.

(** A packet at the head of what a client socket carries, when it is not
    an ERR packet ... *)
Lemma client_recv_packed (t : Z) (p pkt more : bytes) (s : sock)
  (rest : inbox) :
  Client.pack libtext t p = OK pkt -> t <> Client.TYPE_ERR ->
  carries (s_in s) (pkt ++ more) rest ->
  exists i',
    Client.recv_packet libtext s = (OK (t, p), with_in s i')
    /\ carries i' more rest.
Proof.
  intros Hp Ht Hc. destruct (client_pack_inv libtext _ _ _ Hp) as (h & -> & Hh & Hu).
  rewrite <- !app_assoc in Hc. unfold Client.recv_packet, try_except.
  destruct (client_recv_exact_carries Client.MAGIC _ s rest Hc)
    as (i1 & H1 & Hc1).
  change (List.length Client.MAGIC) with 4%nat in H1.
  unfold bind at 1. rewrite H1. rewrite bytes_eqb_refl.
  change (negb true) with false. cbv beta iota.
  rewrite <- (with_in_in s i1) in Hc1.
  destruct (client_recv_exact_carries h _ _ rest Hc1) as (i2 & H2 & Hc2).
  rewrite Hh in H2. unfold bind at 1. rewrite H2.
  unfold bind at 1, lift at 1. rewrite Hu. cbv beta iota.
  rewrite Nat2Z.id. rewrite with_in_twice in *.
  rewrite <- (with_in_in s i2) in Hc2.
  destruct (client_recv_exact_carries p _ _ rest Hc2) as (i3 & H3 & Hc3).
  unfold bind at 1. rewrite H3. rewrite with_in_twice.
  replace (t =? Client.TYPE_ERR) with false
    by (symmetry; apply Z.eqb_neq; exact Ht).
  exists i3. split; [reflexivity|exact Hc3].
Qed.

(** ... and when it is one: [Client.py] raises its text, if the text is
    UTF-8 ... *)
Lemma client_recv_packed_ERR (p pkt more : bytes) (msg : str) (s : sock)
  (rest : inbox) :
  Client.pack libtext Client.TYPE_ERR p = OK pkt ->
  decode libtext Strict p = OK msg ->
  carries (s_in s) (pkt ++ more) rest ->
  exists i',
    Client.recv_packet libtext s
    = (Err (Exc ConnectionError msg), with_in s i')
    /\ carries i' more rest.
Proof.
  intros Hp Hd Hc. destruct (client_pack_inv libtext _ _ _ Hp) as (h & -> & Hh & Hu).
  rewrite <- !app_assoc in Hc. unfold Client.recv_packet, try_except.
  destruct (client_recv_exact_carries Client.MAGIC _ s rest Hc)
    as (i1 & H1 & Hc1).
  change (List.length Client.MAGIC) with 4%nat in H1.
  unfold bind at 1. rewrite H1. rewrite bytes_eqb_refl.
  change (negb true) with false. cbv beta iota.
  rewrite <- (with_in_in s i1) in Hc1.
  destruct (client_recv_exact_carries h _ _ rest Hc1) as (i2 & H2 & Hc2).
  rewrite Hh in H2. unfold bind at 1. rewrite H2.
  unfold bind at 1, lift at 1. rewrite Hu. cbv beta iota.
  rewrite Nat2Z.id. rewrite with_in_twice in *.
  rewrite <- (with_in_in s i2) in Hc2.
  destruct (client_recv_exact_carries p _ _ rest Hc2) as (i3 & H3 & Hc3).
  unfold bind at 1. rewrite H3. rewrite with_in_twice.
  change (Client.TYPE_ERR =? Client.TYPE_ERR) with true. cbv iota.
  unfold bind at 1, lift at 1. rewrite Hd.
  exists i3. split; [reflexivity|exact Hc3].
Qed.

(** ... and the same for [CLI-Client.py]. *)
Lemma cli_recv_packed (t : Z) (p pkt more : bytes) (s : sock)
  (rest : inbox) :
  CLI.pack libtext t p = OK pkt -> t <> CLI.TYPE_ERR ->
  carries (s_in s) (pkt ++ more) rest ->
  exists i',
    CLI.recv_packet libtext s = (OK (t, p), with_in s i')
    /\ carries i' more rest.
Proof.
  intros Hp Ht Hc. destruct (client_pack_inv libtext _ _ _ Hp) as (h & -> & Hh & Hu).
  rewrite <- !app_assoc in Hc. unfold CLI.recv_packet, try_except.
  destruct (cli_recv_exact_carries CLI.MAGIC _ s rest Hc)
    as (i1 & H1 & Hc1).
  change (List.length CLI.MAGIC) with 4%nat in H1.
  unfold bind at 1. rewrite H1. rewrite bytes_eqb_refl.
  change (negb true) with false. cbv beta iota.
  rewrite <- (with_in_in s i1) in Hc1.
  destruct (cli_recv_exact_carries h _ _ rest Hc1) as (i2 & H2 & Hc2).
  rewrite Hh in H2. unfold bind at 1. rewrite H2.
  unfold bind at 1, lift at 1. rewrite Hu. cbv beta iota.
  rewrite Nat2Z.id. rewrite with_in_twice in *.
  rewrite <- (with_in_in s i2) in Hc2.
  destruct (cli_recv_exact_carries p _ _ rest Hc2) as (i3 & H3 & Hc3).
  unfold bind at 1. rewrite H3. rewrite with_in_twice.
  replace (t =? CLI.TYPE_ERR) with false
    by (symmetry; apply Z.eqb_neq; exact Ht).
  exists i3. split; [reflexivity|exact Hc3].
Qed.

Lemma cli_recv_packed_ERR (p pkt more : bytes) (s : sock) (rest : inbox) :
  CLI.pack libtext CLI.TYPE_ERR p = OK pkt ->
  carries (s_in s) (pkt ++ more) rest ->
  exists i',
    CLI.recv_packet libtext s
    = (Err (Exc ConnectionError
              (lit "Packet error: " ++ decode_lossy Ignore p)),
       with_in s i')
    /\ carries i' more rest.
Proof.
  intros Hp Hc. destruct (client_pack_inv libtext _ _ _ Hp) as (h & -> & Hh & Hu).
  rewrite <- !app_assoc in Hc. unfold CLI.recv_packet, try_except.
  destruct (cli_recv_exact_carries CLI.MAGIC _ s rest Hc)
    as (i1 & H1 & Hc1).
  change (List.length CLI.MAGIC) with 4%nat in H1.
  unfold bind at 1. rewrite H1. rewrite bytes_eqb_refl.
  change (negb true) with false. cbv beta iota.
  rewrite <- (with_in_in s i1) in Hc1.
  destruct (cli_recv_exact_carries h _ _ rest Hc1) as (i2 & H2 & Hc2).
  rewrite Hh in H2. unfold bind at 1. rewrite H2.
  unfold bind at 1, lift at 1. rewrite Hu. cbv beta iota.
  rewrite Nat2Z.id. rewrite with_in_twice in *.
  rewrite <- (with_in_in s i2) in Hc2.
  destruct (cli_recv_exact_carries p _ _ rest Hc2) as (i3 & H3 & Hc3).
  unfold bind at 1. rewrite H3. rewrite with_in_twice.
  exists i3. split; [reflexivity|exact Hc3].
Qed.

End ClientPackets.

Section ListingEndToEnd.
Import Py.

Variable libtext : library.
Variable P : os_path.
Variable fs : Server.filesystem.

Lemma handle_client_at_eof (c : Server.conn) :
  Server.c_inbox c = [] ->
  Server.handle_client libtext P fs c = (OK tt, Server.sock_close c).
Proof.
  intros Hi.
  destruct (pack_ok libtext 0 []) as (h & Hp & _); [lia|simpl; lia|].
  rewrite handle_client_eq, serve_loop_S.
  rewrite (server_recv_packet_truncated libtext 0 [] _ [] _ c Hp eq_refl).
  - rewrite <- Hi, with_inbox_same. reflexivity.
  - discriminate.
  - rewrite Hi. constructor.
Qed.

(** One request, after which the peer shuts down. *)
Lemma handle_client_one_request (t : Z) (p pkt : bytes)
  (c c2 : Server.conn) :
  Server.pack libtext t p = OK pkt ->
  carries (Server.c_inbox c) pkt [] ->
  Server.handle_request libtext P fs t p (Server.with_inbox c []) = (OK tt, c2) ->
  Server.handle_client libtext P fs c = (OK tt, Server.sock_close c2).
Proof.
  intros Hp Hc Hh. rewrite <- (app_nil_r pkt) in Hc.
  destruct (handle_client_next libtext P fs t p pkt [] c [] Hp Hc)
    as (i' & Hc' & H).
  apply carries_nil_inv in Hc'. subst i'. rewrite H, Hh.
  apply handle_client_at_eof.
  destruct (quiet_handle_request libtext P fs t p (Server.with_inbox c []))
    as [_ Hq].
  rewrite Hh in Hq. exact Hq.
Qed.

(** What [API.list] does with a LIST_RESP packet. *)
Lemma client_API_list_run (path : str) (req pkt data resp : bytes)
  (s : sock) (rest : inbox) (items : list Client.item) :
  encode libtext (replace_char 92%N 47%N path) = OK req ->
  Client.pack libtext Client.TYPE_LIST req = OK pkt ->
  Client.pack libtext Client.TYPE_LIST_RESP data = OK resp ->
  carries (s_in s) resp rest ->
  Client.list_loop libtext (splitlines (decode_lossy Ignore data)) []
  = OK items ->
  Client.API_list libtext path s
  = (OK (Client.Success items),
     {| s_in := rest; s_out := s_out s ++ [pkt]; s_closed := true |}).
Proof.
  intros Henc Hpk Hresp Hc Hitems.
  unfold Client.API_list, try_except.
  unfold bind at 1, lift at 1. rewrite Henc.
  unfold bind at 1, lift at 1. rewrite Hpk.
  unfold bind at 1, sock_sendall.
  unfold bind at 1.
  set (s1 := {| s_in := s_in s; s_out := s_out s ++ [pkt];
                s_closed := s_closed s |}).
  rewrite <- (app_nil_r resp) in Hc.
  destruct (client_recv_packed libtext Client.TYPE_LIST_RESP data resp []
              s1 rest Hresp ltac:(discriminate) Hc) as (i' & Hr & Hc').
  apply carries_nil_inv in Hc'. subst i'. rewrite Hr.
  unfold bind at 1, sock_close. unfold bind at 1.
  change (Client.TYPE_LIST_RESP =? Client.TYPE_LIST_RESP) with true.
  cbv iota. unfold lift. rewrite Hitems. reflexivity.
Qed.

(** What [list_directory] does with a LIST_RESP packet. *)
Lemma cli_list_directory_run (current_path path : str)
  (req pkt data resp : bytes) (s : sock) (rest : inbox)
  (items : list CLI.item) :
  encode libtext
    (replace_char 92%N 47%N (if is_empty path then current_path else path))
  = OK req ->
  CLI.pack libtext CLI.TYPE_LIST req = OK pkt ->
  CLI.pack libtext CLI.TYPE_LIST_RESP data = OK resp ->
  carries (s_in s) resp rest ->
  CLI.list_loop libtext (splitlines (decode_lossy Ignore data)) []
  = OK items ->
  CLI.list_directory libtext current_path path s
  = (OK items,
     {| s_in := rest; s_out := s_out s ++ [pkt]; s_closed := true |}).
Proof.
  intros Henc Hpk Hresp Hc Hitems.
  unfold CLI.list_directory, try_except.
  unfold bind at 1, lift at 1. rewrite Henc.
  unfold bind at 1, lift at 1. rewrite Hpk.
  unfold bind at 1, sock_sendall.
  unfold bind at 1.
  set (s1 := {| s_in := s_in s; s_out := s_out s ++ [pkt];
                s_closed := s_closed s |}).
  rewrite <- (app_nil_r resp) in Hc.
  destruct (cli_recv_packed libtext CLI.TYPE_LIST_RESP data resp []
              s1 rest Hresp ltac:(discriminate) Hc) as (i' & Hr & Hc').
  apply carries_nil_inv in Hc'. subst i'. rewrite Hr.
  unfold bind at 1, sock_close.
  change (CLI.TYPE_LIST_RESP =? CLI.TYPE_LIST_RESP) with true.
  cbv iota. unfold lift. rewrite Hitems. reflexivity.
Qed.

(** The server's side of a listing: one request, one LIST_RESP packet. *)
Lemma server_lists (path : str) (req pkt data resp : bytes)
  (c : Server.conn) :
  stat_raises_OSError fs ->
  encode libtext path = OK req ->
  Server.pack libtext Server.TYPE_LIST req = OK pkt ->
  encode libtext
    (Py.join [10%N] (map Server.format_entry (expected_listing P fs path)))
  = OK data ->
  Server.pack libtext Server.TYPE_LIST_RESP data = OK resp ->
  carries (Server.c_inbox c) pkt [] ->
  exists paths,
    Server.handle_client libtext P fs c
    = (OK tt, Server.sock_close (after (Server.with_inbox c []) paths [resp])).
Proof.
  intros Hos Hreq Hpkt Hdata Hresp Hc.
  destruct (decode_encode libtext _ _ Hreq) as [_ Hdec].
  rewrite <- (Hdec Replace) in Hdata.
  destruct (handle_list libtext P fs req data resp (Server.with_inbox c [])
              Hos Hdata Hresp) as (paths & Hh).
  exists paths.
  apply (handle_client_one_request Server.TYPE_LIST req pkt c _ Hpkt Hc Hh).
Qed.

(** X10. A listing travels unharmed from the server to the desktop client.
    When [API.list(path)] sends its request to a server whose directory has
    only names without a bar and without a line boundary, and sizes and
    times of at most 640 bits, and the rows fit one packet, the server answers with one LIST_RESP packet, and [API.list]
    returns success with one record per entry of the directory that can be
    examined, in the server's order, with the same name, directory flag, size
    and modification time; the client has sent the one request and closed its
    socket. *)
Theorem listing_reaches_the_gui (path : str) (req pkt data resp : bytes)
  (c : Server.conn) :
  stat_raises_OSError fs ->
  Forall (fun e => plain_name (Server.name e))
    (expected_listing P fs (replace_char 92%N 47%N path)) ->
  Forall short_numbers
    (expected_listing P fs (replace_char 92%N 47%N path)) ->
  encode libtext (replace_char 92%N 47%N path) = OK req ->
  Client.pack libtext Client.TYPE_LIST req = OK pkt ->
  encode libtext
    (Py.join [10%N]
       (map Server.format_entry
          (expected_listing P fs (replace_char 92%N 47%N path)))) = OK data ->
  Server.pack libtext Server.TYPE_LIST_RESP data = OK resp ->
  carries (Server.c_inbox c) pkt [] ->
  Server.c_outbox (snd (Server.handle_client libtext P fs c))
  = Server.c_outbox c ++ [resp]
  /\ forall (s : sock) (rest : inbox),
       carries (s_in s) resp rest ->
       Client.API_list libtext path s
       = (OK (Client.Success
                (map gui_item
                   (expected_listing P fs (replace_char 92%N 47%N path)))),
          {| s_in := rest; s_out := s_out s ++ [pkt]; s_closed := true |}).
Proof.
  intros Hos Hplain Hshort Hreq Hpkt Hdata Hresp Hc. split.
  - destruct (server_lists _ req pkt data resp c Hos Hreq Hpkt Hdata Hresp Hc)
      as (paths & H).
    rewrite H. reflexivity.
  - intros s rest Hs.
    apply (client_API_list_run path req pkt data resp s rest _
             Hreq Hpkt Hresp Hs).
    rewrite (rows_read_back libtext _ data Hplain Hdata).
    rewrite (client_list_loop_well_formed libtext _
               (rows_well_formed _ _ Hplain Hshort)).
    rewrite (rows_client_items _ _ Hplain Hshort). reflexivity.
Qed.

(** X11. The same for the terminal client, under the same conditions:
    [list_directory(path)] returns
    one record per entry of the server's directory, with the same name,
    directory flag, size and modification time. *)
Theorem listing_reaches_the_cli (current_path path : str)
  (req pkt data resp : bytes) (c : Server.conn) :
  is_empty path = false ->
  stat_raises_OSError fs ->
  Forall (fun e => plain_name (Server.name e))
    (expected_listing P fs (replace_char 92%N 47%N path)) ->
  Forall short_numbers
    (expected_listing P fs (replace_char 92%N 47%N path)) ->
  encode libtext (replace_char 92%N 47%N path) = OK req ->
  CLI.pack libtext CLI.TYPE_LIST req = OK pkt ->
  encode libtext
    (Py.join [10%N]
       (map Server.format_entry
          (expected_listing P fs (replace_char 92%N 47%N path)))) = OK data ->
  Server.pack libtext Server.TYPE_LIST_RESP data = OK resp ->
  carries (Server.c_inbox c) pkt [] ->
  Server.c_outbox (snd (Server.handle_client libtext P fs c))
  = Server.c_outbox c ++ [resp]
  /\ forall (s : sock) (rest : inbox),
       carries (s_in s) resp rest ->
       CLI.list_directory libtext current_path path s
       = (OK (map cli_item
                (expected_listing P fs (replace_char 92%N 47%N path))),
          {| s_in := rest; s_out := s_out s ++ [pkt]; s_closed := true |}).
Proof.
  intros Hne Hos Hplain Hshort Hreq Hpkt Hdata Hresp Hc. split.
  - destruct (server_lists _ req pkt data resp c Hos Hreq Hpkt Hdata Hresp Hc)
      as (paths & H).
    rewrite H. reflexivity.
  - intros s rest Hs.
    apply (cli_list_directory_run current_path path req pkt data resp s rest _);
      try assumption.
    + rewrite Hne. exact Hreq.
    + rewrite (rows_read_back libtext _ data Hplain Hdata).
      rewrite (cli_list_loop_well_formed libtext _
                 (rows_well_formed _ _ Hplain Hshort)).
      rewrite (rows_cli_items _ _ Hplain Hshort). reflexivity.
Qed.

End ListingEndToEnd.

(** The listing of [pub] in the deployment, on both clients. *)
Lemma listing_reaches_the_gui_witness :
  Server.c_outbox
    (snd (Server.handle_client Scenario.libtext Scenario.P Scenario.fs
            (Scenario.connection [Scenario.request 1 (Py.blit "/pub")])))
  = [] ++ [Scenario.request 2 (Py.blit "ok.txt|0|3|1700000000")]
  /\ forall (s : Py.sock) (rest : Py.inbox),
       carries (Py.s_in s)
         (Scenario.request 2 (Py.blit "ok.txt|0|3|1700000000")) rest ->
       Client.API_list Scenario.libtext (Py.lit "/pub") s
       = (Py.OK (Client.Success
                   (map gui_item
                      (expected_listing Scenario.P Scenario.fs
                         (Py.replace_char 92%N 47%N (Py.lit "/pub"))))),
          {| Py.s_in := rest;
             Py.s_out := Py.s_out s ++ [Scenario.request 1 (Py.blit "/pub")];
             Py.s_closed := true |}).
Proof.
  apply (listing_reaches_the_gui Scenario.libtext Scenario.P Scenario.fs
           (Py.lit "/pub") (Py.blit "/pub")
           (Scenario.request 1 (Py.blit "/pub"))
           (Py.blit "ok.txt|0|3|1700000000")
           (Scenario.request 2 (Py.blit "ok.txt|0|3|1700000000"))
           (Scenario.connection [Scenario.request 1 (Py.blit "/pub")])).
  - exact stat_raises_OSError_scenario.
  - vm_compute. constructor; [|constructor].
    repeat (constructor; [split; [discriminate|reflexivity]|]). constructor.
  - match goal with
    | |- Forall ?Q ?l =>
        let l' := eval vm_compute in l in change (Forall Q l')
    end.
    repeat (constructor; [split; reflexivity|]). constructor.
  - reflexivity.
  - reflexivity.
  - reflexivity.
  - reflexivity.
  - exact (carries_segment (Scenario.request 1 (Py.blit "/pub")) eq_refl).
Defined.

Lemma listing_reaches_the_cli_witness :
  Server.c_outbox
    (snd (Server.handle_client Scenario.libtext Scenario.P Scenario.fs
            (Scenario.connection [Scenario.request 1 (Py.blit "/pub")])))
  = [] ++ [Scenario.request 2 (Py.blit "ok.txt|0|3|1700000000")]
  /\ forall (s : Py.sock) (rest : Py.inbox),
       carries (Py.s_in s)
         (Scenario.request 2 (Py.blit "ok.txt|0|3|1700000000")) rest ->
       CLI.list_directory Scenario.libtext (Py.lit "/") (Py.lit "/pub") s
       = (Py.OK (map cli_item
                   (expected_listing Scenario.P Scenario.fs
                      (Py.replace_char 92%N 47%N (Py.lit "/pub")))),
          {| Py.s_in := rest;
             Py.s_out := Py.s_out s ++ [Scenario.request 1 (Py.blit "/pub")];
             Py.s_closed := true |}).
Proof.
  apply (listing_reaches_the_cli Scenario.libtext Scenario.P Scenario.fs
           (Py.lit "/") (Py.lit "/pub") (Py.blit "/pub")
           (Scenario.request 1 (Py.blit "/pub"))
           (Py.blit "ok.txt|0|3|1700000000")
           (Scenario.request 2 (Py.blit "ok.txt|0|3|1700000000"))
           (Scenario.connection [Scenario.request 1 (Py.blit "/pub")])).
  - reflexivity.
  - exact stat_raises_OSError_scenario.
  - vm_compute. constructor; [|constructor].
    repeat (constructor; [split; [discriminate|reflexivity]|]). constructor.
  - match goal with
    | |- Forall ?Q ?l =>
        let l' := eval vm_compute in l in change (Forall Q l')
    end.
    repeat (constructor; [split; reflexivity|]). constructor.
  - reflexivity.
  - reflexivity.
  - reflexivity.
  - reflexivity.
  - exact (carries_segment (Scenario.request 1 (Py.blit "/pub")) eq_refl).
Defined.

(* ===================================================================== *)
(** * The download workers                                                 *)
(* ===================================================================== *)

Section Files.
Import Py.

Lemma skipn_repeat {A} (x : A) (n k : nat) :
  skipn n (repeat x k) = repeat x (k - n).
Proof.
  revert k. induction n as [|n IH]; intros k.
  - rewrite Nat.sub_0_r. reflexivity.
  - destruct k as [|k]; [reflexivity|]. simpl. apply IH.
Qed.

(** Writing a chunk over the zeros that follow what has been written. *)
Lemma write_at_fill (done chunk : bytes) (k : nat) :
  (List.length chunk <= k)%nat ->
  write_at (done ++ repeat x00 k) (List.length done) chunk
  = (done ++ chunk) ++ repeat x00 (k - List.length chunk).
Proof.
  intros H. unfold write_at.
  destruct chunk as [|b chunk];
    [cbn [List.length]; rewrite app_nil_r, Nat.sub_0_r; reflexivity|].
  set (ch := b :: chunk) in *.
  rewrite firstn_app, firstn_all, Nat.sub_diag, firstn_O, app_nil_r.
  rewrite length_app, repeat_length.
  replace (List.length done - (List.length done + k))%nat with 0%nat by lia.
  cbn [repeat app].
  rewrite skipn_app, skipn_all2 by lia.
  replace (List.length done + List.length ch - List.length done)%nat
    with (List.length ch) by lia.
  rewrite skipn_repeat, <- app_assoc. reflexivity.
Qed.

(** The file as [_download] creates it: [size] zeros. *)
Lemma preallocated (size : Z) :
  (if size >? 0 then write_at [] (Z.to_nat (size - 1)) [x00] else [])
  = repeat x00 (Z.to_nat size).
Proof.
  destruct (Z.gtb_spec size 0) as [H|H].
  - unfold write_at. rewrite firstn_nil, skipn_nil, app_nil_r.
    cbn [List.length app]. rewrite Nat.sub_0_r.
    replace (Z.to_nat size) with (S (Z.to_nat (size - 1))) by lia.
    cbn [repeat]. rewrite repeat_cons. reflexivity.
  - replace (Z.to_nat size) with 0%nat by lia. reflexivity.
Qed.

End Files.

Section GuiDownload.
Import Py.

Variable libtext : library.
Variable disk : local_disk.
Variable now : float.

(** The text of a META packet is read back as it was written. *)
Lemma decode_decimal (z : Z) :
  decode libtext Strict (map byte_of_N (str_of_int z)) = OK (str_of_int z).
Proof.
  assert (E : encode libtext (str_of_int z)
              = OK (map byte_of_N (str_of_int z))).
  { unfold encode. rewrite (utf8_encode_ascii _ (str_of_int_ascii z)).
    reflexivity. }
  apply (decode_encode libtext _ _ E).
Qed.

(** Every chunk packet has at least one byte. *)
Lemma packed_length (chunks pkts : list bytes) :
  packed libtext chunks pkts ->
  (List.length chunks <= List.length (List.concat pkts))%nat.
Proof.
  induction 1 as [|ch pk chunks pkts Hp Hf IH]; [simpl; lia|].
  destruct (pack_inv libtext _ _ _ Hp) as (h & -> & Hh & _).
  cbn [List.concat List.length]. rewrite !length_app.
  change (List.length Server.MAGIC) with 4%nat. lia.
Qed.

(** [_get_size] when the server answers with a META packet. *)
Lemma gui_get_size_meta (path : str) (size : Z)
  (req pkt meta more : bytes) (s : sock) (rest : inbox) :
  short_number size ->
  encode libtext (path ++ lit "|0|1") = OK req ->
  Client.pack libtext Client.TYPE_GET req = OK pkt ->
  Client.pack libtext Client.TYPE_META (map byte_of_N (str_of_int size))
  = OK meta ->
  carries (s_in s) (meta ++ more) rest ->
  exists i',
    carries i' more rest
    /\ Client._get_size libtext path s
       = (OK size,
          {| s_in := i'; s_out := s_out s ++ [pkt]; s_closed := true |}).
Proof.
  intros Hshort Henc Hpk Hmeta Hc.
  unfold Client._get_size.
  unfold bind at 1, lift at 1. rewrite Henc.
  unfold bind at 1, lift at 1. rewrite Hpk.
  unfold bind at 1, sock_sendall.
  set (s1 := {| s_in := s_in s; s_out := s_out s ++ [pkt];
                s_closed := s_closed s |}).
  destruct (client_recv_packed libtext Client.TYPE_META _ meta more s1 rest
              Hmeta ltac:(discriminate) Hc) as (i' & Hr & Hc').
  exists i'. split; [exact Hc'|].
  unfold bind at 1. rewrite Hr.
  unfold bind at 1, sock_close.
  change (Client.TYPE_META =? Client.TYPE_META) with true. cbv iota.
  unfold bind at 1, lift at 1. rewrite decode_decimal.
  unfold lift. rewrite int_str_of_int by exact Hshort. reflexivity.
Qed.

(** The copying loop of [_download] on the chunks of a file. *)
Lemma gui_download_loop (chunks : list bytes) :
  forall (pkts : list bytes) (fuel : nat) (size : Z) (done more : bytes)
         (w : Client.worker) (rest : inbox),
    packed libtext chunks pkts ->
    Forall (fun ch => ch <> []) chunks ->
    size = Z.of_nat (List.length done + List.length (List.concat chunks)) ->
    Client.w_file w
    = Some (done ++ repeat x00 (List.length (List.concat chunks))) ->
    carries (s_in (Client.w_data w)) (List.concat pkts ++ more) rest ->
    (List.length chunks < fuel)%nat ->
    exists i',
      carries i' more rest
      /\ Client.download_loop libtext fuel size
           (Z.of_nat (List.length done)) w
         = (OK tt,
            {| Client.w_probe := Client.w_probe w;
               Client.w_data := with_in (Client.w_data w) i';
               Client.w_file := Some (done ++ List.concat chunks);
               Client.w_info :=
                 match chunks with
                 | [] => Client.w_info w
                 | _ => Client.with_downloaded size (Client.w_info w)
                 end |}).
Proof.
  induction chunks as [|ch chunks IH];
    intros pkts fuel size done more w rest Hp Hne Hsize Hfile Hc Hfuel.
  - inversion Hp; subst pkts. exists (s_in (Client.w_data w)).
    split; [exact Hc|].
    cbn [List.concat List.length] in *. rewrite Nat.add_0_r in Hsize.
    destruct fuel as [|fuel]; cbn [Client.download_loop];
      (replace (Z.of_nat (List.length done) <? size) with false
         by (symmetry; apply Z.ltb_ge; lia));
      unfold ret; rewrite with_in_same; destruct w as [wp wd wf wi];
      cbn [Client.w_file Client.w_probe Client.w_data Client.w_info] in *;
      subst wf; reflexivity.
  - inversion Hp as [|ch0 pk chunks0 pkts' Hpk Hps]; subst.
    inversion Hne as [|ch0 chunks0 Hch Hne']; subst.
    destruct fuel as [|fuel]; [simpl in Hfuel; lia|].
    cbn [List.concat] in *. rewrite length_app in *.
    cbn [Client.download_loop].
    replace (Z.of_nat (List.length done) <? _) with true.
    2:{ symmetry. apply Z.ltb_lt. destruct ch; [congruence|].
        cbn [List.length]. lia. }
    rewrite <- app_assoc in Hc.
    destruct (client_recv_packed libtext Client.TYPE_CHUNK ch pk _
                (Client.w_data w) rest Hpk ltac:(discriminate) Hc)
      as (i1 & Hr & Hc1).
    unfold bind at 1, Client.on_data at 1. rewrite Hr.
    change (negb (Client.TYPE_CHUNK =? Client.TYPE_CHUNK)) with false.
    cbv iota.
    unfold bind at 1, Client.write_file.
    cbn [Client.w_file]. rewrite Hfile.
    rewrite Nat2Z.id, write_at_fill by lia.
    replace (List.length ch + List.length (List.concat chunks)
             - List.length ch)%nat
      with (List.length (List.concat chunks)) by lia.
    unfold Client.set_file at 1.
    unfold bind at 1, Client.update_info at 1.
    cbn [Client.w_probe Client.w_data Client.w_file Client.w_info].
    replace (Z.of_nat (List.length done) + Z.of_nat (List.length ch))
      with (Z.of_nat (List.length (done ++ ch)))
      by (rewrite length_app; lia).
    match goal with
    | |- context [Client.download_loop libtext fuel ?sz ?pos ?w1] =>
        destruct (IH pkts' fuel sz (done ++ ch) more w1 rest)
          as (i' & Hc' & Hl)
    end.
    + exact Hps.
    + exact Hne'.
    + rewrite length_app. lia.
    + reflexivity.
    + exact Hc1.
    + simpl in Hfuel. lia.
    + exists i'. split; [exact Hc'|]. rewrite Hl.
      cbn [Client.w_probe Client.w_data Client.w_file Client.w_info].
      rewrite with_in_twice, <- app_assoc. f_equal. f_equal.
      destruct chunks as [|ch2 chunks]; [|reflexivity].
      cbn [List.concat List.length]. rewrite Nat.add_0_r, length_app.
      reflexivity.
Qed.

(** What [_download] does when both connections deliver what they should. *)
Lemma gui_download_run (remote save : str) (size : Z)
  (chunks pkts : list bytes) (req1 pkt1 req2 pkt2 meta : bytes)
  (t0 : Z) (p0 first morep : bytes) (w : Client.worker)
  (restp restd : inbox) :
  encode libtext (remote ++ lit "|0|1") = OK req1 ->
  Client.pack libtext Client.TYPE_GET req1 = OK pkt1 ->
  encode libtext (remote ++ lit "|0|" ++ str_of_int size) = OK req2 ->
  Client.pack libtext Client.TYPE_GET req2 = OK pkt2 ->
  makedirs_dirname disk save = inl tt ->
  Client.pack libtext Client.TYPE_META (map byte_of_N (str_of_int size))
  = OK meta ->
  carries (s_in (Client.w_probe w)) (meta ++ morep) restp ->
  Client.pack libtext t0 p0 = OK first -> t0 <> Client.TYPE_ERR ->
  packed libtext chunks pkts ->
  Forall (fun ch => ch <> []) chunks ->
  size = Z.of_nat (List.length (List.concat chunks)) ->
  short_number size ->
  carries (s_in (Client.w_data w)) (first ++ List.concat pkts) restd ->
  Client.w_info w = Client.enqueued remote save ->
  exists ip,
    carries ip morep restp
    /\ Client._download libtext disk now remote save w
       = (OK tt,
          {| Client.w_probe :=
               {| s_in := ip; s_out := s_out (Client.w_probe w) ++ [pkt1];
                  s_closed := true |};
             Client.w_data :=
               {| s_in := restd; s_out := s_out (Client.w_data w) ++ [pkt2];
                  s_closed := s_closed (Client.w_data w) |};
             Client.w_file := Some (List.concat chunks);
             Client.w_info :=
               {| Client.remote_path := remote; Client.save_path := save;
                  Client.i_size := size; Client.downloaded := size;
                  Client.start_time := Some now;
                  Client.status := lit "completed" |} |}).
Proof.
  intros Hreq1 Hpkt1 Hreq2 Hpkt2 Hmk Hmeta Hcp Hfirst Ht0 Hpacked Hne Hsize
    Hshort Hcd Hinfo.
  destruct (gui_get_size_meta remote size req1 pkt1 meta morep
              (Client.w_probe w) restp Hshort Hreq1 Hpkt1 Hmeta Hcp)
    as (ip & Hip & Hgs).
  exists ip. split; [exact Hip|].
  unfold Client._download, try_except.
  unfold bind at 1, Client.on_probe at 1. rewrite Hgs.
  unfold bind at 1, lift at 1. rewrite Hmk. cbn [of_sum].
  unfold bind at 1, Client.set_file at 1. rewrite preallocated.
  unfold bind at 1, Client.update_info at 1.
  unfold bind at 1, lift at 1. rewrite Hreq2.
  unfold bind at 1, lift at 1. rewrite Hpkt2.
  cbn [Client.w_probe Client.w_data Client.w_file Client.w_info].
  unfold bind at 1, Client.on_data at 1, sock_sendall.
  cbn [Client.w_probe Client.w_data Client.w_file Client.w_info].
  set (s1 := {| s_in := s_in (Client.w_data w);
                s_out := s_out (Client.w_data w) ++ [pkt2];
                s_closed := s_closed (Client.w_data w) |}).
  destruct (client_recv_packed libtext t0 p0 first (List.concat pkts) s1
              restd Hfirst Ht0 Hcd) as (i1 & Hr1 & Hc1).
  unfold bind at 1, Client.on_data at 1.
  cbn [Client.w_probe Client.w_data Client.w_file Client.w_info].
  rewrite Hr1.
  unfold bind at 1.
  cbn [Client.w_probe Client.w_data Client.w_file Client.w_info].
  rewrite <- (app_nil_r (List.concat pkts)) in Hc1.
  match goal with
  | |- context [Client.download_loop libtext ?f size 0 ?w1] =>
      destruct (gui_download_loop chunks pkts f size [] [] w1 restd)
        as (i2 & Hc2 & Hl)
  end.
  - exact Hpacked.
  - exact Hne.
  - cbn [List.length]. rewrite Nat.add_0_l. exact Hsize.
  - cbn [Client.w_file app]. rewrite Hsize, Nat2Z.id. reflexivity.
  - cbn [Client.w_data]. rewrite with_in_in. exact Hc1.
  - cbn [Client.w_data]. rewrite with_in_in.
    pose proof (carries_weight _ _ _ Hc1) as Hw.
    pose proof (packed_length chunks pkts Hpacked) as Hl.
    rewrite length_app in Hw. lia.
  - apply carries_nil_inv in Hc2. subst i2.
    change (Z.of_nat (List.length (@nil byte))) with 0 in Hl.
    rewrite Hl.
    cbn [Client.w_probe Client.w_data Client.w_file Client.w_info app].
    unfold Client.update_info. rewrite with_in_twice, Hinfo.
    unfold s1, with_in. cbn [s_out s_closed].
    f_equal. f_equal.
    destruct chunks as [|ch chunks]; [|reflexivity].
    cbn [List.concat List.length] in Hsize. subst size. reflexivity.
Qed.

(** X12. The desktop client's worker rebuilds a file from its chunks. When
    the size query is answered by a META packet with the decimal size (a
    number of at most 640 bits, which no limit on literals refuses), and the
    transfer connection delivers one packet that is not an ERR packet and
    then CHUNK packets with non-empty payloads that add up to that size,
    however the network cuts them, [_download] returns normally; the file at
    the save path holds exactly the payloads put end to end; the entry shows
    the size, as many bytes downloaded, the start time and the status
    [completed]; and the worker has sent [path|0|1] on the first connection,
    which it has closed, and [path|0|size] on the second. *)
Theorem gui_download_completes (remote save : str) (size : Z)
  (chunks pkts : list bytes) (req1 pkt1 req2 pkt2 meta : bytes)
  (t0 : Z) (p0 first morep : bytes) (w : Client.worker)
  (restp restd : inbox) :
  encode libtext (remote ++ lit "|0|1") = OK req1 ->
  Client.pack libtext Client.TYPE_GET req1 = OK pkt1 ->
  encode libtext (remote ++ lit "|0|" ++ str_of_int size) = OK req2 ->
  Client.pack libtext Client.TYPE_GET req2 = OK pkt2 ->
  makedirs_dirname disk save = inl tt ->
  Client.pack libtext Client.TYPE_META (map byte_of_N (str_of_int size))
  = OK meta ->
  carries (s_in (Client.w_probe w)) (meta ++ morep) restp ->
  Client.pack libtext t0 p0 = OK first -> t0 <> Client.TYPE_ERR ->
  packed libtext chunks pkts ->
  Forall (fun ch => ch <> []) chunks ->
  size = Z.of_nat (List.length (List.concat chunks)) ->
  short_number size ->
  carries (s_in (Client.w_data w)) (first ++ List.concat pkts) restd ->
  Client.w_info w = Client.enqueued remote save ->
  exists ip,
    carries ip morep restp
    /\ Client._download libtext disk now remote save w
       = (OK tt,
          {| Client.w_probe :=
               {| s_in := ip; s_out := s_out (Client.w_probe w) ++ [pkt1];
                  s_closed := true |};
             Client.w_data :=
               {| s_in := restd; s_out := s_out (Client.w_data w) ++ [pkt2];
                  s_closed := s_closed (Client.w_data w) |};
             Client.w_file := Some (List.concat chunks);
             Client.w_info :=
               {| Client.remote_path := remote; Client.save_path := save;
                  Client.i_size := size; Client.downloaded := size;
                  Client.start_time := Some now;
                  Client.status := lit "completed" |} |}).
Proof.
  intros Hreq1 Hpkt1 Hreq2 Hpkt2 Hmk Hmeta Hcp Hfirst Ht0 Hpacked Hne Hsize
    Hshort Hcd Hinfo.
  exact (gui_download_run remote save size chunks pkts req1 pkt1 req2 pkt2
           meta t0 p0 first morep w restp restd Hreq1 Hpkt1 Hreq2 Hpkt2 Hmk
           Hmeta Hcp Hfirst Ht0 Hpacked Hne Hsize Hshort Hcd Hinfo).
Qed.

End GuiDownload.

Section CliDownload.
Import Py.

Variable libtext : library.
Variable disk : local_disk.

(** [get_file_size] when the server answers with a META packet. *)
Lemma cli_get_file_size_meta (path : str) (size : Z)
  (req pkt meta more : bytes) (s : sock) (rest : inbox) :
  short_number size ->
  encode libtext (path ++ lit "|0|1") = OK req ->
  CLI.pack libtext CLI.TYPE_GET req = OK pkt ->
  CLI.pack libtext CLI.TYPE_META (map byte_of_N (str_of_int size)) = OK meta ->
  carries (s_in s) (meta ++ more) rest ->
  exists i',
    carries i' more rest
    /\ CLI.get_file_size libtext path s
       = (OK size,
          {| s_in := i'; s_out := s_out s ++ [pkt]; s_closed := true |}).
Proof.
  intros Hshort Henc Hpk Hmeta Hc.
  unfold CLI.get_file_size, try_except.
  unfold bind at 1, lift at 1. rewrite Henc.
  unfold bind at 1, lift at 1. rewrite Hpk.
  unfold bind at 1, sock_sendall.
  set (s1 := {| s_in := s_in s; s_out := s_out s ++ [pkt];
                s_closed := s_closed s |}).
  destruct (cli_recv_packed libtext CLI.TYPE_META _ meta more s1 rest
              Hmeta ltac:(discriminate) Hc) as (i' & Hr & Hc').
  exists i'. split; [exact Hc'|].
  unfold bind at 1. rewrite Hr.
  unfold bind at 1, sock_close.
  change (CLI.TYPE_META =? CLI.TYPE_META) with true. cbv iota.
  unfold bind at 1, lift at 1. rewrite decode_decimal.
  unfold lift. rewrite int_str_of_int by exact Hshort. reflexivity.
Qed.

Lemma percent_of (pos size : Z) :
  0 < size ->
  rbind (truediv (inject_Z pos) (inject_Z size)) (fun q => OK (q * 100)%Q)
  = OK (inject_Z pos / inject_Z size * 100)%Q.
Proof.
  intros H. rewrite truediv_nonzero; [reflexivity|].
  unfold Qeq. simpl. lia.
Qed.

(** The copying loop of [_download_thread] on the chunks of a file. *)
Lemma cli_download_loop (chunks : list bytes) :
  forall (pkts : list bytes) (fuel : nat) (size : Z) (done more : bytes)
         (w : CLI.worker) (rest : inbox),
    packed libtext chunks pkts ->
    Forall (fun ch => ch <> []) chunks ->
    size = Z.of_nat (List.length done + List.length (List.concat chunks)) ->
    CLI.w_file w = Some done ->
    carries (s_in (CLI.w_data w)) (List.concat pkts ++ more) rest ->
    (List.length chunks < fuel)%nat ->
    exists i',
      carries i' more rest
      /\ CLI.download_loop libtext fuel size (Z.of_nat (List.length done)) w
         = (OK tt,
            {| CLI.w_probe := CLI.w_probe w;
               CLI.w_data := with_in (CLI.w_data w) i';
               CLI.w_file := Some (done ++ List.concat chunks);
               CLI.w_entry :=
                 match chunks with
                 | [] => CLI.w_entry w
                 | _ => CLI.progressed size
                          (inject_Z size / inject_Z size * 100)%Q
                          (CLI.w_entry w)
                 end |}).
Proof.
  induction chunks as [|ch chunks IH];
    intros pkts fuel size done more w rest Hp Hne Hsize Hfile Hc Hfuel.
  - inversion Hp; subst pkts. exists (s_in (CLI.w_data w)).
    split; [exact Hc|].
    cbn [List.concat List.length] in *. rewrite Nat.add_0_r in Hsize.
    destruct fuel as [|fuel]; cbn [CLI.download_loop];
      (replace (Z.of_nat (List.length done) <? size) with false
         by (symmetry; apply Z.ltb_ge; lia));
      unfold ret; rewrite with_in_same, app_nil_r;
      destruct w as [wp wd wf wi];
      cbn [CLI.w_file CLI.w_probe CLI.w_data CLI.w_entry] in *;
      subst wf; reflexivity.
  - inversion Hp as [|ch0 pk chunks0 pkts' Hpk Hps]; subst.
    inversion Hne as [|ch0 chunks0 Hch Hne']; subst.
    destruct fuel as [|fuel]; [simpl in Hfuel; lia|].
    cbn [List.concat] in *. rewrite length_app in *.
    assert (Hpos : 0 < Z.of_nat (List.length done
                                 + (List.length ch
                                    + List.length (List.concat chunks)))).
    { destruct ch; [congruence|]. cbn [List.length]. lia. }
    cbn [CLI.download_loop].
    replace (Z.of_nat (List.length done) <? _) with true.
    2:{ symmetry. apply Z.ltb_lt. destruct ch; [congruence|].
        cbn [List.length]. lia. }
    rewrite <- app_assoc in Hc.
    destruct (cli_recv_packed libtext CLI.TYPE_CHUNK ch pk _
                (CLI.w_data w) rest Hpk ltac:(discriminate) Hc)
      as (i1 & Hr & Hc1).
    unfold bind at 1, CLI.on_data at 1. rewrite Hr.
    change (negb (CLI.TYPE_CHUNK =? CLI.TYPE_CHUNK)) with false.
    cbv iota.
    unfold bind at 1, CLI.append_file.
    cbn [CLI.w_file]. rewrite Hfile.
    unfold CLI.set_file at 1.
    replace (_ >? 0) with true
      by (symmetry; rewrite Z.gtb_ltb; apply Z.ltb_lt; exact Hpos).
    unfold bind at 1, lift at 1. rewrite (percent_of _ _ Hpos).
    unfold bind at 1, CLI.update_entry at 1.
    cbn [CLI.w_probe CLI.w_data CLI.w_file CLI.w_entry].
    replace (Z.of_nat (List.length done) + Z.of_nat (List.length ch))
      with (Z.of_nat (List.length (done ++ ch)))
      by (rewrite length_app; lia).
    match goal with
    | |- context [CLI.download_loop libtext fuel ?sz ?pos ?w1] =>
        destruct (IH pkts' fuel sz (done ++ ch) more w1 rest)
          as (i' & Hc' & Hl)
    end.
    + exact Hps.
    + exact Hne'.
    + rewrite length_app. lia.
    + reflexivity.
    + exact Hc1.
    + simpl in Hfuel. lia.
    + exists i'. split; [exact Hc'|]. rewrite Hl.
      cbn [CLI.w_probe CLI.w_data CLI.w_file CLI.w_entry].
      rewrite with_in_twice, <- app_assoc. f_equal. f_equal.
      destruct chunks as [|ch2 chunks]; [|reflexivity].
      cbn [List.concat List.length]. rewrite Nat.add_0_r, length_app.
      reflexivity.
Qed.

(** What [_download_thread] does when both connections deliver what they
    should. *)
Lemma cli_download_run (remote save : str) (size : Z)
  (chunks pkts : list bytes) (req1 pkt1 req2 pkt2 meta : bytes)
  (t0 : Z) (p0 first morep : bytes) (w : CLI.worker)
  (restp restd : inbox) :
  encode libtext (remote ++ lit "|0|1") = OK req1 ->
  CLI.pack libtext CLI.TYPE_GET req1 = OK pkt1 ->
  encode libtext (remote ++ lit "|0|" ++ str_of_int size) = OK req2 ->
  CLI.pack libtext CLI.TYPE_GET req2 = OK pkt2 ->
  makedirs_dirname disk save = inl tt ->
  CLI.pack libtext CLI.TYPE_META (map byte_of_N (str_of_int size)) = OK meta ->
  carries (s_in (CLI.w_probe w)) (meta ++ morep) restp ->
  CLI.pack libtext t0 p0 = OK first -> t0 <> CLI.TYPE_ERR ->
  packed libtext chunks pkts ->
  Forall (fun ch => ch <> []) chunks ->
  size = Z.of_nat (List.length (List.concat chunks)) ->
  short_number size ->
  size <> 0 ->
  carries (s_in (CLI.w_data w)) (first ++ List.concat pkts) restd ->
  exists ip,
    carries ip morep restp
    /\ CLI._download_thread libtext disk remote save w
       = (OK tt,
          {| CLI.w_probe :=
               {| s_in := ip; s_out := s_out (CLI.w_probe w) ++ [pkt1];
                  s_closed := true |};
             CLI.w_data :=
               {| s_in := restd; s_out := s_out (CLI.w_data w) ++ [pkt2];
                  s_closed := true |};
             CLI.w_file := Some (List.concat chunks);
             CLI.w_entry :=
               {| CLI.d_remote_path := CLI.d_remote_path (CLI.w_entry w);
                  CLI.d_local_path := CLI.d_local_path (CLI.w_entry w);
                  CLI.d_size := size; CLI.d_downloaded := size;
                  CLI.d_start_time := CLI.d_start_time (CLI.w_entry w);
                  CLI.d_status := lit "completed";
                  CLI.d_percent := 100 |} |}).
Proof.
  intros Hreq1 Hpkt1 Hreq2 Hpkt2 Hmk Hmeta Hcp Hfirst Ht0 Hpacked Hne Hsize
    Hshort Hnz Hcd.
  destruct (cli_get_file_size_meta remote size req1 pkt1 meta morep
              (CLI.w_probe w) restp Hshort Hreq1 Hpkt1 Hmeta Hcp)
    as (ip & Hip & Hgs).
  exists ip. split; [exact Hip|].
  unfold CLI._download_thread, try_except.
  unfold bind at 1, CLI.on_probe at 1. rewrite Hgs.
  replace (size =? 0) with false by (symmetry; apply Z.eqb_neq; exact Hnz).
  unfold bind at 1, ret at 1.
  unfold bind at 1, CLI.update_entry at 1.
  unfold bind at 1, lift at 1. rewrite Hmk. cbn [of_sum].
  unfold bind at 1, lift at 1. rewrite Hreq2.
  unfold bind at 1, lift at 1. rewrite Hpkt2.
  cbn [CLI.w_probe CLI.w_data CLI.w_file CLI.w_entry].
  unfold bind at 1, CLI.on_data at 1, sock_sendall.
  cbn [CLI.w_probe CLI.w_data CLI.w_file CLI.w_entry].
  set (s1 := {| s_in := s_in (CLI.w_data w);
                s_out := s_out (CLI.w_data w) ++ [pkt2];
                s_closed := s_closed (CLI.w_data w) |}).
  destruct (cli_recv_packed libtext t0 p0 first (List.concat pkts) s1
              restd Hfirst Ht0 Hcd) as (i1 & Hr1 & Hc1).
  unfold bind at 1, CLI.on_data at 1.
  cbn [CLI.w_probe CLI.w_data CLI.w_file CLI.w_entry].
  rewrite Hr1.
  unfold bind at 1, CLI.set_file at 1.
  unfold bind at 1.
  cbn [CLI.w_probe CLI.w_data CLI.w_file CLI.w_entry].
  rewrite <- (app_nil_r (List.concat pkts)) in Hc1.
  match goal with
  | |- context [CLI.download_loop libtext ?f size 0 ?w1] =>
      destruct (cli_download_loop chunks pkts f size [] [] w1 restd)
        as (i2 & Hc2 & Hl)
  end.
  - exact Hpacked.
  - exact Hne.
  - cbn [List.length]. rewrite Nat.add_0_l. exact Hsize.
  - reflexivity.
  - cbn [CLI.w_data]. rewrite with_in_in. exact Hc1.
  - cbn [CLI.w_data]. rewrite with_in_in.
    pose proof (carries_weight _ _ _ Hc1) as Hw.
    pose proof (packed_length libtext chunks pkts Hpacked) as Hl.
    rewrite length_app in Hw. lia.
  - apply carries_nil_inv in Hc2. subst i2.
    change (Z.of_nat (List.length (@nil byte))) with 0 in Hl.
    rewrite Hl.
    cbn [CLI.w_probe CLI.w_data CLI.w_file CLI.w_entry app].
    unfold bind at 1, CLI.on_data at 1, sock_close.
    cbn [CLI.w_probe CLI.w_data CLI.w_file CLI.w_entry].
    unfold CLI.update_entry.
    cbn [CLI.w_probe CLI.w_data CLI.w_file CLI.w_entry].
    destruct chunks as [|ch chunks].
    + cbn [List.concat List.length] in Hsize. exfalso. apply Hnz.
      exact Hsize.
    + reflexivity.
Qed.

(** X13. The terminal client's worker rebuilds a file from its chunks. When
    the size query is answered by a META packet with a size that is not
    zero (and has at most 640 bits), and the transfer connection delivers one packet that is not an ERR
    packet and then CHUNK packets with non-empty payloads that add up to
    that size, [_download_thread] returns normally; the file at the save path
    holds exactly the payloads put end to end; the entry shows the size, as
    many bytes downloaded, the status [completed] and 100 percent; both
    sockets have been closed. *)
Theorem cli_download_completes (remote save : str) (size : Z)
  (chunks pkts : list bytes) (req1 pkt1 req2 pkt2 meta : bytes)
  (t0 : Z) (p0 first morep : bytes) (w : CLI.worker)
  (restp restd : inbox) :
  encode libtext (remote ++ lit "|0|1") = OK req1 ->
  CLI.pack libtext CLI.TYPE_GET req1 = OK pkt1 ->
  encode libtext (remote ++ lit "|0|" ++ str_of_int size) = OK req2 ->
  CLI.pack libtext CLI.TYPE_GET req2 = OK pkt2 ->
  makedirs_dirname disk save = inl tt ->
  CLI.pack libtext CLI.TYPE_META (map byte_of_N (str_of_int size)) = OK meta ->
  carries (s_in (CLI.w_probe w)) (meta ++ morep) restp ->
  CLI.pack libtext t0 p0 = OK first -> t0 <> CLI.TYPE_ERR ->
  packed libtext chunks pkts ->
  Forall (fun ch => ch <> []) chunks ->
  size = Z.of_nat (List.length (List.concat chunks)) ->
  short_number size ->
  size <> 0 ->
  carries (s_in (CLI.w_data w)) (first ++ List.concat pkts) restd ->
  exists ip,
    carries ip morep restp
    /\ CLI._download_thread libtext disk remote save w
       = (OK tt,
          {| CLI.w_probe :=
               {| s_in := ip; s_out := s_out (CLI.w_probe w) ++ [pkt1];
                  s_closed := true |};
             CLI.w_data :=
               {| s_in := restd; s_out := s_out (CLI.w_data w) ++ [pkt2];
                  s_closed := true |};
             CLI.w_file := Some (List.concat chunks);
             CLI.w_entry :=
               {| CLI.d_remote_path := CLI.d_remote_path (CLI.w_entry w);
                  CLI.d_local_path := CLI.d_local_path (CLI.w_entry w);
                  CLI.d_size := size; CLI.d_downloaded := size;
                  CLI.d_start_time := CLI.d_start_time (CLI.w_entry w);
                  CLI.d_status := lit "completed";
                  CLI.d_percent := 100 |} |}).
Proof.
  intros Hreq1 Hpkt1 Hreq2 Hpkt2 Hmk Hmeta Hcp Hfirst Ht0 Hpacked Hne Hsize
    Hshort Hnz Hcd.
  exact (cli_download_run remote save size chunks pkts req1 pkt1 req2 pkt2
           meta t0 p0 first morep w restp restd Hreq1 Hpkt1 Hreq2 Hpkt2 Hmk
           Hmeta Hcp Hfirst Ht0 Hpacked Hne Hsize Hshort Hnz Hcd).
Qed.

End CliDownload.

(* ===================================================================== *)
(** * A download, end to end                                               *)
(* ===================================================================== *)

Section DownloadEndToEnd.
Import Py.

Variable libtext : library.
Variable P : os_path.
Variable fs : Server.filesystem.
Variable disk : local_disk.

(** The three fields of the request that the clients build. *)
Lemma get_request_fields (path : str) (n : Z) (req : bytes) :
  ~ In 124%N path ->
  encode libtext (path ++ lit "|0|" ++ str_of_int n) = OK req ->
  split 124%N (decode_lossy Replace req) = [path; lit "0"; str_of_int n].
Proof.
  intros Hb He. destruct (decode_encode libtext _ _ He) as [_ Hd]. rewrite Hd.
  change (lit "|0|") with [124%N; 48%N; 124%N]. cbn [app].
  rewrite split_app_sep, (split_no_sep _ path Hb).
  change (48%N :: 124%N :: str_of_int n) with ([48%N] ++ 124%N :: str_of_int n).
  rewrite split_app_sep, (split_no_sep _ (str_of_int n) (str_of_int_no_bar n)).
  reflexivity.
Qed.

Lemma chunk_sized_nonempty (chunks : list bytes) :
  chunk_sized chunks -> Forall (fun ch => ch <> []) chunks.
Proof.
  apply Forall_impl. intros ch H E. subst ch. simpl in H. lia.
Qed.

(** The server's side of a download: the request [path|0|n] on a file that
    is there, and then the peer's shutdown. *)
Lemma server_sends_file (path full : str) (n : Z) (content req pkt : bytes)
  (c : Server.conn) :
  ~ In 124%N path ->
  encode libtext (path ++ lit "|0|" ++ str_of_int n) = OK req ->
  Server.pack libtext Server.TYPE_GET req = OK pkt ->
  Server.safe_path P path = OK full ->
  Server.fs_isfile fs full = true ->
  Server.fs_getsize fs full = inl (Z.of_nat (List.length content)) ->
  Server.fs_open_rb fs full = inl content ->
  Z.of_nat (List.length content) < 2 ^ 63 ->
  0 <= n < 2 ^ 63 ->
  carries (Server.c_inbox c) pkt [] ->
  exists meta chunks pkts paths,
    Server.pack libtext Server.TYPE_META
      (map byte_of_N (str_of_int (Z.of_nat (List.length content)))) = OK meta
    /\ packed libtext chunks pkts
    /\ Forall (fun ch => ch <> []) chunks
    /\ List.concat chunks = firstn (Z.to_nat n) content
    /\ Server.handle_client libtext P fs c
       = (OK tt,
          Server.sock_close
            (after (Server.with_inbox c []) paths (meta :: pkts))).
Proof.
  intros Hb Hreq Hpkt Hsafe Hfile Hsize Hopen Hlt Hn Hc.
  set (size := Z.of_nat (List.length content)) in *.
  pose proof (get_request_fields path n req Hb Hreq) as Hsplit.
  assert (Hstart : int libtext (lit "0") = OK 0) by reflexivity.
  pose proof (int_str_of_int libtext n (short_below_63 n Hn)) as Hend.
  destruct (get_prelude libtext P fs req path (lit "0") (str_of_int n) full
              size 0 n Hsplit Hsafe Hfile Hsize ltac:(lia) Hstart Hend
              (Server.with_inbox c [])) as (meta & Hmeta & Hh).
  change (Server.clip_start 0) with 0 in Hh.
  assert (Hend_ : Server.clip_end size n = Z.min n size).
  { unfold Server.clip_end.
    destruct (Z.ltb_spec n 0); destruct (Z.gtb_spec n size); simpl; lia. }
  rewrite Hend_ in Hh.
  destruct (Z.gtb_spec (Z.min n size) 0) as [Hpos|Hz].
  - destruct (stream_loop_complete libtext (Z.to_nat (Z.min n size - 0))
                (Server.seek {| Server.f_content := content;
                                Server.f_pos := 0 |} 0)
                (Z.min n size - 0)
                (after (Server.with_inbox c []) [full; full; full] [meta]))
      as (chunks & pkts & Hl & Hpacked & Hsized & Hcat).
    { lia. }
    { lia. }
    { simpl. unfold size in *. lia. }
    exists meta, chunks, pkts, [full; full; full].
    split; [exact Hmeta|]. split; [exact Hpacked|].
    split; [apply chunk_sized_nonempty; exact Hsized|]. split.
    + rewrite Hcat. cbn [Server.seek Server.f_content Server.f_pos skipn].
      change (Z.to_nat 0) with 0%nat. cbn [skipn].
      destruct (Z.le_ge_cases n size) as [Hle|Hge].
      * rewrite Z.min_l by lia. rewrite Z.sub_0_r. reflexivity.
      * rewrite Z.min_r by lia. rewrite Z.sub_0_r.
        unfold size. rewrite Nat2Z.id, firstn_all.
        symmetry. apply firstn_all2. unfold size in Hge. lia.
    + apply (handle_client_one_request libtext P fs Server.TYPE_GET req pkt c
               _ Hpkt Hc).
      rewrite Hh.
      unfold bind at 1, Server.open_rb, bind at 1. rewrite touch_after.
      unfold bind at 1, lift at 1. rewrite Hopen. simpl of_sum.
      unfold ret at 1. rewrite after_after. simpl app.
      rewrite Hl, after_after. reflexivity.
  - exists meta, [], [], [full; full].
    split; [exact Hmeta|]. split; [constructor|]. split; [constructor|].
    split.
    + cbn [List.concat]. destruct (Z.le_ge_cases n size) as [Hle|Hge].
      * rewrite Z.min_l in Hz by lia. replace n with 0 by lia. reflexivity.
      * rewrite Z.min_r in Hz by lia.
        assert (content = []) by (destruct content; [reflexivity|];
                                  unfold size in Hz; simpl in Hz; lia).
        subst content. rewrite firstn_nil. reflexivity.
    + apply (handle_client_one_request libtext P fs Server.TYPE_GET req pkt c
               _ Hpkt Hc).
      rewrite Hh. reflexivity.
Qed.

(** X14. A download with the desktop client, end to end. Let a path
    without a bar name a regular file inside the root whose size is what
    reading it gives. When the server handles the two requests that
    [_download] sends, each on a fresh connection, and the worker receives
    what the server sends on them, however the network cuts it, then
    [_download] returns normally, the file at the save path has exactly the
    content of the file on the server, and the entry shows the size of the
    file, as many bytes downloaded and the status [completed]. An empty file
    is downloaded as an empty file. *)
Theorem gui_download_end_to_end (now : float) (remote save full : str)
  (content req1 pkt1 req2 pkt2 : bytes) (c1 c2 : Server.conn)
  (w : Client.worker) :
  ~ In 124%N remote ->
  Server.safe_path P remote = OK full ->
  Server.fs_isfile fs full = true ->
  Server.fs_getsize fs full = inl (Z.of_nat (List.length content)) ->
  Server.fs_open_rb fs full = inl content ->
  Z.of_nat (List.length content) < 2 ^ 63 ->
  encode libtext (remote ++ lit "|0|1") = OK req1 ->
  Client.pack libtext Client.TYPE_GET req1 = OK pkt1 ->
  encode libtext
    (remote ++ lit "|0|" ++ str_of_int (Z.of_nat (List.length content)))
  = OK req2 ->
  Client.pack libtext Client.TYPE_GET req2 = OK pkt2 ->
  Server.c_outbox c1 = [] -> carries (Server.c_inbox c1) pkt1 [] ->
  Server.c_outbox c2 = [] -> carries (Server.c_inbox c2) pkt2 [] ->
  carries (s_in (Client.w_probe w))
    (List.concat
       (Server.c_outbox (snd (Server.handle_client libtext P fs c1)))) [] ->
  carries (s_in (Client.w_data w))
    (List.concat
       (Server.c_outbox (snd (Server.handle_client libtext P fs c2)))) [] ->
  makedirs_dirname disk save = inl tt ->
  Client.w_info w = Client.enqueued remote save ->
  exists w',
    Client._download libtext disk now remote save w = (OK tt, w')
    /\ Client.w_file w' = Some content
    /\ Client.w_info w'
       = {| Client.remote_path := remote; Client.save_path := save;
            Client.i_size := Z.of_nat (List.length content);
            Client.downloaded := Z.of_nat (List.length content);
            Client.start_time := Some now;
            Client.status := lit "completed" |}.
Proof.
  intros Hb Hsafe Hfile Hsize Hopen Hlt Hreq1 Hpkt1 Hreq2 Hpkt2
    Ho1 Hc1 Ho2 Hc2 Hp Hd Hmk Hinfo.
  destruct (server_sends_file remote full 1 content req1 pkt1 c1
              Hb Hreq1 Hpkt1 Hsafe Hfile Hsize Hopen Hlt ltac:(lia) Hc1)
    as (meta & chunks1 & pkts1 & paths1 & Hmeta & _ & _ & _ & Hs1).
  destruct (server_sends_file remote full (Z.of_nat (List.length content))
              content req2 pkt2 c2
              Hb Hreq2 Hpkt2 Hsafe Hfile Hsize Hopen Hlt ltac:(lia) Hc2)
    as (meta2 & chunks & pkts & paths2 & Hmeta2 & Hpacked & Hne & Hcat & Hs2).
  assert (meta2 = meta) by congruence. subst meta2.
  rewrite Nat2Z.id, firstn_all in Hcat.
  rewrite Hs1 in Hp. rewrite Hs2 in Hd.
  cbn [snd Server.sock_close Server.c_outbox after Server.with_inbox] in Hp, Hd.
  rewrite Ho1 in Hp. rewrite Ho2 in Hd.
  cbn [app List.concat] in Hp, Hd.
  destruct (gui_download_run libtext disk now remote save
              (Z.of_nat (List.length content)) chunks pkts
              req1 pkt1 req2 pkt2 meta Client.TYPE_META
              (map byte_of_N (str_of_int (Z.of_nat (List.length content))))
              meta (List.concat pkts1) w [] []
              Hreq1 Hpkt1 Hreq2 Hpkt2 Hmk Hmeta Hp Hmeta
              ltac:(discriminate) Hpacked Hne
              ltac:(rewrite Hcat; reflexivity)
              (short_below_63 (Z.of_nat (List.length content))
                 ltac:(lia)) Hd Hinfo)
    as (ip & _ & Hrun).
  eexists. split; [exact Hrun|]. cbn [Client.w_file Client.w_info].
  rewrite Hcat. split; reflexivity.
Qed.

(** X15. A download with the terminal client, end to end. Under the same
    conditions, for a file that is not empty, [_download_thread] returns
    normally, the file at the save path has exactly the content of the file
    on the server, and the entry shows the size of the file, as many bytes
    downloaded, the status [completed] and 100 percent. *)
Theorem cli_download_end_to_end (remote save full : str)
  (content req1 pkt1 req2 pkt2 : bytes) (c1 c2 : Server.conn)
  (w : CLI.worker) :
  content <> [] ->
  ~ In 124%N remote ->
  Server.safe_path P remote = OK full ->
  Server.fs_isfile fs full = true ->
  Server.fs_getsize fs full = inl (Z.of_nat (List.length content)) ->
  Server.fs_open_rb fs full = inl content ->
  Z.of_nat (List.length content) < 2 ^ 63 ->
  encode libtext (remote ++ lit "|0|1") = OK req1 ->
  CLI.pack libtext CLI.TYPE_GET req1 = OK pkt1 ->
  encode libtext
    (remote ++ lit "|0|" ++ str_of_int (Z.of_nat (List.length content)))
  = OK req2 ->
  CLI.pack libtext CLI.TYPE_GET req2 = OK pkt2 ->
  Server.c_outbox c1 = [] -> carries (Server.c_inbox c1) pkt1 [] ->
  Server.c_outbox c2 = [] -> carries (Server.c_inbox c2) pkt2 [] ->
  carries (s_in (CLI.w_probe w))
    (List.concat
       (Server.c_outbox (snd (Server.handle_client libtext P fs c1)))) [] ->
  carries (s_in (CLI.w_data w))
    (List.concat
       (Server.c_outbox (snd (Server.handle_client libtext P fs c2)))) [] ->
  makedirs_dirname disk save = inl tt ->
  exists w',
    CLI._download_thread libtext disk remote save w = (OK tt, w')
    /\ CLI.w_file w' = Some content
    /\ CLI.d_size (CLI.w_entry w') = Z.of_nat (List.length content)
    /\ CLI.d_downloaded (CLI.w_entry w') = Z.of_nat (List.length content)
    /\ CLI.d_status (CLI.w_entry w') = lit "completed"
    /\ CLI.d_percent (CLI.w_entry w') = 100%Q.
Proof.
  intros Hcontent Hb Hsafe Hfile Hsize Hopen Hlt Hreq1 Hpkt1 Hreq2 Hpkt2
    Ho1 Hc1 Ho2 Hc2 Hp Hd Hmk.
  destruct (server_sends_file remote full 1 content req1 pkt1 c1
              Hb Hreq1 Hpkt1 Hsafe Hfile Hsize Hopen Hlt ltac:(lia) Hc1)
    as (meta & chunks1 & pkts1 & paths1 & Hmeta & _ & _ & _ & Hs1).
  destruct (server_sends_file remote full (Z.of_nat (List.length content))
              content req2 pkt2 c2
              Hb Hreq2 Hpkt2 Hsafe Hfile Hsize Hopen Hlt ltac:(lia) Hc2)
    as (meta2 & chunks & pkts & paths2 & Hmeta2 & Hpacked & Hne & Hcat & Hs2).
  assert (meta2 = meta) by congruence. subst meta2.
  rewrite Nat2Z.id, firstn_all in Hcat.
  rewrite Hs1 in Hp. rewrite Hs2 in Hd.
  cbn [snd Server.sock_close Server.c_outbox after Server.with_inbox] in Hp, Hd.
  rewrite Ho1 in Hp. rewrite Ho2 in Hd.
  cbn [app List.concat] in Hp, Hd.
  destruct (cli_download_run libtext disk remote save
              (Z.of_nat (List.length content)) chunks pkts
              req1 pkt1 req2 pkt2 meta CLI.TYPE_META
              (map byte_of_N (str_of_int (Z.of_nat (List.length content))))
              meta (List.concat pkts1) w [] []
              Hreq1 Hpkt1 Hreq2 Hpkt2 Hmk Hmeta Hp Hmeta
              ltac:(discriminate) Hpacked Hne
              ltac:(rewrite Hcat; reflexivity)
              (short_below_63 (Z.of_nat (List.length content))
                 ltac:(lia))
              ltac:(destruct content; [congruence|simpl; lia]) Hd)
    as (ip & _ & Hrun).
  eexists. split; [exact Hrun|]. cbn [CLI.w_file CLI.w_entry].
  rewrite Hcat. repeat split; reflexivity.
Qed.

End DownloadEndToEnd.

(** ** The downloads in the deployment *)

Lemma carries_packets (segs : list Py.bytes) :
  forallb (fun d => negb (Py.is_empty d)) segs = true ->
  carries (map Py.Seg segs) (List.concat segs) [].
Proof.
  intros H. rewrite <- (app_nil_r (map Py.Seg segs)).
  apply carries_segments. apply Forall_forall. intros d Hd E. subst d.
  rewrite forallb_forall in H. specialize (H _ Hd). discriminate.
Qed.

(** [a.txt] arrives in two chunks of five bytes. *)
Lemma gui_download_completes_witness :
  exists ip,
    carries ip [] []
    /\ Client._download Scenario.libtext Scenario.disk Scenario.now
         (Py.lit "/a.txt") (Py.lit "/home/u/a.txt")
         (Scenario.gui_worker
            [Scenario.request 4 (Py.blit "10")]
            [Scenario.request 4 (Py.blit "10");
             Scenario.request 5 (Py.blit "01234");
             Scenario.request 5 (Py.blit "56789")])
       = (Py.OK tt,
          {| Client.w_probe :=
               {| Py.s_in := ip;
                  Py.s_out := [] ++ [Scenario.request 3 (Py.blit "/a.txt|0|1")];
                  Py.s_closed := true |};
             Client.w_data :=
               {| Py.s_in := [];
                  Py.s_out := [] ++ [Scenario.request 3 (Py.blit "/a.txt|0|10")];
                  Py.s_closed := false |};
             Client.w_file :=
               Some (List.concat [Py.blit "01234"; Py.blit "56789"]);
             Client.w_info :=
               {| Client.remote_path := Py.lit "/a.txt";
                  Client.save_path := Py.lit "/home/u/a.txt";
                  Client.i_size := 10; Client.downloaded := 10;
                  Client.start_time := Some Scenario.now;
                  Client.status := Py.lit "completed" |} |}).
Proof.
  apply (gui_download_completes Scenario.libtext Scenario.disk
           Scenario.now (Py.lit "/a.txt") (Py.lit "/home/u/a.txt") 10
           [Py.blit "01234"; Py.blit "56789"]
           [Scenario.request 5 (Py.blit "01234");
            Scenario.request 5 (Py.blit "56789")]
           (Py.blit "/a.txt|0|1") (Scenario.request 3 (Py.blit "/a.txt|0|1"))
           (Py.blit "/a.txt|0|10") (Scenario.request 3 (Py.blit "/a.txt|0|10"))
           (Scenario.request 4 (Py.blit "10"))
           4 (Py.blit "10") (Scenario.request 4 (Py.blit "10")) []
           (Scenario.gui_worker
              [Scenario.request 4 (Py.blit "10")]
              [Scenario.request 4 (Py.blit "10");
               Scenario.request 5 (Py.blit "01234");
               Scenario.request 5 (Py.blit "56789")])
           [] []).
  - reflexivity.
  - reflexivity.
  - reflexivity.
  - reflexivity.
  - reflexivity.
  - reflexivity.
  - exact (carries_segment (Scenario.request 4 (Py.blit "10")) eq_refl).
  - reflexivity.
  - discriminate.
  - repeat constructor.
  - repeat constructor; discriminate.
  - reflexivity.
  - reflexivity.
  - exact (carries_packets
             [Scenario.request 4 (Py.blit "10");
              Scenario.request 5 (Py.blit "01234");
              Scenario.request 5 (Py.blit "56789")] eq_refl).
  - reflexivity.
Defined.

Lemma cli_download_completes_witness :
  exists ip,
    carries ip [] []
    /\ CLI._download_thread Scenario.libtext Scenario.disk
         (Py.lit "/a.txt") (Py.lit "/home/u/downloads/a.txt")
         (Scenario.cli_worker
            [Scenario.request 4 (Py.blit "10")]
            [Scenario.request 4 (Py.blit "10");
             Scenario.request 5 (Py.blit "01234");
             Scenario.request 5 (Py.blit "56789")])
       = (Py.OK tt,
          {| CLI.w_probe :=
               {| Py.s_in := ip;
                  Py.s_out := [] ++ [Scenario.request 3 (Py.blit "/a.txt|0|1")];
                  Py.s_closed := true |};
             CLI.w_data :=
               {| Py.s_in := [];
                  Py.s_out := [] ++ [Scenario.request 3 (Py.blit "/a.txt|0|10")];
                  Py.s_closed := true |};
             CLI.w_file :=
               Some (List.concat [Py.blit "01234"; Py.blit "56789"]);
             CLI.w_entry :=
               {| CLI.d_remote_path := Py.lit "/a.txt";
                  CLI.d_local_path := Py.lit "/home/u/downloads/a.txt";
                  CLI.d_size := 10; CLI.d_downloaded := 10;
                  CLI.d_start_time := 1700000200 # 1;
                  CLI.d_status := Py.lit "completed";
                  CLI.d_percent := 100 |} |}).
Proof.
  apply (cli_download_completes Scenario.libtext Scenario.disk
           (Py.lit "/a.txt") (Py.lit "/home/u/downloads/a.txt") 10
           [Py.blit "01234"; Py.blit "56789"]
           [Scenario.request 5 (Py.blit "01234");
            Scenario.request 5 (Py.blit "56789")]
           (Py.blit "/a.txt|0|1") (Scenario.request 3 (Py.blit "/a.txt|0|1"))
           (Py.blit "/a.txt|0|10") (Scenario.request 3 (Py.blit "/a.txt|0|10"))
           (Scenario.request 4 (Py.blit "10"))
           4 (Py.blit "10") (Scenario.request 4 (Py.blit "10")) []
           (Scenario.cli_worker
              [Scenario.request 4 (Py.blit "10")]
              [Scenario.request 4 (Py.blit "10");
               Scenario.request 5 (Py.blit "01234");
               Scenario.request 5 (Py.blit "56789")])
           [] []).
  - reflexivity.
  - reflexivity.
  - reflexivity.
  - reflexivity.
  - reflexivity.
  - reflexivity.
  - exact (carries_segment (Scenario.request 4 (Py.blit "10")) eq_refl).
  - reflexivity.
  - discriminate.
  - repeat constructor.
  - repeat constructor; discriminate.
  - reflexivity.
  - reflexivity.
  - discriminate.
  - exact (carries_packets
             [Scenario.request 4 (Py.blit "10");
              Scenario.request 5 (Py.blit "01234");
              Scenario.request 5 (Py.blit "56789")] eq_refl).
Defined.

(** [a.txt] is fetched from the server of the deployment. *)
Lemma gui_download_end_to_end_witness :
  exists w',
    Client._download Scenario.libtext Scenario.disk Scenario.now
      (Py.lit "/a.txt") (Py.lit "/home/u/a.txt")
      (Scenario.gui_worker
         (Scenario.answers 3 (Py.blit "/a.txt|0|1"))
         (Scenario.answers 3 (Py.blit "/a.txt|0|10")))
    = (Py.OK tt, w')
    /\ Client.w_file w' = Some (Py.blit "0123456789")
    /\ Client.w_info w'
       = {| Client.remote_path := Py.lit "/a.txt";
            Client.save_path := Py.lit "/home/u/a.txt";
            Client.i_size := 10; Client.downloaded := 10;
            Client.start_time := Some Scenario.now;
            Client.status := Py.lit "completed" |}.
Proof.
  apply (gui_download_end_to_end Scenario.libtext Scenario.P Scenario.fs
           Scenario.disk Scenario.now
           (Py.lit "/a.txt") (Py.lit "/home/u/a.txt") Scenario.a_txt
           (Py.blit "0123456789")
           (Py.blit "/a.txt|0|1") (Scenario.request 3 (Py.blit "/a.txt|0|1"))
           (Py.blit "/a.txt|0|10") (Scenario.request 3 (Py.blit "/a.txt|0|10"))
           (Scenario.connection [Scenario.request 3 (Py.blit "/a.txt|0|1")])
           (Scenario.connection [Scenario.request 3 (Py.blit "/a.txt|0|10")])
           (Scenario.gui_worker
              (Scenario.answers 3 (Py.blit "/a.txt|0|1"))
              (Scenario.answers 3 (Py.blit "/a.txt|0|10")))).
  - vm_compute. intros H. repeat (destruct H as [H|H]; [discriminate|]).
    exact H.
  - reflexivity.
  - reflexivity.
  - reflexivity.
  - reflexivity.
  - vm_compute. reflexivity.
  - reflexivity.
  - reflexivity.
  - reflexivity.
  - reflexivity.
  - reflexivity.
  - exact (carries_segment (Scenario.request 3 (Py.blit "/a.txt|0|1")) eq_refl).
  - reflexivity.
  - exact (carries_segment (Scenario.request 3 (Py.blit "/a.txt|0|10")) eq_refl).
  - exact (carries_packets (Scenario.answers 3 (Py.blit "/a.txt|0|1")) eq_refl).
  - exact (carries_packets (Scenario.answers 3 (Py.blit "/a.txt|0|10")) eq_refl).
  - reflexivity.
  - reflexivity.
Defined.

Lemma cli_download_end_to_end_witness :
  exists w',
    CLI._download_thread Scenario.libtext Scenario.disk
      (Py.lit "/a.txt") (Py.lit "/home/u/downloads/a.txt")
      (Scenario.cli_worker
         (Scenario.answers 3 (Py.blit "/a.txt|0|1"))
         (Scenario.answers 3 (Py.blit "/a.txt|0|10")))
    = (Py.OK tt, w')
    /\ CLI.w_file w' = Some (Py.blit "0123456789")
    /\ CLI.d_size (CLI.w_entry w') = 10
    /\ CLI.d_downloaded (CLI.w_entry w') = 10
    /\ CLI.d_status (CLI.w_entry w') = Py.lit "completed"
    /\ CLI.d_percent (CLI.w_entry w') = 100%Q.
Proof.
  apply (cli_download_end_to_end Scenario.libtext Scenario.P Scenario.fs
           Scenario.disk
           (Py.lit "/a.txt") (Py.lit "/home/u/downloads/a.txt") Scenario.a_txt
           (Py.blit "0123456789")
           (Py.blit "/a.txt|0|1") (Scenario.request 3 (Py.blit "/a.txt|0|1"))
           (Py.blit "/a.txt|0|10") (Scenario.request 3 (Py.blit "/a.txt|0|10"))
           (Scenario.connection [Scenario.request 3 (Py.blit "/a.txt|0|1")])
           (Scenario.connection [Scenario.request 3 (Py.blit "/a.txt|0|10")])
           (Scenario.cli_worker
              (Scenario.answers 3 (Py.blit "/a.txt|0|1"))
              (Scenario.answers 3 (Py.blit "/a.txt|0|10")))).
  - discriminate.
  - vm_compute. intros H. repeat (destruct H as [H|H]; [discriminate|]).
    exact H.
  - reflexivity.
  - reflexivity.
  - reflexivity.
  - reflexivity.
  - vm_compute. reflexivity.
  - reflexivity.
  - reflexivity.
  - reflexivity.
  - reflexivity.
  - reflexivity.
  - exact (carries_segment (Scenario.request 3 (Py.blit "/a.txt|0|1")) eq_refl).
  - reflexivity.
  - exact (carries_segment (Scenario.request 3 (Py.blit "/a.txt|0|10")) eq_refl).
  - exact (carries_packets (Scenario.answers 3 (Py.blit "/a.txt|0|1")) eq_refl).
  - exact (carries_packets (Scenario.answers 3 (Py.blit "/a.txt|0|10")) eq_refl).
  - reflexivity.
Defined.

(* ===================================================================== *)
(** * Errors of the server, as the clients show them                       *)
(* ===================================================================== *)

Section ServerErrors.
Import Py.

Variable libtext : library.
Variable P : os_path.
Variable fs : Server.filesystem.
Variable disk : local_disk.

(** The server's side: one request that fails before anything is sent. *)
Lemma server_reports (t : Z) (req pkt m err : bytes) (e : exn)
  (c c2 : Server.conn) :
  Server.pack libtext t req = OK pkt ->
  Server.c_outbox c = [] -> carries (Server.c_inbox c) pkt [] ->
  Server.handle_request libtext P fs t req (Server.with_inbox c []) = (Err e, c2) ->
  Server.c_outbox c2 = [] ->
  encode libtext (exc_msg e) = OK m ->
  Server.pack libtext Server.TYPE_ERR m = OK err ->
  Server.c_outbox (snd (Server.handle_client libtext P fs c)) = [err].
Proof.
  intros Hpkt Ho Hc Hh Ho2 Hm Herr. rewrite <- (app_nil_r pkt) in Hc.
  destruct (handle_client_next libtext P fs t req pkt [] c [] Hpkt Hc)
    as (i' & Hc' & H).
  apply carries_nil_inv in Hc'. subst i'. rewrite H, Hh.
  rewrite (reported_sent libtext e m err c2 Hm Herr).
  cbn [snd Server.sock_close Server.c_outbox after]. rewrite Ho2. reflexivity.
Qed.

(** [_get_size] when the server answers with an ERR packet. *)
Lemma gui_get_size_ERR (path : str) (msg : str) (req pkt m err : bytes)
  (s : sock) :
  encode libtext (path ++ lit "|0|1") = OK req ->
  Client.pack libtext Client.TYPE_GET req = OK pkt ->
  encode libtext msg = OK m ->
  Client.pack libtext Client.TYPE_ERR m = OK err ->
  carries (s_in s) err [] ->
  Client._get_size libtext path s
  = (Err (Exc ConnectionError msg),
     {| s_in := []; s_out := s_out s ++ [pkt]; s_closed := s_closed s |}).
Proof.
  intros Henc Hpk Hm Herr Hc.
  unfold Client._get_size.
  unfold bind at 1, lift at 1. rewrite Henc.
  unfold bind at 1, lift at 1. rewrite Hpk.
  unfold bind at 1, sock_sendall.
  set (s1 := {| s_in := s_in s; s_out := s_out s ++ [pkt];
                s_closed := s_closed s |}).
  rewrite <- (app_nil_r err) in Hc.
  destruct (decode_encode libtext _ _ Hm) as [Hd _].
  destruct (client_recv_packed_ERR libtext m err [] msg s1 [] Herr Hd Hc)
    as (i' & Hr & Hc').
  apply carries_nil_inv in Hc'. subst i'.
  unfold bind at 1. rewrite Hr. reflexivity.
Qed.

(** [get_file_size] when the server answers with an ERR packet. *)
Lemma cli_get_file_size_ERR (path : str) (req pkt m err : bytes) (s : sock) :
  encode libtext (path ++ lit "|0|1") = OK req ->
  CLI.pack libtext CLI.TYPE_GET req = OK pkt ->
  CLI.pack libtext CLI.TYPE_ERR m = OK err ->
  carries (s_in s) err [] ->
  CLI.get_file_size libtext path s
  = (OK 0,
     {| s_in := []; s_out := s_out s ++ [pkt]; s_closed := s_closed s |}).
Proof.
  intros Henc Hpk Herr Hc.
  unfold CLI.get_file_size, try_except.
  unfold bind at 1, lift at 1. rewrite Henc.
  unfold bind at 1, lift at 1. rewrite Hpk.
  unfold bind at 1, sock_sendall.
  set (s1 := {| s_in := s_in s; s_out := s_out s ++ [pkt];
                s_closed := s_closed s |}).
  rewrite <- (app_nil_r err) in Hc.
  destruct (cli_recv_packed_ERR libtext m err [] s1 [] Herr Hc)
    as (i' & Hr & Hc').
  apply carries_nil_inv in Hc'. subst i'.
  unfold bind at 1. rewrite Hr. reflexivity.
Qed.

(** X16. An error of the server reaches the user of the desktop client in
    the server's own words. When the size query of [_download] makes the
    server raise an exception before it has sent anything (a path that is
    refused, a file that is not there, a request that is not well formed), and
    the ERR packet with [str(e)] can be built, then [_download] returns
    normally with the status [Error: ] followed by [str(e)]; no file has been
    created or written, and the second connection has not been used. *)
Theorem gui_shows_server_error (now : float) (remote save : str)
  (req1 pkt1 m err : bytes) (e : exn) (c1 c2 : Server.conn)
  (w : Client.worker) :
  encode libtext (remote ++ lit "|0|1") = OK req1 ->
  Client.pack libtext Client.TYPE_GET req1 = OK pkt1 ->
  Server.c_outbox c1 = [] -> carries (Server.c_inbox c1) pkt1 [] ->
  Server.handle_request libtext P fs Server.TYPE_GET req1
    (Server.with_inbox c1 []) = (Err e, c2) ->
  Server.c_outbox c2 = [] ->
  encode libtext (exc_msg e) = OK m ->
  Server.pack libtext Server.TYPE_ERR m = OK err ->
  carries (s_in (Client.w_probe w))
    (List.concat
       (Server.c_outbox (snd (Server.handle_client libtext P fs c1)))) [] ->
  exists w',
    Client._download libtext disk now remote save w = (OK tt, w')
    /\ Client.status (Client.w_info w') = lit "Error: " ++ exc_msg e
    /\ Client.w_file w' = Client.w_file w
    /\ Client.w_data w' = Client.w_data w.
Proof.
  intros Hreq1 Hpkt1 Ho1 Hc1 Hh Ho2 Hm Herr Hp.
  rewrite (server_reports Server.TYPE_GET req1 pkt1 m err e c1 c2
             Hpkt1 Ho1 Hc1 Hh Ho2 Hm Herr) in Hp.
  cbn [List.concat] in Hp. rewrite app_nil_r in Hp.
  unfold Client._download, try_except.
  unfold bind at 1, Client.on_probe at 1.
  rewrite (gui_get_size_ERR remote (exc_msg e) req1 pkt1 m err _
             Hreq1 Hpkt1 Hm Herr Hp).
  eexists. split; [reflexivity|].
  cbn [Client.w_info Client.w_file Client.w_data Client.status
         Client.with_status exc_msg].
  repeat split; reflexivity.
Qed.

(** X17. The terminal client hides the error of the server. Under the same
    conditions [_download_thread] returns normally with the status
    [error: File not found or empty], whatever the server has said; no file
    has been created, and the second connection has not been used. *)
Theorem cli_hides_server_error (remote save : str)
  (req1 pkt1 m err : bytes) (e : exn) (c1 c2 : Server.conn)
  (w : CLI.worker) :
  encode libtext (remote ++ lit "|0|1") = OK req1 ->
  CLI.pack libtext CLI.TYPE_GET req1 = OK pkt1 ->
  Server.c_outbox c1 = [] -> carries (Server.c_inbox c1) pkt1 [] ->
  Server.handle_request libtext P fs Server.TYPE_GET req1
    (Server.with_inbox c1 []) = (Err e, c2) ->
  Server.c_outbox c2 = [] ->
  encode libtext (exc_msg e) = OK m ->
  Server.pack libtext Server.TYPE_ERR m = OK err ->
  carries (s_in (CLI.w_probe w))
    (List.concat
       (Server.c_outbox (snd (Server.handle_client libtext P fs c1)))) [] ->
  exists w',
    CLI._download_thread libtext disk remote save w = (OK tt, w')
    /\ CLI.d_status (CLI.w_entry w') = lit "error: File not found or empty"
    /\ CLI.w_file w' = CLI.w_file w
    /\ CLI.w_data w' = CLI.w_data w.
Proof.
  intros Hreq1 Hpkt1 Ho1 Hc1 Hh Ho2 Hm Herr Hp.
  rewrite (server_reports Server.TYPE_GET req1 pkt1 m err e c1 c2
             Hpkt1 Ho1 Hc1 Hh Ho2 Hm Herr) in Hp.
  cbn [List.concat] in Hp. rewrite app_nil_r in Hp.
  unfold CLI._download_thread, try_except.
  unfold bind at 1, CLI.on_probe at 1.
  rewrite (cli_get_file_size_ERR remote req1 pkt1 m err _
             Hreq1 Hpkt1 Herr Hp).
  change (0 =? 0) with true. cbv iota.
  unfold bind at 1, raise at 1.
  eexists. split; [reflexivity|].
  cbn [CLI.w_entry CLI.w_file CLI.w_data CLI.d_status CLI.with_status exc_msg].
  repeat split; reflexivity.
Qed.

End ServerErrors.

(** ** The framing is unambiguous *)

Section Unambiguous.
Import Py.

Variable libtext : library.

Lemma app_eq_length {A} (a c b d : list A) :
  List.length a = List.length c -> a ++ b = c ++ d -> a = c /\ b = d.
Proof.
  revert c. induction a as [|x a IH]; intros [|y c] Hl E;
    try discriminate; [auto|].
  simpl in *. injection E as -> E. injection Hl as Hl.
  destruct (IH c Hl E) as [-> ->]. auto.
Qed.

(** X18. A stream of packets can be cut into packets in one way only: if
    a packet followed by some bytes is, as a sequence of bytes, another
    packet followed by some bytes, then the two packets have the same type
    and the same payload, and the bytes that follow are the same. *)
Theorem framing_is_unambiguous (t t' : Z) (p p' pkt pkt' more more' : bytes) :
  Server.pack libtext t p = OK pkt ->
  Server.pack libtext t' p' = OK pkt' ->
  pkt ++ more = pkt' ++ more' ->
  t = t' /\ p = p' /\ more = more'.
Proof.
  intros Hp Hp' E.
  destruct (pack_inv libtext _ _ _ Hp) as (h & -> & Hh & Hu).
  destruct (pack_inv libtext _ _ _ Hp') as (h' & -> & Hh' & Hu').
  rewrite <- !app_assoc in E. apply app_inv_head in E.
  destruct (app_eq_length h h' _ _ ltac:(congruence) E) as [-> E2].
  rewrite Hu in Hu'. injection Hu' as -> Hl.
  apply Nat2Z.inj in Hl.
  destruct (app_eq_length p p' _ _ Hl E2) as [-> ->]. auto.
Qed.

End Unambiguous.

(** A file that is not there, asked for by both clients. *)
Lemma gui_shows_server_error_witness :
  exists w',
    Client._download Scenario.libtext Scenario.disk Scenario.now
      (Py.lit "/nope.txt") (Py.lit "/home/u/nope.txt")
      (Scenario.gui_worker (Scenario.answers 3 (Py.blit "/nope.txt|0|1")) [])
    = (Py.OK tt, w')
    /\ Client.status (Client.w_info w')
       = Py.lit "Error: "
         ++ Py.exc_msg (Py.Exc Py.FileNotFoundError
                          (Py.lit "File not found: /nope.txt"))
    /\ Client.w_file w' = None
    /\ Client.w_data w' = Scenario.socket [].
Proof.
  apply (gui_shows_server_error Scenario.libtext Scenario.P Scenario.fs
           Scenario.disk Scenario.now
           (Py.lit "/nope.txt") (Py.lit "/home/u/nope.txt")
           (Py.blit "/nope.txt|0|1")
           (Scenario.request 3 (Py.blit "/nope.txt|0|1"))
           (Py.blit "File not found: /nope.txt")
           (Scenario.request 7 (Py.blit "File not found: /nope.txt"))
           (Py.Exc Py.FileNotFoundError (Py.lit "File not found: /nope.txt"))
           (Scenario.connection [Scenario.request 3 (Py.blit "/nope.txt|0|1")])
           (snd (Server.handle_request Scenario.libtext Scenario.P Scenario.fs
                   3 (Py.blit "/nope.txt|0|1")
                   (Server.with_inbox
                      (Scenario.connection
                         [Scenario.request 3 (Py.blit "/nope.txt|0|1")]) [])))
           (Scenario.gui_worker
              (Scenario.answers 3 (Py.blit "/nope.txt|0|1")) [])).
  - reflexivity.
  - reflexivity.
  - reflexivity.
  - exact (carries_segment
             (Scenario.request 3 (Py.blit "/nope.txt|0|1")) eq_refl).
  - reflexivity.
  - reflexivity.
  - reflexivity.
  - reflexivity.
  - exact (carries_packets
             (Scenario.answers 3 (Py.blit "/nope.txt|0|1")) eq_refl).
Defined.

Lemma cli_hides_server_error_witness :
  exists w',
    CLI._download_thread Scenario.libtext Scenario.disk
      (Py.lit "/nope.txt") (Py.lit "/home/u/downloads/nope.txt")
      (Scenario.cli_worker (Scenario.answers 3 (Py.blit "/nope.txt|0|1")) [])
    = (Py.OK tt, w')
    /\ CLI.d_status (CLI.w_entry w')
       = Py.lit "error: File not found or empty"
    /\ CLI.w_file w' = None
    /\ CLI.w_data w' = Scenario.socket [].
Proof.
  apply (cli_hides_server_error Scenario.libtext Scenario.P Scenario.fs
           Scenario.disk
           (Py.lit "/nope.txt") (Py.lit "/home/u/downloads/nope.txt")
           (Py.blit "/nope.txt|0|1")
           (Scenario.request 3 (Py.blit "/nope.txt|0|1"))
           (Py.blit "File not found: /nope.txt")
           (Scenario.request 7 (Py.blit "File not found: /nope.txt"))
           (Py.Exc Py.FileNotFoundError (Py.lit "File not found: /nope.txt"))
           (Scenario.connection [Scenario.request 3 (Py.blit "/nope.txt|0|1")])
           (snd (Server.handle_request Scenario.libtext Scenario.P Scenario.fs
                   3 (Py.blit "/nope.txt|0|1")
                   (Server.with_inbox
                      (Scenario.connection
                         [Scenario.request 3 (Py.blit "/nope.txt|0|1")]) [])))
           (Scenario.cli_worker
              (Scenario.answers 3 (Py.blit "/nope.txt|0|1")) [])).
  - reflexivity.
  - reflexivity.
  - reflexivity.
  - exact (carries_segment
             (Scenario.request 3 (Py.blit "/nope.txt|0|1")) eq_refl).
  - reflexivity.
  - reflexivity.
  - reflexivity.
  - reflexivity.
  - exact (carries_packets
             (Scenario.answers 3 (Py.blit "/nope.txt|0|1")) eq_refl).
Defined.

Lemma framing_is_unambiguous_witness :
  1 = 1 /\ Py.blit "/pub" = Py.blit "/pub"
  /\ Scenario.request 3 (Py.blit "/a.txt|0|-1")
     = Scenario.request 3 (Py.blit "/a.txt|0|-1").
Proof.
  apply (framing_is_unambiguous Scenario.libtext 1 1
           (Py.blit "/pub") (Py.blit "/pub")
           (Scenario.request 1 (Py.blit "/pub"))
           (Scenario.request 1 (Py.blit "/pub"))
           (Scenario.request 3 (Py.blit "/a.txt|0|-1"))
           (Scenario.request 3 (Py.blit "/a.txt|0|-1"))).
  - reflexivity.
  - reflexivity.
  - reflexivity.
Defined.

(* ===================================================================== *)
(** * The sandbox on a POSIX host, whatever the working directory          *)
(* ===================================================================== *)

Section PosixSandbox.
Import Py.

Lemma fold_empty_components (i n : nat) (nc : list str) :
  fold_left (posixpath.normpath_step i) (repeat [] n) nc = nc.
Proof.
  induction n as [|n IH]; [reflexivity|]. exact IH.
Qed.

Lemma normpath_step_keeps (i : nat) (nc : list str) (comp : str) :
  proper_name comp -> posixpath.normpath_step i nc comp = nc ++ [comp].
Proof.
  intros (H1 & H2 & H3 & _). unfold posixpath.normpath_step.
  apply str_eqb_neq in H1, H2, H3. rewrite H1, H2, H3. reflexivity.
Qed.

Lemma fold_proper_components (i : nat) (comps : list str) :
  Forall proper_name comps ->
  forall nc, fold_left (posixpath.normpath_step i) comps nc = nc ++ comps.
Proof.
  induction 1 as [|c comps Hc Hcs IH]; intros nc; cbn [fold_left].
  - rewrite app_nil_r. reflexivity.
  - rewrite (normpath_step_keeps i nc c Hc), IH, <- app_assoc. reflexivity.
Qed.

Lemma drive_proper : proper_name drive.
Proof.
  repeat split; try discriminate.
  intros [H|[H|[]]]; discriminate.
Qed.

Lemma join_app (a b : list str) :
  a <> [] -> b <> [] ->
  Py.join [posixpath.sep] (a ++ b)
  = Py.join [posixpath.sep] a ++ [posixpath.sep] ++ Py.join [posixpath.sep] b.
Proof.
  intros Ha Hb. induction a as [|x a IH]; [congruence|].
  destruct a as [|y a].
  - destruct b as [|z b]; [congruence|]. reflexivity.
  - change (Py.join [posixpath.sep] ((x :: y :: a) ++ b))
      with (x ++ [posixpath.sep] ++ Py.join [posixpath.sep] ((y :: a) ++ b)).
    rewrite IH by discriminate.
    change (Py.join [posixpath.sep] (x :: y :: a))
      with (x ++ [posixpath.sep] ++ Py.join [posixpath.sep] (y :: a)).
    rewrite <- !app_assoc. reflexivity.
Qed.

(** A path of proper names starts with a character that is no separator. *)
Lemma join_proper_head (comps : list str) :
  comps <> [] -> Forall proper_name comps ->
  exists c s, Py.join [posixpath.sep] comps = c :: s /\ c <> posixpath.sep.
Proof.
  intros Hne H. destruct H as [|x comps (Hx & _ & _ & Hs) Hcs]; [congruence|].
  destruct x as [|c x]; [congruence|].
  exists c. destruct comps as [|y comps]; eexists; (split; [reflexivity|]);
    intros E; apply Hs; left; congruence.
Qed.

Lemma initial_slashes_of (i : nat) (c : char) (s : str) :
  (i = 1 \/ i = 2)%nat -> c <> posixpath.sep ->
  posixpath.initial_slashes (repeat posixpath.sep i ++ c :: s) = i.
Proof.
  intros Hi Hc. unfold posixpath.initial_slashes.
  assert (E : N.eqb posixpath.sep c = false)
    by (apply N.eqb_neq; congruence).
  destruct Hi as [-> | ->]; cbn [repeat app startswith];
    rewrite ?N.eqb_refl, E; reflexivity.
Qed.

(** The shape of [ROOT] when the working directory is absolute. *)
Lemma ROOT_components (cwd : str) :
  posixpath.isabs cwd = true ->
  exists i comps,
    (i = 1 \/ i = 2)%nat
    /\ Forall proper_name comps
    /\ Server.ROOT (posixpath.os_path cwd)
       = repeat posixpath.sep i ++ Py.join [posixpath.sep] (comps ++ [drive]).
Proof.
  intros Habs. unfold Server.ROOT. simpl path_abspath.
  unfold posixpath.abspath.
  change (posixpath.isabs (lit "D:/")) with false. cbv iota.
  destruct (split_drive_path cwd) as [l Hl].
  pose proof (join_abs cwd (lit "D:/") Habs) as Hx.
  set (x := posixpath.join cwd (lit "D:/")) in *.
  unfold posixpath.normpath.
  replace (is_empty x) with false by (destruct x; [discriminate|reflexivity]).
  cbv zeta. rewrite Hl, fold_left_app.
  pose proof (initial_slashes_abs x Hx) as Hi.
  set (i := posixpath.initial_slashes x) in *.
  assert (Hi12 : (i = 1 \/ i = 2)%nat).
  { unfold i, posixpath.initial_slashes in *.
    destruct (startswith x [posixpath.sep]); [|congruence].
    destruct (_ && _); auto. }
  assert (Hf : Forall (fun f => ~ In posixpath.sep f) l).
  { pose proof (split_fields_no_sep posixpath.sep x) as H.
    rewrite Hl in H. apply Forall_app in H. tauto. }
  pose proof (normpath_fold_proper i l Hi Hf [] (Forall_nil _)) as Hnc.
  set (nc := fold_left (posixpath.normpath_step i) l []) in *.
  assert (E : fold_left (posixpath.normpath_step i) [drive; []] nc
              = nc ++ [drive]).
  { cbn [fold_left]. rewrite (normpath_step_keeps i nc drive drive_proper).
    reflexivity. }
  rewrite E. exists i, nc. split; [exact Hi12|]. split; [exact Hnc|].
  destruct (repeat posixpath.sep i ++ _) eqn:E2; [|reflexivity].
  destruct Hi12 as [-> | ->]; discriminate.
Qed.

(** [normpath] leaves a path of proper names below the root as it is, and
    takes a separator at the end of the root away. *)
Lemma normpath_below_root (cwd : str) (rcomps : list str) :
  posixpath.isabs cwd = true -> Forall proper_name rcomps ->
  posixpath.normpath
    (Server.ROOT (posixpath.os_path cwd)
     ++ [posixpath.sep] ++ Py.join [posixpath.sep] rcomps)
  = match rcomps with
    | [] => Server.ROOT (posixpath.os_path cwd)
    | _ => Server.ROOT (posixpath.os_path cwd)
           ++ [posixpath.sep] ++ Py.join [posixpath.sep] rcomps
    end.
Proof.
  intros Habs Hr.
  destruct (ROOT_components cwd Habs) as (i & comps & Hi & Hc & ->).
  assert (Hcd : Forall proper_name (comps ++ [drive])).
  { apply Forall_app. split; [exact Hc|].
    constructor; [exact drive_proper|constructor]. }
  assert (Hne : comps ++ [drive] <> []) by (destruct comps; discriminate).
  destruct (join_proper_head _ Hne Hcd) as (c & s & Ej & Hcsep).
  set (J := Py.join [posixpath.sep] (comps ++ [drive])) in *.
  unfold posixpath.normpath.
  rewrite <- !app_assoc.
  replace (is_empty _) with false
    by (rewrite Ej; destruct Hi as [-> | ->]; reflexivity).
  cbv zeta.
  assert (Hinit : posixpath.initial_slashes
                    (repeat posixpath.sep i
                     ++ J ++ [posixpath.sep]
                     ++ Py.join [posixpath.sep] rcomps) = i).
  { rewrite Ej. apply (initial_slashes_of i c _ Hi Hcsep). }
  rewrite Hinit, split_leading_seps, fold_left_app, fold_empty_components.
  change (J ++ [posixpath.sep] ++ Py.join [posixpath.sep] rcomps)
    with (J ++ posixpath.sep :: Py.join [posixpath.sep] rcomps).
  rewrite split_app_sep, fold_left_app.
  assert (Hsj : split posixpath.sep J = comps ++ [drive]).
  { apply split_join; [exact Hne|].
    eapply Forall_impl; [|exact Hcd]. intros a (_ & _ & _ & Ha). exact Ha. }
  rewrite Hsj.
  rewrite (fold_proper_components i _ Hcd []). cbn [app].
  destruct rcomps as [|r rcomps].
  - cbn [Py.join split fold_left].
    unfold posixpath.normpath_step. cbn [str_eqb orb].
    fold J. rewrite Ej.
    destruct Hi as [-> | ->]; reflexivity.
  - rewrite split_join.
    2:{ discriminate. }
    2:{ eapply Forall_impl; [|exact Hr]. intros a (_ & _ & _ & Ha). exact Ha. }
    rewrite (fold_proper_components i _ Hr).
    assert (Hrne : r :: rcomps <> []) by discriminate.
    rewrite (join_app _ _ Hne Hrne). fold J.
    rewrite Ej. destruct Hi as [-> | ->]; reflexivity.
Qed.

Lemma ROOT_is_absolute (cwd : str) :
  posixpath.isabs cwd = true ->
  exists s, Server.ROOT (posixpath.os_path cwd) = posixpath.sep :: s.
Proof.
  intros Habs.
  destruct (ROOT_components cwd Habs) as (i & comps & Hi & _ & ->).
  destruct Hi as [-> | ->]; eexists; reflexivity.
Qed.

(** X19. On a POSIX host the root itself is never served, whatever the
    working directory of the server: a path that is empty, or made of
    slashes, backslashes and blanks only, is refused by [safe_path] as a
    traversal attempt, so that [list_dir] gives the empty list for it even
    when the root directory has entries. *)
Theorem posix_root_is_refused (cwd rel : str) (fs : Server.filesystem)
  (c : Server.conn) :
  posixpath.isabs cwd = true ->
  lstrip (lit "\/ ") rel = [] ->
  Server.safe_path (posixpath.os_path cwd) rel
  = Err (Exc ValueError (lit "Security: Path traversal attempt blocked"))
  /\ fst (Server.list_dir (posixpath.os_path cwd) fs rel c) = OK [].
Proof.
  intros Habs Hrel.
  assert (Hs : Server.safe_path (posixpath.os_path cwd) rel
               = Err (Exc ValueError
                        (lit "Security: Path traversal attempt blocked"))).
  { apply safe_path_rejects_root. rewrite Hrel.
    rewrite (root_prefix_posix cwd).
    change (path_abspath (posixpath.os_path cwd)) with (posixpath.abspath cwd).
    unfold posixpath.abspath.
    destruct (ROOT_is_absolute cwd Habs) as (s & Hroot).
    replace (posixpath.isabs _) with true by (rewrite Hroot; reflexivity).
    pose proof (normpath_below_root cwd [] Habs (Forall_nil _)) as H.
    cbn [Py.join] in H. rewrite app_nil_r in H. exact H. }
  split; [exact Hs|].
  destruct (list_dir_outcome (posixpath.os_path cwd) fs rel c) as (paths & H).
  rewrite H, Hs. reflexivity.
Qed.

(** X20. On a POSIX host the sandbox lets every honest path through: a
    path made of names that are not empty, [.] or [..], put together with
    slashes, after any slashes, backslashes and blanks at its front, is
    resolved to the root followed by a slash and that path, whatever the
    absolute working directory of the server. *)
Theorem sandbox_accepts_paths_below_root (cwd rel : str)
  (comps : list str) :
  posixpath.isabs cwd = true ->
  comps <> [] -> Forall proper_name comps ->
  lstrip (lit "\/ ") rel = Py.join [posixpath.sep] comps ->
  Server.safe_path (posixpath.os_path cwd) rel
  = OK (Server.ROOT (posixpath.os_path cwd)
        ++ [posixpath.sep] ++ Py.join [posixpath.sep] comps).
Proof.
  intros Habs Hne Hc Hrel. unfold Server.safe_path. cbv zeta.
  rewrite Hrel, (root_prefix_posix cwd).
  change (path_abspath (posixpath.os_path cwd)) with (posixpath.abspath cwd).
  change (path_join (posixpath.os_path cwd)) with posixpath.join.
  destruct (join_proper_head comps Hne Hc) as (ch & s & Ej & Hch).
  destruct (ROOT_shape cwd) as (r & Hr).
  destruct (ROOT_is_absolute cwd Habs) as (s0 & Hroot).
  assert (Hjoin : posixpath.join (Server.ROOT (posixpath.os_path cwd))
                    (Py.join [posixpath.sep] comps)
                  = Server.ROOT (posixpath.os_path cwd)
                    ++ [posixpath.sep] ++ Py.join [posixpath.sep] comps).
  { unfold posixpath.join. rewrite Ej. cbn [startswith].
    replace (N.eqb posixpath.sep ch) with false
      by (symmetry; apply N.eqb_neq; congruence).
    cbn [andb]. rewrite Hroot at 1. cbn [is_empty orb].
    rewrite Hr at 1. change drive with ([68%N] ++ [58%N]).
    rewrite app_assoc, endswith_char_snoc. reflexivity. }
  rewrite Hjoin. unfold posixpath.abspath.
  replace (posixpath.isabs _) with true by (rewrite Hroot; reflexivity).
  rewrite (normpath_below_root cwd comps Habs Hc).
  destruct comps as [|x comps]; [congruence|].
  replace (startswith _ _) with true; [reflexivity|].
  symmetry. apply startswith_iff. eexists. rewrite <- app_assoc. reflexivity.
Qed.

End PosixSandbox.

Lemma posix_root_is_refused_witness :
  Server.safe_path (posixpath.os_path (Py.lit "/home/ldt")) (Py.lit "/ \")
  = Py.Err (Py.Exc Py.ValueError
              (Py.lit "Security: Path traversal attempt blocked"))
  /\ fst (Server.list_dir (posixpath.os_path (Py.lit "/home/ldt"))
            Scenario.fs (Py.lit "/ \") (Scenario.connection []))
     = Py.OK [].
Proof.
  apply (posix_root_is_refused (Py.lit "/home/ldt") (Py.lit "/ \")
           Scenario.fs (Scenario.connection [])).
  - reflexivity.
  - reflexivity.
Defined.

Lemma sandbox_accepts_paths_below_root_witness :
  Server.safe_path (posixpath.os_path (Py.lit "/home/ldt"))
    (Py.lit "//pub/ok.txt")
  = Py.OK (Server.ROOT (posixpath.os_path (Py.lit "/home/ldt"))
           ++ [posixpath.sep]
           ++ Py.join [posixpath.sep] [Py.lit "pub"; Py.lit "ok.txt"]).
Proof.
  apply (sandbox_accepts_paths_below_root (Py.lit "/home/ldt")
           (Py.lit "//pub/ok.txt") [Py.lit "pub"; Py.lit "ok.txt"]).
  - reflexivity.
  - discriminate.
  - repeat constructor; try discriminate;
      intros H; repeat (destruct H as [H|H]; [discriminate|]); exact H.
  - reflexivity.
Defined.

(* ===================================================================== *)
(** * The clients come to an end                                           *)
(* ===================================================================== *)

Section Settles.
Import Py.

Context {S : Type}.

Lemma settles_ret {A} (a : A) : settles (@ret S A a) whatever.
Proof. intros s. exact I. Qed.

Lemma settles_raise {A} (e : exn) (Q : A -> S -> Prop) :
  settles (@raise S A e) Q.
Proof. intros s. exact I. Qed.

Lemma settles_lift {A} (r : result A) :
  r <> OutOfFuel -> settles (@lift S A r) whatever.
Proof. intros Hr s. unfold lift. destruct r; [exact I|exact I|congruence]. Qed.

Lemma settles_bind {A B} (m : io S A) (k : A -> io S B)
  (Q : B -> S -> Prop) :
  settles m whatever -> (forall a, settles (k a) Q) -> settles (bind m k) Q.
Proof.
  intros Hm Hk s. unfold bind. specialize (Hm s).
  destruct (m s) as [[a|e|] s']; [apply Hk|exact I|exact Hm].
Qed.

Lemma settles_try_except {A} (m : io S A) (h : exn -> io S A)
  (Q : A -> S -> Prop) :
  settles m Q -> (forall e, settles (h e) Q) -> settles (try_except m h) Q.
Proof.
  intros Hm Hh s. unfold try_except. specialize (Hm s).
  destruct (m s) as [[a|e|] s']; [exact Hm|apply Hh|exact Hm].
Qed.

Lemma settles_weaken {A} (m : io S A) (Q : A -> S -> Prop) :
  settles m Q -> settles m whatever.
Proof.
  intros Hm s. specialize (Hm s).
  destruct (m s) as [[a|e|] s']; [exact I|exact I|exact Hm].
Qed.

End Settles.

Section ClientTotality.
Import Py.

Variable libtext : library.

Lemma recv_lightens (k : nat) (i : inbox) :
  fst (recv k i) <> OutOfFuel
  /\ (inbox_weight (snd (recv k i)) <= inbox_weight i)%nat
  /\ forall d, fst (recv k i) = OK d ->
               d <> [] ->
               (inbox_weight (snd (recv k i)) < inbox_weight i)%nat.
Proof.
  destruct (recv_shrinks k i) as (H1 & H2 & H3).
  split; [exact H1|]. split; [exact H2|].
  intros d Hd Hne. destruct (H3 d Hd) as [_ H]. exact (H Hne).
Qed.

Lemma client_recv_exact_loop_fuel (fuel : nat) :
  forall n b s r s',
    (n - List.length b <= fuel)%nat ->
    Client.recv_exact_loop fuel n b s = (r, s') ->
    r <> OutOfFuel
    /\ (inbox_weight (s_in s') <= inbox_weight (s_in s))%nat
    /\ ((List.length b < n)%nat ->
        forall x, r = OK x ->
                  (inbox_weight (s_in s') < inbox_weight (s_in s))%nat).
Proof.
  induction fuel as [|fuel IH]; intros n b s r s' Hf;
    cbn [Client.recv_exact_loop];
    destruct (Nat.ltb_spec (List.length b) n) as [Hlt|Hge];
    try (intros E; inversion E; subst;
         split; [discriminate|split; [lia|intros; lia]]).
  - lia.
  - unfold bind at 1, try_except, bind at 1, sock_recv.
    destruct (recv_lightens (n - List.length b) (s_in s)) as (Hr & Hs & Hd).
    destruct (recv (n - List.length b) (s_in s)) as [r0 i'].
    cbn [fst snd] in Hr, Hs, Hd.
    destruct r0 as [d|e|]; [| |congruence].
    + destruct d as [|x d]; cbn [is_empty]; cbv beta iota.
      * unfold raise. intros E. inversion E; subst.
        cbn [s_in with_in].
        split; [discriminate|]. split; [exact Hs|discriminate].
      * unfold ret at 1. intros E.
        destruct (IH n (b ++ x :: d) (with_in s i') r s')
          as (H1 & H2 & _); [|exact E|].
        { rewrite length_app. cbn [List.length]. lia. }
        specialize (Hd _ eq_refl ltac:(discriminate)).
        cbn [s_in with_in] in H2.
        split; [exact H1|]. split; [lia|]. intros _ y _. lia.
    + cbv beta iota. unfold raise. intros E. inversion E; subst.
      cbn [s_in with_in].
      split; [discriminate|]. split; [exact Hs|discriminate].
Qed.

Lemma client_recv_exact_fuel (n : nat) (s : sock) (r : result bytes)
  (s' : sock) :
  Client.recv_exact n s = (r, s') ->
  r <> OutOfFuel
  /\ (inbox_weight (s_in s') <= inbox_weight (s_in s))%nat
  /\ ((0 < n)%nat ->
      forall x, r = OK x ->
                (inbox_weight (s_in s') < inbox_weight (s_in s))%nat).
Proof.
  unfold Client.recv_exact. intros E.
  destruct (client_recv_exact_loop_fuel n n [] s r s') as (H1 & H2 & H3);
    [simpl; lia|exact E|].
  split; [exact H1|]. split; [exact H2|]. intros Hn. apply H3. simpl. lia.
Qed.

Lemma decode_returns (m : error_mode) (b : bytes) :
  decode libtext m b <> OutOfFuel.
Proof. unfold decode. destruct (utf8_decode_loop _ _ _); discriminate. Qed.

Lemma struct_unpack_returns (h : bytes) :
  struct_unpack_BI libtext h <> OutOfFuel.
Proof.
  unfold struct_unpack_BI.
  destruct h as [|? [|? [|? [|? [|? [|? ?]]]]]]; discriminate.
Qed.

(** A packet received is a packet taken from the inbox. *)
Lemma client_recv_packet_fuel (s : sock) (r : result (Z * bytes))
  (s' : sock) :
  Client.recv_packet libtext s = (r, s') ->
  r <> OutOfFuel
  /\ forall p, r = OK p ->
               (inbox_weight (s_in s') < inbox_weight (s_in s))%nat.
Proof.
  unfold Client.recv_packet, try_except. unfold bind at 1.
  destruct (Client.recv_exact 4 s) as [r1 s1] eqn:E1.
  destruct (client_recv_exact_fuel 4 s r1 s1 E1) as (H1 & H2 & H3).
  destruct r1 as [magic|e|]; [| |congruence].
  2:{ intros E. inversion E. split; discriminate. }
  specialize (H3 ltac:(lia) magic eq_refl).
  destruct (negb _); [intros E; inversion E; split; discriminate|].
  unfold bind at 1.
  destruct (Client.recv_exact 5 s1) as [r2 s2] eqn:E2.
  destruct (client_recv_exact_fuel 5 s1 r2 s2 E2) as (H4 & H5 & _).
  destruct r2 as [header|e|]; [| |congruence].
  2:{ intros E. inversion E. split; discriminate. }
  unfold bind at 1, lift at 1.
  pose proof (struct_unpack_returns header) as Hu.
  destruct (struct_unpack_BI libtext header) as [[t ln]|e|]; [| |congruence].
  2:{ intros E. inversion E. split; discriminate. }
  unfold bind at 1.
  destruct (Client.recv_exact (Z.to_nat ln) s2) as [r3 s3] eqn:E3.
  destruct (client_recv_exact_fuel (Z.to_nat ln) s2 r3 s3 E3)
    as (H6 & H7 & _).
  destruct r3 as [payload|e|]; [| |congruence].
  2:{ intros E. inversion E. split; discriminate. }
  destruct (t =? Client.TYPE_ERR).
  - unfold bind, lift, raise.
    pose proof (decode_returns Strict payload) as Hd.
    destruct (decode libtext Strict payload); [| |congruence];
      intros E; inversion E; split; discriminate.
  - unfold ret. intros E. inversion E; subst.
    split; [discriminate|]. intros _ _. lia.
Qed.

Lemma cli_recv_exact_loop_fuel (fuel : nat) :
  forall n b s r s',
    (n - List.length b <= fuel)%nat ->
    CLI.recv_exact_loop fuel n b s = (r, s') ->
    r <> OutOfFuel
    /\ (inbox_weight (s_in s') <= inbox_weight (s_in s))%nat
    /\ ((List.length b < n)%nat ->
        forall x, r = OK x ->
                  (inbox_weight (s_in s') < inbox_weight (s_in s))%nat).
Proof.
  induction fuel as [|fuel IH]; intros n b s r s' Hf;
    cbn [CLI.recv_exact_loop];
    destruct (Nat.ltb_spec (List.length b) n) as [Hlt|Hge];
    try (intros E; inversion E; subst;
         split; [discriminate|split; [lia|intros; lia]]).
  - lia.
  - unfold bind at 1, try_except, bind at 1, sock_recv.
    destruct (recv_lightens (n - List.length b) (s_in s)) as (Hr & Hs & Hd).
    destruct (recv (n - List.length b) (s_in s)) as [r0 i'].
    cbn [fst snd] in Hr, Hs, Hd.
    destruct r0 as [d|e|]; [| |congruence].
    + destruct d as [|x d]; cbn [is_empty]; cbv beta iota.
      * unfold raise at 1. cbn [is_SocketTimeout exc_class]. cbv iota.
        unfold raise. intros E. inversion E; subst.
        cbn [s_in with_in].
        split; [discriminate|]. split; [exact Hs|discriminate].
      * unfold ret at 1. intros E.
        destruct (IH n (b ++ x :: d) (with_in s i') r s')
          as (H1 & H2 & _); [|exact E|].
        { rewrite length_app. cbn [List.length]. lia. }
        specialize (Hd _ eq_refl ltac:(discriminate)).
        cbn [s_in with_in] in H2.
        split; [exact H1|]. split; [lia|]. intros _ y _. lia.
    + cbv beta iota.
      destruct (is_SocketTimeout (exc_class e)); unfold raise;
        intros E; inversion E; subst; cbn [s_in with_in];
        (split; [discriminate|split; [exact Hs|discriminate]]).
Qed.

Lemma cli_recv_exact_fuel (n : nat) (s : sock) (r : result bytes)
  (s' : sock) :
  CLI.recv_exact n s = (r, s') ->
  r <> OutOfFuel
  /\ (inbox_weight (s_in s') <= inbox_weight (s_in s))%nat
  /\ ((0 < n)%nat ->
      forall x, r = OK x ->
                (inbox_weight (s_in s') < inbox_weight (s_in s))%nat).
Proof.
  unfold CLI.recv_exact. intros E.
  destruct (cli_recv_exact_loop_fuel n n [] s r s') as (H1 & H2 & H3);
    [simpl; lia|exact E|].
  split; [exact H1|]. split; [exact H2|]. intros Hn. apply H3. simpl. lia.
Qed.

Lemma cli_recv_packet_fuel (s : sock) (r : result (Z * bytes))
  (s' : sock) :
  CLI.recv_packet libtext s = (r, s') ->
  r <> OutOfFuel
  /\ forall p, r = OK p ->
               (inbox_weight (s_in s') < inbox_weight (s_in s))%nat.
Proof.
  unfold CLI.recv_packet, try_except. unfold bind at 1.
  destruct (CLI.recv_exact 4 s) as [r1 s1] eqn:E1.
  destruct (cli_recv_exact_fuel 4 s r1 s1 E1) as (H1 & H2 & H3).
  destruct r1 as [magic|e|]; [| |congruence].
  2:{ intros E. inversion E. split; discriminate. }
  specialize (H3 ltac:(lia) magic eq_refl).
  destruct (negb _); [intros E; inversion E; split; discriminate|].
  unfold bind at 1.
  destruct (CLI.recv_exact 5 s1) as [r2 s2] eqn:E2.
  destruct (cli_recv_exact_fuel 5 s1 r2 s2 E2) as (H4 & H5 & _).
  destruct r2 as [header|e|]; [| |congruence].
  2:{ intros E. inversion E. split; discriminate. }
  unfold bind at 1, lift at 1.
  pose proof (struct_unpack_returns header) as Hu.
  destruct (struct_unpack_BI libtext header) as [[t ln]|e|]; [| |congruence].
  2:{ intros E. inversion E. split; discriminate. }
  unfold bind at 1.
  destruct (CLI.recv_exact (Z.to_nat ln) s2) as [r3 s3] eqn:E3.
  destruct (cli_recv_exact_fuel (Z.to_nat ln) s2 r3 s3 E3)
    as (H6 & H7 & _).
  destruct r3 as [payload|e|]; [| |congruence].
  2:{ intros E. inversion E. split; discriminate. }
  destruct (t =? CLI.TYPE_ERR).
  - unfold raise. intros E. inversion E. split; discriminate.
  - unfold ret. intros E. inversion E; subst.
    split; [discriminate|]. intros _ _. lia.
Qed.

End ClientTotality.

Section ClientSettles.
Import Py.

Variable libtext : library.
Variable disk : local_disk.

(** A [try] whose handler returns makes a computation that returns. *)
Lemma try_except_returns {S A} (m : io S A) (h : exn -> io S A)
  (Q : A -> S -> Prop) :
  settles m Q ->
  (forall e s, exists a s', h e s = (OK a, s') /\ Q a s') ->
  forall s, exists a s', try_except m h s = (OK a, s') /\ Q a s'.
Proof.
  intros Hm Hh s. unfold try_except. specialize (Hm s).
  destruct (m s) as [[a|e|] s'].
  - exists a, s'. auto.
  - apply Hh.
  - contradiction.
Qed.

Lemma settles_sock_sendall (b : bytes) : settles (sock_sendall b) whatever.
Proof. intros s. exact I. Qed.

Lemma settles_sock_close : settles sock_close whatever.
Proof. intros s. exact I. Qed.

Lemma settles_client_recv_packet :
  settles (Client.recv_packet libtext) whatever.
Proof.
  intros s. destruct (Client.recv_packet libtext s) as [r s'] eqn:E.
  destruct (client_recv_packet_fuel libtext s r s' E) as [H _].
  destruct r; [exact I|exact I|congruence].
Qed.

Lemma settles_cli_recv_packet : settles (CLI.recv_packet libtext) whatever.
Proof.
  intros s. destruct (CLI.recv_packet libtext s) as [r s'] eqn:E.
  destruct (cli_recv_packet_fuel libtext s r s' E) as [H _].
  destruct r; [exact I|exact I|congruence].
Qed.

Lemma client_list_loop_returns (lines : list str) :
  forall items, Client.list_loop libtext lines items <> OutOfFuel.
Proof.
  induction lines as [|line rest IH]; intros items; cbn [Client.list_loop];
    [discriminate|].
  destruct (is_empty (strip line)); [apply IH|].
  destruct (split 124%N line) as [|n [|d [|sz [|mt [|x l]]]]]; try apply IH.
  unfold rbind, int.
  destruct (parse_int libtext d); [|discriminate].
  destruct (parse_int libtext sz); [|discriminate].
  destruct (parse_int libtext mt); [|discriminate].
  apply IH.
Qed.

Lemma cli_list_loop_returns (lines : list str) :
  forall items, CLI.list_loop libtext lines items <> OutOfFuel.
Proof.
  induction lines as [|line rest IH]; intros items; cbn [CLI.list_loop];
    [discriminate|].
  destruct (is_empty (strip line)); [apply IH|].
  destruct (split 124%N line) as [|n [|d [|sz [|mt [|x l]]]]]; try apply IH.
  unfold rbind, int.
  destruct (parse_int libtext d); [|discriminate].
  destruct (parse_int libtext sz); [|discriminate].
  destruct (parse_int libtext mt); [|discriminate].
  apply IH.
Qed.

(** [API.list] returns its record, whatever arrives. *)
Lemma client_API_list_returns (path : str) (s : sock) :
  exists r s', Client.API_list libtext path s = (OK r, s').
Proof.
  unfold Client.API_list.
  match goal with
  | |- context [try_except ?m ?h s] =>
      destruct (try_except_returns m h whatever) with (s := s)
        as (r & s' & H & _)
  end.
  - apply settles_bind; [apply settles_lift, encode_returns|]. intros req.
    apply settles_bind;
      [apply settles_lift; exact (pack_returns libtext _ _)|].
    intros pkt.
    apply settles_bind; [apply settles_sock_sendall|]. intros _.
    apply settles_bind; [apply settles_client_recv_packet|].
    intros [t data].
    apply settles_bind; [apply settles_sock_close|]. intros _.
    apply settles_bind; [|intros items; apply settles_ret].
    destruct (t =? Client.TYPE_LIST_RESP); [|apply settles_ret].
    apply settles_lift, client_list_loop_returns.
  - intros e s0. eexists. eexists. split; [reflexivity|exact I].
  - exists r, s'. exact H.
Qed.

(** [list_directory] returns a list, whatever arrives. *)
Lemma cli_list_directory_returns (current_path path : str) (s : sock) :
  exists items s',
    CLI.list_directory libtext current_path path s = (OK items, s').
Proof.
  unfold CLI.list_directory. cbv zeta.
  match goal with
  | |- context [try_except ?m ?h s] =>
      destruct (try_except_returns m h whatever) with (s := s)
        as (r & s' & H & _)
  end.
  - apply settles_bind; [apply settles_lift, encode_returns|]. intros req.
    apply settles_bind;
      [apply settles_lift; exact (pack_returns libtext _ _)|].
    intros pkt.
    apply settles_bind; [apply settles_sock_sendall|]. intros _.
    apply settles_bind; [apply settles_cli_recv_packet|].
    intros [t data].
    apply settles_bind; [apply settles_sock_close|]. intros _.
    destruct (t =? CLI.TYPE_LIST_RESP); [|apply settles_ret].
    apply settles_lift, cli_list_loop_returns.
  - intros e s0. eexists. eexists. split; [reflexivity|exact I].
  - exists r, s'. exact H.
Qed.

(** X21. The two listing calls never fail on their caller. Whatever the
    path, and whatever arrives on the socket before the peer shuts down (a
    listing, an error packet, bytes that are no packet, a failed read,
    nothing at all), [API.list] returns its success or its failure record and
    [list_directory] returns a list: neither raises. *)
Theorem listing_calls_always_return :
  (forall (path : str) (s : sock),
      exists r s', Client.API_list libtext path s = (OK r, s'))
  /\ (forall (current_path path : str) (s : sock),
        exists items s',
          CLI.list_directory libtext current_path path s = (OK items, s')).
Proof.
  split.
  - intros path s.
    destruct (client_API_list_returns path s) as (r & s' & H).
    exists r, s'. exact H.
  - intros current_path path s.
    destruct (cli_list_directory_returns current_path path s)
      as (items & s' & H).
    exists items, s'. exact H.
Qed.


Lemma settles_gui_on_probe {A} (m : io sock A) :
  settles m whatever -> settles (Client.on_probe m) whatever.
Proof.
  intros H w. unfold Client.on_probe. specialize (H (Client.w_probe w)).
  destruct (m (Client.w_probe w)) as [[a|e|] s']; exact H.
Qed.

Lemma settles_gui_on_data {A} (m : io sock A) :
  settles m whatever -> settles (Client.on_data m) whatever.
Proof.
  intros H w. unfold Client.on_data. specialize (H (Client.w_data w)).
  destruct (m (Client.w_data w)) as [[a|e|] s']; exact H.
Qed.

Lemma settles_gui_get_size (path : str) :
  settles (Client._get_size libtext path) whatever.
Proof.
  unfold Client._get_size.
  apply settles_bind; [apply settles_lift, encode_returns|]. intros req.
  apply settles_bind; [apply settles_lift; exact (pack_returns libtext _ _)|].
  intros pkt.
  apply settles_bind; [apply settles_sock_sendall|]. intros _.
  apply settles_bind; [apply settles_client_recv_packet|]. intros [t data].
  apply settles_bind; [apply settles_sock_close|]. intros _.
  destruct (t =? Client.TYPE_META); [|apply settles_ret].
  apply settles_bind; [apply settles_lift, decode_returns|]. intros text.
  apply settles_lift, int_returns.
Qed.

(** The bound of the copying loop is enough: every turn that goes on has
    taken a packet from the inbox. *)
Lemma gui_download_loop_settles (fuel : nat) :
  forall (size pos : Z) (w : Client.worker),
    (inbox_weight (s_in (Client.w_data w)) < fuel)%nat ->
    fst (Client.download_loop libtext fuel size pos w) <> OutOfFuel.
Proof.
  induction fuel as [|fuel IH]; intros size pos w Hf; [lia|].
  cbn [Client.download_loop].
  destruct (pos <? size); [|discriminate].
  unfold bind at 1, Client.on_data at 1.
  destruct (Client.recv_packet libtext (Client.w_data w)) as [r s1] eqn:E.
  destruct (client_recv_packet_fuel libtext _ r s1 E) as [Hr Hlt].
  destruct r as [[t data]|e|]; [|discriminate|congruence].
  specialize (Hlt _ eq_refl).
  destruct (negb (t =? Client.TYPE_CHUNK)); [discriminate|].
  unfold bind at 1, Client.write_file. cbn [Client.w_file].
  destruct (Client.w_file w) as [content|]; [|discriminate].
  unfold Client.set_file at 1.
  unfold bind at 1, Client.update_info at 1.
  apply IH. cbn [Client.w_data]. lia.
Qed.

(** X23. The worker of the desktop client says how it has ended. When
    the incoming streams of its two connections come to an end (after
    finitely many bytes the peer shuts down, or a read fails), then, whatever
    they have delivered and whether or not the directory of the file can be
    made, [_download] returns normally, so that the thread does not die of
    an exception, and it leaves the entry with the status [completed] or with
    a status that starts with [Error: ] and goes on with the text of the
    exception. A peer that stays silent on the second connection, which has
    no timeout, or that sends CHUNK packets with empty payloads without end,
    is not covered: the worker goes on for as long as it does. *)
Theorem gui_worker_always_settles (now : float) (remote save : str)
  (w : Client.worker) :
  exists w',
    Client._download libtext disk now remote save w = (OK tt, w')
    /\ (Client.status (Client.w_info w') = lit "completed"
        \/ exists e,
             Client.status (Client.w_info w') = lit "Error: " ++ exc_msg e).
Proof.
  unfold Client._download.
  match goal with
  | |- exists w', try_except ?m ?h w = _ /\ _ =>
      destruct (try_except_returns m h
                  (fun _ w' =>
                     Client.status (Client.w_info w') = lit "completed"
                     \/ exists e,
                          Client.status (Client.w_info w')
                          = lit "Error: " ++ exc_msg e))
        with (s := w) as ([] & w' & E & HQ)
  end.
  - apply settles_bind;
      [apply settles_gui_on_probe, settles_gui_get_size|]. intros size.
    apply settles_bind; [apply settles_lift, of_sum_returns|]. intros _.
    apply settles_bind; [intros s; exact I|]. intros _.
    apply settles_bind; [intros s; exact I|]. intros _.
    apply settles_bind; [apply settles_lift, encode_returns|]. intros req.
    apply settles_bind;
      [apply settles_lift; exact (pack_returns libtext _ _)|].
    intros pkt.
    apply settles_bind;
      [apply settles_gui_on_data, settles_sock_sendall|]. intros _.
    apply settles_bind;
      [apply settles_gui_on_data, settles_client_recv_packet|]. intros _.
    apply settles_bind.
    + intros s.
      pose proof (gui_download_loop_settles
                    (S (inbox_weight (s_in (Client.w_data s)))) size 0 s
                    (Nat.lt_succ_diag_r _)) as H.
      destruct (Client.download_loop libtext _ size 0 s) as [[a|e|] s'];
        [exact I|exact I|exact (H eq_refl)].
    + intros _ s. left. reflexivity.
  - intros e s. eexists. eexists. split; [reflexivity|].
    right. exists e. reflexivity.
  - exists w'. split; [exact E|exact HQ].
Qed.

Lemma settles_cli_on_probe {A} (m : io sock A) :
  settles m whatever -> settles (CLI.on_probe m) whatever.
Proof.
  intros H w. unfold CLI.on_probe. specialize (H (CLI.w_probe w)).
  destruct (m (CLI.w_probe w)) as [[a|e|] s']; exact H.
Qed.

Lemma settles_cli_on_data {A} (m : io sock A) :
  settles m whatever -> settles (CLI.on_data m) whatever.
Proof.
  intros H w. unfold CLI.on_data. specialize (H (CLI.w_data w)).
  destruct (m (CLI.w_data w)) as [[a|e|] s']; exact H.
Qed.

Lemma settles_cli_get_file_size (path : str) :
  settles (CLI.get_file_size libtext path) whatever.
Proof.
  unfold CLI.get_file_size.
  apply settles_try_except; [|intros e; apply settles_ret].
  apply settles_bind; [apply settles_lift, encode_returns|]. intros req.
  apply settles_bind; [apply settles_lift; exact (pack_returns libtext _ _)|].
  intros pkt.
  apply settles_bind; [apply settles_sock_sendall|]. intros _.
  apply settles_bind; [apply settles_cli_recv_packet|]. intros [t data].
  apply settles_bind; [apply settles_sock_close|]. intros _.
  destruct (t =? CLI.TYPE_META); [|apply settles_ret].
  apply settles_bind; [apply settles_lift, decode_returns|]. intros text.
  apply settles_lift, int_returns.
Qed.

Lemma truediv_returns (a b : Q) : truediv a b <> OutOfFuel.
Proof. unfold truediv. destruct (Qeq_bool b 0); discriminate. Qed.

Lemma cli_download_loop_settles (fuel : nat) :
  forall (size pos : Z) (w : CLI.worker),
    (inbox_weight (s_in (CLI.w_data w)) < fuel)%nat ->
    fst (CLI.download_loop libtext fuel size pos w) <> OutOfFuel.
Proof.
  induction fuel as [|fuel IH]; intros size pos w Hf; [lia|].
  cbn [CLI.download_loop].
  destruct (pos <? size); [|discriminate].
  unfold bind at 1, CLI.on_data at 1.
  destruct (CLI.recv_packet libtext (CLI.w_data w)) as [r s1] eqn:E.
  destruct (cli_recv_packet_fuel libtext _ r s1 E) as [Hr Hlt].
  destruct r as [[t data]|e|]; [|discriminate|congruence].
  specialize (Hlt _ eq_refl).
  destruct (negb (t =? CLI.TYPE_CHUNK)); [discriminate|].
  unfold bind at 1, CLI.append_file. cbn [CLI.w_file].
  destruct (CLI.w_file w) as [content|]; [|discriminate].
  unfold CLI.set_file at 1.
  unfold bind at 1.
  destruct (size >? 0).
  - unfold lift at 1, rbind.
    pose proof (truediv_returns (inject_Z (pos + Z.of_nat (List.length data)))
                  (inject_Z size)) as Ht.
    destruct (truediv _ _) as [q|e|]; [|discriminate|congruence].
    unfold bind at 1, CLI.update_entry at 1.
    apply IH. cbn [CLI.w_data]. lia.
  - unfold ret at 1.
    unfold bind at 1, CLI.update_entry at 1.
    apply IH. cbn [CLI.w_data]. lia.
Qed.

(** X24. The worker of the terminal client says how it has ended. Under
    the same condition on its two connections, [_download_thread] returns
    normally and leaves the entry with the status [completed] or with a
    status that starts with [error: ] and goes on with the text of the
    exception. A silent peer on the second connection and CHUNK packets with
    empty payloads without end are not covered here either. *)
Theorem cli_worker_always_settles (remote save : str) (w : CLI.worker) :
  exists w',
    CLI._download_thread libtext disk remote save w = (OK tt, w')
    /\ (CLI.d_status (CLI.w_entry w') = lit "completed"
        \/ exists e,
             CLI.d_status (CLI.w_entry w') = lit "error: " ++ exc_msg e).
Proof.
  unfold CLI._download_thread.
  match goal with
  | |- exists w', try_except ?m ?h w = _ /\ _ =>
      destruct (try_except_returns m h
                  (fun _ w' =>
                     CLI.d_status (CLI.w_entry w') = lit "completed"
                     \/ exists e,
                          CLI.d_status (CLI.w_entry w')
                          = lit "error: " ++ exc_msg e))
        with (s := w) as ([] & w' & E & HQ)
  end.
  - apply settles_bind;
      [apply settles_cli_on_probe, settles_cli_get_file_size|]. intros size.
    apply settles_bind.
    { destruct (size =? 0); [apply settles_raise|apply settles_ret]. }
    intros _.
    apply settles_bind; [intros s; exact I|]. intros _.
    apply settles_bind; [apply settles_lift, of_sum_returns|]. intros _.
    apply settles_bind; [apply settles_lift, encode_returns|]. intros req.
    apply settles_bind;
      [apply settles_lift; exact (pack_returns libtext _ _)|].
    intros pkt.
    apply settles_bind;
      [apply settles_cli_on_data, settles_sock_sendall|]. intros _.
    apply settles_bind;
      [apply settles_cli_on_data, settles_cli_recv_packet|]. intros _.
    apply settles_bind; [intros s; exact I|]. intros _.
    apply settles_bind.
    + intros s.
      pose proof (cli_download_loop_settles
                    (S (inbox_weight (s_in (CLI.w_data s)))) size 0 s
                    (Nat.lt_succ_diag_r _)) as H.
      destruct (CLI.download_loop libtext _ size 0 s) as [[a|e|] s'];
        [exact I|exact I|exact (H eq_refl)].
    + intros _.
      apply settles_bind;
        [apply settles_cli_on_data, settles_sock_close|]. intros _.
      intros s. left. reflexivity.
  - intros e s. eexists. eexists. split; [reflexivity|].
    right. exists e. reflexivity.
  - exists w'. split; [exact E|exact HQ].
Qed.

End ClientSettles.


(* ===================================================================== *)
(** * The current path of the terminal client                              *)
(* ===================================================================== *)

Section CurrentPath.
Import Py.

(** [rstrip] leaves a text whose last character is not to be stripped. *)
Lemma rstrip_keeps (chars s : str) (c : char) :
  char_in c chars = false -> rstrip chars (s ++ [c]) = s ++ [c].
Proof.
  intros Hc. unfold rstrip. rewrite rev_app_distr. cbn [rev app lstrip].
  rewrite Hc. change (c :: rev s) with ([c] ++ rev s).
  rewrite <- (rev_involutive [c]) at 1. rewrite <- rev_app_distr.
  apply rev_involutive.
Qed.

Lemma join_empty_components (n : nat) (l : list str) :
  l <> [] ->
  Py.join [47%N] (repeat [] n ++ l) = repeat 47%N n ++ Py.join [47%N] l.
Proof.
  intros Hl. induction n as [|n IH]; [reflexivity|].
  cbn [repeat app]. destruct (repeat [] n ++ l) as [|x r] eqn:E.
  - destruct n; simpl in E; [exfalso; apply Hl; exact E|discriminate].
  - change (Py.join [47%N] ([] :: x :: r))
      with ([] ++ [47%N] ++ Py.join [47%N] (x :: r)).
    rewrite IH. reflexivity.
Qed.

Lemma join_only_empty_components (n : nat) :
  Py.join [47%N] (repeat [] (S n)) = repeat 47%N n.
Proof.
  induction n as [|n IH]; [reflexivity|].
  change (Py.join [47%N] (repeat [] (S (S n))))
    with ([] ++ [47%N] ++ Py.join [47%N] (repeat [] (S n))).
  rewrite IH. reflexivity.
Qed.

Lemma lstrip_leading_slashes (n : nat) (s : str) :
  lstrip (lit "\/ ") (repeat 47%N n ++ s) = lstrip (lit "\/ ") s.
Proof.
  induction n as [|n IH]; [reflexivity|]. cbn [repeat app lstrip].
  change (char_in 47%N (lit "\/ ")) with true. exact IH.
Qed.

(** X25. [cd ..] adds a slash, which the server does not mind. From a
    current path made of one or more slashes and two or more names joined
    by slashes, [cd ..] leads to the path without its last name but with one
    more slash at its front ([/a/b] gives [//a]); with a single name it leads
    to the slashes alone. The server resolves the path with the added slash
    to the same place as the parent directory itself. *)
Theorem cd_up_adds_a_slash (P : os_path) (k : nat) (comps : list str)
  (name : str) :
  Forall (fun c => ~ In 47%N c) (comps ++ [name]) -> name <> [] ->
  CLI.cd_parent (repeat 47%N (S k) ++ Py.join [47%N] (comps ++ [name]))
  = match comps with
    | [] => repeat 47%N (S k)
    | _ => repeat 47%N (S (S k)) ++ Py.join [47%N] comps
    end
  /\ Server.safe_path P
       (CLI.cd_parent
          (repeat 47%N (S k) ++ Py.join [47%N] (comps ++ [name])))
     = Server.safe_path P (Py.join [47%N] comps).
Proof.
  intros Hf Hname.
  assert (E : CLI.cd_parent
                (repeat 47%N (S k) ++ Py.join [47%N] (comps ++ [name]))
              = match comps with
                | [] => repeat 47%N (S k)
                | _ => repeat 47%N (S (S k)) ++ Py.join [47%N] comps
                end).
  { unfold CLI.cd_parent.
    destruct (join_snoc [47%N] comps name) as (pre & Hpre).
    destruct (exists_last Hname) as (nm & c & ->).
    assert (Hc : char_in c (lit "/") = false).
    { apply Forall_app in Hf. destruct Hf as [_ Hf].
      inversion Hf as [|x l Hx _]; subst.
      destruct (N.eqb_spec c 47%N) as [->|Hn].
      - exfalso. apply Hx. apply in_or_app. right. left. reflexivity.
      - cbn [char_in existsb lit map list_ascii_of_string].
        change (N_of_ascii "/") with 47%N.
        replace (N.eqb c 47%N) with false
          by (symmetry; apply N.eqb_neq; exact Hn).
        reflexivity. }
    assert (Hr : forall J : str,
               J = pre ++ nm ++ [c] ->
               rstrip (lit "/") (repeat 47%N (S k) ++ J)
               = repeat 47%N (S k) ++ J).
    { intros J ->. rewrite !app_assoc. apply rstrip_keeps. exact Hc. }
    match goal with
    | |- context [split 47%N ?t] =>
        assert (Hparts : split 47%N t
                         = (repeat [] (S k) ++ comps) ++ [nm ++ [c]])
    end.
    { rewrite (Hr _ Hpre). rewrite <- app_assoc.
      refine (eq_trans (split_leading_seps (S k) _) _). f_equal.
      apply split_join; [destruct comps; discriminate|exact Hf]. }
    cbv zeta. rewrite Hparts.
    match goal with
    | |- context [(1 <? ?n)%nat] =>
        replace (1 <? n)%nat with true
          by (symmetry; apply Nat.ltb_lt; rewrite !length_app, repeat_length;
              simpl; lia)
    end.
    rewrite removelast_last.
    destruct comps as [|x comps].
    - rewrite app_nil_r, join_only_empty_components. reflexivity.
    - rewrite join_empty_components by discriminate. reflexivity. }
  split; [exact E|]. rewrite E. unfold Server.safe_path. cbv zeta.
  destruct comps as [|x comps].
  - rewrite <- (app_nil_r (repeat 47%N (S k))), lstrip_leading_slashes.
    reflexivity.
  - rewrite lstrip_leading_slashes. reflexivity.
Qed.

End CurrentPath.

Lemma cd_up_adds_a_slash_witness :
  CLI.cd_parent
    (repeat 47%N 1 ++ Py.join [47%N] ([Py.lit "pub"] ++ [Py.lit "docs"]))
  = repeat 47%N 2 ++ Py.join [47%N] [Py.lit "pub"]
  /\ Server.safe_path Scenario.P
       (CLI.cd_parent
          (repeat 47%N 1 ++ Py.join [47%N] ([Py.lit "pub"] ++ [Py.lit "docs"])))
     = Server.safe_path Scenario.P (Py.join [47%N] [Py.lit "pub"]).
Proof.
  apply (cd_up_adds_a_slash Scenario.P 0 [Py.lit "pub"] (Py.lit "docs")).
  - repeat constructor;
      intros H; repeat (destruct H as [H|H]; [discriminate|]); exact H.
  - discriminate.
Defined.

(* ===================================================================== *)
(** * Chunks that carry nothing                                            *)
(* ===================================================================== *)

Section EmptyChunks.
Import Py.

Variable libtext : library.

Lemma gui_empty_chunks (k : nat) :
  forall (fuel : nat) (size pos : Z) (empty more content : bytes)
         (w : Client.worker) (rest : inbox),
    pos < size ->
    Client.pack libtext Client.TYPE_CHUNK [] = OK empty ->
    Client.w_file w = Some content ->
    carries (s_in (Client.w_data w)) (List.concat (repeat empty k) ++ more)
      rest ->
    exists w',
      Client.download_loop libtext (k + fuel) size pos w
      = Client.download_loop libtext fuel size pos w'
      /\ Client.w_file w' = Some content
      /\ carries (s_in (Client.w_data w')) more rest.
Proof.
  induction k as [|k IH];
    intros fuel size pos empty more content w rest Hlt Hp Hf Hc.
  - exists w. split; [reflexivity|]. split; assumption.
  - cbn [repeat List.concat] in Hc. rewrite <- app_assoc in Hc.
    change (S k + fuel)%nat with (S (k + fuel)). cbn [Client.download_loop].
    replace (pos <? size) with true by (symmetry; apply Z.ltb_lt; exact Hlt).
    destruct (client_recv_packed libtext Client.TYPE_CHUNK [] empty _
                (Client.w_data w) rest Hp ltac:(discriminate) Hc)
      as (i1 & Hr & Hc1).
    unfold bind at 1, Client.on_data at 1. rewrite Hr.
    change (negb (Client.TYPE_CHUNK =? Client.TYPE_CHUNK)) with false.
    cbv iota.
    unfold bind at 1, Client.write_file. cbn [Client.w_file]. rewrite Hf.
    cbn [write_at]. unfold Client.set_file at 1.
    unfold bind at 1, Client.update_info at 1.
    cbn [Client.w_probe Client.w_data Client.w_file Client.w_info
         List.length].
    change (Z.of_nat 0) with 0. rewrite Z.add_0_r.
    match goal with
    | |- context [Client.download_loop libtext (k + fuel) size pos ?w1] =>
        destruct (IH fuel size pos empty more content w1 rest Hlt Hp eq_refl)
          as (w' & Hl & Hf' & Hc')
    end.
    + cbn [Client.w_data s_in with_in]. exact Hc1.
    + exists w'. split; [exact Hl|]. split; assumption.
Qed.

Lemma cli_empty_chunks (k : nat) :
  forall (fuel : nat) (size pos : Z) (empty more content : bytes)
         (w : CLI.worker) (rest : inbox),
    pos < size ->
    CLI.pack libtext CLI.TYPE_CHUNK [] = OK empty ->
    CLI.w_file w = Some content ->
    carries (s_in (CLI.w_data w)) (List.concat (repeat empty k) ++ more)
      rest ->
    exists w',
      CLI.download_loop libtext (k + fuel) size pos w
      = CLI.download_loop libtext fuel size pos w'
      /\ CLI.w_file w' = Some content
      /\ carries (s_in (CLI.w_data w')) more rest.
Proof.
  induction k as [|k IH];
    intros fuel size pos empty more content w rest Hlt Hp Hf Hc.
  - exists w. split; [reflexivity|]. split; assumption.
  - cbn [repeat List.concat] in Hc. rewrite <- app_assoc in Hc.
    change (S k + fuel)%nat with (S (k + fuel)). cbn [CLI.download_loop].
    replace (pos <? size) with true by (symmetry; apply Z.ltb_lt; exact Hlt).
    destruct (cli_recv_packed libtext CLI.TYPE_CHUNK [] empty _
                (CLI.w_data w) rest Hp ltac:(discriminate) Hc)
      as (i1 & Hr & Hc1).
    unfold bind at 1, CLI.on_data at 1. rewrite Hr.
    change (negb (CLI.TYPE_CHUNK =? CLI.TYPE_CHUNK)) with false.
    cbv iota.
    unfold bind at 1, CLI.append_file. cbn [CLI.w_file]. rewrite Hf.
    rewrite app_nil_r. unfold CLI.set_file at 1.
    cbn [List.length]. change (Z.of_nat 0) with 0. rewrite Z.add_0_r.
    assert (Hpc : exists pc,
               (if size >? 0
                then lift (rbind (truediv (inject_Z pos) (inject_Z size))
                                 (fun q => OK (q * 100)%Q))
                else ret 0%Q)
               = (ret pc : io CLI.worker Q)).
    { destruct (Z.gtb_spec size 0) as [Hpos|Hle].
      - rewrite truediv_nonzero by (unfold Qeq; simpl; lia).
        eexists. reflexivity.
      - eexists. reflexivity. }
    destruct Hpc as [pc Hpc]. rewrite Hpc.
    unfold bind at 1, ret at 1.
    unfold bind at 1, CLI.update_entry at 1.
    cbn [CLI.w_probe CLI.w_data CLI.w_file CLI.w_entry].
    match goal with
    | |- context [CLI.download_loop libtext (k + fuel) size pos ?w1] =>
        destruct (IH fuel size pos empty more content w1 rest Hlt Hp eq_refl)
          as (w' & Hl & Hf' & Hc')
    end.
    + cbn [CLI.w_data s_in with_in]. exact Hc1.
    + exists w'. split; [exact Hl|]. split; assumption.
Qed.

(** X27. A CHUNK packet with an empty payload is taken like any other
    and changes nothing: while the position is below the size, the loop of
    either worker that has received [k] such packets, for whatever [k], goes
    on exactly as a loop at the same position with the same file that has
    yet to receive what follows them. Neither worker counts such packets or
    gives up on them, so the download does not advance for as long as the
    peer sends them. *)
Theorem empty_chunks_make_no_progress (k fuel : nat) (size pos : Z)
  (empty more content : bytes) (rest : inbox) :
  pos < size ->
  Client.pack libtext Client.TYPE_CHUNK [] = OK empty ->
  (forall w : Client.worker,
     Client.w_file w = Some content ->
     carries (s_in (Client.w_data w)) (List.concat (repeat empty k) ++ more)
       rest ->
     exists w',
       Client.download_loop libtext (k + fuel) size pos w
       = Client.download_loop libtext fuel size pos w'
       /\ Client.w_file w' = Some content
       /\ carries (s_in (Client.w_data w')) more rest)
  /\ (forall w : CLI.worker,
        CLI.w_file w = Some content ->
        carries (s_in (CLI.w_data w)) (List.concat (repeat empty k) ++ more)
          rest ->
        exists w',
          CLI.download_loop libtext (k + fuel) size pos w
          = CLI.download_loop libtext fuel size pos w'
          /\ CLI.w_file w' = Some content
          /\ carries (s_in (CLI.w_data w')) more rest).
Proof.
  intros Hlt Hp. split.
  - intros w Hf Hc.
    exact (gui_empty_chunks k fuel size pos empty more content w rest
             Hlt Hp Hf Hc).
  - intros w Hf Hc.
    exact (cli_empty_chunks k fuel size pos empty more content w rest
             Hlt Hp Hf Hc).
Qed.

End EmptyChunks.

(** Three empty chunks at the start of a download of ten bytes. *)
Lemma empty_chunks_make_no_progress_witness :
  let empty := Scenario.request 5 [] in
  let content := repeat x00 10 in
  (forall w : Client.worker,
     Client.w_file w = Some content ->
     carries (Py.s_in (Client.w_data w))
       (List.concat (repeat empty 3) ++ []) [] ->
     exists w',
       Client.download_loop Scenario.libtext (3 + 1) 10 0 w
       = Client.download_loop Scenario.libtext 1 10 0 w'
       /\ Client.w_file w' = Some content
       /\ carries (Py.s_in (Client.w_data w')) [] [])
  /\ (forall w : CLI.worker,
        CLI.w_file w = Some content ->
        carries (Py.s_in (CLI.w_data w))
          (List.concat (repeat empty 3) ++ []) [] ->
        exists w',
          CLI.download_loop Scenario.libtext (3 + 1) 10 0 w
          = CLI.download_loop Scenario.libtext 1 10 0 w'
          /\ CLI.w_file w' = Some content
          /\ carries (Py.s_in (CLI.w_data w')) [] []).
Proof.
  intros empty content.
  apply (empty_chunks_make_no_progress Scenario.libtext 3 1 10 0 empty []
           content []).
  - lia.
  - reflexivity.
Defined.
